(** * bolt.gives: the chat run orchestrator, the interactive step runner and
      the credential helpers, embedded from the TypeScript sources.

    Layout of the development:
    - [JsString]:     the string primitives of the host language that the
                      sources call ([trim], [toLowerCase], [includes], the
                      four regular expressions of the credential helpers and
                      [LONG_THINK_MODEL_RE]);
    - [Credentials]:  app/lib/runtime/credentials.ts;
    - [StepRunner]:   app/lib/runtime/interactive-step-runner.ts;
    - [ChatError]:    the [catch] block of [chatAction] in api.chat.ts, with
                      the [Response] constructor it calls;
    - [StreamTimeout]: the stream timeout computation of [chatAction];
    - [Chat]:         the [execute] body of [chatAction]: commentary,
                      heartbeat, completion events and the [onFinish]
                      continuation logic;
    - [StepRunnerEvents], [ChatInvariants]: the predicates in which the
                      invariants of the runner and of a chat run are stated;
    - [Cookies]:      app/lib/api/cookies.ts and the [parseCookies] of
                      api.chat.ts;
    - [ConfiguredProviders]: the route loader that reports which local
                      providers are configured;
    - [ChatStream]:   [detectManualIntervention], and the [onError] handler
                      and the [TransformStream] of the chat response;
    - [StreamChunk]:  [normalizeStreamChunk] of the step runner, its five
                      regular expressions as matchers;
    - [ChatAction]:   [chatAction] as a whole: the statements before its
                      [try] block, the [try] block and the [catch] block.
    Part I holds these embeddings; Part II holds, module by module
    ([CredentialsFacts], [StepRunnerFacts], [ChatErrorFacts],
    [StreamTimeoutFacts], [ChatFacts], then [CredentialsMoreFacts],
    [StepRunnerMoreFacts], [ChatMoreFacts], [CookiesFacts],
    [ConfiguredProvidersFacts], [ChatStreamFacts], [StreamChunkFacts]), what
    is proved about them.

    Strings are [String.string]; a character stands for one UTF-16 code unit
    below 256, which is the part of the host's strings on which [trim],
    [toLowerCase] and the regular expressions are modelled here. *)

From Stdlib Require Import Strings.String Strings.Ascii List Bool Arith ZArith
  QArith Lia Sorting.Sorted Numbers.DecimalString.
Import ListNotations.

Close Scope Q_scope.
Local Open Scope list_scope.
Local Open Scope string_scope.
Local Open Scope nat_scope.

(* ********************************************************************* *)
(** * Part I: the embedding *)
(* ********************************************************************* *)

(* ===================================================================== *)
(** ** Host-language values and strings *)
(* ===================================================================== *)

(** A value of static type [unknown]: only the string case carries data the
    credential helpers look at. *)
Inductive JsValue : Type :=
  | JsUndefined
  | JsNull
  | JsBoolean (b : bool)
  | JsNumeric (z : Z)
  | JsString (s : string).

Module JsString.

Definition code (c : ascii) : nat := nat_of_ascii c.

  (** WhiteSpace and LineTerminator code units below 256: TAB, LF, VT, FF,
      CR, SPACE and NO-BREAK SPACE.  The same set is the regex class [\s]. *)
Definition isWhiteSpace (c : ascii) : bool :=
    let n := code c in
    ((9 <=? n) && (n <=? 13)) || (n =? 32) || (n =? 160).

Fixpoint trimStart (s : string) : string :=
    match s with
    | String c r => if isWhiteSpace c then trimStart r else s
    | EmptyString => EmptyString
    end.

Fixpoint trimEnd (s : string) : string :=
    match s with
    | String c r =>
        match trimEnd r with
        | EmptyString => if isWhiteSpace c then EmptyString else String c EmptyString
        | r' => String c r'
        end
    | EmptyString => EmptyString
    end.

  (** [String.prototype.trim] *)
Definition trim (s : string) : string := trimEnd (trimStart s).

  (** [toLowerCase] on one code unit below 256: A-Z and the Latin-1 capitals
      U+00C0..U+00DE (U+00D7 excepted) move up by 32. *)
Definition toLowerChar (c : ascii) : ascii :=
    let n := code c in
    if ((65 <=? n) && (n <=? 90))
       || ((192 <=? n) && (n <=? 222) && negb (n =? 215))
    then ascii_of_nat (n + 32) else c.

Fixpoint toLowerCase (s : string) : string :=
    match s with
    | String c r => String (toLowerChar c) (toLowerCase r)
    | EmptyString => EmptyString
    end.

  (** [s.startsWith(p)] *)
Fixpoint startsWith (p s : string) : bool :=
    match p, s with
    | EmptyString, _ => true
    | String a p', String b s' => Ascii.eqb a b && startsWith p' s'
    | String _ _, EmptyString => false
    end.

  (** [s.includes(sub)] *)
Fixpoint includes (sub s : string) : bool :=
    startsWith sub s ||
    match s with
    | String _ r => includes sub r
    | EmptyString => false
    end.

  (** Canonicalisation of the [i] flag (no [u] flag) against an ASCII
      pattern character: only a-z fold, and a code unit of 128 or more never
      folds onto an ASCII one. *)
Definition canonicalize (c : ascii) : ascii :=
    let n := code c in
    if (97 <=? n) && (n <=? 122) then ascii_of_nat (n - 32) else c.

Definition charMatchesCi (lit c : ascii) : bool :=
    Ascii.eqb (canonicalize lit) (canonicalize c).

  (** Matching the literal [lit] case-insensitively at the head of [s]:
      the rest of [s] after the match, if any. *)
Fixpoint stripPrefixCi (lit s : string) : option string :=
    match lit, s with
    | EmptyString, _ => Some s
    | String a lit', String b s' =>
        if charMatchesCi a b then stripPrefixCi lit' s' else None
    | String _ _, EmptyString => None
    end.

  (** Two strings equal up to the case folding of the [i] flag. *)
Fixpoint eqCi (lit s : string) : bool :=
    match lit, s with
    | EmptyString, EmptyString => true
    | String a lit', String b s' => charMatchesCi a b && eqCi lit' s'
    | _, _ => false
    end.

  (** An unanchored regular expression tries every start position. *)
Fixpoint anyPosition (matchHere : string -> bool) (s : string) : bool :=
    matchHere s ||
    match s with
    | String _ r => anyPosition matchHere r
    | EmptyString => false
    end.

Fixpoint allChars (p : ascii -> bool) (s : string) : bool :=
    match s with
    | String c r => p c && allChars p r
    | EmptyString => true
    end.

Fixpoint anyOf (l : list string) (p : string -> bool) : bool :=
    match l with
    | x :: r => p x || anyOf r p
    | [] => false
    end.

End JsString.

(* ===================================================================== *)
(** ** app/lib/runtime/credentials.ts *)
(* ===================================================================== *)

Module Credentials.
Import JsString.

Definition PLACEHOLDER_SNIPPETS : list string :=
    ["your_"; "_here"; "placeholder"; "replace_me"; "changeme"].

  (** The class [[\s_-]] of [ROTATE_REQUIRED_REGEX]. *)
Definition isRotateSeparator (c : ascii) : bool :=
    isWhiteSpace c || Ascii.eqb c "_" || Ascii.eqb c "-".

Fixpoint skipRotateSeparators (s : string) : string :=
    match s with
    | String c r => if isRotateSeparator c then skipRotateSeparators r else s
    | EmptyString => EmptyString
    end.

  (** [/rotate[\s_-]*required/i] tried at the head of [s].  The star is
      greedy, and no separator can start [required], so the greedy match is
      the only one. *)
Definition rotateRequiredHere (s : string) : bool :=
    match stripPrefixCi "rotate" s with
    | Some r =>
        match stripPrefixCi "required" (skipRotateSeparators r) with
        | Some _ => true
        | None => false
        end
    | None => false
    end.

  (** [ROTATE_REQUIRED_REGEX.test(s)] *)
Definition ROTATE_REQUIRED_REGEX_test (s : string) : bool :=
    anyPosition rotateRequiredHere s.

  (** The tail of [/^<[^>]+>$/] after the opening bracket: one or more
      characters other than [>], then [>], then the end of the input. *)
Fixpoint bracketBody (seen : bool) (s : string) : bool :=
    match s with
    | String c r =>
        if Ascii.eqb c ">" then seen && String.eqb r EmptyString
        else bracketBody true r
    | EmptyString => false
    end.

Definition isBracketPlaceholder (value : string) : bool :=
    match trim value with
    | String c r => Ascii.eqb c "<" && bracketBody false r
    | EmptyString => false
    end.

Definition isPlaceholderCredential (rawValue : string) : bool :=
    let normalized := toLowerCase (trim rawValue) in
    if String.length normalized =? 0 then true
    else if ROTATE_REQUIRED_REGEX_test normalized then true
    else if isBracketPlaceholder rawValue then true
    else anyOf PLACEHOLDER_SNIPPETS (fun snippet => includes snippet normalized).

Definition normalizeCredential (rawValue : JsValue) : option string :=
    match rawValue with
    | JsString raw =>
        let trimmed := trim raw in
        if (String.length trimmed =? 0) || isPlaceholderCredential trimmed
        then None
        else Some trimmed
    | _ => None
    end.

  (** [/^https?:\/\//i.test(s)] *)
Definition httpSchemeTest (s : string) : bool :=
    match stripPrefixCi "http" s with
    | Some r =>
        match stripPrefixCi "s://" r with
        | Some _ => true
        | None =>
            match stripPrefixCi "://" r with
            | Some _ => true
            | None => false
            end
        end
    | None => false
    end.

Definition normalizeHttpUrl (rawValue : JsValue) : option string :=
    match rawValue with
    | JsString raw =>
        let trimmed := trim raw in
        if (String.length trimmed =? 0) || isPlaceholderCredential trimmed
        then None
        else if negb (httpSchemeTest trimmed) then None
        else Some trimmed
    | _ => None
    end.

  (** *** The specification's reading of the helpers

      The declarative description of a placeholder credential and of an
      http(s) URL, written with existential decompositions of the string
      instead of the matchers above. *)

Definition Contains (s sub : string) : Prop :=
    exists pre post, s = (pre ++ sub ++ post)%string.

Definition MatchesRotateRequired (s : string) : Prop :=
    exists pre w1 sep w2 post,
      s = (pre ++ w1 ++ sep ++ w2 ++ post)%string /\
      eqCi "rotate" w1 = true /\
      allChars isRotateSeparator sep = true /\
      eqCi "required" w2 = true.

Definition BracketWrapped (s : string) : Prop :=
    exists mid,
      trim s = ("<" ++ mid ++ ">")%string /\
      mid <> EmptyString /\
      allChars (fun c => negb (Ascii.eqb c ">")) mid = true.

Definition PlaceholderCredential (raw : string) : Prop :=
    let normalized := toLowerCase (trim raw) in
    normalized = EmptyString \/
    MatchesRotateRequired normalized \/
    BracketWrapped raw \/
    exists snippet, In snippet PLACEHOLDER_SNIPPETS /\ Contains normalized snippet.

Definition BeginsWithHttpScheme (s : string) : Prop :=
    exists scheme rest,
      s = (scheme ++ rest)%string /\
      (eqCi "http://" scheme = true \/ eqCi "https://" scheme = true).

  (** [normalizeHttpUrl] accepts [v] with result [t]. *)
Definition UrlAccepted (v : JsValue) (t : string) : Prop :=
    exists s,
      v = JsString s /\ t = trim s /\ t <> EmptyString /\
      ~ PlaceholderCredential t /\ BeginsWithHttpScheme t.

End Credentials.

(* ===================================================================== *)
(** ** app/lib/runtime/interactive-step-runner.ts *)
(* ===================================================================== *)

Definition string_of_nat (n : nat) : string :=
  NilZero.string_of_uint (Nat.to_uint n).

Definition string_of_Z (z : Z) : string :=
  NilZero.string_of_int (Z.to_int z).

(** The double quote and the line feed, for the text of the prompts. *)
Definition dq : string := String (ascii_of_nat 34) EmptyString.
Definition nl : string := String (ascii_of_nat 10) EmptyString.

Module StepRunner.
Import JsString.

Record InteractiveStep : Type := {
    description : string;
    command : list string
  }.

Inductive InteractiveStepRunnerEventType : Type :=
    | step_start | stdout_t | stderr_t | step_end | error_t | complete_t | telemetry.

Record InteractiveStepRunnerEvent : Type := {
    type : InteractiveStepRunnerEventType;
    timestamp : string;
    stepIndex : option nat;
    ev_description : option string;
    ev_command : option (list string);
    output : option string;
    ev_exitCode : option Z;
    ev_error : option string;
    totalSteps : option nat
  }.

Record StepExecutionResult : Type := {
    exitCode : Z;
    stdout : option string;
    stderr : option string
  }.

Inductive RunStatus : Type := status_complete | status_error.

Record InteractiveStepRunResult : Type := {
    status : RunStatus;
    failedStepIndex : option nat;
    res_exitCode : option Z;
    res_error : option string
  }.

  (** What one awaited [executeStep] call does to the runner while it is
      pending: it calls [onStdout]/[onStderr], and the flush timer may fire
      in between. *)
Inductive ExecutorCallback : Type :=
    | onStdout (chunk : string)
    | onStderr (chunk : string)
    | flushTimerFires.

  (** A thrown value: an [Error] with its message, or anything else with its
      [String(...)] rendering. *)
Inductive Thrown : Type :=
    | ThrownError (message : string)
    | ThrownOther (rendered : string).

Inductive ExecutorOutcome : Type :=
    | Resolved (result : StepExecutionResult)
    | Rejected (error : Thrown).

Definition WS_OPEN : Z := 1.
Definition STREAM_FLUSH_MS : nat := 300.
Definition MAX_STREAM_BUFFER_CHARS : nat := 2400.

  (** [s.slice(-n)]: the last [n] characters. *)
Definition sliceLast (n : nat) (s : string) : string :=
    substring (String.length s - n) n s.

  (** The private state of an [InteractiveStepRunner], with the events it
      has dispatched to its listeners, the events it has sent on the socket
      and the step indices it has handed to the executor. *)
Record Runner : Type := {
    streamBuffer : list (string * InteractiveStepRunnerEvent);
    streamFlushTimer : bool;
    dispatched : list InteractiveStepRunnerEvent;
    sent : list InteractiveStepRunnerEvent;
    executed : list nat;
    clockReads : nat
  }.

Definition newRunner : Runner :=
    {| streamBuffer := []; streamFlushTimer := false; dispatched := [];
       sent := []; executed := []; clockReads := 0 |}.

  (** [Map.prototype.set]: an existing key keeps its place. *)
Fixpoint mapSet {V : Type} (k : string) (v : V) (m : list (string * V))
    : list (string * V) :=
    match m with
    | (k', v') :: r =>
        if String.eqb k k' then (k, v) :: r else (k', v') :: mapSet k v r
    | [] => [(k, v)]
    end.

Fixpoint mapGet {V : Type} (k : string) (m : list (string * V)) : option V :=
    match m with
    | (k', v') :: r => if String.eqb k k' then Some v' else mapGet k r
    | [] => None
    end.

Section WithEnvironment.
    (** The executor handed to the constructor, with a state of its own. *)
Variable X : Type.
Variable executeStep :
      X -> InteractiveStep -> list ExecutorCallback * ExecutorOutcome * X.
    (** The optional socket.  [#emit] reads [this.#socket?.readyState] anew
        for every event, and the socket may open or close at any time: the
        socket is given by the [readyState] it shows at each call of
        [#emit], the calls numbered from the first event the runner
        dispatches.  Its [send] is taken not to throw. *)
Variable socket : option (nat -> Z).
    (** The successive readings of [new Date().toISOString()]. *)
Variable isoTime : nat -> string.
    (** The regular-expression clean-up of a chunk ([normalizeStreamChunk]);
        nothing below depends on the text it returns. *)
Variable normalizeStreamChunk : string -> string.

Definition readClock (r : Runner) : string * Runner :=
      (isoTime (clockReads r),
       {| streamBuffer := streamBuffer r; streamFlushTimer := streamFlushTimer r;
          dispatched := dispatched r; sent := sent r; executed := executed r;
          clockReads := S (clockReads r) |}).

Definition streamBufferKey (stepIndex : nat) (t : InteractiveStepRunnerEventType)
      : string :=
      (string_of_nat stepIndex ++ ":" ++
       match t with stderr_t => "stderr" | _ => "stdout" end)%string.

Definition emit (event : InteractiveStepRunnerEvent) (r : Runner) : Runner :=
      {| streamBuffer := streamBuffer r; streamFlushTimer := streamFlushTimer r;
         dispatched := dispatched r ++ [event];
         sent := match socket with
                 | Some readyState =>
                     if Z.eqb (readyState (List.length (dispatched r))) WS_OPEN
                     then sent r ++ [event] else sent r
                 | None => sent r
                 end;
         executed := executed r; clockReads := clockReads r |}.

Definition scheduleStreamFlush (r : Runner) : Runner :=
      if streamFlushTimer r then r
      else {| streamBuffer := streamBuffer r; streamFlushTimer := true;
              dispatched := dispatched r; sent := sent r; executed := executed r;
              clockReads := clockReads r |}.

Definition bufferStreamChunk (t : InteractiveStepRunnerEventType)
        (stepIndex : nat) (description : string) (output : string) (r : Runner)
      : Runner :=
      let normalizedChunk := normalizeStreamChunk output in
      if String.eqb (trim normalizedChunk) EmptyString then r
      else
        let key := streamBufferKey stepIndex t in
        let existing :=
          match mapGet key (streamBuffer r) with
          | Some ev => match StepRunner.output ev with Some o => o | None => EmptyString end
          | None => EmptyString
          end in
        let nextOutput :=
          sliceLast MAX_STREAM_BUFFER_CHARS (existing ++ normalizedChunk)%string in
        let '(now, r) := readClock r in
        let ev := {| type := t; timestamp := now; stepIndex := Some stepIndex;
                     ev_description := Some description; ev_command := None;
                     output := Some nextOutput; ev_exitCode := None;
                     ev_error := None; totalSteps := None |} in
        scheduleStreamFlush
          {| streamBuffer := mapSet key ev (streamBuffer r);
             streamFlushTimer := streamFlushTimer r;
             dispatched := dispatched r; sent := sent r; executed := executed r;
             clockReads := clockReads r |}.

Definition flushStreamBuffer (r : Runner) : Runner :=
      let r := {| streamBuffer := streamBuffer r; streamFlushTimer := false;
                  dispatched := dispatched r; sent := sent r;
                  executed := executed r; clockReads := clockReads r |} in
      match streamBuffer r with
      | [] => r
      | buffered =>
          let r := fold_left (fun acc kv => emit (snd kv) acc) buffered r in
          {| streamBuffer := []; streamFlushTimer := streamFlushTimer r;
             dispatched := dispatched r; sent := sent r; executed := executed r;
             clockReads := clockReads r |}
      end.

Definition runCallback (index : nat) (step : InteractiveStep)
        (cb : ExecutorCallback) (r : Runner) : Runner :=
      match cb with
      | onStdout chunk => bufferStreamChunk stdout_t index (description step) chunk r
      | onStderr chunk => bufferStreamChunk stderr_t index (description step) chunk r
      | flushTimerFires => if streamFlushTimer r then flushStreamBuffer r else r
      end.

Definition noteExecution (index : nat) (r : Runner) : Runner :=
      {| streamBuffer := streamBuffer r; streamFlushTimer := streamFlushTimer r;
         dispatched := dispatched r; sent := sent r;
         executed := executed r ++ [index]; clockReads := clockReads r |}.

    (** [a || b] on optional strings: the empty string is falsy. *)
Definition orElse (a : option string) (b : string) : string :=
      match a with
      | Some EmptyString | None => b
      | Some v => v
      end.

    (** The body of the [for] loop of [run], from [index] on. *)
Fixpoint runFrom (index : nat) (steps : list InteractiveStep)
        (total : nat) (r : Runner) (x : X)
      : InteractiveStepRunResult * Runner * X :=
      match steps with
      | [] =>
          let r := flushStreamBuffer r in
          let '(now, r) := readClock r in
          let r := emit {| type := complete_t; timestamp := now; stepIndex := None;
                           ev_description := None; ev_command := None;
                           output := None; ev_exitCode := None; ev_error := None;
                           totalSteps := Some total |} r in
          ({| status := status_complete; failedStepIndex := None;
              res_exitCode := None; res_error := None |}, r, x)
      | step :: rest =>
          let '(now, r) := readClock r in
          let r := emit {| type := step_start; timestamp := now;
                           stepIndex := Some index;
                           ev_description := Some (description step);
                           ev_command := Some (command step);
                           output := None; ev_exitCode := None; ev_error := None;
                           totalSteps := None |} r in
          let '(callbacks, outcome, x) := executeStep x step in
          let r := noteExecution index r in
          let r := fold_left (fun acc cb => runCallback index step cb acc) callbacks r in
          match outcome with
          | Resolved result =>
              let r := flushStreamBuffer r in
              let '(now, r) := readClock r in
              let r := emit {| type := step_end; timestamp := now;
                               stepIndex := Some index;
                               ev_description := Some (description step);
                               ev_command := None;
                               output := stdout result;
                               ev_exitCode := Some (exitCode result);
                               ev_error := None; totalSteps := None |} r in
              if negb (Z.eqb (exitCode result) 0) then
                let errorMessage :=
                  orElse (stderr result)
                    (orElse (stdout result)
                       ("Step failed with exit code " ++ string_of_Z (exitCode result))%string) in
                let '(now, r) := readClock r in
                let r := emit {| type := error_t; timestamp := now;
                                 stepIndex := Some index;
                                 ev_description := Some (description step);
                                 ev_command := None; output := None;
                                 ev_exitCode := Some (exitCode result);
                                 ev_error := Some errorMessage;
                                 totalSteps := None |} r in
                ({| status := status_error; failedStepIndex := Some index;
                    res_exitCode := Some (exitCode result);
                    res_error := Some errorMessage |}, r, x)
              else runFrom (S index) rest total r x
          | Rejected error =>
              let r := flushStreamBuffer r in
              let errorMessage :=
                match error with
                | ThrownError message => message
                | ThrownOther rendered => rendered
                end in
              let '(now, r) := readClock r in
              let r := emit {| type := error_t; timestamp := now;
                               stepIndex := Some index;
                               ev_description := Some (description step);
                               ev_command := None; output := None;
                               ev_exitCode := None;
                               ev_error := Some errorMessage;
                               totalSteps := None |} r in
              ({| status := status_error; failedStepIndex := Some index;
                  res_exitCode := None; res_error := Some errorMessage |}, r, x)
          end
      end.

Definition run (steps : list InteractiveStep) (r : Runner) (x : X)
      : InteractiveStepRunResult * Runner * X :=
      runFrom 0 steps (List.length steps) r x.

    (** A step fails when its executor throws or resolves with a non-zero
        exit code. *)
Definition failed (o : ExecutorOutcome) : bool :=
      match o with
      | Resolved result => negb (Z.eqb (exitCode result) 0)
      | Rejected _ => true
      end.

    (** What the executor would answer on each step in turn, were it called
        on all of them. *)
Fixpoint outcomes (steps : list InteractiveStep) (x : X) : list ExecutorOutcome :=
      match steps with
      | [] => []
      | step :: rest =>
          let '(_, outcome, x') := executeStep x step in
          outcome :: outcomes rest x'
      end.

    (** Index of the first failing outcome of a list, if there is one. *)
Fixpoint firstFailure (os : list ExecutorOutcome) : option nat :=
      match os with
      | [] => None
      | o :: rest => if failed o then Some 0 else option_map S (firstFailure rest)
      end.

Definition lastEventType (r : Runner) : option InteractiveStepRunnerEventType :=
      option_map type (List.last (map Some (dispatched r)) None).

Definition lastEventStep (r : Runner) : option nat :=
      match List.last (map Some (dispatched r)) None with
      | Some ev => stepIndex ev
      | None => None
      end.

End WithEnvironment.

(** The executors and steps of interactive-step-runner.spec.ts. *)
Definition twoSteps : list InteractiveStep :=
  [ {| description := "first step"; command := ["echo"; "first"] |};
    {| description := "second step"; command := ["echo"; "second"] |} ].

Definition failingSteps : list InteractiveStep :=
  [ {| description := "fails"; command := ["false"] |};
    {| description := "should-not-run"; command := ["echo"; "skip"] |} ].

(** The executor state of the fixtures counts the calls. *)
Definition echoingExecutor (calls : nat) (step : InteractiveStep)
  : list ExecutorCallback * ExecutorOutcome * nat :=
  ([ onStdout ("stdout:" ++ description step)%string;
     onStderr ("stderr:" ++ description step)%string ],
   Resolved {| exitCode := 0; stdout := Some "ok"; stderr := Some "" |},
   S calls).

Definition failingExecutor (calls : nat) (step : InteractiveStep)
  : list ExecutorCallback * ExecutorOutcome * nat :=
  ([], Resolved {| exitCode := 17; stdout := Some "failed"; stderr := Some "failed" |},
   S calls).

Definition throwingExecutor (calls : nat) (step : InteractiveStep)
  : list ExecutorCallback * ExecutorOutcome * nat :=
  ([], Rejected (ThrownError "boom"), S calls).

Definition fixedClock (n : nat) : string := "1970-01-01T00:00:00.000Z".

End StepRunner.

(* ===================================================================== *)
(** ** api.chat.ts: the [catch] block of [chatAction] *)
(* ===================================================================== *)

Module ChatError.
Import JsString.

(** The exceptions an evaluation of [chatAction] can end with; the last
    one stands for whatever a function that is not among the sources
    throws. *)
Inductive JsException : Type :=
  | SyntaxError | TypeError | RangeError | URIError | CollaboratorError.

(** How an evaluation ends: with a value or with a thrown exception. *)
Inductive Completion (A : Type) : Type :=
  | Returns (value : A)
  | Throws (exception : JsException).

Arguments Returns {A} value.
Arguments Throws {A} exception.

(** The fields of the caught error that the handler reads: [message] and
    [provider] are strings or absent, [statusCode] is an integral number or
    absent. *)
Record CaughtError : Type := {
  message : option string;
  statusCode : option Z;
  isRetryable : JsValue;
  provider : option string
}.

(** What the [catch] clause binds: [null] or [undefined], or a value whose
    properties can be read. *)
Inductive Caught : Type :=
  | CaughtNullish
  | CaughtValue (e : CaughtError).

(** The JSON body of the error response. *)
Record ErrorBody : Type := {
  error : bool;
  body_message : string;
  body_statusCode : Z;
  body_isRetryable : bool;
  body_provider : string
}.

(** A response built by [new Response(JSON.stringify(body), init)]. *)
Record Response : Type := {
  body : ErrorBody;
  status : Z;
  statusText : string;
  contentType : string
}.

(** The conversion of [init.status] to the [unsigned short] of
    [ResponseInit] (Web IDL): an integral number is taken modulo 2^16. *)
Definition toUnsignedShort (z : Z) : Z := Z.modulo z 65536.

(** The null body statuses of the Fetch standard. *)
Definition isNullBodyStatus (status : Z) : bool :=
  existsb (Z.eqb status) [101; 103; 204; 205; 304]%Z.

(** [new Response(JSON.stringify(body), { status, statusText, headers })] as
    the Fetch standard defines the constructor: it throws a [RangeError]
    for a status outside 200..599, and a [TypeError] for a null body status,
    the body not being null. *)
Definition newResponse (body : ErrorBody) (status : Z)
    (statusText contentType : string) : Completion Response :=
  let status := toUnsignedShort status in
  if negb ((200 <=? status)%Z && (status <=? 599)%Z) then Throws RangeError
  else if isNullBodyStatus status then Throws TypeError
  else Returns {| body := body; status := status; statusText := statusText;
                  contentType := contentType |}.

(** [a || b] on an optional string. *)
Definition stringOr (a : option string) (b : string) : string :=
  match a with
  | Some EmptyString | None => b
  | Some v => v
  end.

(** [a || b] on an optional number: 0 is falsy. *)
Definition numberOr (a : option Z) (b : Z) : Z :=
  match a with
  | Some v => if Z.eqb v 0 then b else v
  | None => b
  end.

(** [v !== false] *)
Definition notStrictlyFalse (v : JsValue) : bool :=
  match v with
  | JsBoolean false => false
  | _ => true
  end.

Definition errorResponse (e : CaughtError) : ErrorBody :=
  {| error := true;
     body_message := stringOr (message e) "An unexpected error occurred";
     body_statusCode := numberOr (statusCode e) 500;
     body_isRetryable := notStrictlyFalse (isRetryable e);
     body_provider := stringOr (provider e) "unknown" |}.

(** [error.message?.includes('API key')] *)
Definition mentionsApiKey (e : CaughtError) : bool :=
  match message e with
  | Some m => includes "API key" m
  | None => false
  end.

(** The [catch] block.  Reading [error.message] throws a [TypeError] when
    the caught value is [null] or [undefined]. *)
Definition chatActionCatch (caught : Caught) : Completion Response :=
  match caught with
  | CaughtNullish => Throws TypeError
  | CaughtValue e =>
      let errorResponse := errorResponse e in
      if mentionsApiKey e then
        newResponse
          {| error := error errorResponse;
             body_message := "Invalid or missing API key";
             body_statusCode := 401;
             body_isRetryable := false;
             body_provider := body_provider errorResponse |}
          401 "Unauthorized" "application/json"
      else
        newResponse errorResponse (body_statusCode errorResponse)
          "Error" "application/json"
  end.

(** A credential error in the specification's words: its message contains the text
    "API key". *)
Definition CredentialError (e : CaughtError) : Prop :=
  exists m pre post, message e = Some m /\ m = (pre ++ "API key" ++ post)%string.

(** The error's own status code, or 500. *)
Definition ownStatusOr500 (e : CaughtError) : Z :=
  match statusCode e with
  | Some c => if Z.eqb c 0 then 500%Z else c
  | None => 500%Z
  end.

(** Two errors for the examples. *)
Definition missingKeyError : CaughtError :=
  {| message := Some "Missing API key for provider: OpenAI";
     statusCode := None; isRetryable := JsUndefined; provider := Some "OpenAI" |}.

Definition rateLimitError : CaughtError :=
  {| message := Some "Too many requests";
     statusCode := Some 429%Z; isRetryable := JsUndefined; provider := None |}.

(** An error whose [statusCode] is no HTTP status, and one that carries the
    status of an answer without content. *)
Definition oddStatusError : CaughtError :=
  {| message := Some "upstream closed the connection";
     statusCode := Some 42%Z; isRetryable := JsUndefined; provider := None |}.

Definition noContentError : CaughtError :=
  {| message := Some "nothing to send";
     statusCode := Some 204%Z; isRetryable := JsUndefined; provider := None |}.

End ChatError.

(* ===================================================================== *)
(** ** api.chat.ts: the stream timeout of a run *)
(* ===================================================================== *)

(** A number of the host language: the finite ones carry their exact
    value. *)
Inductive JsNumber : Type :=
  | NaN
  | Infinity (negative : bool)
  | Finite (q : Q).

Module StreamTimeout.
Import JsString.

(** [\w] *)
Definition isWordChar (c : ascii) : bool :=
  let n := code c in
  ((48 <=? n) && (n <=? 57)) || ((65 <=? n) && (n <=? 90)) ||
  ((97 <=? n) && (n <=? 122)) || (n =? 95).

Definition isWord (c : option ascii) : bool :=
  match c with
  | Some c => isWordChar c
  | None => false
  end.

(** [\b] between the character before and the character after. *)
Definition wordBoundary (before after : option ascii) : bool :=
  xorb (isWord before) (isWord after).

Definition head (s : string) : option ascii :=
  match s with
  | String c _ => Some c
  | EmptyString => None
  end.

(** The alternatives of [LONG_THINK_MODEL_RE], in order. *)
Definition LONG_THINK_ALTERNATIVES : list string :=
  [ "gpt-5"; "gpt-5.2"; "gpt-5-codex"; "codex"; "o1"; "o3"; "claude-3.7";
    "claude-3.5-sonnet-latest"; "claude-3-5-sonnet-latest" ].

(** One alternative, then [\b], at the head of [s]; [before] is the
    character in front of [s]. *)
Definition alternativeThenBoundary (before : option ascii) (s alt : string) : bool :=
  match stripPrefixCi alt s with
  | Some rest =>
      let lastMatched :=
        match alt with
        | EmptyString => before
        | _ => String.get (String.length alt - 1) s
        end in
      wordBoundary lastMatched (head rest)
  | None => false
  end.

Definition longThinkHere (before : option ascii) (s : string) : bool :=
  wordBoundary before (head s) &&
  existsb (alternativeThenBoundary before s) LONG_THINK_ALTERNATIVES.

Fixpoint longThinkScan (before : option ascii) (s : string) : bool :=
  longThinkHere before s ||
  match s with
  | String c r => longThinkScan (Some c) r
  | EmptyString => false
  end.

(** [LONG_THINK_MODEL_RE.test(s)] *)
Definition LONG_THINK_MODEL_RE_test (s : string) : bool :=
  longThinkScan None s.

(** The two places the setting is read from. *)
Record TimeoutSettings : Type := {
  envVars_BOLT_STREAM_TIMEOUT_MS : option string;
  process_env_BOLT_STREAM_TIMEOUT_MS : option string
}.

Definition truthy (v : option string) : bool :=
  match v with
  | Some EmptyString | None => false
  | Some _ => true
  end.

(** [envVars?.BOLT_STREAM_TIMEOUT_MS || process?.env?.BOLT_STREAM_TIMEOUT_MS]:
    the configured text, if any. *)
Definition configuredText (cfg : TimeoutSettings) : option string :=
  if truthy (envVars_BOLT_STREAM_TIMEOUT_MS cfg)
  then envVars_BOLT_STREAM_TIMEOUT_MS cfg
  else if truthy (process_env_BOLT_STREAM_TIMEOUT_MS cfg)
  then process_env_BOLT_STREAM_TIMEOUT_MS cfg
  else None.

Definition Number_isFinite (n : JsNumber) : bool :=
  match n with
  | Finite _ => true
  | _ => false
  end.

(** [n >= 30000] *)
Definition atLeast30000 (n : JsNumber) : bool :=
  match n with
  | Finite q => Qle_bool (30000 # 1) q
  | Infinity negative => negb negative
  | NaN => false
  end.

Section WithNumber.
(** [Number(text)]: the host's conversion of a string to a number. *)
Variable Number : string -> JsNumber.

Definition dynamicStreamTimeoutFallbackMs (selectedModel : option string) : Q :=
  let longThinkSelectedModel :=
    match selectedModel with
    | Some EmptyString | None => EmptyString
    | Some m => m
    end in
  if LONG_THINK_MODEL_RE_test longThinkSelectedModel then 300000 # 1 else 180000 # 1.

Definition configuredStreamTimeoutMs (cfg : TimeoutSettings)
    (selectedModel : option string) : JsNumber :=
  match configuredText cfg with
  | Some text => Number text
  | None => Finite (dynamicStreamTimeoutFallbackMs selectedModel)
  end.

Definition streamTimeoutMs (cfg : TimeoutSettings) (selectedModel : option string)
  : JsNumber :=
  let configured := configuredStreamTimeoutMs cfg selectedModel in
  if Number_isFinite configured && atLeast30000 configured
  then configured
  else Finite (dynamicStreamTimeoutFallbackMs selectedModel).

End WithNumber.

(** A conversion for the examples: decimal digits only, anything else is
    [NaN]. *)
Fixpoint digitsValue (acc : Z) (s : string) : option Z :=
  match s with
  | EmptyString => Some acc
  | String c r =>
      let n := code c in
      if (48 <=? n) && (n <=? 57)
      then digitsValue (10 * acc + Z.of_nat (n - 48)) r
      else None
  end.

Definition decimalNumber (s : string) : JsNumber :=
  match s with
  | EmptyString => Finite 0
  | _ => match digitsValue 0 s with
         | Some z => Finite (z # 1)
         | None => NaN
         end
  end.

End StreamTimeout.

(* ===================================================================== *)
(** ** api.chat.ts: the [execute] body of [chatAction] *)
(* ===================================================================== *)

Module Chat.
Import JsString.

Inductive AgentCommentaryPhase : Type :=
  | plan | action | verification | next_step | recovery.

Inductive CommentaryStatus : Type :=
  | in_progress | warning | complete | recovered.

Inductive ChatMode : Type := discuss | build.

Inductive Role : Type := user | assistant | system | data.

Inductive FinishReason : Type :=
  | fr_stop | fr_length | fr_tool_calls | fr_content_filter | fr_error
  | fr_other | fr_unknown.

Record Message : Type := {
  id : string;
  role : Role;
  content : string
}.

Record Usage : Type := {
  completionTokens : nat;
  promptTokens : nat;
  totalTokens : nat
}.

Record ToolCall : Type := {
  toolName : string;
  toolCallId : string;
  args : string
}.

Record ToolResult : Type := {
  tr_toolName : string;
  tr_toolCallId : string;
  result : string
}.

(** A signal of the recovery controller. *)
Record RecoverySignal : Type := {
  reason : string;
  backoffMs : nat;
  forceFinalize : bool;
  sig_message : string;
  sig_detail : option string
}.

Record AgentCommentaryAnnotation : Type := {
  c_phase : AgentCommentaryPhase;
  c_status : CommentaryStatus;
  c_order : nat;
  c_message : string;
  c_timestamp : Z;
  c_detail : string
}.

Inductive ProgressStatus : Type := p_in_progress | p_complete.

Record ProgressAnnotation : Type := {
  label : string;
  p_status : ProgressStatus;
  p_order : nat;
  p_message : string
}.

Record UsageDataEvent : Type := {
  u_usage : Usage;
  u_timestamp : Z
}.

Record AgentRunMetricsDataEvent : Type := {
  m_runId : string;
  m_provider : string;
  m_model : string;
  m_commentaryFirstEventLatencyMs : option Z;
  m_recoveryTriggered : bool;
  m_recoverySucceeded : bool;
  m_manualIntervention : bool;
  m_timestamp : Z;
  m_aggregate : string
}.

Record ProjectMemoryDataEvent : Type := {
  pm_projectKey : string;
  pm_summary : string;
  pm_architecture : string;
  pm_latestGoal : string;
  pm_runCount : nat;
  pm_updatedAt : string
}.

(** What is written on the data stream, in order: [writeData] payloads by
    their [type] field, and [writeMessageAnnotation] payloads. *)
Inductive StreamPart : Type :=
  | agent_commentary (c : AgentCommentaryAnnotation)
  | progress (p : ProgressAnnotation)
  | usage_data (u : UsageDataEvent)
  | run_metrics (m : AgentRunMetricsDataEvent)
  | project_memory (pm : ProjectMemoryDataEvent)
  | checkpoint (payload : string)
  | sub_agent (payload : string)
  | tool_call_annotation (payload : string)
  | annotation_usage (u : Usage)
  | annotation_chatSummary (summary : option string) (chatId : option string)
  | annotation_codeContext (files : list string).

(** Which callbacks a backend call is issued with: the [options] of the run
    or the [finalizeOptions] of the forced final answer. *)
Inductive SegmentOptions : Type :=
  | mainOptions
  | finalizeOptions (model provider : string).

(** Which statement of [execute] issued a backend call. *)
Inductive SegmentOrigin : Type :=
  | initialSegment | finalizeSegment | runContinuationSegment
  | forcedRunRecoverySegment | lengthContinuationSegment.

(** One [streamText] call merged into the data stream. *)
Record Segment : Type := {
  seg_origin : SegmentOrigin;
  seg_options : SegmentOptions;
  seg_messages : list Message
}.

(** The locals of [onFinish] that survive its recovery pause. *)
Record SuspendedFinalize : Type := {
  sf_content : string;
  sf_model : string;
  sf_provider : string
}.

Record ExtractedProperties : Type := {
  ex_model : string;
  ex_provider : string;
  ex_content : string
}.

Record ContinuationDecision : Type := {
  shouldContinue : bool;
  decisionReason : string
}.

Record CommentaryHeartbeat : Type := {
  hb_phase : AgentCommentaryPhase;
  hb_message : string;
  hb_detail : string
}.

(** Modelled from the spec: [SwitchableStream] (the spec's SegmentStream) is
    not among the sources.  It stitches the segments handed to it into one
    channel and counts them; [switchSource] is its only operation that
    takes a segment. *)
Record SwitchableStream : Type := {
  switches : nat
}.

Definition newSwitchableStream : SwitchableStream := {| switches := 0 |}.

Definition switchSource (st : SwitchableStream) : SwitchableStream :=
  {| switches := S (switches st) |}.

(** The request: what [chatAction] fixes before [execute] starts. *)
Class Request : Type := {
  chatMode : option ChatMode;
  contextOptimization : bool;
  filePathsCount : nat;
  selectedModel : option string;
  requestStartedAt : Z;
  runId : string;
  projectKey : string;
  latestUserGoal : string;
  manualInterventionDetected : bool;
  BOLT_PLANNER_SUBAGENT_ENABLED : option string;
  BOLT_PLANNER_LONG_THINK_ENABLED : option string
}.

(** The collaborators imported by api.chat.ts whose sources are not part of
    this development.  [RC] is the state of the [AgentRecoveryController]. *)
Class Externals (RC : Type) : Type := {
  MAX_RESPONSE_SEGMENTS : nat;
  CONTINUE_PROMPT : string;
  generateId : nat -> string;
  getCommentaryPoolMessage : AgentCommentaryPhase -> Z -> string -> string;
  enforceCommentaryContract :
    AgentCommentaryPhase -> string -> option string -> string * string;
  buildCommentaryHeartbeat : Z -> AgentCommentaryPhase -> CommentaryHeartbeat;
  analyzeRunContinuation :
    ChatMode -> string -> string -> bool -> nat -> ContinuationDecision;
  extractPropertiesFromMessage : option Message -> ExtractedProperties;
  addUsageTotals : Usage -> Usage -> Usage;
  newAgentRecoveryController : RC;
  registerTimeout : RC -> RC * RecoverySignal;
  analyzeStep : RC -> list (string * string) -> nat -> RC * option RecoverySignal;
  extractCheckpointEvents : list ToolCall -> list ToolResult -> list string;
  extractExecutionFailure : list ToolCall -> list ToolResult -> option string;
  processToolCall : ToolCall -> list string;
  stringifyToolResult : ToolResult -> string;
  upsertProjectMemory : string -> string -> string -> ProjectMemoryDataEvent;
  recordAgentRunMetrics :
    string -> string -> string -> option Z -> bool -> bool -> bool -> Z -> string
}.

Section WithExternals.
Context {RC : Type} {ext : Externals RC} {req : Request}.

(** The mutable variables of one run, the clock, and what the run has
    produced so far: the parts [written] on the data stream, the backend
    [segments] issued and the error [thrown], if any. *)
Record RunState : Type := {
  progressCounter : nat;
  firstCommentaryAt : option Z;
  lastCommentaryPhase : AgentCommentaryPhase;
  commentaryHeartbeat : bool;
  streamRecoveryMonitoring : bool;
  activeStreamAbortController : option bool;
  recoveryTriggered : bool;
  recoverySucceeded : bool;
  completionEmitted : bool;
  hasExecutionFailures : bool;
  latestExecutionFailure : option string;
  recoveryController : RC;
  pendingRecoveryReason : option string;
  pendingRecoveryBackoffMs : nat;
  forceFinalizeRequested : bool;
  forceFinalizeAttempted : bool;
  runContinuationAttempts : nat;
  forcedRunRecoveryAttempted : bool;
  processedMessages : list Message;
  collectedToolOutputs : list string;
  cumulativeUsage : Usage;
  summary : option string;
  subAgentPlan : option string;
  stream : SwitchableStream;
  suspendedFinalize : option SuspendedFinalize;
  now : Z;
  generatedIds : nat;
  written : list StreamPart;
  segments : list Segment;
  thrown : option string
}.

Definition set_progressCounter (v : nat) (s : RunState) : RunState :=
  {|
     progressCounter := v; firstCommentaryAt := firstCommentaryAt s;
     lastCommentaryPhase := lastCommentaryPhase s; commentaryHeartbeat :=
     commentaryHeartbeat s; streamRecoveryMonitoring :=
     streamRecoveryMonitoring s; activeStreamAbortController :=
     activeStreamAbortController s; recoveryTriggered := recoveryTriggered
     s; recoverySucceeded := recoverySucceeded s; completionEmitted :=
     completionEmitted s; hasExecutionFailures := hasExecutionFailures s;
     latestExecutionFailure := latestExecutionFailure s;
     recoveryController := recoveryController s; pendingRecoveryReason :=
     pendingRecoveryReason s; pendingRecoveryBackoffMs :=
     pendingRecoveryBackoffMs s; forceFinalizeRequested :=
     forceFinalizeRequested s; forceFinalizeAttempted :=
     forceFinalizeAttempted s; runContinuationAttempts :=
     runContinuationAttempts s; forcedRunRecoveryAttempted :=
     forcedRunRecoveryAttempted s; processedMessages := processedMessages
     s; collectedToolOutputs := collectedToolOutputs s; cumulativeUsage :=
     cumulativeUsage s; summary := summary s; subAgentPlan := subAgentPlan
     s; stream := stream s; suspendedFinalize := suspendedFinalize s; now
     := now s; generatedIds := generatedIds s; written := written s;
     segments := segments s; thrown := thrown s |}.

Definition set_firstCommentaryAt (v : option Z) (s : RunState) : RunState :=
  {|
     progressCounter := progressCounter s; firstCommentaryAt := v;
     lastCommentaryPhase := lastCommentaryPhase s; commentaryHeartbeat :=
     commentaryHeartbeat s; streamRecoveryMonitoring :=
     streamRecoveryMonitoring s; activeStreamAbortController :=
     activeStreamAbortController s; recoveryTriggered := recoveryTriggered
     s; recoverySucceeded := recoverySucceeded s; completionEmitted :=
     completionEmitted s; hasExecutionFailures := hasExecutionFailures s;
     latestExecutionFailure := latestExecutionFailure s;
     recoveryController := recoveryController s; pendingRecoveryReason :=
     pendingRecoveryReason s; pendingRecoveryBackoffMs :=
     pendingRecoveryBackoffMs s; forceFinalizeRequested :=
     forceFinalizeRequested s; forceFinalizeAttempted :=
     forceFinalizeAttempted s; runContinuationAttempts :=
     runContinuationAttempts s; forcedRunRecoveryAttempted :=
     forcedRunRecoveryAttempted s; processedMessages := processedMessages
     s; collectedToolOutputs := collectedToolOutputs s; cumulativeUsage :=
     cumulativeUsage s; summary := summary s; subAgentPlan := subAgentPlan
     s; stream := stream s; suspendedFinalize := suspendedFinalize s; now
     := now s; generatedIds := generatedIds s; written := written s;
     segments := segments s; thrown := thrown s |}.

Definition set_lastCommentaryPhase (v : AgentCommentaryPhase) (s : RunState) : RunState :=
  {|
     progressCounter := progressCounter s; firstCommentaryAt :=
     firstCommentaryAt s; lastCommentaryPhase := v; commentaryHeartbeat :=
     commentaryHeartbeat s; streamRecoveryMonitoring :=
     streamRecoveryMonitoring s; activeStreamAbortController :=
     activeStreamAbortController s; recoveryTriggered := recoveryTriggered
     s; recoverySucceeded := recoverySucceeded s; completionEmitted :=
     completionEmitted s; hasExecutionFailures := hasExecutionFailures s;
     latestExecutionFailure := latestExecutionFailure s;
     recoveryController := recoveryController s; pendingRecoveryReason :=
     pendingRecoveryReason s; pendingRecoveryBackoffMs :=
     pendingRecoveryBackoffMs s; forceFinalizeRequested :=
     forceFinalizeRequested s; forceFinalizeAttempted :=
     forceFinalizeAttempted s; runContinuationAttempts :=
     runContinuationAttempts s; forcedRunRecoveryAttempted :=
     forcedRunRecoveryAttempted s; processedMessages := processedMessages
     s; collectedToolOutputs := collectedToolOutputs s; cumulativeUsage :=
     cumulativeUsage s; summary := summary s; subAgentPlan := subAgentPlan
     s; stream := stream s; suspendedFinalize := suspendedFinalize s; now
     := now s; generatedIds := generatedIds s; written := written s;
     segments := segments s; thrown := thrown s |}.

Definition set_commentaryHeartbeat (v : bool) (s : RunState) : RunState :=
  {|
     progressCounter := progressCounter s; firstCommentaryAt :=
     firstCommentaryAt s; lastCommentaryPhase := lastCommentaryPhase s;
     commentaryHeartbeat := v; streamRecoveryMonitoring :=
     streamRecoveryMonitoring s; activeStreamAbortController :=
     activeStreamAbortController s; recoveryTriggered := recoveryTriggered
     s; recoverySucceeded := recoverySucceeded s; completionEmitted :=
     completionEmitted s; hasExecutionFailures := hasExecutionFailures s;
     latestExecutionFailure := latestExecutionFailure s;
     recoveryController := recoveryController s; pendingRecoveryReason :=
     pendingRecoveryReason s; pendingRecoveryBackoffMs :=
     pendingRecoveryBackoffMs s; forceFinalizeRequested :=
     forceFinalizeRequested s; forceFinalizeAttempted :=
     forceFinalizeAttempted s; runContinuationAttempts :=
     runContinuationAttempts s; forcedRunRecoveryAttempted :=
     forcedRunRecoveryAttempted s; processedMessages := processedMessages
     s; collectedToolOutputs := collectedToolOutputs s; cumulativeUsage :=
     cumulativeUsage s; summary := summary s; subAgentPlan := subAgentPlan
     s; stream := stream s; suspendedFinalize := suspendedFinalize s; now
     := now s; generatedIds := generatedIds s; written := written s;
     segments := segments s; thrown := thrown s |}.

Definition set_streamRecoveryMonitoring (v : bool) (s : RunState) : RunState :=
  {|
     progressCounter := progressCounter s; firstCommentaryAt :=
     firstCommentaryAt s; lastCommentaryPhase := lastCommentaryPhase s;
     commentaryHeartbeat := commentaryHeartbeat s;
     streamRecoveryMonitoring := v; activeStreamAbortController :=
     activeStreamAbortController s; recoveryTriggered := recoveryTriggered
     s; recoverySucceeded := recoverySucceeded s; completionEmitted :=
     completionEmitted s; hasExecutionFailures := hasExecutionFailures s;
     latestExecutionFailure := latestExecutionFailure s;
     recoveryController := recoveryController s; pendingRecoveryReason :=
     pendingRecoveryReason s; pendingRecoveryBackoffMs :=
     pendingRecoveryBackoffMs s; forceFinalizeRequested :=
     forceFinalizeRequested s; forceFinalizeAttempted :=
     forceFinalizeAttempted s; runContinuationAttempts :=
     runContinuationAttempts s; forcedRunRecoveryAttempted :=
     forcedRunRecoveryAttempted s; processedMessages := processedMessages
     s; collectedToolOutputs := collectedToolOutputs s; cumulativeUsage :=
     cumulativeUsage s; summary := summary s; subAgentPlan := subAgentPlan
     s; stream := stream s; suspendedFinalize := suspendedFinalize s; now
     := now s; generatedIds := generatedIds s; written := written s;
     segments := segments s; thrown := thrown s |}.

Definition set_activeStreamAbortController (v : option bool) (s : RunState) : RunState :=
  {|
     progressCounter := progressCounter s; firstCommentaryAt :=
     firstCommentaryAt s; lastCommentaryPhase := lastCommentaryPhase s;
     commentaryHeartbeat := commentaryHeartbeat s;
     streamRecoveryMonitoring := streamRecoveryMonitoring s;
     activeStreamAbortController := v; recoveryTriggered :=
     recoveryTriggered s; recoverySucceeded := recoverySucceeded s;
     completionEmitted := completionEmitted s; hasExecutionFailures :=
     hasExecutionFailures s; latestExecutionFailure :=
     latestExecutionFailure s; recoveryController := recoveryController s;
     pendingRecoveryReason := pendingRecoveryReason s;
     pendingRecoveryBackoffMs := pendingRecoveryBackoffMs s;
     forceFinalizeRequested := forceFinalizeRequested s;
     forceFinalizeAttempted := forceFinalizeAttempted s;
     runContinuationAttempts := runContinuationAttempts s;
     forcedRunRecoveryAttempted := forcedRunRecoveryAttempted s;
     processedMessages := processedMessages s; collectedToolOutputs :=
     collectedToolOutputs s; cumulativeUsage := cumulativeUsage s; summary
     := summary s; subAgentPlan := subAgentPlan s; stream := stream s;
     suspendedFinalize := suspendedFinalize s; now := now s; generatedIds
     := generatedIds s; written := written s; segments := segments s;
     thrown := thrown s |}.

Definition set_recoveryTriggered (v : bool) (s : RunState) : RunState :=
  {|
     progressCounter := progressCounter s; firstCommentaryAt :=
     firstCommentaryAt s; lastCommentaryPhase := lastCommentaryPhase s;
     commentaryHeartbeat := commentaryHeartbeat s;
     streamRecoveryMonitoring := streamRecoveryMonitoring s;
     activeStreamAbortController := activeStreamAbortController s;
     recoveryTriggered := v; recoverySucceeded := recoverySucceeded s;
     completionEmitted := completionEmitted s; hasExecutionFailures :=
     hasExecutionFailures s; latestExecutionFailure :=
     latestExecutionFailure s; recoveryController := recoveryController s;
     pendingRecoveryReason := pendingRecoveryReason s;
     pendingRecoveryBackoffMs := pendingRecoveryBackoffMs s;
     forceFinalizeRequested := forceFinalizeRequested s;
     forceFinalizeAttempted := forceFinalizeAttempted s;
     runContinuationAttempts := runContinuationAttempts s;
     forcedRunRecoveryAttempted := forcedRunRecoveryAttempted s;
     processedMessages := processedMessages s; collectedToolOutputs :=
     collectedToolOutputs s; cumulativeUsage := cumulativeUsage s; summary
     := summary s; subAgentPlan := subAgentPlan s; stream := stream s;
     suspendedFinalize := suspendedFinalize s; now := now s; generatedIds
     := generatedIds s; written := written s; segments := segments s;
     thrown := thrown s |}.

Definition set_recoverySucceeded (v : bool) (s : RunState) : RunState :=
  {|
     progressCounter := progressCounter s; firstCommentaryAt :=
     firstCommentaryAt s; lastCommentaryPhase := lastCommentaryPhase s;
     commentaryHeartbeat := commentaryHeartbeat s;
     streamRecoveryMonitoring := streamRecoveryMonitoring s;
     activeStreamAbortController := activeStreamAbortController s;
     recoveryTriggered := recoveryTriggered s; recoverySucceeded := v;
     completionEmitted := completionEmitted s; hasExecutionFailures :=
     hasExecutionFailures s; latestExecutionFailure :=
     latestExecutionFailure s; recoveryController := recoveryController s;
     pendingRecoveryReason := pendingRecoveryReason s;
     pendingRecoveryBackoffMs := pendingRecoveryBackoffMs s;
     forceFinalizeRequested := forceFinalizeRequested s;
     forceFinalizeAttempted := forceFinalizeAttempted s;
     runContinuationAttempts := runContinuationAttempts s;
     forcedRunRecoveryAttempted := forcedRunRecoveryAttempted s;
     processedMessages := processedMessages s; collectedToolOutputs :=
     collectedToolOutputs s; cumulativeUsage := cumulativeUsage s; summary
     := summary s; subAgentPlan := subAgentPlan s; stream := stream s;
     suspendedFinalize := suspendedFinalize s; now := now s; generatedIds
     := generatedIds s; written := written s; segments := segments s;
     thrown := thrown s |}.

Definition set_completionEmitted (v : bool) (s : RunState) : RunState :=
  {|
     progressCounter := progressCounter s; firstCommentaryAt :=
     firstCommentaryAt s; lastCommentaryPhase := lastCommentaryPhase s;
     commentaryHeartbeat := commentaryHeartbeat s;
     streamRecoveryMonitoring := streamRecoveryMonitoring s;
     activeStreamAbortController := activeStreamAbortController s;
     recoveryTriggered := recoveryTriggered s; recoverySucceeded :=
     recoverySucceeded s; completionEmitted := v; hasExecutionFailures :=
     hasExecutionFailures s; latestExecutionFailure :=
     latestExecutionFailure s; recoveryController := recoveryController s;
     pendingRecoveryReason := pendingRecoveryReason s;
     pendingRecoveryBackoffMs := pendingRecoveryBackoffMs s;
     forceFinalizeRequested := forceFinalizeRequested s;
     forceFinalizeAttempted := forceFinalizeAttempted s;
     runContinuationAttempts := runContinuationAttempts s;
     forcedRunRecoveryAttempted := forcedRunRecoveryAttempted s;
     processedMessages := processedMessages s; collectedToolOutputs :=
     collectedToolOutputs s; cumulativeUsage := cumulativeUsage s; summary
     := summary s; subAgentPlan := subAgentPlan s; stream := stream s;
     suspendedFinalize := suspendedFinalize s; now := now s; generatedIds
     := generatedIds s; written := written s; segments := segments s;
     thrown := thrown s |}.

Definition set_hasExecutionFailures (v : bool) (s : RunState) : RunState :=
  {|
     progressCounter := progressCounter s; firstCommentaryAt :=
     firstCommentaryAt s; lastCommentaryPhase := lastCommentaryPhase s;
     commentaryHeartbeat := commentaryHeartbeat s;
     streamRecoveryMonitoring := streamRecoveryMonitoring s;
     activeStreamAbortController := activeStreamAbortController s;
     recoveryTriggered := recoveryTriggered s; recoverySucceeded :=
     recoverySucceeded s; completionEmitted := completionEmitted s;
     hasExecutionFailures := v; latestExecutionFailure :=
     latestExecutionFailure s; recoveryController := recoveryController s;
     pendingRecoveryReason := pendingRecoveryReason s;
     pendingRecoveryBackoffMs := pendingRecoveryBackoffMs s;
     forceFinalizeRequested := forceFinalizeRequested s;
     forceFinalizeAttempted := forceFinalizeAttempted s;
     runContinuationAttempts := runContinuationAttempts s;
     forcedRunRecoveryAttempted := forcedRunRecoveryAttempted s;
     processedMessages := processedMessages s; collectedToolOutputs :=
     collectedToolOutputs s; cumulativeUsage := cumulativeUsage s; summary
     := summary s; subAgentPlan := subAgentPlan s; stream := stream s;
     suspendedFinalize := suspendedFinalize s; now := now s; generatedIds
     := generatedIds s; written := written s; segments := segments s;
     thrown := thrown s |}.

Definition set_latestExecutionFailure (v : option string) (s : RunState) : RunState :=
  {|
     progressCounter := progressCounter s; firstCommentaryAt :=
     firstCommentaryAt s; lastCommentaryPhase := lastCommentaryPhase s;
     commentaryHeartbeat := commentaryHeartbeat s;
     streamRecoveryMonitoring := streamRecoveryMonitoring s;
     activeStreamAbortController := activeStreamAbortController s;
     recoveryTriggered := recoveryTriggered s; recoverySucceeded :=
     recoverySucceeded s; completionEmitted := completionEmitted s;
     hasExecutionFailures := hasExecutionFailures s;
     latestExecutionFailure := v; recoveryController := recoveryController
     s; pendingRecoveryReason := pendingRecoveryReason s;
     pendingRecoveryBackoffMs := pendingRecoveryBackoffMs s;
     forceFinalizeRequested := forceFinalizeRequested s;
     forceFinalizeAttempted := forceFinalizeAttempted s;
     runContinuationAttempts := runContinuationAttempts s;
     forcedRunRecoveryAttempted := forcedRunRecoveryAttempted s;
     processedMessages := processedMessages s; collectedToolOutputs :=
     collectedToolOutputs s; cumulativeUsage := cumulativeUsage s; summary
     := summary s; subAgentPlan := subAgentPlan s; stream := stream s;
     suspendedFinalize := suspendedFinalize s; now := now s; generatedIds
     := generatedIds s; written := written s; segments := segments s;
     thrown := thrown s |}.

Definition set_recoveryController (v : RC) (s : RunState) : RunState :=
  {|
     progressCounter := progressCounter s; firstCommentaryAt :=
     firstCommentaryAt s; lastCommentaryPhase := lastCommentaryPhase s;
     commentaryHeartbeat := commentaryHeartbeat s;
     streamRecoveryMonitoring := streamRecoveryMonitoring s;
     activeStreamAbortController := activeStreamAbortController s;
     recoveryTriggered := recoveryTriggered s; recoverySucceeded :=
     recoverySucceeded s; completionEmitted := completionEmitted s;
     hasExecutionFailures := hasExecutionFailures s;
     latestExecutionFailure := latestExecutionFailure s;
     recoveryController := v; pendingRecoveryReason :=
     pendingRecoveryReason s; pendingRecoveryBackoffMs :=
     pendingRecoveryBackoffMs s; forceFinalizeRequested :=
     forceFinalizeRequested s; forceFinalizeAttempted :=
     forceFinalizeAttempted s; runContinuationAttempts :=
     runContinuationAttempts s; forcedRunRecoveryAttempted :=
     forcedRunRecoveryAttempted s; processedMessages := processedMessages
     s; collectedToolOutputs := collectedToolOutputs s; cumulativeUsage :=
     cumulativeUsage s; summary := summary s; subAgentPlan := subAgentPlan
     s; stream := stream s; suspendedFinalize := suspendedFinalize s; now
     := now s; generatedIds := generatedIds s; written := written s;
     segments := segments s; thrown := thrown s |}.

Definition set_pendingRecoveryReason (v : option string) (s : RunState) : RunState :=
  {|
     progressCounter := progressCounter s; firstCommentaryAt :=
     firstCommentaryAt s; lastCommentaryPhase := lastCommentaryPhase s;
     commentaryHeartbeat := commentaryHeartbeat s;
     streamRecoveryMonitoring := streamRecoveryMonitoring s;
     activeStreamAbortController := activeStreamAbortController s;
     recoveryTriggered := recoveryTriggered s; recoverySucceeded :=
     recoverySucceeded s; completionEmitted := completionEmitted s;
     hasExecutionFailures := hasExecutionFailures s;
     latestExecutionFailure := latestExecutionFailure s;
     recoveryController := recoveryController s; pendingRecoveryReason :=
     v; pendingRecoveryBackoffMs := pendingRecoveryBackoffMs s;
     forceFinalizeRequested := forceFinalizeRequested s;
     forceFinalizeAttempted := forceFinalizeAttempted s;
     runContinuationAttempts := runContinuationAttempts s;
     forcedRunRecoveryAttempted := forcedRunRecoveryAttempted s;
     processedMessages := processedMessages s; collectedToolOutputs :=
     collectedToolOutputs s; cumulativeUsage := cumulativeUsage s; summary
     := summary s; subAgentPlan := subAgentPlan s; stream := stream s;
     suspendedFinalize := suspendedFinalize s; now := now s; generatedIds
     := generatedIds s; written := written s; segments := segments s;
     thrown := thrown s |}.

Definition set_pendingRecoveryBackoffMs (v : nat) (s : RunState) : RunState :=
  {|
     progressCounter := progressCounter s; firstCommentaryAt :=
     firstCommentaryAt s; lastCommentaryPhase := lastCommentaryPhase s;
     commentaryHeartbeat := commentaryHeartbeat s;
     streamRecoveryMonitoring := streamRecoveryMonitoring s;
     activeStreamAbortController := activeStreamAbortController s;
     recoveryTriggered := recoveryTriggered s; recoverySucceeded :=
     recoverySucceeded s; completionEmitted := completionEmitted s;
     hasExecutionFailures := hasExecutionFailures s;
     latestExecutionFailure := latestExecutionFailure s;
     recoveryController := recoveryController s; pendingRecoveryReason :=
     pendingRecoveryReason s; pendingRecoveryBackoffMs := v;
     forceFinalizeRequested := forceFinalizeRequested s;
     forceFinalizeAttempted := forceFinalizeAttempted s;
     runContinuationAttempts := runContinuationAttempts s;
     forcedRunRecoveryAttempted := forcedRunRecoveryAttempted s;
     processedMessages := processedMessages s; collectedToolOutputs :=
     collectedToolOutputs s; cumulativeUsage := cumulativeUsage s; summary
     := summary s; subAgentPlan := subAgentPlan s; stream := stream s;
     suspendedFinalize := suspendedFinalize s; now := now s; generatedIds
     := generatedIds s; written := written s; segments := segments s;
     thrown := thrown s |}.

Definition set_forceFinalizeRequested (v : bool) (s : RunState) : RunState :=
  {|
     progressCounter := progressCounter s; firstCommentaryAt :=
     firstCommentaryAt s; lastCommentaryPhase := lastCommentaryPhase s;
     commentaryHeartbeat := commentaryHeartbeat s;
     streamRecoveryMonitoring := streamRecoveryMonitoring s;
     activeStreamAbortController := activeStreamAbortController s;
     recoveryTriggered := recoveryTriggered s; recoverySucceeded :=
     recoverySucceeded s; completionEmitted := completionEmitted s;
     hasExecutionFailures := hasExecutionFailures s;
     latestExecutionFailure := latestExecutionFailure s;
     recoveryController := recoveryController s; pendingRecoveryReason :=
     pendingRecoveryReason s; pendingRecoveryBackoffMs :=
     pendingRecoveryBackoffMs s; forceFinalizeRequested := v;
     forceFinalizeAttempted := forceFinalizeAttempted s;
     runContinuationAttempts := runContinuationAttempts s;
     forcedRunRecoveryAttempted := forcedRunRecoveryAttempted s;
     processedMessages := processedMessages s; collectedToolOutputs :=
     collectedToolOutputs s; cumulativeUsage := cumulativeUsage s; summary
     := summary s; subAgentPlan := subAgentPlan s; stream := stream s;
     suspendedFinalize := suspendedFinalize s; now := now s; generatedIds
     := generatedIds s; written := written s; segments := segments s;
     thrown := thrown s |}.

Definition set_forceFinalizeAttempted (v : bool) (s : RunState) : RunState :=
  {|
     progressCounter := progressCounter s; firstCommentaryAt :=
     firstCommentaryAt s; lastCommentaryPhase := lastCommentaryPhase s;
     commentaryHeartbeat := commentaryHeartbeat s;
     streamRecoveryMonitoring := streamRecoveryMonitoring s;
     activeStreamAbortController := activeStreamAbortController s;
     recoveryTriggered := recoveryTriggered s; recoverySucceeded :=
     recoverySucceeded s; completionEmitted := completionEmitted s;
     hasExecutionFailures := hasExecutionFailures s;
     latestExecutionFailure := latestExecutionFailure s;
     recoveryController := recoveryController s; pendingRecoveryReason :=
     pendingRecoveryReason s; pendingRecoveryBackoffMs :=
     pendingRecoveryBackoffMs s; forceFinalizeRequested :=
     forceFinalizeRequested s; forceFinalizeAttempted := v;
     runContinuationAttempts := runContinuationAttempts s;
     forcedRunRecoveryAttempted := forcedRunRecoveryAttempted s;
     processedMessages := processedMessages s; collectedToolOutputs :=
     collectedToolOutputs s; cumulativeUsage := cumulativeUsage s; summary
     := summary s; subAgentPlan := subAgentPlan s; stream := stream s;
     suspendedFinalize := suspendedFinalize s; now := now s; generatedIds
     := generatedIds s; written := written s; segments := segments s;
     thrown := thrown s |}.

Definition set_runContinuationAttempts (v : nat) (s : RunState) : RunState :=
  {|
     progressCounter := progressCounter s; firstCommentaryAt :=
     firstCommentaryAt s; lastCommentaryPhase := lastCommentaryPhase s;
     commentaryHeartbeat := commentaryHeartbeat s;
     streamRecoveryMonitoring := streamRecoveryMonitoring s;
     activeStreamAbortController := activeStreamAbortController s;
     recoveryTriggered := recoveryTriggered s; recoverySucceeded :=
     recoverySucceeded s; completionEmitted := completionEmitted s;
     hasExecutionFailures := hasExecutionFailures s;
     latestExecutionFailure := latestExecutionFailure s;
     recoveryController := recoveryController s; pendingRecoveryReason :=
     pendingRecoveryReason s; pendingRecoveryBackoffMs :=
     pendingRecoveryBackoffMs s; forceFinalizeRequested :=
     forceFinalizeRequested s; forceFinalizeAttempted :=
     forceFinalizeAttempted s; runContinuationAttempts := v;
     forcedRunRecoveryAttempted := forcedRunRecoveryAttempted s;
     processedMessages := processedMessages s; collectedToolOutputs :=
     collectedToolOutputs s; cumulativeUsage := cumulativeUsage s; summary
     := summary s; subAgentPlan := subAgentPlan s; stream := stream s;
     suspendedFinalize := suspendedFinalize s; now := now s; generatedIds
     := generatedIds s; written := written s; segments := segments s;
     thrown := thrown s |}.

Definition set_forcedRunRecoveryAttempted (v : bool) (s : RunState) : RunState :=
  {|
     progressCounter := progressCounter s; firstCommentaryAt :=
     firstCommentaryAt s; lastCommentaryPhase := lastCommentaryPhase s;
     commentaryHeartbeat := commentaryHeartbeat s;
     streamRecoveryMonitoring := streamRecoveryMonitoring s;
     activeStreamAbortController := activeStreamAbortController s;
     recoveryTriggered := recoveryTriggered s; recoverySucceeded :=
     recoverySucceeded s; completionEmitted := completionEmitted s;
     hasExecutionFailures := hasExecutionFailures s;
     latestExecutionFailure := latestExecutionFailure s;
     recoveryController := recoveryController s; pendingRecoveryReason :=
     pendingRecoveryReason s; pendingRecoveryBackoffMs :=
     pendingRecoveryBackoffMs s; forceFinalizeRequested :=
     forceFinalizeRequested s; forceFinalizeAttempted :=
     forceFinalizeAttempted s; runContinuationAttempts :=
     runContinuationAttempts s; forcedRunRecoveryAttempted := v;
     processedMessages := processedMessages s; collectedToolOutputs :=
     collectedToolOutputs s; cumulativeUsage := cumulativeUsage s; summary
     := summary s; subAgentPlan := subAgentPlan s; stream := stream s;
     suspendedFinalize := suspendedFinalize s; now := now s; generatedIds
     := generatedIds s; written := written s; segments := segments s;
     thrown := thrown s |}.

Definition set_processedMessages (v : list Message) (s : RunState) : RunState :=
  {|
     progressCounter := progressCounter s; firstCommentaryAt :=
     firstCommentaryAt s; lastCommentaryPhase := lastCommentaryPhase s;
     commentaryHeartbeat := commentaryHeartbeat s;
     streamRecoveryMonitoring := streamRecoveryMonitoring s;
     activeStreamAbortController := activeStreamAbortController s;
     recoveryTriggered := recoveryTriggered s; recoverySucceeded :=
     recoverySucceeded s; completionEmitted := completionEmitted s;
     hasExecutionFailures := hasExecutionFailures s;
     latestExecutionFailure := latestExecutionFailure s;
     recoveryController := recoveryController s; pendingRecoveryReason :=
     pendingRecoveryReason s; pendingRecoveryBackoffMs :=
     pendingRecoveryBackoffMs s; forceFinalizeRequested :=
     forceFinalizeRequested s; forceFinalizeAttempted :=
     forceFinalizeAttempted s; runContinuationAttempts :=
     runContinuationAttempts s; forcedRunRecoveryAttempted :=
     forcedRunRecoveryAttempted s; processedMessages := v;
     collectedToolOutputs := collectedToolOutputs s; cumulativeUsage :=
     cumulativeUsage s; summary := summary s; subAgentPlan := subAgentPlan
     s; stream := stream s; suspendedFinalize := suspendedFinalize s; now
     := now s; generatedIds := generatedIds s; written := written s;
     segments := segments s; thrown := thrown s |}.

Definition set_collectedToolOutputs (v : list string) (s : RunState) : RunState :=
  {|
     progressCounter := progressCounter s; firstCommentaryAt :=
     firstCommentaryAt s; lastCommentaryPhase := lastCommentaryPhase s;
     commentaryHeartbeat := commentaryHeartbeat s;
     streamRecoveryMonitoring := streamRecoveryMonitoring s;
     activeStreamAbortController := activeStreamAbortController s;
     recoveryTriggered := recoveryTriggered s; recoverySucceeded :=
     recoverySucceeded s; completionEmitted := completionEmitted s;
     hasExecutionFailures := hasExecutionFailures s;
     latestExecutionFailure := latestExecutionFailure s;
     recoveryController := recoveryController s; pendingRecoveryReason :=
     pendingRecoveryReason s; pendingRecoveryBackoffMs :=
     pendingRecoveryBackoffMs s; forceFinalizeRequested :=
     forceFinalizeRequested s; forceFinalizeAttempted :=
     forceFinalizeAttempted s; runContinuationAttempts :=
     runContinuationAttempts s; forcedRunRecoveryAttempted :=
     forcedRunRecoveryAttempted s; processedMessages := processedMessages
     s; collectedToolOutputs := v; cumulativeUsage := cumulativeUsage s;
     summary := summary s; subAgentPlan := subAgentPlan s; stream :=
     stream s; suspendedFinalize := suspendedFinalize s; now := now s;
     generatedIds := generatedIds s; written := written s; segments :=
     segments s; thrown := thrown s |}.

Definition set_cumulativeUsage (v : Usage) (s : RunState) : RunState :=
  {|
     progressCounter := progressCounter s; firstCommentaryAt :=
     firstCommentaryAt s; lastCommentaryPhase := lastCommentaryPhase s;
     commentaryHeartbeat := commentaryHeartbeat s;
     streamRecoveryMonitoring := streamRecoveryMonitoring s;
     activeStreamAbortController := activeStreamAbortController s;
     recoveryTriggered := recoveryTriggered s; recoverySucceeded :=
     recoverySucceeded s; completionEmitted := completionEmitted s;
     hasExecutionFailures := hasExecutionFailures s;
     latestExecutionFailure := latestExecutionFailure s;
     recoveryController := recoveryController s; pendingRecoveryReason :=
     pendingRecoveryReason s; pendingRecoveryBackoffMs :=
     pendingRecoveryBackoffMs s; forceFinalizeRequested :=
     forceFinalizeRequested s; forceFinalizeAttempted :=
     forceFinalizeAttempted s; runContinuationAttempts :=
     runContinuationAttempts s; forcedRunRecoveryAttempted :=
     forcedRunRecoveryAttempted s; processedMessages := processedMessages
     s; collectedToolOutputs := collectedToolOutputs s; cumulativeUsage :=
     v; summary := summary s; subAgentPlan := subAgentPlan s; stream :=
     stream s; suspendedFinalize := suspendedFinalize s; now := now s;
     generatedIds := generatedIds s; written := written s; segments :=
     segments s; thrown := thrown s |}.

Definition set_summary (v : option string) (s : RunState) : RunState :=
  {|
     progressCounter := progressCounter s; firstCommentaryAt :=
     firstCommentaryAt s; lastCommentaryPhase := lastCommentaryPhase s;
     commentaryHeartbeat := commentaryHeartbeat s;
     streamRecoveryMonitoring := streamRecoveryMonitoring s;
     activeStreamAbortController := activeStreamAbortController s;
     recoveryTriggered := recoveryTriggered s; recoverySucceeded :=
     recoverySucceeded s; completionEmitted := completionEmitted s;
     hasExecutionFailures := hasExecutionFailures s;
     latestExecutionFailure := latestExecutionFailure s;
     recoveryController := recoveryController s; pendingRecoveryReason :=
     pendingRecoveryReason s; pendingRecoveryBackoffMs :=
     pendingRecoveryBackoffMs s; forceFinalizeRequested :=
     forceFinalizeRequested s; forceFinalizeAttempted :=
     forceFinalizeAttempted s; runContinuationAttempts :=
     runContinuationAttempts s; forcedRunRecoveryAttempted :=
     forcedRunRecoveryAttempted s; processedMessages := processedMessages
     s; collectedToolOutputs := collectedToolOutputs s; cumulativeUsage :=
     cumulativeUsage s; summary := v; subAgentPlan := subAgentPlan s;
     stream := stream s; suspendedFinalize := suspendedFinalize s; now :=
     now s; generatedIds := generatedIds s; written := written s; segments
     := segments s; thrown := thrown s |}.

Definition set_subAgentPlan (v : option string) (s : RunState) : RunState :=
  {|
     progressCounter := progressCounter s; firstCommentaryAt :=
     firstCommentaryAt s; lastCommentaryPhase := lastCommentaryPhase s;
     commentaryHeartbeat := commentaryHeartbeat s;
     streamRecoveryMonitoring := streamRecoveryMonitoring s;
     activeStreamAbortController := activeStreamAbortController s;
     recoveryTriggered := recoveryTriggered s; recoverySucceeded :=
     recoverySucceeded s; completionEmitted := completionEmitted s;
     hasExecutionFailures := hasExecutionFailures s;
     latestExecutionFailure := latestExecutionFailure s;
     recoveryController := recoveryController s; pendingRecoveryReason :=
     pendingRecoveryReason s; pendingRecoveryBackoffMs :=
     pendingRecoveryBackoffMs s; forceFinalizeRequested :=
     forceFinalizeRequested s; forceFinalizeAttempted :=
     forceFinalizeAttempted s; runContinuationAttempts :=
     runContinuationAttempts s; forcedRunRecoveryAttempted :=
     forcedRunRecoveryAttempted s; processedMessages := processedMessages
     s; collectedToolOutputs := collectedToolOutputs s; cumulativeUsage :=
     cumulativeUsage s; summary := summary s; subAgentPlan := v; stream :=
     stream s; suspendedFinalize := suspendedFinalize s; now := now s;
     generatedIds := generatedIds s; written := written s; segments :=
     segments s; thrown := thrown s |}.

Definition set_stream (v : SwitchableStream) (s : RunState) : RunState :=
  {|
     progressCounter := progressCounter s; firstCommentaryAt :=
     firstCommentaryAt s; lastCommentaryPhase := lastCommentaryPhase s;
     commentaryHeartbeat := commentaryHeartbeat s;
     streamRecoveryMonitoring := streamRecoveryMonitoring s;
     activeStreamAbortController := activeStreamAbortController s;
     recoveryTriggered := recoveryTriggered s; recoverySucceeded :=
     recoverySucceeded s; completionEmitted := completionEmitted s;
     hasExecutionFailures := hasExecutionFailures s;
     latestExecutionFailure := latestExecutionFailure s;
     recoveryController := recoveryController s; pendingRecoveryReason :=
     pendingRecoveryReason s; pendingRecoveryBackoffMs :=
     pendingRecoveryBackoffMs s; forceFinalizeRequested :=
     forceFinalizeRequested s; forceFinalizeAttempted :=
     forceFinalizeAttempted s; runContinuationAttempts :=
     runContinuationAttempts s; forcedRunRecoveryAttempted :=
     forcedRunRecoveryAttempted s; processedMessages := processedMessages
     s; collectedToolOutputs := collectedToolOutputs s; cumulativeUsage :=
     cumulativeUsage s; summary := summary s; subAgentPlan := subAgentPlan
     s; stream := v; suspendedFinalize := suspendedFinalize s; now := now
     s; generatedIds := generatedIds s; written := written s; segments :=
     segments s; thrown := thrown s |}.

Definition set_suspendedFinalize (v : option SuspendedFinalize) (s : RunState) : RunState :=
  {|
     progressCounter := progressCounter s; firstCommentaryAt :=
     firstCommentaryAt s; lastCommentaryPhase := lastCommentaryPhase s;
     commentaryHeartbeat := commentaryHeartbeat s;
     streamRecoveryMonitoring := streamRecoveryMonitoring s;
     activeStreamAbortController := activeStreamAbortController s;
     recoveryTriggered := recoveryTriggered s; recoverySucceeded :=
     recoverySucceeded s; completionEmitted := completionEmitted s;
     hasExecutionFailures := hasExecutionFailures s;
     latestExecutionFailure := latestExecutionFailure s;
     recoveryController := recoveryController s; pendingRecoveryReason :=
     pendingRecoveryReason s; pendingRecoveryBackoffMs :=
     pendingRecoveryBackoffMs s; forceFinalizeRequested :=
     forceFinalizeRequested s; forceFinalizeAttempted :=
     forceFinalizeAttempted s; runContinuationAttempts :=
     runContinuationAttempts s; forcedRunRecoveryAttempted :=
     forcedRunRecoveryAttempted s; processedMessages := processedMessages
     s; collectedToolOutputs := collectedToolOutputs s; cumulativeUsage :=
     cumulativeUsage s; summary := summary s; subAgentPlan := subAgentPlan
     s; stream := stream s; suspendedFinalize := v; now := now s;
     generatedIds := generatedIds s; written := written s; segments :=
     segments s; thrown := thrown s |}.

Definition set_now (v : Z) (s : RunState) : RunState :=
  {|
     progressCounter := progressCounter s; firstCommentaryAt :=
     firstCommentaryAt s; lastCommentaryPhase := lastCommentaryPhase s;
     commentaryHeartbeat := commentaryHeartbeat s;
     streamRecoveryMonitoring := streamRecoveryMonitoring s;
     activeStreamAbortController := activeStreamAbortController s;
     recoveryTriggered := recoveryTriggered s; recoverySucceeded :=
     recoverySucceeded s; completionEmitted := completionEmitted s;
     hasExecutionFailures := hasExecutionFailures s;
     latestExecutionFailure := latestExecutionFailure s;
     recoveryController := recoveryController s; pendingRecoveryReason :=
     pendingRecoveryReason s; pendingRecoveryBackoffMs :=
     pendingRecoveryBackoffMs s; forceFinalizeRequested :=
     forceFinalizeRequested s; forceFinalizeAttempted :=
     forceFinalizeAttempted s; runContinuationAttempts :=
     runContinuationAttempts s; forcedRunRecoveryAttempted :=
     forcedRunRecoveryAttempted s; processedMessages := processedMessages
     s; collectedToolOutputs := collectedToolOutputs s; cumulativeUsage :=
     cumulativeUsage s; summary := summary s; subAgentPlan := subAgentPlan
     s; stream := stream s; suspendedFinalize := suspendedFinalize s; now
     := v; generatedIds := generatedIds s; written := written s; segments
     := segments s; thrown := thrown s |}.

Definition set_generatedIds (v : nat) (s : RunState) : RunState :=
  {|
     progressCounter := progressCounter s; firstCommentaryAt :=
     firstCommentaryAt s; lastCommentaryPhase := lastCommentaryPhase s;
     commentaryHeartbeat := commentaryHeartbeat s;
     streamRecoveryMonitoring := streamRecoveryMonitoring s;
     activeStreamAbortController := activeStreamAbortController s;
     recoveryTriggered := recoveryTriggered s; recoverySucceeded :=
     recoverySucceeded s; completionEmitted := completionEmitted s;
     hasExecutionFailures := hasExecutionFailures s;
     latestExecutionFailure := latestExecutionFailure s;
     recoveryController := recoveryController s; pendingRecoveryReason :=
     pendingRecoveryReason s; pendingRecoveryBackoffMs :=
     pendingRecoveryBackoffMs s; forceFinalizeRequested :=
     forceFinalizeRequested s; forceFinalizeAttempted :=
     forceFinalizeAttempted s; runContinuationAttempts :=
     runContinuationAttempts s; forcedRunRecoveryAttempted :=
     forcedRunRecoveryAttempted s; processedMessages := processedMessages
     s; collectedToolOutputs := collectedToolOutputs s; cumulativeUsage :=
     cumulativeUsage s; summary := summary s; subAgentPlan := subAgentPlan
     s; stream := stream s; suspendedFinalize := suspendedFinalize s; now
     := now s; generatedIds := v; written := written s; segments :=
     segments s; thrown := thrown s |}.

Definition set_written (v : list StreamPart) (s : RunState) : RunState :=
  {|
     progressCounter := progressCounter s; firstCommentaryAt :=
     firstCommentaryAt s; lastCommentaryPhase := lastCommentaryPhase s;
     commentaryHeartbeat := commentaryHeartbeat s;
     streamRecoveryMonitoring := streamRecoveryMonitoring s;
     activeStreamAbortController := activeStreamAbortController s;
     recoveryTriggered := recoveryTriggered s; recoverySucceeded :=
     recoverySucceeded s; completionEmitted := completionEmitted s;
     hasExecutionFailures := hasExecutionFailures s;
     latestExecutionFailure := latestExecutionFailure s;
     recoveryController := recoveryController s; pendingRecoveryReason :=
     pendingRecoveryReason s; pendingRecoveryBackoffMs :=
     pendingRecoveryBackoffMs s; forceFinalizeRequested :=
     forceFinalizeRequested s; forceFinalizeAttempted :=
     forceFinalizeAttempted s; runContinuationAttempts :=
     runContinuationAttempts s; forcedRunRecoveryAttempted :=
     forcedRunRecoveryAttempted s; processedMessages := processedMessages
     s; collectedToolOutputs := collectedToolOutputs s; cumulativeUsage :=
     cumulativeUsage s; summary := summary s; subAgentPlan := subAgentPlan
     s; stream := stream s; suspendedFinalize := suspendedFinalize s; now
     := now s; generatedIds := generatedIds s; written := v; segments :=
     segments s; thrown := thrown s |}.

Definition set_segments (v : list Segment) (s : RunState) : RunState :=
  {|
     progressCounter := progressCounter s; firstCommentaryAt :=
     firstCommentaryAt s; lastCommentaryPhase := lastCommentaryPhase s;
     commentaryHeartbeat := commentaryHeartbeat s;
     streamRecoveryMonitoring := streamRecoveryMonitoring s;
     activeStreamAbortController := activeStreamAbortController s;
     recoveryTriggered := recoveryTriggered s; recoverySucceeded :=
     recoverySucceeded s; completionEmitted := completionEmitted s;
     hasExecutionFailures := hasExecutionFailures s;
     latestExecutionFailure := latestExecutionFailure s;
     recoveryController := recoveryController s; pendingRecoveryReason :=
     pendingRecoveryReason s; pendingRecoveryBackoffMs :=
     pendingRecoveryBackoffMs s; forceFinalizeRequested :=
     forceFinalizeRequested s; forceFinalizeAttempted :=
     forceFinalizeAttempted s; runContinuationAttempts :=
     runContinuationAttempts s; forcedRunRecoveryAttempted :=
     forcedRunRecoveryAttempted s; processedMessages := processedMessages
     s; collectedToolOutputs := collectedToolOutputs s; cumulativeUsage :=
     cumulativeUsage s; summary := summary s; subAgentPlan := subAgentPlan
     s; stream := stream s; suspendedFinalize := suspendedFinalize s; now
     := now s; generatedIds := generatedIds s; written := written s;
     segments := v; thrown := thrown s |}.

Definition set_thrown (v : option string) (s : RunState) : RunState :=
  {|
     progressCounter := progressCounter s; firstCommentaryAt :=
     firstCommentaryAt s; lastCommentaryPhase := lastCommentaryPhase s;
     commentaryHeartbeat := commentaryHeartbeat s;
     streamRecoveryMonitoring := streamRecoveryMonitoring s;
     activeStreamAbortController := activeStreamAbortController s;
     recoveryTriggered := recoveryTriggered s; recoverySucceeded :=
     recoverySucceeded s; completionEmitted := completionEmitted s;
     hasExecutionFailures := hasExecutionFailures s;
     latestExecutionFailure := latestExecutionFailure s;
     recoveryController := recoveryController s; pendingRecoveryReason :=
     pendingRecoveryReason s; pendingRecoveryBackoffMs :=
     pendingRecoveryBackoffMs s; forceFinalizeRequested :=
     forceFinalizeRequested s; forceFinalizeAttempted :=
     forceFinalizeAttempted s; runContinuationAttempts :=
     runContinuationAttempts s; forcedRunRecoveryAttempted :=
     forcedRunRecoveryAttempted s; processedMessages := processedMessages
     s; collectedToolOutputs := collectedToolOutputs s; cumulativeUsage :=
     cumulativeUsage s; summary := summary s; subAgentPlan := subAgentPlan
     s; stream := stream s; suspendedFinalize := suspendedFinalize s; now
     := now s; generatedIds := generatedIds s; written := written s;
     segments := segments s; thrown := v |}.


(** *** Sequencing of statements over the run state *)

Definition Step : Type := RunState -> RunState.

Definition skip : Step := fun s => s.

Definition andThen (f g : Step) : Step := fun s => g (f s).

Definition when (b : bool) (f : Step) : Step := if b then f else skip.

Definition reading {A : Type} (get : RunState -> A) (k : A -> Step) : Step :=
  fun s => k (get s) s.

Local Notation "f ;; g" := (andThen f g) (at level 62, right associativity).

(** Truthiness of the values the handlers test. *)
Definition nonEmpty (v : string) : bool := negb (String.eqb v EmptyString).

Definition truthy (v : option string) : bool :=
  match v with
  | Some t => nonEmpty t
  | None => false
  end.

Definition stringOr (a : string) (b : string) : string :=
  if nonEmpty a then a else b.

Definition optionOr (a : option string) (b : string) : string :=
  match a with
  | Some t => stringOr t b
  | None => b
  end.

Definition isNone {A : Type} (v : option A) : bool :=
  match v with
  | Some _ => false
  | None => true
  end.

(** *** The data stream *)

Definition writeData (part : StreamPart) : Step :=
  reading written (fun w => set_written (w ++ [part])).

Definition writeMessageAnnotation (part : StreamPart) : Step :=
  reading written (fun w => set_written (w ++ [part])).

Definition writeAll (parts : list StreamPart) : Step :=
  fun s => fold_left (fun acc part => writeData part acc) parts s.

(** [dataStream.writeData({type: 'progress', ..., order: progressCounter++})] *)
Definition writeProgress (label : string) (status : ProgressStatus)
    (message : string) : Step :=
  reading progressCounter (fun order =>
    set_progressCounter (S order) ;;
    writeData (progress {| label := label; p_status := status;
                           p_order := order; p_message := message |})).

(** *** Commentary and its heartbeat *)

Definition stopCommentaryHeartbeat : Step :=
  reading commentaryHeartbeat (fun running =>
    when running (set_commentaryHeartbeat false)).

(** [streamRecovery?.updateActivity()]: the idle clock of the stream
    recovery manager is not part of the run state. *)
Definition markRunActivity : Step := skip.

Definition writeCommentary (phase : AgentCommentaryPhase) (message : string)
    (status : CommentaryStatus) (detail : option string) : Step :=
  reading firstCommentaryAt (fun first =>
    when (isNone first)
      (reading now (fun t => set_firstCommentaryAt (Some t)))) ;;
  set_lastCommentaryPhase phase ;;
  reading progressCounter (fun order =>
    set_progressCounter (S order) ;;
    let fallbackMessage :=
      stringOr message "I am still working and will post another update shortly." in
    let effectiveMessage :=
      match status with
      | in_progress =>
          getCommentaryPoolMessage phase
            (requestStartedAt + Z.of_nat order) fallbackMessage
      | _ => fallbackMessage
      end in
    let contracted := enforceCommentaryContract phase effectiveMessage detail in
    reading now (fun t =>
      writeData (agent_commentary
                   {| c_phase := phase; c_status := status; c_order := order;
                      c_message := fst contracted; c_timestamp := t;
                      c_detail := snd contracted |}))).

Definition startCommentaryHeartbeat : Step :=
  reading commentaryHeartbeat (fun running =>
    when (negb running) (set_commentaryHeartbeat true)).

(** The callback of the heartbeat's [setInterval]. *)
Definition commentaryHeartbeatCallback : Step :=
  reading now (fun t =>
  reading lastCommentaryPhase (fun lastPhase =>
    let heartbeat :=
      buildCommentaryHeartbeat (t - requestStartedAt) lastPhase in
    writeCommentary (hb_phase heartbeat) (hb_message heartbeat) in_progress
      (Some (hb_detail heartbeat)))).

(** *** Completion events *)

Definition emitRunCompletionEvents (finalAssistantText model provider : string)
  : Step :=
  reading completionEmitted (fun emitted =>
    if emitted then skip
    else
      stopCommentaryHeartbeat ;;
      set_completionEmitted true ;;
      reading (fun s => s) (fun s =>
        let commentaryFirstEventLatencyMs :=
          match firstCommentaryAt s with
          | None => None
          | Some first => Some (first - requestStartedAt)%Z
          end in
        let projectMemoryEntry :=
          upsertProjectMemory projectKey latestUserGoal
            (optionOr (summary s) finalAssistantText) in
        let aggregate :=
          recordAgentRunMetrics runId provider model
            commentaryFirstEventLatencyMs (recoveryTriggered s)
            (recoverySucceeded s) manualInterventionDetected (now s) in
        writeData (usage_data {| u_usage := cumulativeUsage s; u_timestamp := now s |}) ;;
        writeMessageAnnotation (annotation_usage (cumulativeUsage s)) ;;
        writeData (run_metrics
                     {| m_runId := runId; m_provider := provider;
                        m_model := model;
                        m_commentaryFirstEventLatencyMs := commentaryFirstEventLatencyMs;
                        m_recoveryTriggered := recoveryTriggered s;
                        m_recoverySucceeded := recoverySucceeded s;
                        m_manualIntervention := manualInterventionDetected;
                        m_timestamp := now s; m_aggregate := aggregate |}) ;;
        writeData (project_memory projectMemoryEntry) ;;
        writeProgress "response" p_complete
          (if hasExecutionFailures s
           then "Response Generated (with execution failures)"
           else "Response Generated"))).

(** *** Monitors *)

Definition createStreamAbortSignal : Step :=
  set_activeStreamAbortController (Some false).

Definition stopRunMonitors : Step :=
  set_streamRecoveryMonitoring false ;;
  stopCommentaryHeartbeat ;;
  set_activeStreamAbortController None.

(** Merging a recovery signal into the pending recovery, flagging the
    recovery and announcing it: the statements [onTimeout] and
    [onStepFinish] both run on a signal. *)
Definition mergeRecoverySignal (signal : RecoverySignal) : Step :=
  reading pendingRecoveryReason (fun pending =>
    set_pendingRecoveryReason
      (if truthy pending then pending else Some (reason signal))) ;;
  reading pendingRecoveryBackoffMs (fun pending =>
    set_pendingRecoveryBackoffMs (Nat.max pending (backoffMs signal))) ;;
  reading forceFinalizeRequested (fun requested =>
    set_forceFinalizeRequested (requested || forceFinalize signal)) ;;
  set_recoveryTriggered true ;;
  writeCommentary recovery (sig_message signal) warning (sig_detail signal).

(** The [onTimeout] callback of the stream recovery manager. *)
Definition onTimeout : Step :=
  reading recoveryController (fun rc =>
    let '(rc', signal) := registerTimeout rc in
    set_recoveryController rc' ;;
    mergeRecoverySignal signal ;;
    reading activeStreamAbortController (fun controller =>
      match controller with
      | Some false => set_activeStreamAbortController (Some true)
      | _ => skip
      end)).

(** *** Conversation and backend calls *)

Definition MAX_RUN_CONTINUATION_ATTEMPTS : nat := 5.

(** [processedMessages.push({ id: generateId(), role, content })] *)
Definition pushMessage (role : Role) (content : string) : Step :=
  reading generatedIds (fun n =>
    set_generatedIds (S n) ;;
    reading processedMessages (fun messages =>
      set_processedMessages
        (messages ++ [ {| id := generateId n; role := role;
                          content := content |} ]))).

(** [streamText({ messages: [...processedMessages], options, ... })] followed
    by [markRunActivity()] and [result.mergeIntoDataStream(dataStream)]. *)
Definition issueSegment (origin : SegmentOrigin) (options : SegmentOptions) : Step :=
  createStreamAbortSignal ;;
  reading processedMessages (fun messages =>
    reading segments (fun issued =>
      set_segments (issued ++ [ {| seg_origin := origin; seg_options := options;
                                   seg_messages := messages |} ]))) ;;
  markRunActivity.

Definition isUser (m : Message) : bool :=
  match role m with
  | user => true
  | _ => false
  end.

(** [processedMessages.filter((x) => x.role == 'user').slice(-1)[0]] *)
Definition lastUserMessage (messages : list Message) : option Message :=
  List.last (map Some (filter isUser messages)) None.

(** [Array.prototype.join] *)
Fixpoint joinWith (sep : string) (l : list string) : string :=
  match l with
  | [] => EmptyString
  | [x] => x
  | x :: r => (x ++ sep ++ joinWith sep r)%string
  end.

(** [l.slice(-n)] *)
Definition lastN {A : Type} (n : nat) (l : list A) : list A :=
  skipn (List.length l - n) l.

Definition envelope (model provider : string) : string :=
  ("[Model: " ++ model ++ "]" ++ nl ++ nl ++
   "[Provider: " ++ provider ++ "]" ++ nl ++ nl)%string.

Definition buildForcedRunRecoveryPrompt (provider model originalRequest : string)
  : string :=
  (envelope model provider ++
   joinWith nl
     [ "Forced recovery mode: previous attempts did not produce a runnable implementation.";
       "Continue from the current project state and execute the original request now.";
       "";
       "Original request:";
       originalRequest;
       "";
       "Hard requirements (must follow exactly):";
       "1) Emit exactly one <boltArtifact> with executable <boltAction> steps.";
       "2) Do NOT run inspection-only commands (ls, pwd, cat, find, tree, env, echo).";
       "3) Do NOT re-scaffold if package.json already exists.";
       "4) First meaningful actions must be <boltAction type=" ++ dq ++ "file" ++ dq ++
         "> updates that implement the requested features.";
       "5) If dependencies are missing, run a single install command.";
       "6) Include a <boltAction type=" ++ dq ++ "start" ++ dq ++
         "> command to run the dev server.";
       "7) If preview still shows fallback starter text, replace src/App.tsx (or equivalent root UI entry) immediately.";
       "8) Keep prose short; focus on executable steps and completion." ])%string.

Definition finalAnswerPrompt (model provider : string)
    (pendingRecoveryReason : option string) (toolSummary : string) : string :=
  (envelope model provider ++
   joinWith nl
     [ "You already gathered tool outputs. Now provide the final answer without any more tool calls.";
       "If the user asked for a markdown file, create it using <boltAction type=" ++
         dq ++ "file" ++ dq ++ ">.";
       match pendingRecoveryReason with
       | Some r =>
           if nonEmpty r
           then "Recovery reason: " ++ r ++ ". Summarize progress and continue."
           else ""
       | None => ""
       end;
       "";
       "Tool outputs:";
       toolSummary ])%string.

Definition runContinuationPrompt (model provider lastUserContent : string)
    (runContinuationAttempts : nat) : string :=
  (envelope model provider ++
   joinWith nl
     [ "You scaffolded a project but did not complete the requested implementation.";
       "Continue now and do ALL of the following:";
       "1) continue from the current project files (do NOT re-run create-vite/create-react-app if package.json already exists).";
       "2) implement the requested product requirements from the original user request:";
       "   " ++ lastUserContent;
       "3) install dependencies only if missing.";
       "4) include a <boltAction type=" ++ dq ++ "start" ++ dq ++
         "> command that launches the dev server.";
       "5) if a command fails, self-heal and retry with a corrected command.";
       "6) your response must start with executable <boltAction> steps (no plan-only prose).";
       "7) if preview still shows the starter, replace src/App.tsx (or equivalent entry UI file) with the requested implementation.";
       "8) keep the final response concise and execution-focused.";
       "9) do NOT run inspection-only commands (ls, pwd, cat, find, tree, env) as standalone steps.";
       "10) your first meaningful action must implement feature code files for the original request.";
       if (2 <=? runContinuationAttempts)%nat
       then "11) this is the final continuation attempt: skip diagnostics and apply implementation changes immediately."
       else "";
       "" ])%string.

Definition continuePrompt (model provider : string) : string :=
  (envelope model provider ++ CONTINUE_PROMPT)%string.

Definition addUsage (u : option Usage) : Step :=
  match u with
  | Some u =>
      reading cumulativeUsage (fun total =>
        set_cumulativeUsage (addUsageTotals total u))
  | None => skip
  end.

(** *** [onStepFinish] *)

Definition onStepFinish (toolCalls : list ToolCall)
    (toolResults : option (list ToolResult)) : Step :=
  let normalizedToolResults :=
    match toolResults with Some l => l | None => [] end in
  let collected := List.length normalizedToolResults in
  markRunActivity ;;
  writeAll (map tool_call_annotation (flat_map processToolCall toolCalls)) ;;
  when ((0 <? List.length toolCalls) || (0 <? collected))
    (let toolNames := joinWith ", " (map toolName toolCalls) in
     writeCommentary verification
       "I finished a step and I am checking the result before continuing."
       in_progress
       (Some (if nonEmpty toolNames
              then "Key changes: Finished actions (" ++ toolNames ++
                   ") and collected " ++ string_of_nat collected ++ " updates." ++ nl ++
                   "Next: I am confirming everything still works before the next step."
              else "Key changes: Finished one step and collected " ++
                   string_of_nat collected ++ " updates." ++ nl ++
                   "Next: I am confirming everything still works before moving on.")%string)) ;;
  writeAll (map checkpoint
              (extractCheckpointEvents toolCalls normalizedToolResults)) ;;
  match extractExecutionFailure toolCalls normalizedToolResults with
  | Some executionFailure =>
      set_hasExecutionFailures true ;;
      set_latestExecutionFailure (Some executionFailure) ;;
      set_recoveryTriggered true ;;
      writeCommentary recovery
        "A step failed. I am checking it now and applying a fix automatically."
        warning
        (Some ("Key changes: One of the recent actions did not succeed." ++ nl ++
               "Next: I will recover and continue from the latest stable point.")%string)
  | None => skip
  end ;;
  reading recoveryController (fun rc =>
    let '(rc', recoverySignal) :=
      analyzeStep rc (map (fun call => (toolName call, args call)) toolCalls)
        collected in
    set_recoveryController rc' ;;
    match recoverySignal with
    | Some signal => mergeRecoverySignal signal
    | None => skip
    end) ;;
  reading collectedToolOutputs (fun outputs =>
    set_collectedToolOutputs
      (outputs ++ map stringifyToolResult normalizedToolResults)).

(** *** The end of a run: recovery bookkeeping, last commentary, completion *)

Definition recoveryFinishedDetail : string :=
  ("Key changes: Recovery completed and the workflow is stable again." ++ nl ++
   "Next: I am sending the final result now.")%string.

(** The statements that close a run.  They stand twice in the source: in
    the [onFinish] of [finalizeOptions], and in the [onFinish] of [options]
    for a finish that is not a length finish. *)
Definition concludeRun (finalText model provider : string) : Step :=
  reading pendingRecoveryReason (fun pending =>
    when (truthy pending)
      (set_recoverySucceeded true ;;
       writeCommentary recovery "Recovery finished successfully." recovered
         (Some recoveryFinishedDetail) ;;
       set_pendingRecoveryReason None ;;
       set_pendingRecoveryBackoffMs 0 ;;
       set_forceFinalizeRequested false)) ;;
  reading (fun s => hasExecutionFailures s && negb (isNone (latestExecutionFailure s)))
    (fun failures =>
       if failures
       then writeCommentary next_step
              "Work finished, but one step still needs attention." warning
              (Some ("Key changes: A previous step did not finish successfully." ++ nl ++
                     "Next: I am returning clear recovery instructions to help you resolve it quickly.")%string)
       else writeCommentary next_step
              "Final response generated and ready for delivery." complete None) ;;
  stopRunMonitors ;;
  emitRunCompletionEvents finalText model provider.

(** The [onFinish] of [finalizeOptions]; [model] and [provider] are the
    variables of the enclosing [onFinish] it closes over. *)
Definition finalizeOnFinish (finalContent : string) (finalizeUsage : option Usage)
    (model provider : string) : Step :=
  addUsage finalizeUsage ;;
  concludeRun finalContent model provider.

(** *** [onFinish] of the run's [options] *)

(** The forced final answer, from the statement after the recovery pause. *)
Definition finalizeAfterPause (content model provider : string) : Step :=
  reading pendingRecoveryReason (fun pending =>
    writeCommentary next_step
      (if truthy pending
       then "Recovery is complete. I am preparing your final answer now."
       else "Execution is complete. I am preparing your final answer now.")
      (if truthy pending then recovered else in_progress)
      None) ;;
  reading collectedToolOutputs (fun outputs =>
  reading pendingRecoveryReason (fun pending =>
    let toolSummary :=
      match outputs with
      | [] => "(no tool results captured)"
      | _ => joinWith nl (lastN 6 outputs)
      end in
    pushMessage assistant content ;;
    pushMessage user (finalAnswerPrompt model provider pending toolSummary))) ;;
  issueSegment finalizeSegment (finalizeOptions model provider).

Definition isLength (r : FinishReason) : bool :=
  match r with
  | fr_length => true
  | _ => false
  end.

Definition isToolCalls (r : FinishReason) : bool :=
  match r with
  | fr_tool_calls => true
  | _ => false
  end.

(** [chatMode || 'build'] *)
Definition chatModeOrBuild : ChatMode :=
  match chatMode with
  | Some m => m
  | None => build
  end.

Definition isBuild (m : ChatMode) : bool :=
  match m with
  | build => true
  | discuss => false
  end.

(** The part of [onFinish] after the forced-finalize branch. *)
Definition continueOrComplete (content : string) (finishReason : FinishReason)
    (model provider lastUserContent : string) : Step :=
  reading runContinuationAttempts (fun attempts =>
  reading forcedRunRecoveryAttempted (fun forcedAttempted =>
    let runContinuationDecision :=
      analyzeRunContinuation chatModeOrBuild lastUserContent content false
        attempts in
    let continuationLimitReached := MAX_RUN_CONTINUATION_ATTEMPTS <=? attempts in
    let shouldContinueForRunIntent :=
      shouldContinue runContinuationDecision && negb continuationLimitReached in
    if shouldContinueForRunIntent then
      set_runContinuationAttempts (attempts + 1) ;;
      writeCommentary recovery
        "I detected that setup finished but the app did not start yet. I will continue automatically."
        warning
        (Some ("Key changes: Continuation triggered (" ++
               decisionReason runContinuationDecision ++ ", attempt " ++
               string_of_nat (attempts + 1) ++ "/" ++
               string_of_nat MAX_RUN_CONTINUATION_ATTEMPTS ++
               "). I detected a starter/bootstrap-only response." ++ nl ++
               "Next: I will continue from the existing project state, implement the requested app, and run it.")%string) ;;
      pushMessage assistant content ;;
      pushMessage user
        (runContinuationPrompt model provider lastUserContent (attempts + 1)) ;;
      issueSegment runContinuationSegment mainOptions
    else if shouldContinue runContinuationDecision && continuationLimitReached
            && negb forcedAttempted && isBuild chatModeOrBuild then
      set_forcedRunRecoveryAttempted true ;;
      writeCommentary recovery
        "Automatic recovery is escalating because previous attempts did not produce implementation steps."
        warning
        (Some ("Key changes: Escalated continuation recovery after " ++
               string_of_nat attempts ++ " attempts (" ++
               decisionReason runContinuationDecision ++ ")." ++ nl ++
               "Next: I will force a file-first implementation response and relaunch preview from the existing project state.")%string) ;;
      pushMessage assistant content ;;
      pushMessage user (buildForcedRunRecoveryPrompt provider model lastUserContent) ;;
      issueSegment forcedRunRecoverySegment mainOptions
    else if negb (isLength finishReason) then
      concludeRun content model provider
    else
      reading stream (fun stream =>
        if MAX_RESPONSE_SEGMENTS <=? switches stream then
          set_thrown (Some "Cannot continue message: Maximum segments reached")
        else
          pushMessage assistant content ;;
          pushMessage user (continuePrompt model provider) ;;
          issueSegment lengthContinuationSegment mainOptions))).

Definition onFinish (content : string) (finishReason : FinishReason)
    (usage : option Usage) : Step :=
  addUsage usage ;;
  reading (fun s => s) (fun s =>
    let extractedLastUser :=
      extractPropertiesFromMessage (lastUserMessage (processedMessages s)) in
    let model := ex_model extractedLastUser in
    let provider := ex_provider extractedLastUser in
    let lastUserContent := ex_content extractedLastUser in
    let shouldForceFinalize :=
      isToolCalls finishReason || forceFinalizeRequested s in
    if shouldForceFinalize && negb (forceFinalizeAttempted s) then
      set_forceFinalizeAttempted true ;;
      if 0 <? pendingRecoveryBackoffMs s then
        writeCommentary recovery
          "I am taking a short recovery pause before the next step." warning
          (Some ("Key changes: A quick safety pause is in progress." ++ nl ++
                 "Next: I will continue automatically right after this pause.")%string) ;;
        set_suspendedFinalize
          (Some {| sf_content := content; sf_model := model;
                   sf_provider := provider |})
      else finalizeAfterPause content model provider
    else continueOrComplete content finishReason model provider lastUserContent).

(** [onFinish] resumes once the timer of its recovery pause has fired. *)
Definition resumeFinalize : Step :=
  reading suspendedFinalize (fun suspended =>
    match suspended with
    | Some f =>
        set_suspendedFinalize None ;;
        finalizeAfterPause (sf_content f) (sf_model f) (sf_provider f)
    | None => skip
    end).

(** *** The statements of [execute] before the first backend call *)

Definition parseBooleanEnv (value : option string) (fallback : bool) : bool :=
  match value with
  | None => fallback
  | Some v =>
      let normalized := toLowerCase (trim v) in
      if existsb (String.eqb normalized) ["1"; "true"; "yes"; "on"] then true
      else if existsb (String.eqb normalized) ["0"; "false"; "no"; "off"] then false
      else fallback
  end.

Inductive SubAgentState : Type :=
  | sa_pending | sa_planning | sa_executing | sa_complete | sa_failed.

Definition beginRun : Step :=
  writeCommentary plan
    "I am reviewing your request and mapping out the first steps." in_progress None ;;
  startCommentaryHeartbeat.

Definition optimizesContext : bool :=
  (0 <? filePathsCount) && contextOptimization.

Definition summaryStarts : Step :=
  when optimizesContext
    (writeCommentary plan
       "I am quickly summarizing recent context so I can stay on track."
       in_progress None ;;
     writeProgress "summary" p_in_progress "Analysing Request").

Definition summaryReturns (summaryText : option string) (usage : option Usage)
  : Step :=
  when optimizesContext
    (addUsage usage ;;
     set_summary summaryText ;;
     writeProgress "summary" p_complete "Analysis Complete" ;;
     reading processedMessages (fun messages =>
       writeMessageAnnotation
         (annotation_chatSummary summaryText
            (option_map id (List.last (map Some messages) None)))) ;;
     writeCommentary plan
       "I am selecting the files that matter for this task." in_progress None ;;
     writeProgress "context" p_in_progress "Determining Files to Read").

Definition contextReturns (files : list string) (usage : option Usage) : Step :=
  when optimizesContext
    (addUsage usage ;;
     writeMessageAnnotation (annotation_codeContext files) ;;
     writeProgress "context" p_complete "Code Files Selected").

Definition plannerModelForPolicy (plannerModel : option string) : string :=
  optionOr plannerModel (optionOr selectedModel EmptyString).

Definition shouldRunPlanner (plannerModel : option string) : bool :=
  let plannerEnabled := parseBooleanEnv BOLT_PLANNER_SUBAGENT_ENABLED true in
  let plannerLongThinkEnabled :=
    parseBooleanEnv BOLT_PLANNER_LONG_THINK_ENABLED false in
  let plannerIsLongThink :=
    StreamTimeout.LONG_THINK_MODEL_RE_test (plannerModelForPolicy plannerModel) in
  plannerEnabled && (negb plannerIsLongThink || plannerLongThinkEnabled).

Definition planningStarts (plannerModel : option string) : Step :=
  match chatMode with
  | Some build =>
      writeCommentary plan
        "I am drafting a clear step-by-step plan before coding." in_progress None ;;
      when (negb (shouldRunPlanner plannerModel))
        (let skipReason :=
           if negb (parseBooleanEnv BOLT_PLANNER_SUBAGENT_ENABLED true)
           then "Planner helper is disabled by runtime config."
           else ("Planner helper is skipped for long-think model " ++
                 stringOr (plannerModelForPolicy plannerModel) "unknown model" ++
                 " to keep execution responsive.")%string in
         writeCommentary plan
           "I am moving straight into implementation for this run." in_progress
           (Some ("Key changes: " ++ skipReason ++ nl ++
                  "Next: I am executing code actions directly and will stream progress checkpoints.")%string))
  | _ => skip
  end.

(** The [onProgress] callback handed to the planner. *)
Definition plannerProgress (state : SubAgentState) : Step :=
  match state with
  | sa_planning =>
      writeCommentary plan
        "I am breaking your request into practical steps." in_progress None
  | sa_executing =>
      writeCommentary plan
        "I am finalizing the plan and preparing to execute." in_progress None
  | _ => skip
  end.

Definition plannerReturns (success : bool) (output : option string)
    (tokenUsage : option Usage) (subAgentEvent : string) : Step :=
  addUsage tokenUsage ;;
  when (success && truthy output)
    (set_subAgentPlan output ;;
     writeData (sub_agent subAgentEvent) ;;
     writeCommentary plan
       "Planning is complete. I am moving into execution now." complete
       (Some (substring 0 260 (optionOr output EmptyString)))).

Definition plannerThrows : Step :=
  writeCommentary recovery
    "Planning helper had an issue, so I am continuing directly." warning
    (Some ("Key changes: The planning helper could not complete this step, so I switched to direct execution." ++ nl ++
           "Next: I am continuing with the main coding flow and will keep you updated.")%string).

Definition startExecution : Step :=
  writeProgress "response" p_in_progress "Generating Response" ;;
  writeCommentary action
    "I am now executing the plan and streaming progress as I go." in_progress None ;;
  issueSegment initialSegment mainOptions.

(** [stopHeartbeatIfRunning], which both error paths start with. *)
Definition stopHeartbeatIfRunning : Step := stopCommentaryHeartbeat.

(** *** A run as a sequence of callbacks

    Each action is one block of [execute] that runs without interruption:
    the statements between two [await]s, or one callback invoked by the
    backend, by a timer or by the planner. *)
Inductive Action : Type :=
  | ClockAdvances (t : Z)
  | BeginRun
  | SummaryStarts
  | SummaryReturns (summaryText : option string) (usage : option Usage)
  | ContextReturns (files : list string) (usage : option Usage)
  | PlanningStarts (plannerModel : option string)
  | PlannerProgress (state : SubAgentState)
  | PlannerReturns (success : bool) (output : option string)
      (tokenUsage : option Usage) (subAgentEvent : string)
  | PlannerThrows
  | StartExecution
  | HeartbeatFires
  | ChunkArrives
  | StreamTimesOut
  | StepFinishes (toolCalls : list ToolCall) (toolResults : option (list ToolResult))
  | SegmentFinishes (content : string) (finishReason : FinishReason)
      (usage : option Usage)
  | PauseEnds
  | FinalAnswerFinishes (finalContent : string) (usage : option Usage)
      (model provider : string)
  | StreamFails.

Definition perform (a : Action) : Step :=
  match a with
  | ClockAdvances t => set_now t
  | BeginRun => beginRun
  | SummaryStarts => summaryStarts
  | SummaryReturns summaryText usage => summaryReturns summaryText usage
  | ContextReturns files usage => contextReturns files usage
  | PlanningStarts plannerModel => planningStarts plannerModel
  | PlannerProgress state => plannerProgress state
  | PlannerReturns success output tokenUsage subAgentEvent =>
      plannerReturns success output tokenUsage subAgentEvent
  | PlannerThrows => plannerThrows
  | StartExecution => startExecution
  | HeartbeatFires =>
      reading commentaryHeartbeat (fun running =>
        when running commentaryHeartbeatCallback)
  | ChunkArrives => markRunActivity
  | StreamTimesOut =>
      reading streamRecoveryMonitoring (fun monitoring => when monitoring onTimeout)
  | StepFinishes toolCalls toolResults => onStepFinish toolCalls toolResults
  | SegmentFinishes content finishReason usage => onFinish content finishReason usage
  | PauseEnds => resumeFinalize
  | FinalAnswerFinishes finalContent usage model provider =>
      finalizeOnFinish finalContent usage model provider
  | StreamFails => stopHeartbeatIfRunning
  end.

Definition performAll (actions : list Action) (s : RunState) : RunState :=
  fold_left (fun acc a => perform a acc) actions s.

(** The run state when [execute] reaches its first commentary: the
    variables as declared, the stream recovery manager monitoring. *)
Definition initialState (messages : list Message) : RunState :=
  {| progressCounter := 1;
     firstCommentaryAt := None;
     lastCommentaryPhase := plan;
     commentaryHeartbeat := false;
     streamRecoveryMonitoring := true;
     activeStreamAbortController := None;
     recoveryTriggered := false;
     recoverySucceeded := false;
     completionEmitted := false;
     hasExecutionFailures := false;
     latestExecutionFailure := None;
     recoveryController := newAgentRecoveryController;
     pendingRecoveryReason := None;
     pendingRecoveryBackoffMs := 0;
     forceFinalizeRequested := false;
     forceFinalizeAttempted := false;
     runContinuationAttempts := 0;
     forcedRunRecoveryAttempted := false;
     processedMessages := messages;
     collectedToolOutputs := [];
     cumulativeUsage := {| completionTokens := 0; promptTokens := 0; totalTokens := 0 |};
     summary := None;
     subAgentPlan := None;
     stream := newSwitchableStream;
     suspendedFinalize := None;
     now := requestStartedAt;
     generatedIds := 0;
     written := [];
     segments := [];
     thrown := None |}.

Definition Reachable (messages : list Message) (s : RunState) : Prop :=
  exists actions, s = performAll actions (initialState messages).

(** The properties [onFinish] extracts from the last user message. *)
Definition lastUser (s : RunState) : ExtractedProperties :=
  extractPropertiesFromMessage (lastUserMessage (processedMessages s)).

(** [onFinish] gets as far as the continuation analyzer: no forced final
    answer is due. *)
Definition consultsAnalyzer (finishReason : FinishReason) (s : RunState) : bool :=
  negb ((isToolCalls finishReason || forceFinalizeRequested s)
        && negb (forceFinalizeAttempted s)).

(** Modelled from the spec: [analyzeRunContinuation] is not among the
    sources.  The spec has it say [shouldContinue] only when the user intent
    is an execution request, the answer is scaffold-only AND the chat mode
    is "build". *)
Definition AnalyzerContinuesOnlyInBuildMode : Prop :=
  forall mode lastUserContent assistantContent alreadyAttempted attemptCount,
    shouldContinue
      (analyzeRunContinuation mode lastUserContent assistantContent
         alreadyAttempted attemptCount) = true ->
    mode = build.

(** The segment limit has not been hit and no error has been thrown. *)
Definition NoSegmentLimitError (s : RunState) : Prop :=
  switches (stream s) < MAX_RESPONSE_SEGMENTS /\ thrown s = None.

(** The reading of a restart after a length finish that puts the continue
    prompt on every such restart: if [onFinish] issues a segment after a
    finish with reason [length], the two messages it pushed are the
    assistant text and the envelope with [CONTINUE_PROMPT]. *)
Definition LengthRestartUsesContinuePrompt (s : RunState) (content : string)
    (usage : option Usage) : Prop :=
  let s' := onFinish content fr_length usage s in
  segments s' <> segments s ->
  processedMessages s' =
    (processedMessages s ++
     [ {| id := generateId (generatedIds s); role := assistant; content := content |};
       {| id := generateId (S (generatedIds s)); role := user;
          content := continuePrompt (ex_model (lastUser s)) (ex_provider (lastUser s)) |} ])%list.

(** The two messages a restart pushes, with the ids they draw. *)
Definition restartMessages (s : RunState) (assistantText directive : string)
  : list Message :=
  [ {| id := generateId (generatedIds s); role := assistant;
       content := assistantText |};
    {| id := generateId (S (generatedIds s)); role := user;
       content := directive |} ].

(** From [s] to [s'] the run has restarted the backend: the two synthetic
    messages were appended to the conversation, the assistant message with
    [assistantText] and the user message with [directive], and one backend
    call was issued, with the conversation so extended. *)
Definition RestartedWith (s s' : RunState) (origin : SegmentOrigin)
    (options : SegmentOptions) (assistantText directive : string) : Prop :=
  processedMessages s' =
    (processedMessages s ++
     [ {| id := generateId (generatedIds s); role := assistant;
          content := assistantText |};
       {| id := generateId (S (generatedIds s)); role := user;
          content := directive |} ])%list /\
  segments s' =
    (segments s ++ [ {| seg_origin := origin; seg_options := options;
                        seg_messages := processedMessages s' |} ])%list.

(** *** What the properties of a run are stated with *)

(** A step keeps a property of the state, or leaves a component of the
    state as it is. *)
Definition Preserves (P : RunState -> Prop) (f : Step) : Prop :=
  forall s, P s -> P (f s).

Definition Unchanged {A : Type} (get : RunState -> A) (f : Step) : Prop :=
  forall s, get (f s) = get s.

(** The [order] fields of the commentary events on the stream, in emission
    order. *)
Definition commentaryOrders (w : list StreamPart) : list nat :=
  flat_map (fun part =>
              match part with
              | agent_commentary c => [c_order c]
              | _ => []
              end) w.

(** The parts of the completion batch. *)
Inductive CompletionPart : Type :=
  | usage_part | usage_annotation_part | run_metrics_part
  | project_memory_part | response_generated_part.

Definition isResponseComplete (label : string) (status : ProgressStatus) : bool :=
  String.eqb label "response" &&
  match status with
  | p_complete => true
  | p_in_progress => false
  end.

Definition isCompletionPart (k : CompletionPart) (part : StreamPart) : bool :=
  match k, part with
  | usage_part, usage_data _ => true
  | usage_annotation_part, annotation_usage _ => true
  | run_metrics_part, run_metrics _ => true
  | project_memory_part, project_memory _ => true
  | response_generated_part, progress p => isResponseComplete (label p) (p_status p)
  | _, _ => false
  end.

Definition countParts (k : CompletionPart) (w : list StreamPart) : nat :=
  List.length (filter (isCompletionPart k) w).

Definition sameOrigin (a b : SegmentOrigin) : bool :=
  match a, b with
  | initialSegment, initialSegment
  | finalizeSegment, finalizeSegment
  | runContinuationSegment, runContinuationSegment
  | forcedRunRecoverySegment, forcedRunRecoverySegment
  | lengthContinuationSegment, lengthContinuationSegment => true
  | _, _ => false
  end.

Definition countSegments (o : SegmentOrigin) (l : list Segment) : nat :=
  List.length (filter (fun seg => sameOrigin (seg_origin seg) o) l).

(** Commentary orders grow strictly along the stream and stay below the
    counter. *)
Definition OrdersIncrease (s : RunState) : Prop :=
  StronglySorted lt (commentaryOrders (written s)) /\
  Forall (fun o => o < progressCounter s) (commentaryOrders (written s)).

(** Each part of the completion batch is on the stream once if the batch
    has been emitted, and not at all otherwise. *)
Definition CompletionOnce (s : RunState) : Prop :=
  forall k, countParts k (written s) = if completionEmitted s then 1 else 0.

(** The continuation attempts stay within the ceiling, each of them issued
    one continuation segment, and the forced recovery segment was issued
    once if the flag is set and never otherwise. *)
Definition ContinuationsBounded (s : RunState) : Prop :=
  runContinuationAttempts s <= MAX_RUN_CONTINUATION_ATTEMPTS /\
  countSegments runContinuationSegment (segments s) = runContinuationAttempts s /\
  countSegments forcedRunRecoverySegment (segments s) =
    (if forcedRunRecoveryAttempted s then 1 else 0).

End WithExternals.

(** *** Collaborators and a request for the examples *)

Definition exampleSignal (unproductive : nat) (reason : string) : RecoverySignal :=
  {| reason := reason; backoffMs := 1500 * unproductive;
     forceFinalize := 3 <=? unproductive;
     sig_message := "I noticed the run stalled and I am recovering.";
     sig_detail := None |}.

Definition exampleExternals (maxSegments : nat)
    (analyze : ChatMode -> string -> string -> bool -> nat -> ContinuationDecision)
  : Externals nat :=
  {| MAX_RESPONSE_SEGMENTS := maxSegments;
     CONTINUE_PROMPT :=
       "Continue your prior response. IMPORTANT: Immediately begin from where you left off without any interruptions.";
     generateId := fun n => ("id-" ++ string_of_nat n)%string;
     getCommentaryPoolMessage := fun _ _ fallback => fallback;
     enforceCommentaryContract :=
       fun _ message detail =>
         (message, match detail with Some d => d | None => EmptyString end);
     buildCommentaryHeartbeat :=
       fun elapsed phase =>
         {| hb_phase := phase; hb_message := "Still working.";
            hb_detail := ("Elapsed: " ++ string_of_Z elapsed ++ "ms")%string |};
     analyzeRunContinuation := analyze;
     extractPropertiesFromMessage :=
       fun m =>
         {| ex_model := "gpt-4o"; ex_provider := "OpenAI";
            ex_content := match m with Some m => content m | None => EmptyString end |};
     addUsageTotals :=
       fun total u =>
         {| completionTokens := completionTokens total + completionTokens u;
            promptTokens := promptTokens total + promptTokens u;
            totalTokens := totalTokens total + totalTokens u |};
     newAgentRecoveryController := 0;
     registerTimeout := fun n => (S n, exampleSignal (S n) "stream-timeout");
     analyzeStep :=
       fun n calls results =>
         match calls, results with
         | [], 0 => (S n, Some (exampleSignal (S n) "no-progress"))
         | _, _ => (0, None)
         end;
     extractCheckpointEvents := fun _ _ => [];
     extractExecutionFailure := fun _ _ => None;
     processToolCall := fun call => [toolCallId call];
     stringifyToolResult := fun r => result r;
     upsertProjectMemory :=
       fun key goal summary =>
         {| pm_projectKey := key; pm_summary := summary; pm_architecture := EmptyString;
            pm_latestGoal := goal; pm_runCount := 1; pm_updatedAt := EmptyString |};
     recordAgentRunMetrics := fun runId _ _ _ _ _ _ _ => runId |}.

(** An analyzer that finds every build-mode answer scaffold-only, and one
    that never asks for a continuation. *)
Definition scaffoldOnly (mode : ChatMode) (lastUserContent assistantContent : string)
    (alreadyAttempted : bool) (attemptCount : nat) : ContinuationDecision :=
  {| shouldContinue := isBuild mode; decisionReason := "scaffold-only" |}.

Definition neverContinue (mode : ChatMode) (lastUserContent assistantContent : string)
    (alreadyAttempted : bool) (attemptCount : nat) : ContinuationDecision :=
  {| shouldContinue := false; decisionReason := "complete" |}.

Definition exampleRequest : Request :=
  {| chatMode := Some build;
     contextOptimization := false;
     filePathsCount := 0;
     selectedModel := Some "gpt-4o";
     requestStartedAt := 1000;
     runId := "run-1";
     projectKey := "project-1";
     latestUserGoal := "build a todo app";
     manualInterventionDetected := false;
     BOLT_PLANNER_SUBAGENT_ENABLED := Some "false";
     BOLT_PLANNER_LONG_THINK_ENABLED := None |}.

Definition exampleMessages : list Message :=
  [ {| id := "m1"; role := user; content := "build a todo app" |} ].

(** A run whose every answer the analyzer finds scaffold-only: [n]
    finishes of the backend after the first call. *)
Definition scaffoldRun (n : nat) : list Action :=
  BeginRun :: StartExecution ::
  repeat (SegmentFinishes "npm install" fr_stop None) n.

Definition scaffoldState (n : nat) : RunState :=
  performAll (ext := exampleExternals 2 scaffoldOnly) (req := exampleRequest)
    (scaffoldRun n)
    (initialState (ext := exampleExternals 2 scaffoldOnly) (req := exampleRequest)
       exampleMessages).

Definition exampleUsage : Usage :=
  {| completionTokens := 120; promptTokens := 900; totalTokens := 1020 |}.

(** A run whose backend segments all stop at the length limit: [n] finishes
    after the first call, with an analyzer that never asks to continue. *)
Definition lengthRun (n : nat) : list Action :=
  BeginRun :: StartExecution ::
  repeat (SegmentFinishes "partial output" fr_length None) n.

Definition lengthState (n : nat) : RunState :=
  performAll (ext := exampleExternals 2 neverContinue) (req := exampleRequest)
    (lengthRun n)
    (initialState (ext := exampleExternals 2 neverContinue) (req := exampleRequest)
       exampleMessages).

(** A run that completes, after which the backend reports two more
    finishes. *)
Definition completedRun : list Action :=
  [ BeginRun; PlanningStarts None; StartExecution; ClockAdvances 4000;
    HeartbeatFires; StreamTimesOut;
    StepFinishes [ {| toolName := "shell"; toolCallId := "call-1"; args := "ls" |} ]
      (Some [ {| tr_toolName := "shell"; tr_toolCallId := "call-1"; result := "ok" |} ]);
    SegmentFinishes "All done." fr_stop (Some exampleUsage);
    SegmentFinishes "All done, again." fr_stop None;
    FinalAnswerFinishes "Final." None "gpt-4o" "OpenAI" ].

Definition completedState : RunState :=
  performAll (ext := exampleExternals 2 neverContinue) (req := exampleRequest)
    completedRun
    (initialState (ext := exampleExternals 2 neverContinue) (req := exampleRequest)
       exampleMessages).

(** A run that fails: the backend stalls, the stream recovery manager times
    out and aborts the call, and the data stream reports the error to its
    [onError]; no [onFinish] is called for the aborted call. *)
Definition failedRun : list Action :=
  [ BeginRun; StartExecution; ClockAdvances 200000; StreamTimesOut; StreamFails ].

Definition failedState : RunState :=
  performAll (ext := exampleExternals 2 neverContinue) (req := exampleRequest)
    failedRun
    (initialState (ext := exampleExternals 2 neverContinue) (req := exampleRequest)
       exampleMessages).

(** A run whose backend has stalled once: a recovery with a backoff is
    pending. *)
Definition stalledState : RunState :=
  performAll (ext := exampleExternals 2 neverContinue) (req := exampleRequest)
    [ BeginRun; StartExecution; StreamTimesOut ]
    (initialState (ext := exampleExternals 2 neverContinue) (req := exampleRequest)
       exampleMessages).

(** The five parts of the completion batch. *)
Definition completionParts : list CompletionPart :=
  [ usage_part; usage_annotation_part; run_metrics_part; project_memory_part;
    response_generated_part ].

End Chat.

(* ===================================================================== *)
(** ** interactive-step-runner.ts: what a listener observes *)
(* ===================================================================== *)

Module StepRunnerEvents.
Import StepRunner.

(** The two event types that [#bufferStreamChunk] stores. *)
Definition isStreamType (t : InteractiveStepRunnerEventType) : bool :=
  match t with
  | stdout_t | stderr_t => true
  | _ => false
  end.

Definition sameType (a b : InteractiveStepRunnerEventType) : bool :=
  match a, b with
  | step_start, step_start | stdout_t, stdout_t | stderr_t, stderr_t
  | step_end, step_end | error_t, error_t | complete_t, complete_t
  | telemetry, telemetry => true
  | _, _ => false
  end.

(** [events.filter((e) => e.type === t).length], as the tests count. *)
Definition countType (t : InteractiveStepRunnerEventType)
    (events : list InteractiveStepRunnerEvent) : nat :=
  List.length (filter (fun ev => sameType (type ev) t) events).

(** A streamed event carries at most [MAX_STREAM_BUFFER_CHARS] characters of
    output. *)
Definition StreamOutputBounded (ev : InteractiveStepRunnerEvent) : Prop :=
  isStreamType (type ev) = true ->
  exists o, output ev = Some o /\ String.length o <= MAX_STREAM_BUFFER_CHARS.

(** [this.#socket?.readyState === WS_OPEN] at the [n]-th call of [#emit]. *)
Definition socketIsOpenAt (socket : option (nat -> Z)) (n : nat) : bool :=
  match socket with
  | Some readyState => Z.eqb (readyState n) WS_OPEN
  | None => false
  end.

(** Of the events dispatched from call [n] of [#emit] on, those at whose
    call the socket is open. *)
Fixpoint sentWhileOpen (socket : option (nat -> Z)) (n : nat)
    (events : list InteractiveStepRunnerEvent) : list InteractiveStepRunnerEvent :=
  match events with
  | [] => []
  | ev :: rest =>
      if socketIsOpenAt socket n then ev :: sentWhileOpen socket (S n) rest
      else sentWhileOpen socket (S n) rest
  end.

(** A socket that is connecting for the first [k] events and open from
    then on. *)
Definition opensAfter (k : nat) : option (nat -> Z) :=
  Some (fun n => if n <? k then 0%Z else WS_OPEN).

(** A [complete] event reports [total] steps. *)
Definition CompleteReports (total : nat) (ev : InteractiveStepRunnerEvent) : Prop :=
  type ev = complete_t -> totalSteps ev = Some total.

(** The events of the buffer are stream events within the bound. *)
Definition BufferWellFormed (r : Runner) : Prop :=
  Forall (fun kv => isStreamType (type (snd kv)) = true /\ StreamOutputBounded (snd kv))
         (streamBuffer r).

(** The flush timer is armed exactly when there is buffered output. *)
Definition TimerMatchesBuffer (r : Runner) : Prop :=
  streamFlushTimer r = true <-> streamBuffer r <> [].

(** [s.slice(k)]: [s] without its first [k] characters. *)
Fixpoint sliceFrom (k : nat) (s : string) : string :=
  match k, s with
  | S k', String _ r => sliceFrom k' r
  | _, _ => s
  end.

(** The chunks of a list one after the other. *)
Definition joinChunks (chunks : list string) : string :=
  fold_right append EmptyString chunks.

End StepRunnerEvents.

(* ===================================================================== *)
(** ** api.chat.ts: what holds of a run in every state it reaches *)
(* ===================================================================== *)

Module ChatInvariants.
Import Chat.

Section WithExternals.
Context {RC : Type} {ext : Externals RC} {req : Request}.

Local Abbreviation State := (@RunState RC).

(** The [order] fields of the commentary and progress events on the stream,
    in emission order: both draw them from [progressCounter]. *)
Definition eventOrders (w : list StreamPart) : list nat :=
  flat_map (fun part =>
              match part with
              | agent_commentary c => [c_order c]
              | progress p => [p_order p]
              | _ => []
              end) w.

Definition TimelineOrdered (s : State) : Prop :=
  StronglySorted lt (eventOrders (written s)) /\
  Forall (fun o => o < progressCounter s) (eventOrders (written s)).

(** A list of messages made of assistant/user pairs. *)
Fixpoint syntheticPairs (l : list Message) : bool :=
  match l with
  | [] => true
  | a :: u :: r =>
      match role a with assistant => true | _ => false end
      && isUser u && syntheticPairs r
  | _ => false
  end.

(** The backend calls other than the first one of [execute]. *)
Definition restarts (l : list Segment) : nat :=
  List.length (filter (fun seg => negb (sameOrigin (seg_origin seg) initialSegment)) l).

Definition lastSegment (l : list Segment) : option Segment :=
  List.last (map Some l) None.

(** The conversation is the client's messages followed by one
    assistant/user pair per restart, and the latest backend call was issued
    with all of it. *)
Definition ConversationAppendOnly (messages : list Message) (s : State) : Prop :=
  exists synthetic,
    processedMessages s = (messages ++ synthetic)%list /\
    syntheticPairs synthetic = true /\
    List.length synthetic = 2 * restarts (segments s) /\
    match lastSegment (segments s) with
    | Some seg => seg_messages seg = processedMessages s
    | None => synthetic = []
    end.

(** The forced final answer: issued or waiting for the end of its recovery
    pause exactly when [forceFinalizeAttempted] is set. *)
Definition FinalizeOnce (s : State) : Prop :=
  countSegments finalizeSegment (segments s) +
  (if isNone (suspendedFinalize s) then 0 else 1) =
  if forceFinalizeAttempted s then 1 else 0.

(** A run-metrics event does not report a recovery as succeeded without
    reporting it as triggered. *)
Definition metricsConsistent (part : StreamPart) : Prop :=
  match part with
  | run_metrics m => m_recoverySucceeded m = true -> m_recoveryTriggered m = true
  | _ => True
  end.

Definition RecoveryConsistent (s : State) : Prop :=
  (truthy (pendingRecoveryReason s) = true \/ recoverySucceeded s = true ->
   recoveryTriggered s = true) /\
  Forall metricsConsistent (written s).

(** The time of the first commentary is recorded exactly when a commentary
    has been written. *)
Definition FirstCommentaryRecorded (s : State) : Prop :=
  firstCommentaryAt s = None <-> commentaryOrders (written s) = [].

(** Nothing of the run is left running. *)
Definition RunIsClosed (s : State) : Prop :=
  completionEmitted s = true /\
  commentaryHeartbeat s = false /\
  streamRecoveryMonitoring s = false /\
  activeStreamAbortController s = None /\
  truthy (pendingRecoveryReason s) = false.

End WithExternals.
(** A run whose first backend segment stops for tool calls, so that the
    forced final answer is issued, and finishes. *)
Definition finalizedRun : list Action :=
  [ BeginRun; StartExecution;
    StepFinishes [ {| toolName := "shell"; toolCallId := "call-1"; args := "ls" |} ]
      (Some [ {| tr_toolName := "shell"; tr_toolCallId := "call-1"; result := "ok" |} ]);
    SegmentFinishes "Listing files." fr_tool_calls None;
    FinalAnswerFinishes "Here is the result." (Some exampleUsage) "gpt-4o" "OpenAI" ].

Definition finalizedState : RunState :=
  performAll (ext := exampleExternals 2 neverContinue) (req := exampleRequest)
    finalizedRun
    (initialState (ext := exampleExternals 2 neverContinue) (req := exampleRequest)
       exampleMessages).

End ChatInvariants.

(* ===================================================================== *)
(** ** app/lib/api/cookies.ts, and [parseCookies] of api.chat.ts *)
(* ===================================================================== *)

Module Cookies.
Import JsString Credentials.

(** [s.split(sep)] for a separator of one character: the pieces between
    the separators, at least one piece. *)
Fixpoint split (sep : ascii) (s : string) : list string :=
  match s with
  | EmptyString => [EmptyString]
  | String c r =>
      if Ascii.eqb c sep then EmptyString :: split sep r
      else
        match split sep r with
        | piece :: pieces => String c piece :: pieces
        | [] => [String c EmptyString]
        end
  end.

(** A [Record<string, string>] built by assignments: its own properties.
    [record[key] = value] adds or overwrites a property, except for the key
    [__proto__], which an object literal inherits as a setter that ignores
    strings. *)
Definition JsRecord : Type := list (string * string).

Definition recordSet (key value : string) (record : JsRecord) : JsRecord :=
  if String.eqb key "__proto__" then record
  else StepRunner.mapSet key value record.

Definition recordGet (key : string) (record : JsRecord) : option string :=
  StepRunner.mapGet key record.

Section WithHost.
(** [decodeURIComponent]: [None] when it throws a [URIError]. *)
Variable decodeURIComponent : string -> option string.
(** [Object.entries(JSON.parse(text))]: [None] when either throws.  A value
    that is not a string is any [JsValue] other than [JsString]. *)
Variable parseEntries : string -> option (list (string * JsValue)).

(** The body of [items.forEach] in cookies.ts; [None] when a decoding
    throws. *)
Definition storeItem (cookies : JsRecord) (item : string) : option JsRecord :=
  match split "=" item with
  | name :: rest =>
      if negb (String.eqb name EmptyString) && (0 <? List.length rest) then
        match decodeURIComponent (trim name) with
        | Some decodedName =>
            match decodeURIComponent (trim (Chat.joinWith "=" rest)) with
            | Some decodedValue => Some (recordSet decodedName decodedValue cookies)
            | None => None
            end
        | None => None
        end
      else Some cookies
  | [] => Some cookies
  end.

(** The body of [items.forEach] in api.chat.ts: [if (name && rest)], where
    [rest] is an array and so always truthy. *)
Definition storeItemChat (cookies : JsRecord) (item : string) : option JsRecord :=
  match split "=" item with
  | name :: rest =>
      if negb (String.eqb name EmptyString) then
        match decodeURIComponent (trim name) with
        | Some decodedName =>
            match decodeURIComponent (trim (Chat.joinWith "=" rest)) with
            | Some decodedValue => Some (recordSet decodedName decodedValue cookies)
            | None => None
            end
        | None => None
        end
      else Some cookies
  | [] => Some cookies
  end.

Fixpoint forEach (body : JsRecord -> string -> option JsRecord)
    (items : list string) (cookies : JsRecord) : option JsRecord :=
  match items with
  | [] => Some cookies
  | item :: rest =>
      match body cookies item with
      | Some cookies' => forEach body rest cookies'
      | None => None
      end
  end.

(** [parseCookies] of cookies.ts *)
Definition parseCookies (cookieHeader : option string) : option JsRecord :=
  match cookieHeader with
  | None => Some []
  | Some header =>
      if String.eqb header EmptyString then Some []
      else forEach storeItem (map trim (split ";" header)) []
  end.

(** [parseCookies] of api.chat.ts *)
Definition parseCookiesChat (cookieHeader : string) : option JsRecord :=
  forEach storeItemChat (map trim (split ";" cookieHeader)) [].

(** The loop of [getApiKeysFromCookie] over the entries of the parsed
    object. *)
Definition keepCredential (normalized : JsRecord) (entry : string * JsValue)
  : JsRecord :=
  match normalizeCredential (snd entry) with
  | Some credential =>
      if String.eqb credential EmptyString then normalized
      else recordSet (fst entry) credential normalized
  | None => normalized
  end.

Definition getApiKeysFromCookie (cookieHeader : option string) : option JsRecord :=
  match parseCookies cookieHeader with
  | Some cookies =>
      match recordGet "apiKeys" cookies with
      | Some apiKeys =>
          if String.eqb apiKeys EmptyString then Some []
          else
            match parseEntries apiKeys with
            | Some entries => Some (fold_left keepCredential entries [])
            | None => Some []
            end
      | None => Some []
      end
  | None => None
  end.

End WithHost.

(** The [Cookie] header a client sends for a list of name/value pairs:
    [name=value] items separated by a semicolon and a space. *)
Definition cookieItem (pair : string * string) : string :=
  (fst pair ++ "=" ++ snd pair)%string.

Definition cookieHeaderOf (pairs : list (string * string)) : string :=
  Chat.joinWith "; " (map cookieItem pairs).

(** A name or value as it stands in such a header: no semicolon, and no
    white space at either end. *)
Definition isCookieText (s : string) : bool :=
  allChars (fun c => negb (Ascii.eqb c ";")) s && String.eqb (trim s) s.

Definition isCookieName (s : string) : bool :=
  isCookieText s && negb (String.eqb s EmptyString) &&
  allChars (fun c => negb (Ascii.eqb c "=")) s.

(** A host for the examples: a decoder that knows [%3D], [%20] and [%22]
    and throws on any other percent sign, and a JSON parser that knows one
    text. *)
Fixpoint exampleDecode (s : string) : option string :=
  match s with
  | String c r =>
      if Ascii.eqb c "%" then
        match r with
        | String a (String b r') =>
            if String.eqb (String a (String b EmptyString)) "3D"
            then option_map (String "=") (exampleDecode r')
            else if String.eqb (String a (String b EmptyString)) "20"
            then option_map (String " ") (exampleDecode r')
            else if String.eqb (String a (String b EmptyString)) "22"
            then option_map (String (ascii_of_nat 34)) (exampleDecode r')
            else None
        | _ => None
        end
      else option_map (String c) (exampleDecode r)
  | EmptyString => Some EmptyString
  end.

Definition exampleApiKeysJson : string :=
  ("{" ++ dq ++ "OpenAI" ++ dq ++ ":" ++ dq ++ " sk-live-1 " ++ dq ++ "," ++
   dq ++ "Anthropic" ++ dq ++ ":" ++ dq ++ "your_api_key_here" ++ dq ++ "," ++
   dq ++ "Local" ++ dq ++ ":42}")%string.

Definition exampleParseEntries (text : string) : option (list (string * JsValue)) :=
  if String.eqb text exampleApiKeysJson
  then Some [ ("OpenAI", JsString " sk-live-1 ");
              ("Anthropic", JsString "your_api_key_here");
              ("Local", JsNumeric 42) ]
  else None.

Definition exampleCookieHeader : string :=
  ("theme=dark; apiKeys={%22OpenAI%22:%22%20sk-live-1%20%22,%22Anthropic%22:" ++
   "%22your_api_key_here%22,%22Local%22:42}")%string.

End Cookies.

(* ===================================================================== *)
(** ** The loader of the configured local providers *)
(* ===================================================================== *)

Module ConfiguredProviders.
Import JsString Credentials.

Inductive ConfigMethod : Type := environment | none.

Record ConfiguredProvider : Type := {
  name : string;
  isConfigured : bool;
  configMethod : ConfigMethod
}.

(** The two fields of a provider's [config] that the loader reads. *)
Record ProviderConfig : Type := {
  baseUrlKey : option string;
  apiTokenKey : option string
}.

(** An environment: the value under a name, [JsUndefined] when there is
    none (or when the environment itself is undefined). *)
Definition Environment : Type := string -> JsValue.

(** What the loader uses of the [LLMManager]. *)
Record LLMManager : Type := {
  getProvider : string -> option ProviderConfig;
  env : Environment
}.

(** Truthiness of a value of type [any]. *)
Definition truthy (v : JsValue) : bool :=
  match v with
  | JsUndefined | JsNull => false
  | JsBoolean b => b
  | JsNumeric z => negb (Z.eqb z 0)
  | JsString s => negb (String.eqb s EmptyString)
  end.

(** [a || b] *)
Definition jsOr (a b : JsValue) : JsValue := if truthy a then a else b.

(** [a || b] on the results of the credential helpers. *)
Definition orUndefined (a b : option string) : option string :=
  match a with
  | Some s => if String.eqb s EmptyString then b else a
  | None => b
  end.

Definition isSet (v : option string) : bool :=
  match v with
  | Some s => negb (String.eqb s EmptyString)
  | None => false
  end.

Section WithRequest.
(** [context?.cloudflare?.env] and [process.env]. *)
Variable cloudflareEnv : Environment.
Variable processEnv : Environment.

(** The body of the loop over [LOCAL_PROVIDERS]; the pair holds the
    variables [isConfigured] and [configMethod]. *)
Definition checkProvider (llmManager : LLMManager) (providerName : string)
  : ConfiguredProvider :=
  let state0 := (false, none) in
  let state2 :=
    match getProvider llmManager providerName with
    | Some config =>
        let state1 :=
          match baseUrlKey config with
          | Some baseUrlEnvVar =>
              if negb (String.eqb baseUrlEnvVar EmptyString) then
                let envBaseUrl :=
                  orUndefined
                    (orUndefined (normalizeHttpUrl (cloudflareEnv baseUrlEnvVar))
                                 (normalizeHttpUrl (processEnv baseUrlEnvVar)))
                    (normalizeHttpUrl (env llmManager baseUrlEnvVar)) in
                if isSet envBaseUrl then (true, environment) else state0
              else state0
          | None => state0
          end in
        match apiTokenKey config with
        | Some apiTokenEnvVar =>
            if negb (String.eqb apiTokenEnvVar EmptyString) && negb (fst state1) then
              let envApiToken :=
                jsOr (jsOr (cloudflareEnv apiTokenEnvVar) (processEnv apiTokenEnvVar))
                     (env llmManager apiTokenEnvVar) in
              if isSet (normalizeCredential envApiToken) then (true, environment)
              else state1
            else state1
        | None => state1
        end
    | None => state0
    end in
  {| name := providerName; isConfigured := fst state2; configMethod := snd state2 |}.

(** The loader: [llmManager] is [None] when [LLMManager.getInstance]
    throws, which the [catch] answers with the default state. *)
Definition loader (LOCAL_PROVIDERS : list string) (llmManager : option LLMManager)
  : list ConfiguredProvider :=
  match llmManager with
  | Some manager => map (checkProvider manager) LOCAL_PROVIDERS
  | None =>
      map (fun name => {| name := name; isConfigured := false; configMethod := none |})
          LOCAL_PROVIDERS
  end.

End WithRequest.

(** An environment holding the given bindings. *)
Fixpoint envOf (bindings : list (string * string)) : Environment :=
  fun key =>
    match bindings with
    | (k, v) :: rest => if String.eqb key k then JsString v else envOf rest key
    | [] => JsUndefined
    end.

Definition exampleManager : LLMManager :=
  {| getProvider := fun providerName =>
       if String.eqb providerName "Ollama"
       then Some {| baseUrlKey := Some "OLLAMA_API_BASE_URL"; apiTokenKey := None |}
       else if String.eqb providerName "OpenAILike"
       then Some {| baseUrlKey := Some "OPENAI_LIKE_API_BASE_URL";
                    apiTokenKey := Some "OPENAI_LIKE_API_KEY" |}
       else None;
     env := envOf [] |}.

End ConfiguredProviders.

(* ===================================================================== *)
(** ** api.chat.ts: request helpers, [onError] and the stream transform *)
(* ===================================================================== *)

Module ChatStream.
Import JsString.

(** *** [detectManualIntervention] *)

(** A part of a UI message: its [type] and, for a tool invocation, the
    [state] of [toolInvocation]. *)
Record MessagePart : Type := {
  part_type : string;
  toolInvocationState : option string
}.

(** The fields of a message that [detectManualIntervention] reads; [parts]
    is [None] when it is not an array. *)
Record UiMessage : Type := {
  role : Chat.Role;
  content : option string;
  parts : option (list MessagePart)
}.

Definition isUser (message : UiMessage) : bool :=
  match role message with
  | Chat.user => true
  | _ => false
  end.

Definition hasContinueCue (text : string) : bool :=
  includes (nl ++ "continue") text ||
  includes "please continue" text ||
  includes "go on" text ||
  includes "resume from" text.

Definition isToolResult (part : MessagePart) : bool :=
  if negb (String.eqb (part_type part) "tool-invocation") then false
  else
    match toolInvocationState part with
    | Some state => String.eqb state "result"
    | None => false
    end.

(** The test on the last user message. *)
Definition intervenes (lastUser : UiMessage) : bool :=
  let text := toLowerCase (match content lastUser with Some c => c | None => EmptyString end) in
  let partIntervention :=
    match parts lastUser with
    | Some l => existsb isToolResult l
    | None => false
    end in
  hasContinueCue text || partIntervention.

Definition detectManualIntervention (messages : list UiMessage) : bool :=
  match find isUser (rev messages) with
  | Some lastUser => intervenes lastUser
  | None => false
  end.

(** *** [onError] of the data stream: the text sent to the client *)

Definition INVALID_MODEL : string :=
  "Custom error: Invalid model selected. Please check that the model name is correct and available.".
Definition STREAM_TIMED_OUT : string :=
  "Custom error: Generation stream timed out while waiting for model output. The run was stopped so recovery can continue safely.".
Definition INVALID_RESPONSE : string :=
  "Custom error: The AI service returned an invalid response. This may be due to an invalid model name, API rate limiting, or server issues. Try selecting a different model or check your API key.".
Definition BEDROCK_INVALID : string :=
  "Custom error: Bedrock credentials are invalid. Switch to a configured provider or update Bedrock JSON credentials in Settings.".
Definition PROVIDER_NOT_CONFIGURED : string :=
  "Custom error: The selected provider is not configured for this instance yet. Select a provider with a valid key and retry.".
Definition INVALID_API_KEY : string :=
  "Custom error: Invalid or missing API key. Please check your API key configuration.".
Definition TOKEN_LIMIT : string :=
  "Custom error: Token limit exceeded. The conversation is too long for the selected model. Try using a model with larger context window or start a new conversation.".
Definition RATE_LIMIT : string :=
  "Custom error: API rate limit exceeded. Please wait a moment before trying again.".
Definition NETWORK_ERROR : string :=
  "Custom error: Network error. Please check your internet connection and try again.".

(** The value [onError] returns, from [error.message]. *)
Definition onError (message : option string) : string :=
  let errorMessage :=
    match message with
    | Some m => if String.eqb m EmptyString then "Unknown error" else m
    | None => "Unknown error"
    end in
  if includes "model" errorMessage && includes "not found" errorMessage then
    INVALID_MODEL
  else if includes "BOLT_STREAM_TIMEOUT" errorMessage then STREAM_TIMED_OUT
  else if includes "Invalid JSON response" errorMessage then INVALID_RESPONSE
  else if includes "Invalid AWS Bedrock configuration format" errorMessage
          || includes "Missing required AWS credentials" errorMessage then
    BEDROCK_INVALID
  else if includes "Missing API key for" errorMessage then PROVIDER_NOT_CONFIGURED
  else if includes "API key" errorMessage
          || includes "unauthorized" errorMessage
          || includes "authentication" errorMessage then
    INVALID_API_KEY
  else if includes "token" errorMessage && includes "limit" errorMessage then
    TOKEN_LIMIT
  else if includes "rate limit" errorMessage || includes "429" errorMessage then
    RATE_LIMIT
  else if includes "network" errorMessage || includes "timeout" errorMessage then
    NETWORK_ERROR
  else ("Custom error: " ++ errorMessage)%string.

(** The message of the error with which [onTimeout] aborts the stream,
    [timeout] being the text of [streamTimeoutMs]. *)
Definition streamTimeoutAbortMessage (timeout : string) : string :=
  ("BOLT_STREAM_TIMEOUT: no stream activity for " ++ timeout ++ "ms")%string.

(** The message of the error a provider throws without API key. *)
Definition missingApiKeyMessage (providerName : string) : string :=
  ("Missing API key for " ++ providerName ++ " provider")%string.

(** *** The [TransformStream] after the data stream *)

(** A chunk: a string, or anything else with its truthiness and its
    [JSON.stringify] text. *)
Inductive Chunk : Type :=
  | StringChunk (text : string)
  | OtherChunk (truthy : bool) (json : string).

(** What the three [controller.enqueue] calls hand on. *)
Inductive Enqueued : Type :=
  | ThoughtOpen
  | ThoughtClose
  | Payload (text : string).

Definition encode (e : Enqueued) : string :=
  match e with
  | ThoughtOpen =>
      ("0: " ++ dq ++ "<div class=\" ++ dq ++ "__boltThought__\" ++ dq ++ ">" ++ dq ++ nl)%string
  | ThoughtClose => ("0: " ++ dq ++ "</div>\n" ++ dq ++ nl)%string
  | Payload text => text
  end.

(** [s.endsWith(suffix)] *)
Definition endsWith (suffix s : string) : bool :=
  (String.length suffix <=? String.length s) &&
  String.eqb (substring (String.length s - String.length suffix)
                (String.length suffix) s) suffix.

(** The rewriting of a reasoning chunk [g:...] into a text chunk [0:...]. *)
Definition rewriteReasoning (chunk : string) : string :=
  let content := Chat.joinWith ":" (List.tl (Cookies.split ":" chunk)) in
  let content :=
    if endsWith nl content
    then substring 0 (String.length content - 1) content
    else content in
  ("0:" ++ content ++ nl)%string.

(** One call of [transform]: the chunks enqueued and the new [lastChunk];
    [None] when [lastChunk.startsWith] is called on a chunk that is not a
    string. *)
Definition transform (lastChunk : option Chunk) (chunk : Chunk)
  : option (list Enqueued * option Chunk) :=
  let lastChunk :=
    match lastChunk with
    | None => StringChunk " "
    | Some (StringChunk text) =>
        if String.eqb text EmptyString then StringChunk " " else StringChunk text
    | Some (OtherChunk truthy json) =>
        if truthy then OtherChunk truthy json else StringChunk " "
    end in
  match chunk with
  | StringChunk text =>
      match lastChunk with
      | StringChunk lastText =>
          let opening :=
            if startsWith "g" text && negb (startsWith "g" lastText)
            then [ThoughtOpen] else [] in
          let closing :=
            if startsWith "g" lastText && negb (startsWith "g" text)
            then [ThoughtClose] else [] in
          let transformedChunk :=
            if startsWith "g" text then rewriteReasoning text else text in
          Some ((opening ++ closing ++ [Payload transformedChunk])%list, Some chunk)
      | OtherChunk _ _ => None
      end
  | OtherChunk _ json => Some ([Payload json], Some chunk)
  end.

(** The chunks of a stream through [transform], one after the other. *)
Fixpoint transformAll (lastChunk : option Chunk) (chunks : list Chunk)
  : option (list Enqueued * option Chunk) :=
  match chunks with
  | [] => Some ([], lastChunk)
  | chunk :: rest =>
      match transform lastChunk chunk with
      | Some (out, lastChunk') =>
          match transformAll lastChunk' rest with
          | Some (out', lastChunk'') => Some ((out ++ out')%list, lastChunk'')
          | None => None
          end
      | None => None
      end
  end.

(** The last chunk was a reasoning chunk: a thought is open. *)
Definition inThought (lastChunk : option Chunk) : bool :=
  match lastChunk with
  | Some (StringChunk text) => startsWith "g" text
  | _ => false
  end.

Definition countOpen (out : list Enqueued) : nat :=
  List.length (filter (fun e => match e with ThoughtOpen => true | _ => false end) out).

Definition countClose (out : list Enqueued) : nat :=
  List.length (filter (fun e => match e with ThoughtClose => true | _ => false end) out).

(** A [lastChunk] on which [startsWith] can be called: not a truthy value
    that is not a string. *)
Definition callable (lastChunk : option Chunk) : Prop :=
  match lastChunk with
  | Some (OtherChunk true _) => False
  | _ => True
  end.

End ChatStream.

(* ===================================================================== *)
(** ** interactive-step-runner.ts: [normalizeStreamChunk] *)
(* ===================================================================== *)

Module StreamChunk.
Import JsString StepRunnerEvents.

Definition CR : ascii := ascii_of_nat 13.
Definition LF : ascii := ascii_of_nat 10.
Definition ESC : ascii := ascii_of_nat 27.
Definition BEL : ascii := ascii_of_nat 7.
Definition BACKSLASH : ascii := ascii_of_nat 92.

(** The number of leading characters of [s] in a class: what a greedy
    [[class]*] takes. *)
Fixpoint spanLength (p : ascii -> bool) (s : string) : nat :=
  match s with
  | String c r => if p c then S (spanLength p r) else 0
  | EmptyString => 0
  end.

(** [s.replace(regex, replacement)] for a regular expression with the [g]
    flag that matches no empty string.  [matchLength previous rest] is the
    length of the match that starts at the head of [rest], [previous] being
    the character before it; the search resumes behind each match, and
    [skip] counts the characters of the current match still to pass. *)
Fixpoint replaceAll (matchLength : option ascii -> string -> option nat)
    (replacement : string) (previous : option ascii) (skip : nat) (s : string)
  : string :=
  match s with
  | EmptyString => EmptyString
  | String c r =>
      match skip with
      | S k => replaceAll matchLength replacement (Some c) k r
      | 0 =>
          match matchLength previous s with
          | Some (S n) =>
              (replacement ++ replaceAll matchLength replacement (Some c) n r)%string
          | _ => String c (replaceAll matchLength replacement (Some c) 0 r)
          end
      end
  end.

(** [/\r/] *)
Definition carriageReturnLength (previous : option ascii) (s : string) : option nat :=
  match s with
  | String c _ => if Ascii.eqb c CR then Some 1 else None
  | EmptyString => None
  end.

(** The classes [[0-9;?]], [[ -/]] and [[@-~]]. *)
Definition isCsiParameter (c : ascii) : bool :=
  let n := code c in ((48 <=? n) && (n <=? 57)) || (n =? 59) || (n =? 63).

Definition isCsiIntermediate (c : ascii) : bool :=
  let n := code c in (32 <=? n) && (n <=? 47).

Definition isCsiFinal (c : ascii) : bool :=
  let n := code c in (64 <=? n) && (n <=? 126).

(** [/\u001b\[[0-9;?]*[ -/]*[@-~]/]: the three classes are disjoint, so the
    greedy match of the two stars is the only candidate. *)
Definition csiLength (previous : option ascii) (s : string) : option nat :=
  match s with
  | String e (String b rest) =>
      if Ascii.eqb e ESC && Ascii.eqb b "[" then
        let parameters := spanLength isCsiParameter rest in
        let rest1 := sliceFrom parameters rest in
        let intermediates := spanLength isCsiIntermediate rest1 in
        match sliceFrom intermediates rest1 with
        | String f _ =>
            if isCsiFinal f then Some (2 + parameters + intermediates + 1) else None
        | EmptyString => None
        end
      else None
  | _ => None
  end.

(** Index of the first [c] in [s]. *)
Fixpoint indexOf (c : ascii) (s : string) : option nat :=
  match s with
  | String a r => if Ascii.eqb a c then Some 0 else option_map S (indexOf c r)
  | EmptyString => None
  end.

(** Index of the last [ESC \] in [s]. *)
Fixpoint lastStringTerminator (s : string) : option nat :=
  match s with
  | String a r =>
      match lastStringTerminator r with
      | Some j => Some (S j)
      | None =>
          match r with
          | String b _ =>
              if Ascii.eqb a ESC && Ascii.eqb b BACKSLASH then Some 0 else None
          | EmptyString => None
          end
      end
  | EmptyString => None
  end.

(** [/\u001b\][^\u0007]*(?:\u0007|\u001b\\)/]: the greedy star stops at
    the first BEL, which then ends the match; without a BEL it runs to the
    end of the input and backtracks to the last [ESC \]. *)
Definition oscLength (previous : option ascii) (s : string) : option nat :=
  match s with
  | String e (String b rest) =>
      if Ascii.eqb e ESC && Ascii.eqb b "]" then
        match indexOf BEL rest with
        | Some i => Some (2 + i + 1)
        | None =>
            match lastStringTerminator rest with
            | Some j => Some (2 + j + 2)
            | None => None
            end
        end
      else None
  | _ => None
  end.

(** Line terminators below 256, for [^], [$] and [.]. *)
Definition isLineTerminator (c : ascii) : bool :=
  Ascii.eqb c LF || Ascii.eqb c CR.

Definition isDigit (c : ascii) : bool :=
  let n := code c in (48 <=? n) && (n <=? 57).

(** [[class]+] at the head of [s]: the rest behind it. *)
Definition skipSome (p : ascii -> bool) (s : string) : option string :=
  let n := spanLength p s in
  if 0 <? n then Some (sliceFrom n s) else None.

Definition andThenMatch (first : option string) (next : string -> option string)
  : option string :=
  match first with
  | Some rest => next rest
  | None => None
  end.

Definition orElseMatch (first second : option string) : option string :=
  match first with
  | Some rest => Some rest
  | None => second
  end.

(** The alternatives of [NOISY_PROGRESS_LINE_RE] at the head of [s], in
    their order: the rest behind the first one that matches.  What follows
    them, [.*$], matches behind any of them, so the first is the one
    taken. *)
Definition noisyKeyword (s : string) : option string :=
  orElseMatch
    (andThenMatch (stripPrefixCi "progress:" s) (fun r =>
     andThenMatch (skipSome isWhiteSpace r) (stripPrefixCi "resolved")))
  (orElseMatch
    (andThenMatch (stripPrefixCi "packages:" s) (fun r =>
     andThenMatch (skipSome isWhiteSpace r) (stripPrefixCi "+")))
  (orElseMatch (stripPrefixCi "lockfile is up to date" s)
  (orElseMatch (stripPrefixCi "already up to date" s)
    (andThenMatch (stripPrefixCi "resolved " s) (fun r =>
     andThenMatch (skipSome isDigit r) (fun r =>
     andThenMatch (stripPrefixCi ", reused " r) (skipSome isDigit))))))).

(** [\s*(?:...).*$] at the head of [s], with the [m] flag: the rest behind
    the match, which ends at the end of the line the keyword ends on. *)
Definition noisyLine (s : string) : option string :=
  andThenMatch (noisyKeyword (sliceFrom (spanLength isWhiteSpace s) s)) (fun r =>
    Some (sliceFrom (spanLength (fun c => negb (isLineTerminator c)) r) r)).

(** [NOISY_PROGRESS_LINE_RE]: [(?:^|\n)] first tries the start of a line,
    then a line feed. *)
Definition noisyLength (previous : option ascii) (s : string) : option nat :=
  let atLineStart :=
    match previous with
    | Some p => isLineTerminator p
    | None => true
    end in
  let matched :=
    orElseMatch (if atLineStart then noisyLine s else None)
      match s with
      | String c r => if Ascii.eqb c LF then noisyLine r else None
      | EmptyString => None
      end in
  match matched with
  | Some rest => Some (String.length s - String.length rest)
  | None => None
  end.

(** [/\n{3,}/] *)
Definition blankLinesLength (previous : option ascii) (s : string) : option nat :=
  let n := spanLength (Ascii.eqb LF) s in
  if 3 <=? n then Some n else None.

Definition normalizeStreamChunk (chunk : string) : string :=
  if String.eqb chunk EmptyString then EmptyString
  else
    replaceAll blankLinesLength (String LF (String LF EmptyString)) None 0
      (replaceAll noisyLength EmptyString None 0
         (replaceAll oscLength EmptyString None 0
            (replaceAll csiLength EmptyString None 0
               (replaceAll carriageReturnLength (String LF EmptyString) None 0
                  chunk)))).

(** The characters that [/\r/g] leaves. *)
Definition notCarriageReturn (c : ascii) : bool := negb (Ascii.eqb c CR).

(** The characters of one line of plain text: no line terminator and no
    escape character. *)
Definition isPlain (c : ascii) : bool :=
  negb (isLineTerminator c) && negb (Ascii.eqb c ESC).

(** The output of a streamed event holds no carriage return. *)
Definition StreamOutputClean (ev : StepRunner.InteractiveStepRunnerEvent) : Prop :=
  isStreamType (StepRunner.type ev) = true ->
  exists o, StepRunner.output ev = Some o /\ allChars notCarriageReturn o = true.

End StreamChunk.

(* ===================================================================== *)
(** ** api.chat.ts: [chatAction] around its [try] block *)
(* ===================================================================== *)

Module ChatAction.
Import JsString ChatError.

(** What [request.json()] resolves to, as far as the statements before the
    [try] block read it: [messages] is [None] when the payload has no such
    property. *)
Record RequestPayload : Type := {
  messages : option (list ChatStream.UiMessage)
}.

(** The body of the request: text that is not JSON, on which
    [request.json()] rejects with a [SyntaxError]; the JSON text [null],
    which cannot be destructured; or a JSON object. *)
Inductive RequestBody : Type :=
  | NotJson
  | JsonNull
  | JsonObject (payload : RequestPayload).

Record ChatRequest : Type := {
  requestBody : RequestBody;
  cookieHeader : option string
}.

(** How the [try] block ends before the response is returned: it returns
    the streaming response, or it throws. *)
Inductive TryOutcome : Type :=
  | Streams
  | Fails (caught : Caught).

(** What a call of [chatAction] gives its caller. *)
Inductive ChatActionResult : Type :=
  | StreamingResponse
  | ErrorResponse (response : Response)
  | Rejects (exception : JsException).

Section WithHost.
(** [decodeURIComponent]: [None] when it throws a [URIError]. *)
Variable decodeURIComponent : string -> option string.
(** The statements before the [try] block call functions that are not
    among the sources: before they read [messages.length],
    [resolveRuntimeEnv], [LLMManager.getInstance], [getAllProviders],
    [mergeAndSanitizeApiKeys], [hydrateApiKeysFromRuntimeEnv],
    [new SwitchableStream] and [generateId]; after it,
    [extractPropertiesFromMessage], [deriveProjectMemoryKey],
    [getProjectMemory] and [SubAgentManager.getInstance].  Each group either
    returns or throws. *)
Variable runtimeResolves : bool.
Variable projectMemoryResolves : bool.
(** The [try] block, from [logger.info] to [return new Response(dataStream,
    ...)]: whether it returns or throws. *)
Variable tryBlock : list ChatStream.UiMessage -> Cookies.JsRecord -> TryOutcome.

(** [chatAction].  Nothing catches what the statements before [try]
    throw, nor what the [catch] block itself throws. *)
Definition chatAction (request : ChatRequest) : ChatActionResult :=
  match requestBody request with
  | NotJson => Rejects SyntaxError
  | JsonNull => Rejects TypeError
  | JsonObject requestPayload =>
      let cookieHeader :=
        match cookieHeader request with
        | Some header => header
        | None => EmptyString
        end in
      match Cookies.parseCookiesChat decodeURIComponent cookieHeader with
      | None => Rejects URIError
      | Some parsedCookies =>
          if negb runtimeResolves then Rejects CollaboratorError
          else
            (* [messages.length] *)
            match messages requestPayload with
            | None => Rejects TypeError
            | Some messages =>
                if negb projectMemoryResolves then Rejects CollaboratorError
                else
                  match tryBlock messages parsedCookies with
                  | Streams => StreamingResponse
                  | Fails caught =>
                      match chatActionCatch caught with
                      | Returns response => ErrorResponse response
                      | Throws exception => Rejects exception
                      end
                  end
            end
      end
  end.

(** The statements before [try] run through, with these messages and
    cookies. *)
Definition ReachesTry (request : ChatRequest)
    (messages : list ChatStream.UiMessage) (parsedCookies : Cookies.JsRecord)
  : Prop :=
  exists requestPayload,
    requestBody request = JsonObject requestPayload /\
    Cookies.parseCookiesChat decodeURIComponent
      (match cookieHeader request with
       | Some header => header
       | None => EmptyString
       end) = Some parsedCookies /\
    runtimeResolves = true /\
    ChatAction.messages requestPayload = Some messages /\
    projectMemoryResolves = true.

End WithHost.

(** Requests for the examples: one that the statements before [try]
    accept, and one whose [Cookie] header holds a lone percent sign. *)
Definition helloMessage : ChatStream.UiMessage :=
  {| ChatStream.role := Chat.user; ChatStream.content := Some "hello";
     ChatStream.parts := None |}.

Definition plainRequest : ChatRequest :=
  {| requestBody := JsonObject {| messages := Some [helloMessage] |};
     cookieHeader := Some "theme=dark" |}.

Definition malformedCookieRequest : ChatRequest :=
  {| requestBody := JsonObject {| messages := Some [helloMessage] |};
     cookieHeader := Some "theme=%" |}.

End ChatAction.

(* ********************************************************************* *)
(** * Part II: properties *)
(* ********************************************************************* *)

(* ===================================================================== *)
(** ** Facts about the string primitives *)
(* ===================================================================== *)

Module JsStringFacts.
Import JsString.

Lemma append_nil_r (s : string) : (s ++ "")%string = s.
  Proof. induction s as [|c s IH]; simpl; [reflexivity | now rewrite IH]. Qed.

Lemma append_assoc (a b c : string) :
    ((a ++ b) ++ c)%string = (a ++ (b ++ c))%string.
  Proof. induction a as [|x a IH]; simpl; [reflexivity | now rewrite IH]. Qed.

Lemma length_zero_iff (s : string) :
    (String.length s =? 0) = true <-> s = EmptyString.
  Proof.
    destruct s; simpl; split; intro H; try reflexivity; discriminate.
  Qed.

Lemma startsWith_spec (p s : string) :
    startsWith p s = true <-> exists r, s = (p ++ r)%string.
  Proof.
    revert s. induction p as [|a p IH]; intros s; simpl.
    - split; [intros _; now exists s | reflexivity].
    - destruct s as [|b s].
      + split; [discriminate | intros [r Hr]; discriminate].
      + rewrite andb_true_iff, Ascii.eqb_eq, IH. split.
        * intros [-> [r ->]]. now exists r.
        * intros [r Hr]. injection Hr as -> ->. split; [reflexivity | now exists r].
  Qed.

Lemma anyPosition_spec (f : string -> bool) (s : string) :
    anyPosition f s = true <->
    exists pre suf, s = (pre ++ suf)%string /\ f suf = true.
  Proof.
    induction s as [|c s IH].
    - simpl. rewrite orb_false_r. split.
      + intros H. now exists EmptyString, EmptyString.
      + intros (pre & suf & Hs & Hf). destruct pre; [|discriminate].
        simpl in Hs. now subst suf.
    - simpl. rewrite orb_true_iff, IH. split.
      + intros [H | (pre & suf & -> & H)].
        * now exists EmptyString, (String c s).
        * now exists (String c pre), suf.
      + intros (pre & suf & Hs & Hf). destruct pre as [|x pre].
        * simpl in Hs. subst suf. now left.
        * injection Hs as -> ->. right. now exists pre, suf.
  Qed.

Lemma includes_anyPosition (sub s : string) :
    includes sub s = anyPosition (startsWith sub) s.
  Proof. induction s as [|c s IH]; simpl; [reflexivity | now rewrite IH]. Qed.

Lemma includes_spec (sub s : string) :
    includes sub s = true <-> exists pre post, s = (pre ++ sub ++ post)%string.
  Proof.
    rewrite includes_anyPosition, anyPosition_spec. split.
    - intros (pre & suf & -> & H). apply startsWith_spec in H as [r ->].
      now exists pre, r.
    - intros (pre & post & ->). exists pre, (sub ++ post)%string. split; [reflexivity|].
      apply startsWith_spec. now exists post.
  Qed.

Lemma stripPrefixCi_app (lit p r : string) :
    eqCi lit p = true -> stripPrefixCi lit (p ++ r) = Some r.
  Proof.
    revert p. induction lit as [|a lit IH]; intros [|b p]; simpl; try discriminate.
    - reflexivity.
    - intros H. apply andb_true_iff in H as [-> H]. now apply IH.
  Qed.

Lemma stripPrefixCi_inv (lit s r : string) :
    stripPrefixCi lit s = Some r ->
    exists p, s = (p ++ r)%string /\ eqCi lit p = true.
  Proof.
    revert s. induction lit as [|a lit IH]; intros s; simpl.
    - intros [= ->]. now exists EmptyString.
    - destruct s as [|b s]; [discriminate|].
      destruct (charMatchesCi a b) eqn:E; [|discriminate].
      intros H. apply IH in H as (p & -> & Hp).
      exists (String b p). simpl. now rewrite E.
  Qed.

Lemma stripPrefixCi_spec (lit s r : string) :
    stripPrefixCi lit s = Some r <->
    exists p, s = (p ++ r)%string /\ eqCi lit p = true.
  Proof.
    split; [apply stripPrefixCi_inv|].
    intros (p & -> & H). now apply stripPrefixCi_app.
  Qed.

Lemma anyOf_spec (l : list string) (p : string -> bool) :
    anyOf l p = true <-> exists x, In x l /\ p x = true.
  Proof.
    induction l as [|y l IH]; simpl.
    - split; [discriminate | intros (x & [] & _)].
    - rewrite orb_true_iff, IH. split.
      + intros [H | (x & Hx & H)]; [exists y | exists x]; auto.
      + intros (x & [-> | Hx] & H); [now left | right; now exists x].
  Qed.

End JsStringFacts.

(* ===================================================================== *)
(** ** Credential helpers *)
(* ===================================================================== *)

Module CredentialsFacts.
Import JsString JsStringFacts Credentials.

  (** The tests of credentials.spec.ts. *)
Example spec_detects_placeholders :
    isPlaceholderCredential "ROTATE_REQUIRED" = true /\
    isPlaceholderCredential "your_openai_key_here" = true /\
    isPlaceholderCredential "<api-key>" = true /\
    isPlaceholderCredential "sk-real-key-value" = false.
  Proof. repeat split; reflexivity. Qed.

Example spec_normalizes_credentials :
    normalizeCredential (JsString " sk-live ") = Some "sk-live" /\
    normalizeCredential (JsString " ROTATE_REQUIRED ") = None /\
    normalizeCredential (JsString "") = None.
  Proof. repeat split; reflexivity. Qed.

Example spec_normalizes_urls :
    normalizeHttpUrl (JsString "https://api.openai.com") = Some "https://api.openai.com" /\
    normalizeHttpUrl (JsString " your_base_url_here ") = None /\
    normalizeHttpUrl (JsString "localhost:11434") = None.
  Proof. repeat split; reflexivity. Qed.

Lemma skipRotateSeparators_app (sep r : string) :
    allChars isRotateSeparator sep = true ->
    skipRotateSeparators (sep ++ r) = skipRotateSeparators r.
  Proof.
    induction sep as [|c sep IH]; simpl; [reflexivity|].
    intros H. apply andb_true_iff in H as [-> H]. now apply IH.
  Qed.

Lemma skipRotateSeparators_split (s : string) :
    exists sep, s = (sep ++ skipRotateSeparators s)%string /\
                allChars isRotateSeparator sep = true.
  Proof.
    induction s as [|c s (sep & IH & Hsep)]; simpl.
    - now exists EmptyString.
    - destruct (isRotateSeparator c) eqn:E.
      + exists (String c sep). simpl. rewrite E, Hsep. split; [now f_equal | reflexivity].
      + now exists EmptyString.
  Qed.

  (** No separator of the class can be the first letter of [required]. *)
Lemma required_head_not_separator (c : ascii) :
    charMatchesCi "r" c = true -> isRotateSeparator c = false.
  Proof.
    destruct c as [[] [] [] [] [] [] [] []]; vm_compute; congruence.
  Qed.

Lemma rotateRequiredHere_spec (s : string) :
    rotateRequiredHere s = true <->
    exists w1 sep w2 post,
      s = (w1 ++ sep ++ w2 ++ post)%string /\
      eqCi "rotate" w1 = true /\
      allChars isRotateSeparator sep = true /\
      eqCi "required" w2 = true.
  Proof.
    unfold rotateRequiredHere. split.
    - destruct (stripPrefixCi "rotate" s) as [r|] eqn:E1; [|discriminate].
      destruct (stripPrefixCi "required" (skipRotateSeparators r)) as [post|] eqn:E2;
        [|discriminate].
      intros _.
      apply stripPrefixCi_inv in E1 as (w1 & -> & H1).
      apply stripPrefixCi_inv in E2 as (w2 & E2 & H2).
      destruct (skipRotateSeparators_split r) as (sep & Hr & Hsep).
      exists w1, sep, w2, post. rewrite <- E2, <- Hr. auto.
    - intros (w1 & sep & w2 & post & -> & H1 & Hsep & H2).
      rewrite (stripPrefixCi_app _ _ _ H1).
      rewrite (skipRotateSeparators_app _ _ Hsep).
      destruct w2 as [|c w2]; [discriminate|].
      pose proof H2 as H2'. simpl in H2'.
      apply andb_true_iff in H2' as [Hc _].
      apply required_head_not_separator in Hc.
      cbn [append skipRotateSeparators]. rewrite Hc.
      change (String c (w2 ++ post)) with (String c w2 ++ post)%string.
      now rewrite (stripPrefixCi_app _ _ _ H2).
  Qed.

Lemma ROTATE_REQUIRED_REGEX_test_spec (s : string) :
    ROTATE_REQUIRED_REGEX_test s = true <-> MatchesRotateRequired s.
  Proof.
    unfold ROTATE_REQUIRED_REGEX_test, MatchesRotateRequired.
    rewrite anyPosition_spec. split.
    - intros (pre & suf & -> & H).
      apply rotateRequiredHere_spec in H as (w1 & sep & w2 & post & -> & H).
      now exists pre, w1, sep, w2, post.
    - intros (pre & w1 & sep & w2 & post & -> & H).
      exists pre, (w1 ++ sep ++ w2 ++ post)%string. split; [reflexivity|].
      apply rotateRequiredHere_spec. now exists w1, sep, w2, post.
  Qed.

Lemma bracketBody_spec (seen : bool) (s : string) :
    bracketBody seen s = true <->
    exists mid,
      s = (mid ++ ">")%string /\
      allChars (fun c => negb (Ascii.eqb c ">")) mid = true /\
      (seen = true \/ mid <> EmptyString).
  Proof.
    revert seen. induction s as [|c s IH]; intros seen; simpl.
    - split; [discriminate|]. intros (mid & H & _). destruct mid; discriminate.
    - destruct (Ascii.eqb c ">") eqn:E.
      + apply Ascii.eqb_eq in E. subst c.
        rewrite andb_true_iff, String.eqb_eq. split.
        * intros [-> ->]. exists EmptyString. auto.
        * intros (mid & H & Hall & Hseen). destruct mid as [|x mid].
          -- simpl in H. injection H as ->. destruct Hseen; [auto | congruence].
          -- injection H as <- _. simpl in Hall. discriminate.
      + rewrite IH. split.
        * intros (mid & -> & Hall & _). exists (String c mid). simpl.
          rewrite E, Hall. repeat split; auto. right; discriminate.
        * intros (mid & H & Hall & _). destruct mid as [|x mid].
          -- simpl in H. injection H as -> _. simpl in E. discriminate.
          -- injection H as <- ->. simpl in Hall.
             apply andb_true_iff in Hall as [_ Hall]. exists mid. auto.
  Qed.

Lemma isBracketPlaceholder_spec (s : string) :
    isBracketPlaceholder s = true <-> BracketWrapped s.
  Proof.
    unfold isBracketPlaceholder, BracketWrapped.
    destruct (trim s) as [|c r].
    - split; [discriminate|]. intros (mid & H & _). discriminate.
    - rewrite andb_true_iff, Ascii.eqb_eq, bracketBody_spec. split.
      + intros (-> & mid & -> & Hall & [H | H]); [discriminate|].
        now exists mid.
      + intros (mid & H & Hne & Hall). injection H as -> ->.
        split; [reflexivity|]. exists mid. auto.
  Qed.

Lemma isPlaceholderCredential_spec (raw : string) :
    isPlaceholderCredential raw = true <-> PlaceholderCredential raw.
  Proof.
    unfold isPlaceholderCredential, PlaceholderCredential. cbv zeta.
    destruct (String.length (toLowerCase (trim raw)) =? 0) eqn:E0.
    { apply length_zero_iff in E0. tauto. }
    assert (N0 : toLowerCase (trim raw) <> EmptyString).
    { intros H. apply length_zero_iff in H. congruence. }
    destruct (ROTATE_REQUIRED_REGEX_test _) eqn:E1.
    { apply ROTATE_REQUIRED_REGEX_test_spec in E1. tauto. }
    assert (N1 : ~ MatchesRotateRequired (toLowerCase (trim raw))).
    { intros H. apply ROTATE_REQUIRED_REGEX_test_spec in H. congruence. }
    destruct (isBracketPlaceholder raw) eqn:E2.
    { apply isBracketPlaceholder_spec in E2. tauto. }
    assert (N2 : ~ BracketWrapped raw).
    { intros H. apply isBracketPlaceholder_spec in H. congruence. }
    rewrite anyOf_spec. split.
    - intros (x & Hx & H). apply includes_spec in H.
      right; right; right. exists x. split; [exact Hx|].
      destruct H as (pre & post & H). now exists pre, post.
    - intros [H | [H | [H | (x & Hx & pre & post & H)]]]; try contradiction.
      exists x. split; [exact Hx|]. apply includes_spec. now exists pre, post.
  Qed.

Lemma stripPrefixCi_compose (l1 l2 s : string) :
    stripPrefixCi (l1 ++ l2) s =
    match stripPrefixCi l1 s with
    | Some r => stripPrefixCi l2 r
    | None => None
    end.
  Proof.
    revert s. induction l1 as [|a l1 IH]; intros s; simpl; [reflexivity|].
    destruct s as [|b s]; [reflexivity|].
    destruct (charMatchesCi a b); [apply IH | reflexivity].
  Qed.

Lemma httpSchemeTest_spec (s : string) :
    httpSchemeTest s = true <-> BeginsWithHttpScheme s.
  Proof.
    unfold BeginsWithHttpScheme. split.
    - unfold httpSchemeTest.
      destruct (stripPrefixCi "http" s) as [r|] eqn:E; [|discriminate].
      destruct (stripPrefixCi "s://" r) as [r2|] eqn:E2.
      + intros _.
        assert (H : stripPrefixCi "https://" s = Some r2).
        { change "https://" with ("http" ++ "s://")%string.
          now rewrite stripPrefixCi_compose, E. }
        apply stripPrefixCi_inv in H as (p & -> & Hp).
        exists p, r2. auto.
      + destruct (stripPrefixCi "://" r) as [r3|] eqn:E3; [|discriminate].
        intros _.
        assert (H : stripPrefixCi "http://" s = Some r3).
        { change "http://" with ("http" ++ "://")%string.
          now rewrite stripPrefixCi_compose, E. }
        apply stripPrefixCi_inv in H as (p & -> & Hp).
        exists p, r3. auto.
    - intros (scheme & rest & -> & [H | H]).
      + apply (stripPrefixCi_app _ _ rest) in H.
        change "http://" with ("http" ++ "://")%string in H.
        rewrite stripPrefixCi_compose in H. unfold httpSchemeTest.
        destruct (stripPrefixCi "http" (scheme ++ rest)) as [r|]; [|discriminate].
        rewrite H. now destruct (stripPrefixCi "s://" r).
      + apply (stripPrefixCi_app _ _ rest) in H.
        change "https://" with ("http" ++ "s://")%string in H.
        rewrite stripPrefixCi_compose in H. unfold httpSchemeTest.
        destruct (stripPrefixCi "http" (scheme ++ rest)) as [r|]; [|discriminate].
        now rewrite H.
  Qed.

  (** C10. For every input, [normalizeHttpUrl] returns the trimmed string
      exactly when the input is a string whose trimmed value is non-empty,
      is not a placeholder credential (empty, rotate-required, wrapped in
      angle brackets, or containing one of the placeholder snippets) and
      begins with http:// or https:// in any letter case; in every other
      case, non-string inputs included, it returns undefined. *)
Theorem normalizeHttpUrl_exactly_when (v : JsValue) :
    (forall t, normalizeHttpUrl v = Some t <-> UrlAccepted v t) /\
    (normalizeHttpUrl v = None <-> ~ exists t, UrlAccepted v t).
  Proof.
    assert (A : forall t, normalizeHttpUrl v = Some t <-> UrlAccepted v t).
    { intros t. unfold UrlAccepted. destruct v as [| |b|z|s]; simpl;
        try (split; [discriminate | intros (s' & H & _); discriminate]).
      destruct (String.length (trim s) =? 0) eqn:E0; simpl.
      { apply length_zero_iff in E0. split; [discriminate|].
        intros (s' & [= <-] & -> & H & _). contradiction. }
      destruct (isPlaceholderCredential (trim s)) eqn:E1.
      { apply isPlaceholderCredential_spec in E1. split; [discriminate|].
        intros (s' & [= <-] & -> & _ & H & _). contradiction. }
      destruct (httpSchemeTest (trim s)) eqn:E2; simpl.
      - apply httpSchemeTest_spec in E2. split.
        + intros [= <-]. exists s. repeat split; auto.
          * intros H. apply length_zero_iff in H. congruence.
          * intros H. apply isPlaceholderCredential_spec in H. congruence.
        + intros (s' & [= <-] & -> & _). reflexivity.
      - split; [discriminate|].
        intros (s' & [= <-] & -> & _ & _ & H).
        apply httpSchemeTest_spec in H. congruence. }
    split; [exact A|]. split.
    - intros H (t & Ht). apply A in Ht. congruence.
    - intros H. destruct (normalizeHttpUrl v) as [t|] eqn:E; [|reflexivity].
      exfalso. apply H. exists t. now apply A.
  Qed.

Example normalizeHttpUrl_mixed_case :
    normalizeHttpUrl (JsString "  HTTPS://Example.com/v1 ") = Some "HTTPS://Example.com/v1" /\
    normalizeHttpUrl (JsString "http://<host>") = Some "http://<host>" /\
    normalizeHttpUrl (JsString "https://YOUR_HOST") = None /\
    normalizeHttpUrl (JsString "ftp://example.com") = None /\
    normalizeHttpUrl (JsNumeric 80) = None /\
    normalizeHttpUrl JsUndefined = None.
  Proof. repeat split; reflexivity. Qed.

End CredentialsFacts.

(* ===================================================================== *)
(** ** Interactive step runner *)
(* ===================================================================== *)

Module StepRunnerFacts.
Import StepRunner.

Section WithEnvironment.
Variable X : Type.
Variable executeStep :
      X -> InteractiveStep -> list ExecutorCallback * ExecutorOutcome * X.
Variable socket : option (nat -> Z).
Variable isoTime : nat -> string.
Variable normalizeStreamChunk : string -> string.

Local Abbreviation emit := (emit socket).
Local Abbreviation flushStreamBuffer := (flushStreamBuffer socket).
Local Abbreviation runCallback := (runCallback socket isoTime normalizeStreamChunk).
Local Abbreviation runFrom := (runFrom X executeStep socket isoTime normalizeStreamChunk).
Local Abbreviation run := (run X executeStep socket isoTime normalizeStreamChunk).
Local Abbreviation outcomes := (outcomes X executeStep).

    (** Emitting only touches the two event logs. *)
Lemma emit_executed ev r : executed (emit ev r) = executed r.
    Proof. reflexivity. Qed.

Lemma emit_last_type ev r : lastEventType (emit ev r) = Some (type ev).
    Proof.
      unfold lastEventType, emit; cbn [dispatched].
      rewrite map_app. cbn [map]. now rewrite last_last.
    Qed.

Lemma emit_last_step ev r : lastEventStep (emit ev r) = stepIndex ev.
    Proof.
      unfold lastEventStep, emit; cbn [dispatched].
      rewrite map_app. cbn [map]. now rewrite last_last.
    Qed.

Lemma fold_emit_executed (l : list (string * InteractiveStepRunnerEvent)) r :
      executed (fold_left (fun acc kv => emit (snd kv) acc) l r) = executed r.
    Proof. revert r. induction l as [|kv l IH]; intros r; simpl; [reflexivity | now rewrite IH]. Qed.

Lemma flushStreamBuffer_executed r :
      executed (flushStreamBuffer r) = executed r.
    Proof.
      unfold flushStreamBuffer. simpl.
      destruct (streamBuffer r) as [|kv l]; [reflexivity|].
      cbn [executed]. now rewrite fold_emit_executed.
    Qed.

Lemma bufferStreamChunk_executed t i d o r :
      executed (bufferStreamChunk isoTime normalizeStreamChunk t i d o r) = executed r.
    Proof.
      unfold bufferStreamChunk, scheduleStreamFlush, readClock. cbv zeta.
      destruct (String.eqb _ _); [reflexivity|]. cbn.
      now destruct (streamFlushTimer r).
    Qed.

Lemma runCallback_executed i step cb r :
      executed (runCallback i step cb r) = executed r.
    Proof.
      destruct cb; simpl; try apply bufferStreamChunk_executed.
      destruct (streamFlushTimer r); [apply flushStreamBuffer_executed | reflexivity].
    Qed.

Lemma callbacks_executed i step cbs r :
      executed (fold_left (fun acc cb => runCallback i step cb acc) cbs r) = executed r.
    Proof.
      revert r. induction cbs as [|cb cbs IH]; intros r; simpl; [reflexivity|].
      now rewrite IH, runCallback_executed.
    Qed.

Ltac runner_simpl :=
  repeat first
    [ rewrite emit_last_type | rewrite emit_last_step | rewrite emit_executed
    | rewrite flushStreamBuffer_executed | rewrite callbacks_executed
    | progress cbn [executed noteExecution type stepIndex status failedStepIndex] ].

    (** The loop of [run] against the first failing outcome. *)
Lemma runFrom_firstFailure steps :
      forall index total r x res r' x',
        runFrom index steps total r x = (res, r', x') ->
        match firstFailure (outcomes steps x) with
        | Some k =>
            status res = status_error /\
            failedStepIndex res = Some (index + k) /\
            executed r' = (executed r ++ seq index (S k))%list /\
            lastEventType r' = Some error_t /\
            lastEventStep r' = Some (index + k)
        | None =>
            status res = status_complete /\
            failedStepIndex res = None /\
            executed r' = (executed r ++ seq index (List.length steps))%list /\
            lastEventType r' = Some complete_t
        end.
    Proof.
      induction steps as [|step rest IH]; intros index total r x res r' x' H.
      - cbn [runFrom StepRunner.runFrom] in H. unfold readClock in H.
        injection H as <- <- _. cbn [firstFailure outcomes StepRunner.outcomes].
        runner_simpl. rewrite app_nil_r. auto.
      - cbn [runFrom StepRunner.runFrom] in H. cbn [outcomes StepRunner.outcomes].
        unfold readClock in H. cbv zeta in H.
        destruct (executeStep x step) as [[cbs outcome] x1] eqn:Ex.
        cbn [firstFailure].
        destruct outcome as [result | err]; cbn [failed].
        + destruct (negb (Z.eqb (exitCode result) 0)) eqn:Ecode.
          * injection H as <- <- _. runner_simpl.
            rewrite Nat.add_0_r. auto.
          * apply IH in H.
            destruct (firstFailure (outcomes rest x1)) as [k|]; cbn [option_map].
            -- destruct H as (H1 & H2 & H3 & H4 & H5).
               rewrite H1, H2, H3, H4, H5. runner_simpl.
               rewrite <- app_assoc, Nat.add_succ_r. auto.
            -- destruct H as (H1 & H2 & H3 & H4).
               rewrite H1, H2, H3, H4. runner_simpl.
               rewrite <- app_assoc. auto.
        + injection H as <- <- _. runner_simpl.
          rewrite Nat.add_0_r. auto.
    Qed.

Lemma firstFailure_first (os : list ExecutorOutcome) :
      forall k o,
        nth_error os k = Some o -> failed o = true ->
        (forall i o', i < k -> nth_error os i = Some o' -> failed o' = false) ->
        firstFailure os = Some k.
    Proof.
      induction os as [|o0 os IH]; intros k o Hk Hf Hbefore.
      - destruct k; discriminate.
      - destruct k as [|k]; simpl in *.
        + injection Hk as ->. now rewrite Hf.
        + rewrite (Hbefore 0 o0) by (auto; lia).
          rewrite (IH k o Hk Hf); [reflexivity|].
          intros i o' Hi Ho'. apply (Hbefore (S i) o'); [lia | exact Ho'].
    Qed.

Lemma firstFailure_none (os : list ExecutorOutcome) :
      (forall o, In o os -> failed o = false) -> firstFailure os = None.
    Proof.
      induction os as [|o0 os IH]; intros H; simpl; [reflexivity|].
      rewrite (H o0) by now left. rewrite IH; [reflexivity|].
      intros o Ho. apply H. now right.
    Qed.

(** C9. [run] hands the steps to the executor strictly in order and stops at
    the first step whose executor resolves with a non-zero exit code or
    throws: the last event it emits is then an [error] event for that step,
    the result is [{status: 'error', failedStepIndex}] with that step's
    index, and no later step reaches the executor.  When every step resolves
    with exit code 0 the result is [{status: 'complete'}], every step has
    been executed, in order, and the last emitted event is [complete]. *)
Theorem run_stops_at_first_failure (steps : list InteractiveStep) (x : X) :
  let '(res, r', _) := run steps newRunner x in
  (forall k o,
      nth_error (outcomes steps x) k = Some o ->
      failed o = true ->
      (forall i o', i < k -> nth_error (outcomes steps x) i = Some o' ->
                    failed o' = false) ->
      status res = status_error /\
      failedStepIndex res = Some k /\
      executed r' = seq 0 (S k) /\
      lastEventType r' = Some error_t /\
      lastEventStep r' = Some k) /\
  ((forall o, In o (outcomes steps x) -> failed o = false) ->
      status res = status_complete /\
      failedStepIndex res = None /\
      executed r' = seq 0 (List.length steps) /\
      lastEventType r' = Some complete_t).
Proof.
  destruct (run steps newRunner x) as [[res r'] x'] eqn:E.
  apply runFrom_firstFailure in E. split.
  - intros k o Hk Hf Hbefore.
    rewrite (firstFailure_first _ k o Hk Hf Hbefore) in E. exact E.
  - intros Hall. rewrite (firstFailure_none _ Hall) in E. exact E.
Qed.

End WithEnvironment.

(** The failing run of the test suite: the second step never runs. *)
Lemma run_stops_at_first_failure_witness :
  let '(res, r', calls) :=
    run nat failingExecutor None fixedClock (fun s => s) failingSteps newRunner 0 in
  status res = status_error /\
  failedStepIndex res = Some 0 /\
  executed r' = [0] /\
  lastEventType r' = Some error_t /\
  lastEventStep r' = Some 0.
Proof.
  pose proof (run_stops_at_first_failure nat failingExecutor None fixedClock
                (fun s => s) failingSteps 0) as H.
  destruct (run nat failingExecutor None fixedClock (fun s => s) failingSteps
              newRunner 0) as [[res r'] calls].
  destruct H as [H _].
  apply (H 0 (Resolved {| exitCode := 17; stdout := Some "failed";
                          stderr := Some "failed" |})).
  - reflexivity.
  - reflexivity.
  - intros i o' Hi. inversion Hi.
Defined.

(** The event sequences expected by interactive-step-runner.spec.ts. *)
Example spec_run_completes :
  let '(res, r', calls) :=
    run nat echoingExecutor None fixedClock (fun s => s) twoSteps newRunner 0 in
  status res = status_complete /\
  map type (dispatched r') =
    [step_start; stdout_t; stderr_t; step_end;
     step_start; stdout_t; stderr_t; step_end; complete_t] /\
  calls = 2.
Proof. vm_compute. auto. Qed.

Example spec_run_stops_on_exit_code :
  let '(res, r', calls) :=
    run nat failingExecutor None fixedClock (fun s => s) failingSteps newRunner 0 in
  status res = status_error /\ failedStepIndex res = Some 0 /\
  res_exitCode res = Some 17%Z /\
  map type (dispatched r') = [step_start; step_end; error_t] /\
  calls = 1.
Proof. vm_compute. auto. Qed.

Example spec_run_stops_on_throw :
  let '(res, r', calls) :=
    run nat throwingExecutor (Some (fun _ => WS_OPEN)) fixedClock (fun s => s)
      [ {| description := "throws"; command := ["explode"] |} ] newRunner 0 in
  status res = status_error /\ failedStepIndex res = Some 0 /\
  res_error res = Some "boom" /\
  map type (dispatched r') = [step_start; error_t] /\
  map type (sent r') = [step_start; error_t].
Proof. vm_compute. auto. Qed.

End StepRunnerFacts.

(* ===================================================================== *)
(** ** Error responses of [chatAction] *)
(* ===================================================================== *)

Module ChatErrorFacts.
Import JsString JsStringFacts ChatError ChatAction.

Lemma mentionsApiKey_spec (e : CaughtError) :
  mentionsApiKey e = true <-> CredentialError e.
Proof.
  unfold mentionsApiKey, CredentialError. destruct (message e) as [m|].
  - rewrite includes_spec. split.
    + intros (pre & post & H). now exists m, pre, post.
    + intros (m' & pre & post & [= <-] & H). now exists pre, post.
  - split; [discriminate | intros (m & _ & _ & H & _); discriminate].
Qed.

Section WithHost.
Variable decodeURIComponent : string -> option string.
Variable runtimeResolves : bool.
Variable projectMemoryResolves : bool.
Variable tryBlock : list ChatStream.UiMessage -> Cookies.JsRecord -> TryOutcome.

Local Abbreviation chatAction :=
  (chatAction decodeURIComponent runtimeResolves projectMemoryResolves tryBlock).
Local Abbreviation ReachesTry :=
  (ReachesTry decodeURIComponent runtimeResolves projectMemoryResolves).

(** Once the statements before [try] have run through, [chatAction] is its
    [try] block and its [catch] block. *)
Lemma chatAction_reaches_try request messages parsedCookies :
  ReachesTry request messages parsedCookies ->
  chatAction request =
  match tryBlock messages parsedCookies with
  | Streams => StreamingResponse
  | Fails caught =>
      match chatActionCatch caught with
      | Returns response => ErrorResponse response
      | Throws exception => Rejects exception
      end
  end.
Proof.
  intros (requestPayload & Hbody & Hcookies & Hruntime & Hmessages & Hmemory).
  unfold ChatAction.chatAction. now rewrite Hbody, Hcookies, Hruntime, Hmessages, Hmemory.
Qed.

(** A failure before [try] leaves [chatAction] as an exception. *)
Lemma chatAction_before_try request :
  (forall messages parsedCookies, ~ ReachesTry request messages parsedCookies) ->
  exists exception, chatAction request = Rejects exception.
Proof.
  intros H. unfold ChatAction.chatAction.
  destruct (requestBody request) as [| |requestPayload] eqn:Hbody;
    [eexists; reflexivity | eexists; reflexivity |].
  destruct (Cookies.parseCookiesChat decodeURIComponent _) as [parsedCookies|] eqn:Hcookies;
    [|eexists; reflexivity].
  destruct runtimeResolves eqn:Hruntime; [|eexists; reflexivity]. cbn [negb].
  destruct (messages requestPayload) as [messages|] eqn:Hmessages;
    [|eexists; reflexivity].
  destruct projectMemoryResolves eqn:Hmemory; [|eexists; reflexivity].
  exfalso. apply (H messages parsedCookies). exists requestPayload.
  repeat split; assumption.
Qed.

Lemma toUnsignedShort_small (z : Z) :
  (0 <= z < 65536)%Z -> toUnsignedShort z = z.
Proof. intros H. unfold toUnsignedShort. now apply Z.mod_small. Qed.

Lemma newResponse_accepts body status statusText contentType :
  (200 <= status <= 599)%Z ->
  status <> 204%Z -> status <> 205%Z -> status <> 304%Z ->
  newResponse body status statusText contentType =
  Returns {| body := body; status := status; statusText := statusText;
             contentType := contentType |}.
Proof.
  intros Hrange H204 H205 H304. unfold newResponse. cbv zeta.
  rewrite toUnsignedShort_small by lia.
  replace ((200 <=? status)%Z && (status <=? 599)%Z) with true
    by (symmetry; apply andb_true_iff; split; apply Z.leb_le; lia).
  cbn [negb]. unfold isNullBodyStatus. cbn [existsb].
  repeat match goal with
         | |- context [Z.eqb status ?c] =>
             replace (Z.eqb status c) with false
               by (symmetry; apply Z.eqb_neq; lia)
         end.
  reflexivity.
Qed.

Lemma newResponse_range body status statusText contentType :
  (toUnsignedShort status < 200 \/ 599 < toUnsignedShort status)%Z ->
  newResponse body status statusText contentType = Throws RangeError.
Proof.
  intros H. unfold newResponse. cbv zeta.
  replace ((200 <=? toUnsignedShort status)%Z && (toUnsignedShort status <=? 599)%Z)
    with false; [reflexivity|].
  symmetry. apply andb_false_iff.
  destruct H as [H | H]; [left | right]; apply Z.leb_gt; exact H.
Qed.

Lemma newResponse_null_body body status statusText contentType :
  toUnsignedShort status = 204%Z \/ toUnsignedShort status = 205%Z \/
  toUnsignedShort status = 304%Z ->
  newResponse body status statusText contentType = Throws TypeError.
Proof.
  intros H. unfold newResponse. cbv zeta.
  destruct H as [-> | [-> | ->]]; reflexivity.
Qed.


End WithHost.

(** The statements before [try] accept the plain request. *)
Lemma plainRequest_reaches_try :
  ReachesTry Cookies.exampleDecode true true plainRequest
    [helloMessage] [("theme", "dark")].
Proof. eexists. repeat split. Qed.



End ChatErrorFacts.

(* ===================================================================== *)
(** ** Stream timeout *)
(* ===================================================================== *)

Module StreamTimeoutFacts.
Import JsString StreamTimeout.

Example long_think_models :
  map LONG_THINK_MODEL_RE_test
    [ "gpt-5"; "GPT-5.2"; "openai/gpt-5-codex"; "codex-mini-latest"; "o1-preview";
      "o3"; "claude-3.7-sonnet"; "claude-3-5-sonnet-latest" ]
  = [ true; true; true; true; true; true; true; true ].
Proof. reflexivity. Qed.

Example short_think_models :
  map LONG_THINK_MODEL_RE_test
    [ ""; "gpt-4o"; "gpt-50"; "foo1"; "o1x"; "claude-3-5-sonnet-20241022";
      "mycodex"; "claude-3x7" ]
  = [ false; false; false; false; false; false; false; false ].
Proof. reflexivity. Qed.

Section WithNumber.
Variable Number : string -> JsNumber.

Local Abbreviation streamTimeoutMs := (streamTimeoutMs Number).

Lemma fallback_values (selectedModel : option string) :
  dynamicStreamTimeoutFallbackMs selectedModel = (300000 # 1)%Q \/
  dynamicStreamTimeoutFallbackMs selectedModel = (180000 # 1)%Q.
Proof.
  unfold dynamicStreamTimeoutFallbackMs.
  destruct (LONG_THINK_MODEL_RE_test _); auto.
Qed.

Lemma fallback_at_least_30000 (selectedModel : option string) :
  ((30000 # 1) <= dynamicStreamTimeoutFallbackMs selectedModel)%Q.
Proof.
  destruct (fallback_values selectedModel) as [-> | ->];
    apply Qle_bool_iff; reflexivity.
Qed.

(** C5. The effective stream timeout of a run is a finite number of at
    least 30000 ms.  When BOLT_STREAM_TIMEOUT_MS is configured to a finite
    number of at least 30000, that number is the timeout; otherwise the
    timeout is the default derived from the model: 300000 ms when the
    selected model name matches [LONG_THINK_MODEL_RE], 180000 ms when it
    does not. *)
Theorem streamTimeoutMs_floor_and_default
    (cfg : TimeoutSettings) (selectedModel : option string) :
  (exists q, streamTimeoutMs cfg selectedModel = Finite q /\ (30000 # 1 <= q)%Q) /\
  (forall text v,
      configuredText cfg = Some text -> Number text = Finite v ->
      (30000 # 1 <= v)%Q ->
      streamTimeoutMs cfg selectedModel = Finite v) /\
  ((configuredText cfg = None \/
    exists text, configuredText cfg = Some text /\
                 forall v, Number text = Finite v -> ~ (30000 # 1 <= v)%Q) ->
   streamTimeoutMs cfg selectedModel =
     Finite (dynamicStreamTimeoutFallbackMs selectedModel)) /\
  dynamicStreamTimeoutFallbackMs selectedModel =
    (if LONG_THINK_MODEL_RE_test
          match selectedModel with
          | Some EmptyString | None => EmptyString
          | Some m => m
          end
     then (300000 # 1)%Q else (180000 # 1)%Q).
Proof.
  pose proof (fallback_at_least_30000 selectedModel) as Hfb.
  unfold StreamTimeout.streamTimeoutMs, configuredStreamTimeoutMs.
  repeat split.
  - destruct (configuredText cfg) as [text|].
    + destruct (Number text) as [|neg|v]; cbn [Number_isFinite andb];
        try (eexists; split; [reflexivity | exact Hfb]).
      cbn [atLeast30000]. destruct (Qle_bool (30000 # 1)%Q v) eqn:E.
      * exists v. split; [reflexivity | now apply Qle_bool_iff].
      * eexists; split; [reflexivity | exact Hfb].
    + cbn [Number_isFinite atLeast30000 andb].
      destruct (Qle_bool _ _); eexists; split; try reflexivity; exact Hfb.
  - intros text v -> -> Hv. cbn [Number_isFinite atLeast30000 andb].
    apply Qle_bool_iff in Hv. now rewrite Hv.
  - intros [-> | (text & -> & Hbad)].
    + cbn [Number_isFinite atLeast30000 andb]. now destruct (Qle_bool _ _).
    + destruct (Number text) as [|neg|v] eqn:En; cbn [Number_isFinite andb];
        try reflexivity.
      cbn [atLeast30000]. destruct (Qle_bool (30000 # 1)%Q v) eqn:E; [|reflexivity].
      apply Qle_bool_iff in E. exfalso. exact (Hbad v eq_refl E).
Qed.

End WithNumber.

(** A configured 45000 ms is used as it is. *)
Lemma streamTimeoutMs_floor_and_default_witness :
  streamTimeoutMs decimalNumber
    {| envVars_BOLT_STREAM_TIMEOUT_MS := Some "45000";
       process_env_BOLT_STREAM_TIMEOUT_MS := None |} (Some "gpt-4o")
  = Finite (45000 # 1)%Q /\
  streamTimeoutMs decimalNumber
    {| envVars_BOLT_STREAM_TIMEOUT_MS := Some "1000";
       process_env_BOLT_STREAM_TIMEOUT_MS := None |} (Some "o3-mini")
  = Finite (300000 # 1)%Q.
Proof.
  split.
  - apply (proj1 (proj2 (streamTimeoutMs_floor_and_default decimalNumber
             {| envVars_BOLT_STREAM_TIMEOUT_MS := Some "45000";
                process_env_BOLT_STREAM_TIMEOUT_MS := None |} (Some "gpt-4o")))
           "45000" (45000 # 1)%Q).
    + reflexivity.
    + reflexivity.
    + apply Qle_bool_iff. reflexivity.
  - apply (proj1 (proj2 (proj2 (streamTimeoutMs_floor_and_default decimalNumber
             {| envVars_BOLT_STREAM_TIMEOUT_MS := Some "1000";
                process_env_BOLT_STREAM_TIMEOUT_MS := None |} (Some "o3-mini"))))).
    right. exists "1000". split; [reflexivity|].
    intros v Hv. injection Hv as <-. intros H.
    apply Qle_bool_iff in H. discriminate.
Defined.

Example timeouts :
  streamTimeoutMs decimalNumber
    {| envVars_BOLT_STREAM_TIMEOUT_MS := None;
       process_env_BOLT_STREAM_TIMEOUT_MS := Some "60000" |} None
  = Finite (60000 # 1)%Q /\
  streamTimeoutMs decimalNumber
    {| envVars_BOLT_STREAM_TIMEOUT_MS := Some "soon";
       process_env_BOLT_STREAM_TIMEOUT_MS := Some "60000" |} (Some "gpt-4o")
  = Finite (180000 # 1)%Q /\
  streamTimeoutMs decimalNumber
    {| envVars_BOLT_STREAM_TIMEOUT_MS := Some "";
       process_env_BOLT_STREAM_TIMEOUT_MS := None |} (Some "gpt-5-codex")
  = Finite (300000 # 1)%Q.
Proof. repeat split; reflexivity. Qed.

End StreamTimeoutFacts.

(* ===================================================================== *)
(** ** The chat run *)
(* ===================================================================== *)

Module ChatFacts.
Import Chat.

Section WithExternals.
Context {RC : Type} {ext : Externals RC} {req : Request}.

Local Notation "f ;; g" := (andThen f g) (at level 62, right associativity).
Local Abbreviation State := (@RunState RC).

(** *** Rules for composed steps *)

Lemma unchanged_skip {A} (get : State -> A) : Unchanged get skip.
Proof. intros s. reflexivity. Qed.

Lemma unchanged_andThen {A} (get : State -> A) (f g : Step) :
  Unchanged get f -> Unchanged get g -> Unchanged get (f ;; g).
Proof. intros Hf Hg s. unfold andThen. now rewrite Hg, Hf. Qed.

Lemma unchanged_when {A} (get : State -> A) (b : bool) (f : Step) :
  Unchanged get f -> Unchanged get (when b f).
Proof. intros Hf. destruct b; [exact Hf | apply unchanged_skip]. Qed.

Lemma unchanged_reading {A B} (get : State -> A) (rd : State -> B)
    (k : B -> Step) :
  (forall b, Unchanged get (k b)) -> Unchanged get (reading rd k).
Proof. intros Hk s. apply Hk. Qed.

Lemma unchanged_writeAll {A} (get : State -> A) (parts : list StreamPart) :
  (forall part, Unchanged get (writeData part)) ->
  Unchanged get (writeAll parts).
Proof.
  intros Hf. unfold writeAll.
  induction parts as [|part parts IH]; intros s; simpl; [reflexivity|].
  rewrite IH. apply Hf.
Qed.

Lemma preserves_skip (P : State -> Prop) : Preserves P skip.
Proof. intros s H. exact H. Qed.

Lemma preserves_andThen (P : State -> Prop) (f g : Step) :
  Preserves P f -> Preserves P g -> Preserves P (f ;; g).
Proof. intros Hf Hg s H. apply Hg, Hf, H. Qed.

Lemma preserves_when (P : State -> Prop) (b : bool) (f : Step) :
  Preserves P f -> Preserves P (when b f).
Proof. intros Hf. destruct b; [exact Hf | apply preserves_skip]. Qed.

Lemma preserves_reading {B} (P : State -> Prop) (rd : State -> B)
    (k : B -> Step) :
  (forall b, Preserves P (k b)) -> Preserves P (reading rd k).
Proof. intros Hk s. apply Hk. Qed.

Lemma preserves_writeAll (P : State -> Prop) (parts : list StreamPart) :
  Forall (fun part => Preserves P (writeData part)) parts ->
  Preserves P (writeAll parts).
Proof.
  unfold writeAll. induction 1 as [|part parts Hpart _ IH]; intros s H; simpl;
    [exact H|].
  apply IH, Hpart, H.
Qed.

Lemma preserves_writeAll_map {B} (P : State -> Prop) (f : B -> StreamPart)
    (l : list B) :
  (forall b, Preserves P (writeData (f b))) ->
  Preserves P (writeAll (map f l)).
Proof.
  intros H. apply preserves_writeAll, Forall_map, Forall_forall. intros b _. apply H.
Qed.

End WithExternals.

Create HintDb run_steps discriminated.

(** Taking a composed step apart along its syntax; the leaves are left to
    the hints of [run_steps]. *)
Ltac step_structure rule_skip rule_seq rule_when rule_reading :=
  repeat
    (lazymatch goal with
     | |- _ _ skip => apply rule_skip
     | |- _ _ (andThen _ _) => apply rule_seq
     | |- _ _ (when _ _) => apply rule_when
     | |- _ _ (reading _ _) => apply rule_reading; intro
     | |- _ _ (if ?b then _ else _) => destruct b
     | |- _ _ (match ?x with _ => _ end) => destruct x
     | |- _ => solve [auto with run_steps]
     end).

Ltac unchanged :=
  step_structure @unchanged_skip @unchanged_andThen @unchanged_when
    @unchanged_reading.

Ltac preserved :=
  step_structure @preserves_skip @preserves_andThen @preserves_when
    @preserves_reading.

(** The callbacks and blocks of [execute], down to the statements that
    write on the stream, push messages, issue backend calls or emit the
    completion events. *)
Ltac unfold_callbacks :=
  unfold perform, beginRun, summaryStarts, summaryReturns, contextReturns,
    planningStarts, plannerProgress, plannerReturns, plannerThrows,
    startExecution, stopHeartbeatIfRunning, commentaryHeartbeatCallback,
    onTimeout, onStepFinish, onFinish, resumeFinalize, finalizeOnFinish,
    finalizeAfterPause, mergeRecoverySignal, addUsage, markRunActivity.

Ltac unfold_handlers :=
  unfold_callbacks;
  unfold continueOrComplete, concludeRun, stopRunMonitors.

(** Those statements, down to the assignments. *)
Ltac unfold_statements :=
  unfold emitRunCompletionEvents, writeCommentary, writeProgress,
    writeMessageAnnotation, issueSegment, pushMessage,
    createStreamAbortSignal, startCommentaryHeartbeat, stopCommentaryHeartbeat,
    writeData, markRunActivity.

(** An assignment leaves every other variable as it is. *)
#[export] Hint Extern 5 (Unchanged _ _) => (intro; reflexivity) : run_steps.
#[export] Hint Extern 3 (Unchanged _ (writeAll _)) =>
  (apply @unchanged_writeAll; intro; intro; reflexivity) : run_steps.
#[export] Hint Extern 3 (Preserves _ (writeAll (map _ _))) =>
  (apply @preserves_writeAll_map; intro) : run_steps.
#[export] Hint Extern 5 (Preserves _ _) =>
  (let s := fresh "s" in let H := fresh "H" in intros s H; exact H) : run_steps.
#[export] Hint Extern 6 (Preserves _ _) =>
  (let s := fresh "s" in let H := fresh "H" in intros s H; reflexivity) : run_steps.

Section Frames.
Context {RC : Type} {ext : Externals RC} {req : Request}.

Local Abbreviation State := (@RunState RC).

(** Nothing in [execute] hands a segment to the switchable stream. *)
Lemma perform_stream (a : Action) : Unchanged (stream : State -> _) (perform a).
Proof. destruct a; unfold_handlers; unfold_statements; unchanged. Qed.

(** An invariant of the initial state that every action keeps holds in
    every reachable state. *)
Lemma reachable_invariant (P : State -> Prop) (messages : list Message) :
  P (initialState messages) ->
  (forall a, Preserves P (perform a)) ->
  forall s, Reachable messages s -> P s.
Proof.
  intros Hinit Hstep s [actions ->]. unfold performAll.
  generalize (initialState messages) Hinit.
  induction actions as [|a actions IH]; intros s0 H0; simpl; [exact H0|].
  apply IH, Hstep, H0.
Qed.

End Frames.

(** *** Commentary order *)

Section CommentaryOrder.
Context {RC : Type} {ext : Externals RC} {req : Request}.

Local Abbreviation State := (@RunState RC).

Lemma commentaryOrders_app (w1 w2 : list StreamPart) :
  commentaryOrders (w1 ++ w2) = (commentaryOrders w1 ++ commentaryOrders w2)%list.
Proof. apply flat_map_app. Qed.

Lemma sorted_snoc (l : list nat) (n : nat) :
  StronglySorted lt l -> Forall (fun o => o < n) l ->
  StronglySorted lt (l ++ [n]).
Proof.
  induction 1 as [|a l Hs IH Ha]; intros Hn; simpl.
  - constructor; constructor.
  - inversion Hn as [|? ? Han Hln]; subst. constructor.
    + now apply IH.
    + apply Forall_app. split; [exact Ha | now constructor].
Qed.

Lemma below_weaken (l : list nat) (n : nat) :
  Forall (fun o => o < n) l -> Forall (fun o => o < S n) l.
Proof. apply Forall_impl. intros a Ha. lia. Qed.

(** A commentary event takes the counter as its order and moves the
    counter on. *)
Lemma writeCommentary_orders phase message status detail :
  Preserves (OrdersIncrease : State -> Prop)
    (writeCommentary phase message status detail).
Proof.
  intros s [Hs Hb]. unfold OrdersIncrease.
  unfold writeCommentary, writeData, reading, andThen, when, skip.
  destruct (isNone (firstCommentaryAt s)); cbn;
    rewrite commentaryOrders_app; cbn; (split;
      [ now apply sorted_snoc
      | apply Forall_app; split; [now apply below_weaken | repeat constructor] ]).
Qed.

Lemma writeProgress_orders label status message :
  Preserves (OrdersIncrease : State -> Prop) (writeProgress label status message).
Proof.
  intros s [Hs Hb]. unfold OrdersIncrease.
  unfold writeProgress, writeData, reading, andThen. cbn.
  rewrite commentaryOrders_app. cbn. rewrite app_nil_r.
  split; [exact Hs | now apply below_weaken].
Qed.

Lemma writeData_orders (part : StreamPart) :
  commentaryOrders [part] = [] ->
  Preserves (OrdersIncrease : State -> Prop) (writeData part).
Proof.
  intros Hpart s [Hs Hb]. unfold OrdersIncrease, writeData, reading. cbn.
  rewrite commentaryOrders_app, Hpart, app_nil_r. auto.
Qed.

#[local] Hint Resolve writeCommentary_orders writeProgress_orders : run_steps.
#[local] Hint Extern 2 (Preserves OrdersIncrease (writeData _)) =>
  (apply writeData_orders; reflexivity) : run_steps.
#[local] Hint Extern 2 (Preserves OrdersIncrease (writeMessageAnnotation _)) =>
  (apply writeData_orders; reflexivity) : run_steps.

Lemma perform_orders (a : Action) :
  Preserves (OrdersIncrease : State -> Prop) (perform a).
Proof.
  destruct a; unfold_handlers;
    unfold emitRunCompletionEvents, issueSegment, pushMessage,
      createStreamAbortSignal, startCommentaryHeartbeat,
      stopCommentaryHeartbeat, markRunActivity;
    preserved.
Qed.

(** C3. Within a run, the order values of the commentary events on the
    stream increase strictly in emission order, so that no order value is
    repeated. *)
Theorem commentary_orders_strictly_increase
    (messages : list Message) (s : State) :
  Reachable messages s ->
  StronglySorted lt (commentaryOrders (written s)) /\
  NoDup (commentaryOrders (written s)).
Proof.
  intros Hs.
  assert (H : OrdersIncrease s).
  { apply (reachable_invariant OrdersIncrease messages); [| apply perform_orders | exact Hs].
    split; constructor. }
  destruct H as [Hsorted _]. split; [exact Hsorted|].
  clear - Hsorted. induction Hsorted as [|a l Hl IH Ha]; constructor; [|exact IH].
  intros Hin. rewrite Forall_forall in Ha. specialize (Ha a Hin). lia.
Qed.

End CommentaryOrder.

Lemma commentary_orders_strictly_increase_witness :
  StronglySorted lt (commentaryOrders (written completedState)) /\
  NoDup (commentaryOrders (written completedState)).
Proof.
  apply (commentary_orders_strictly_increase
           (ext := exampleExternals 2 neverContinue) (req := exampleRequest)
           exampleMessages).
  exists completedRun. reflexivity.
Defined.

Example completedRun_orders :
  commentaryOrders (written completedState) = [1; 2; 3; 5; 6; 7; 8; 9; 10; 12; 13].
Proof. vm_compute. reflexivity. Qed.

(** *** Completion events *)

Section Completion.
Context {RC : Type} {ext : Externals RC} {req : Request}.

Local Abbreviation State := (@RunState RC).

Lemma countParts_app (k : CompletionPart) (w1 w2 : list StreamPart) :
  countParts k (w1 ++ w2) = countParts k w1 + countParts k w2.
Proof. unfold countParts. now rewrite filter_app, length_app. Qed.

Lemma writeData_completion (part : StreamPart) :
  (forall k, isCompletionPart k part = false) ->
  Preserves (CompletionOnce : State -> Prop) (writeData part).
Proof.
  intros Hpart s H k. unfold writeData, reading. cbn -[countParts].
  rewrite countParts_app, H. unfold countParts. cbn. rewrite Hpart. cbn. lia.
Qed.

Lemma writeCommentary_completion phase message status detail :
  Preserves (CompletionOnce : State -> Prop)
    (writeCommentary phase message status detail).
Proof.
  intros s H k. unfold writeCommentary, writeData, reading, andThen, when, skip.
  destruct (isNone (firstCommentaryAt s)); cbn -[countParts];
    rewrite countParts_app, H; unfold countParts; cbn;
    destruct k; cbn; lia.
Qed.

Lemma writeProgress_completion label status message :
  isResponseComplete label status = false ->
  Preserves (CompletionOnce : State -> Prop) (writeProgress label status message).
Proof.
  intros Hl s H k. unfold writeProgress, writeData, reading, andThen.
  cbn -[countParts isResponseComplete].
  rewrite countParts_app, H. unfold countParts.
  destruct k; cbn -[isResponseComplete]; rewrite ?Hl; cbn; lia.
Qed.

(** What the first call of [emitRunCompletionEvents] writes. *)
Lemma emitRunCompletionEvents_first text model provider (s : State) :
  completionEmitted s = false ->
  exists u a m pm p,
    written (emitRunCompletionEvents text model provider s) =
      (written s ++
       [ usage_data u; annotation_usage a; run_metrics m;
         project_memory pm; progress p ])%list /\
    isResponseComplete (label p) (p_status p) = true /\
    completionEmitted (emitRunCompletionEvents text model provider s) = true.
Proof.
  intros E. unfold emitRunCompletionEvents, reading. rewrite E.
  unfold stopCommentaryHeartbeat, writeProgress, writeMessageAnnotation,
    writeData, reading, andThen, when, skip.
  destruct (commentaryHeartbeat s); cbn;
    repeat rewrite <- app_assoc; cbn;
    do 5 eexists; (split; [reflexivity | split; reflexivity]).
Qed.

(** Every later call returns at once. *)
Lemma emitRunCompletionEvents_again text model provider (s : State) :
  completionEmitted s = true ->
  emitRunCompletionEvents text model provider s = s.
Proof. intros E. unfold emitRunCompletionEvents, reading. now rewrite E. Qed.

Lemma emitRunCompletionEvents_completion text model provider :
  Preserves (CompletionOnce : State -> Prop)
    (emitRunCompletionEvents text model provider).
Proof.
  intros s H k. destruct (completionEmitted s) eqn:E.
  - rewrite emitRunCompletionEvents_again by exact E. apply H.
  - destruct (emitRunCompletionEvents_first text model provider s E)
      as (u & a & m & pm & p & Hw & Hp & He).
    rewrite Hw, He, countParts_app. specialize (H k). rewrite E in H. rewrite H.
    unfold countParts. destruct k; cbn; rewrite ?Hp; reflexivity.
Qed.

#[local] Hint Resolve writeCommentary_completion emitRunCompletionEvents_completion
  : run_steps.
#[local] Hint Extern 2 (Preserves CompletionOnce (writeProgress _ _ _)) =>
  (apply writeProgress_completion; reflexivity) : run_steps.
#[local] Hint Extern 2 (Preserves CompletionOnce (writeData _)) =>
  (apply writeData_completion; intros []; reflexivity) : run_steps.
#[local] Hint Extern 2 (Preserves CompletionOnce (writeMessageAnnotation _)) =>
  (apply writeData_completion; intros []; reflexivity) : run_steps.

Lemma perform_completion (a : Action) :
  Preserves (CompletionOnce : State -> Prop) (perform a).
Proof.
  destruct a; unfold_handlers;
    unfold issueSegment, pushMessage, createStreamAbortSignal,
      startCommentaryHeartbeat, stopCommentaryHeartbeat, markRunActivity;
    preserved.
Qed.

(** After a call of [emitRunCompletionEvents] the guard is set. *)
Lemma emitRunCompletionEvents_emitted text model provider (s : State) :
  completionEmitted (emitRunCompletionEvents text model provider s) = true.
Proof.
  destruct (completionEmitted s) eqn:E.
  - now rewrite emitRunCompletionEvents_again.
  - now destruct (emitRunCompletionEvents_first text model provider s E)
      as (_ & _ & _ & _ & _ & _ & _ & He).
Qed.

(** Nothing in [execute] clears the guard. *)
Lemma perform_keeps_emitted (a : Action) :
  Preserves (fun s : State => completionEmitted s = true) (perform a).
Proof. destruct a; unfold_handlers; unfold_statements; preserved. Qed.

(** The statements that close a run end with that call. *)
Lemma concludeRun_emitted text model provider (s : State) :
  completionEmitted (concludeRun text model provider s) = true.
Proof. unfold concludeRun, andThen. apply emitRunCompletionEvents_emitted. Qed.

End Completion.

(** *** Restarts: messages pushed and segments issued *)

Section Restarts.
Context {RC : Type} {ext : Externals RC} {req : Request}.

Local Abbreviation State := (@RunState RC).
Local Notation "f ;; g" := (andThen f g) (at level 62, right associativity).

(** The variables a commentary event leaves alone. *)
Lemma writeCommentary_frame phase message status detail (s : State) :
  let s' := writeCommentary phase message status detail s in
  processedMessages s' = processedMessages s /\
  generatedIds s' = generatedIds s /\
  segments s' = segments s /\
  runContinuationAttempts s' = runContinuationAttempts s /\
  forcedRunRecoveryAttempted s' = forcedRunRecoveryAttempted s /\
  thrown s' = thrown s /\
  stream s' = stream s.
Proof.
  unfold writeCommentary, writeData, reading, andThen, when, skip.
  destruct (isNone (firstCommentaryAt s)); cbn; repeat split.
Qed.

(** Pushing the two synthetic messages and issuing the backend call. *)
Lemma restart_effect origin options assistantText directive (s : State) :
  let s' := (pushMessage assistant assistantText ;;
             pushMessage user directive ;;
             issueSegment origin options) s in
  processedMessages s' =
    (processedMessages s ++ restartMessages s assistantText directive)%list /\
  segments s' =
    (segments s ++ [ {| seg_origin := origin; seg_options := options;
                        seg_messages := processedMessages s' |} ])%list /\
  runContinuationAttempts s' = runContinuationAttempts s /\
  forcedRunRecoveryAttempted s' = forcedRunRecoveryAttempted s /\
  thrown s' = thrown s /\
  stream s' = stream s.
Proof.
  unfold pushMessage, issueSegment, createStreamAbortSignal, markRunActivity,
    restartMessages, reading, andThen, skip. cbn.
  rewrite <- app_assoc. repeat split.
Qed.

Lemma countSegments_app (o : SegmentOrigin) (l1 l2 : list Segment) :
  countSegments o (l1 ++ l2) = countSegments o l1 + countSegments o l2.
Proof. unfold countSegments. now rewrite filter_app, length_app. Qed.

Lemma andThen_apply (f g : Step) (s : State) : (f ;; g) s = g (f s).
Proof. reflexivity. Qed.

Lemma restartMessages_ids (s1 s2 : State) (a d : string) :
  generatedIds s1 = generatedIds s2 -> restartMessages s1 a d = restartMessages s2 a d.
Proof. unfold restartMessages. now intros ->. Qed.

(** The decision [continueOrComplete] starts from. *)
Local Abbreviation decisionAt s content lastUserContent :=
  (analyzeRunContinuation chatModeOrBuild lastUserContent content false
     (runContinuationAttempts s)).

(** The run-continuation branch. *)
Lemma continueOrComplete_continues content finishReason model provider
    lastUserContent (s : State) :
  shouldContinue (decisionAt s content lastUserContent) = true ->
  runContinuationAttempts s < MAX_RUN_CONTINUATION_ATTEMPTS ->
  let s' := continueOrComplete content finishReason model provider lastUserContent s in
  runContinuationAttempts s' = runContinuationAttempts s + 1 /\
  forcedRunRecoveryAttempted s' = forcedRunRecoveryAttempted s /\
  thrown s' = thrown s /\
  processedMessages s' =
    (processedMessages s ++
     restartMessages s content
       (runContinuationPrompt model provider lastUserContent
          (runContinuationAttempts s + 1)))%list /\
  segments s' =
    (segments s ++ [ {| seg_origin := runContinuationSegment;
                        seg_options := mainOptions;
                        seg_messages := processedMessages s' |} ])%list.
Proof.
  intros Hd Hlt. cbv zeta. unfold continueOrComplete, reading.
  rewrite Hd. apply Nat.leb_gt in Hlt. rewrite Hlt. cbn [andb negb].
  do 2 rewrite andThen_apply.
  match goal with
  | |- context [(pushMessage assistant ?a ;; pushMessage user ?d ;; issueSegment ?o ?opt) ?s0] =>
      destruct (restart_effect o opt a d s0) as (Hm & Hseg & Ha & Hf & Ht & _);
      cbv zeta in Hm, Hseg, Ha, Hf, Ht;
      match s0 with
      | writeCommentary ?p ?m ?st ?dt ?s1 =>
          destruct (writeCommentary_frame p m st dt s1)
            as (Wm & Wg & Wseg & Wa & Wf & Wt & _);
          cbv zeta in Wm, Wg, Wseg, Wa, Wf, Wt
      end
  end.
  rewrite Ha, Hf, Ht, Hseg, Hm, Wa, Wf, Wt, Wseg, Wm.
  rewrite (restartMessages_ids _ _ _ _ Wg). cbn. repeat split.
Qed.

(** The forced-recovery branch. *)
Lemma continueOrComplete_escalates content finishReason model provider
    lastUserContent (s : State) :
  shouldContinue (decisionAt s content lastUserContent) = true ->
  MAX_RUN_CONTINUATION_ATTEMPTS <= runContinuationAttempts s ->
  forcedRunRecoveryAttempted s = false ->
  chatModeOrBuild = build ->
  let s' := continueOrComplete content finishReason model provider lastUserContent s in
  runContinuationAttempts s' = runContinuationAttempts s /\
  forcedRunRecoveryAttempted s' = true /\
  thrown s' = thrown s /\
  processedMessages s' =
    (processedMessages s ++
     restartMessages s content
       (buildForcedRunRecoveryPrompt provider model lastUserContent))%list /\
  segments s' =
    (segments s ++ [ {| seg_origin := forcedRunRecoverySegment;
                        seg_options := mainOptions;
                        seg_messages := processedMessages s' |} ])%list.
Proof.
  intros Hd Hle Hforced Hmode. cbv zeta. unfold continueOrComplete, reading.
  rewrite Hd, Hforced, Hmode. apply Nat.leb_le in Hle. rewrite Hle.
  cbn [andb negb isBuild].
  do 2 rewrite andThen_apply.
  match goal with
  | |- context [(pushMessage assistant ?a ;; pushMessage user ?d ;; issueSegment ?o ?opt) ?s0] =>
      destruct (restart_effect o opt a d s0) as (Hm & Hseg & Ha & Hf & Ht & _);
      cbv zeta in Hm, Hseg, Ha, Hf, Ht;
      match s0 with
      | writeCommentary ?p ?m ?st ?dt ?s1 =>
          destruct (writeCommentary_frame p m st dt s1)
            as (Wm & Wg & Wseg & Wa & Wf & Wt & _);
          cbv zeta in Wm, Wg, Wseg, Wa, Wf, Wt
      end
  end.
  rewrite Ha, Hf, Ht, Hseg, Hm, Wa, Wf, Wt, Wseg, Wm.
  rewrite (restartMessages_ids _ _ _ _ Wg). cbn. repeat split.
Qed.

(** With no continuation and no escalation, a finish that is not a length
    finish concludes the run. *)
Lemma continueOrComplete_concludes content finishReason model provider
    lastUserContent (s : State) :
  shouldContinue (decisionAt s content lastUserContent)
    && negb (MAX_RUN_CONTINUATION_ATTEMPTS <=? runContinuationAttempts s) = false ->
  shouldContinue (decisionAt s content lastUserContent)
    && (MAX_RUN_CONTINUATION_ATTEMPTS <=? runContinuationAttempts s)
    && negb (forcedRunRecoveryAttempted s) && isBuild chatModeOrBuild = false ->
  isLength finishReason = false ->
  continueOrComplete content finishReason model provider lastUserContent s =
  concludeRun content model provider s.
Proof.
  intros H1 H2 H3. unfold continueOrComplete, reading. now rewrite H1, H2, H3.
Qed.

(** With no continuation and no escalation, a length finish either hits the
    segment limit or restarts with the continue prompt. *)
Lemma continueOrComplete_length content model provider lastUserContent (s : State) :
  shouldContinue (decisionAt s content lastUserContent)
    && negb (MAX_RUN_CONTINUATION_ATTEMPTS <=? runContinuationAttempts s) = false ->
  shouldContinue (decisionAt s content lastUserContent)
    && (MAX_RUN_CONTINUATION_ATTEMPTS <=? runContinuationAttempts s)
    && negb (forcedRunRecoveryAttempted s) && isBuild chatModeOrBuild = false ->
  let s' := continueOrComplete content fr_length model provider lastUserContent s in
  (MAX_RESPONSE_SEGMENTS <= switches (stream s) ->
   s' = set_thrown (Some "Cannot continue message: Maximum segments reached") s) /\
  (switches (stream s) < MAX_RESPONSE_SEGMENTS ->
   runContinuationAttempts s' = runContinuationAttempts s /\
   forcedRunRecoveryAttempted s' = forcedRunRecoveryAttempted s /\
   thrown s' = thrown s /\
   processedMessages s' =
     (processedMessages s ++
      restartMessages s content (continuePrompt model provider))%list /\
   segments s' =
     (segments s ++ [ {| seg_origin := lengthContinuationSegment;
                         seg_options := mainOptions;
                         seg_messages := processedMessages s' |} ])%list).
Proof.
  intros H1 H2. cbv zeta. unfold continueOrComplete, reading.
  rewrite H1, H2. cbn [isLength negb]. split.
  - intros Hle. apply Nat.leb_le in Hle. now rewrite Hle.
  - intros Hlt. apply Nat.leb_gt in Hlt. rewrite Hlt.
    destruct (restart_effect lengthContinuationSegment mainOptions content
                (continuePrompt model provider) s) as (Hm & Hseg & Ha & Hf & Ht & _).
    cbv zeta in Hm, Hseg, Ha, Hf, Ht.
    rewrite Ha, Hf, Ht, Hseg, Hm. repeat split.
Qed.

(** The branches of [continueOrComplete]: a restart with one of three
    directives, the conclusion of the run, or the segment-limit error. *)
Lemma continueOrComplete_cases content finishReason model provider
    lastUserContent (s : State) :
  let s' := continueOrComplete content finishReason model provider lastUserContent s in
  (exists origin directive,
      thrown s' = thrown s /\
      processedMessages s' =
        (processedMessages s ++ restartMessages s content directive)%list /\
      segments s' =
        (segments s ++ [ {| seg_origin := origin; seg_options := mainOptions;
                            seg_messages := processedMessages s' |} ])%list /\
      ((origin = runContinuationSegment /\
        directive = runContinuationPrompt model provider lastUserContent
                      (runContinuationAttempts s + 1)) \/
       (origin = forcedRunRecoverySegment /\
        directive = buildForcedRunRecoveryPrompt provider model lastUserContent) \/
       (origin = lengthContinuationSegment /\
        directive = continuePrompt model provider /\
        finishReason = fr_length /\
        switches (stream s) < MAX_RESPONSE_SEGMENTS))) \/
  (isLength finishReason = false /\ s' = concludeRun content model provider s) \/
  (finishReason = fr_length /\
   MAX_RESPONSE_SEGMENTS <= switches (stream s) /\
   s' = set_thrown (Some "Cannot continue message: Maximum segments reached") s).
Proof.
  cbv zeta.
  destruct (shouldContinue (decisionAt s content lastUserContent)
            && negb (MAX_RUN_CONTINUATION_ATTEMPTS <=? runContinuationAttempts s))
    eqn:H1.
  { apply andb_true_iff in H1 as [Hd Hlim]. apply negb_true_iff, Nat.leb_gt in Hlim.
    destruct (continueOrComplete_continues content finishReason model provider
                lastUserContent s Hd Hlim) as (_ & _ & Ht & Hm & Hseg).
    left. exists runContinuationSegment. eexists. repeat split; eauto. }
  destruct (shouldContinue (decisionAt s content lastUserContent)
            && (MAX_RUN_CONTINUATION_ATTEMPTS <=? runContinuationAttempts s)
            && negb (forcedRunRecoveryAttempted s) && isBuild chatModeOrBuild)
    eqn:H2.
  { apply andb_true_iff in H2 as [H2 Hmode].
    apply andb_true_iff in H2 as [H2 Hforced].
    apply andb_true_iff in H2 as [Hd Hlim].
    apply Nat.leb_le in Hlim. apply negb_true_iff in Hforced.
    assert (Hb : chatModeOrBuild = build)
      by (destruct chatModeOrBuild; [discriminate | reflexivity]).
    destruct (continueOrComplete_escalates content finishReason model provider
                lastUserContent s Hd Hlim Hforced Hb) as (_ & _ & Ht & Hm & Hseg).
    left. exists forcedRunRecoverySegment. eexists. repeat split; eauto. }
  destruct (isLength finishReason) eqn:Hlen.
  - destruct finishReason; try discriminate.
    destruct (continueOrComplete_length content model provider lastUserContent
                s H1 H2) as [Hhit Hrestart]. cbv zeta in Hhit, Hrestart.
    destruct (Nat.leb_spec MAX_RESPONSE_SEGMENTS (switches (stream s)))
      as [Hsw | Hsw].
    + right. right. auto.
    + destruct (Hrestart Hsw) as (_ & _ & Ht & Hm & Hseg).
      left. exists lengthContinuationSegment. eexists.
      repeat split; eauto. right. right. auto.
  - right. left. split; [reflexivity|].
    now apply continueOrComplete_concludes.
Qed.

Lemma onFinish_consults content finishReason usage (s : State) :
  consultsAnalyzer finishReason s = true ->
  onFinish content finishReason usage s =
  continueOrComplete content finishReason (ex_model (lastUser s))
    (ex_provider (lastUser s)) (ex_content (lastUser s)) (addUsage usage s).
Proof.
  unfold consultsAnalyzer, onFinish, lastUser, reading. intros H.
  apply negb_true_iff in H. rewrite andThen_apply.
  destruct usage as [u|]; cbn [addUsage]; unfold reading, skip;
    cbn [forceFinalizeRequested forceFinalizeAttempted processedMessages
         set_cumulativeUsage pendingRecoveryBackoffMs];
    now rewrite H.
Qed.

End Restarts.

(** *** The completion batch: at most once, and once when the run concludes *)

Section CompletionBatch.
Context {RC : Type} {ext : Externals RC} {req : Request}.

Local Abbreviation State := (@RunState RC).

(** C1, as amended. In every state a run can reach, under any interleaving
    of heartbeats, timeouts, step results, segment finishes, recovery pauses
    and final-answer finishes, each part of the completion batch (usage
    event, usage annotation, run-metrics event, project-memory event and the
    final response progress event) is on the stream once if the batch has
    been emitted and not at all otherwise, and nothing clears the guard:
    the batch is emitted at most once.  The first call of [emitRunCompletionEvents] writes the batch and
    sets the guard, and every call after it returns the state as it was,
    writing nothing.  The batch is emitted, so that each part is on the
    stream exactly once, when the run concludes: at the finish of the forced
    final answer, and at a segment finish that is not a length finish when
    no forced final answer is due and the analyzer asks for no continuation
    that can still be granted.  The failure of the stream writes nothing: a
    run that fails before it concludes has no completion batch. *)
Theorem completion_batch_emitted_once (messages : list Message) (s : State) :
  Reachable messages s ->
  (forall k, countParts k (written s) = if completionEmitted s then 1 else 0) /\
  (forall text model provider,
      completionEmitted s = false ->
      completionEmitted (emitRunCompletionEvents text model provider s) = true /\
      forall k, countParts k
                  (written (emitRunCompletionEvents text model provider s)) = 1) /\
  (forall text model provider,
      completionEmitted s = true ->
      emitRunCompletionEvents text model provider s = s) /\
  (forall finalContent usage model provider,
      let s' := perform (FinalAnswerFinishes finalContent usage model provider) s in
      completionEmitted s' = true /\
      forall k, countParts k (written s') = 1) /\
  (forall content finishReason usage,
      let s' := perform (SegmentFinishes content finishReason usage) s in
      consultsAnalyzer finishReason s = true ->
      finishReason <> fr_length ->
      shouldContinue
        (analyzeRunContinuation chatModeOrBuild (ex_content (lastUser s)) content
           false (runContinuationAttempts s)) = false \/
      (MAX_RUN_CONTINUATION_ATTEMPTS <= runContinuationAttempts s /\
       (forcedRunRecoveryAttempted s = true \/ chatModeOrBuild = discuss)) ->
      completionEmitted s' = true /\
      forall k, countParts k (written s') = 1) /\
  (forall a, completionEmitted s = true -> completionEmitted (perform a s) = true) /\
  (written (perform StreamFails s) = written s /\
   completionEmitted (perform StreamFails s) = completionEmitted s).
Proof.
  intros Hs.
  assert (H : CompletionOnce s).
  { apply (reachable_invariant CompletionOnce messages);
      [| apply perform_completion | exact Hs].
    intros k. reflexivity. }
  assert (Hnext : forall a, completionEmitted (perform a s) = true ->
                            forall k, countParts k (written (perform a s)) = 1).
  { intros a He k. pose proof (perform_completion a s H k) as Hk.
    now rewrite He in Hk. }
  split; [exact H|]. split; [|split; [|split; [|split; [|split]]]].
  - intros text model provider E.
    pose proof (emitRunCompletionEvents_completion text model provider s H) as H'.
    destruct (emitRunCompletionEvents_first text model provider s E)
      as (_ & _ & _ & _ & _ & _ & _ & He).
    split; [exact He|]. intros k. specialize (H' k). now rewrite He in H'.
  - intros text model provider E. now apply emitRunCompletionEvents_again.
  - intros finalContent usage model provider. cbv zeta.
    assert (He : completionEmitted
                   (perform (FinalAnswerFinishes finalContent usage model provider) s)
                 = true).
    { cbn [perform]. unfold finalizeOnFinish. rewrite andThen_apply.
      apply concludeRun_emitted. }
    split; [exact He | now apply Hnext].
  - intros content finishReason usage. cbv zeta. intros Hconsult Hlength Hasked.
    assert (He : completionEmitted
                   (perform (SegmentFinishes content finishReason usage) s) = true).
    { cbn [perform]. rewrite (onFinish_consults _ _ _ _ Hconsult).
      assert (Ua : runContinuationAttempts (addUsage usage s) =
                   runContinuationAttempts s) by (destruct usage; reflexivity).
      assert (Uf : forcedRunRecoveryAttempted (addUsage usage s) =
                   forcedRunRecoveryAttempted s) by (destruct usage; reflexivity).
      rewrite continueOrComplete_concludes.
      - apply concludeRun_emitted.
      - rewrite Ua. destruct Hasked as [-> | [Hle _]]; [reflexivity|].
        apply Nat.leb_le in Hle. rewrite Hle. cbn [negb]. apply andb_false_r.
      - rewrite Ua, Uf. destruct Hasked as [-> | [_ [-> | ->]]].
        + reflexivity.
        + cbn [negb]. now rewrite andb_false_r.
        + cbn [isBuild]. apply andb_false_r.
      - now destruct finishReason. }
    split; [exact He | now apply Hnext].
  - intros a He. now apply perform_keeps_emitted.
  - split; cbn [perform]; unfold stopHeartbeatIfRunning, stopCommentaryHeartbeat,
      reading, when, skip; now destruct (commentaryHeartbeat s).
Qed.

End CompletionBatch.

(** The run of [completedRun] concluded: its batch is on the stream once,
    and a late call of [emitRunCompletionEvents] changes nothing. *)
Lemma completion_batch_emitted_once_witness :
  (forall k, countParts k (written completedState) = 1) /\
  emitRunCompletionEvents (ext := exampleExternals 2 neverContinue)
    (req := exampleRequest) "Late." "gpt-4o" "OpenAI" completedState
  = completedState.
Proof.
  destruct (completion_batch_emitted_once
              (ext := exampleExternals 2 neverContinue) (req := exampleRequest)
              exampleMessages completedState) as (H1 & _ & H3 & _).
  - exists completedRun. reflexivity.
  - split.
    + exact H1.
    + apply H3. reflexivity.
Defined.

(** C1, as stated, fails: the run of [failedRun] can be reached, it has
    ended with the failure of its stream, and none of the five parts of the
    completion batch is on its stream. *)
Lemma failed_run_emits_no_batch :
  Reachable (ext := exampleExternals 2 neverContinue) (req := exampleRequest)
    exampleMessages failedState /\
  completionEmitted failedState = false /\
  map (fun k => countParts k (written failedState)) completionParts =
    [0; 0; 0; 0; 0].
Proof.
  split; [exists failedRun; reflexivity|].
  split; vm_compute; reflexivity.
Qed.

(** *** The ceiling on continuations and the forced recovery *)

Section Continuations.
Context {RC : Type} {ext : Externals RC} {req : Request}.

Local Abbreviation State := (@RunState RC).
Local Notation "f ;; g" := (andThen f g) (at level 62, right associativity).

Lemma issueSegment_bounded origin options :
  sameOrigin origin runContinuationSegment = false ->
  sameOrigin origin forcedRunRecoverySegment = false ->
  Preserves (ContinuationsBounded : State -> Prop) (issueSegment origin options).
Proof.
  intros H1 H2 s (Hle & Hc & Hf).
  unfold ContinuationsBounded, issueSegment, createStreamAbortSignal,
    markRunActivity, reading, andThen, skip. cbn -[countSegments].
  rewrite !countSegments_app. unfold countSegments at 2 4. cbn.
  rewrite H1, H2. cbn. repeat split; lia.
Qed.

#[local] Hint Extern 2 (Preserves ContinuationsBounded (issueSegment _ _)) =>
  (apply issueSegment_bounded; reflexivity) : run_steps.

Lemma concludeRun_bounded text model provider :
  Preserves (ContinuationsBounded : State -> Prop) (concludeRun text model provider).
Proof. unfold concludeRun, stopRunMonitors; unfold_statements; preserved. Qed.

Lemma continueOrComplete_bounded content finishReason model provider lastUserContent :
  Preserves (ContinuationsBounded : State -> Prop)
    (continueOrComplete content finishReason model provider lastUserContent).
Proof.
  intros s (Hle & Hc & Hf).
  destruct (shouldContinue
              (analyzeRunContinuation chatModeOrBuild lastUserContent content false
                 (runContinuationAttempts s))) eqn:Hd.
  - destruct (Nat.leb_spec MAX_RUN_CONTINUATION_ATTEMPTS (runContinuationAttempts s))
      as [Hlim | Hlim].
    + destruct (negb (forcedRunRecoveryAttempted s) && isBuild chatModeOrBuild) eqn:He.
      * apply andb_true_iff in He as [Hforced Hmode].
        apply negb_true_iff in Hforced.
        assert (Hb : chatModeOrBuild = build) by (destruct chatModeOrBuild; [discriminate | reflexivity]).
        destruct (continueOrComplete_escalates content finishReason model provider
                    lastUserContent s Hd Hlim Hforced Hb) as (Ha & Hf' & _ & _ & Hseg).
        cbv zeta in Ha, Hf', Hseg. unfold ContinuationsBounded.
        rewrite Ha, Hf', Hseg, !countSegments_app, Hc, Hf, Hforced.
        unfold countSegments. cbn. repeat split; lia.
      * assert (H1 : shouldContinue
                       (analyzeRunContinuation chatModeOrBuild lastUserContent content
                          false (runContinuationAttempts s))
                     && negb (MAX_RUN_CONTINUATION_ATTEMPTS <=? runContinuationAttempts s)
                     = false).
        { apply Nat.leb_le in Hlim. rewrite Hlim. now rewrite andb_false_r. }
        assert (H2 : shouldContinue
                       (analyzeRunContinuation chatModeOrBuild lastUserContent content
                          false (runContinuationAttempts s))
                     && (MAX_RUN_CONTINUATION_ATTEMPTS <=? runContinuationAttempts s)
                     && negb (forcedRunRecoveryAttempted s) && isBuild chatModeOrBuild
                     = false).
        { rewrite <- andb_assoc, He. now rewrite andb_false_r. }
        destruct (isLength finishReason) eqn:Hlen.
        -- destruct finishReason; try discriminate.
           destruct (continueOrComplete_length content model provider lastUserContent
                       s H1 H2) as [Hhit Hrestart]. cbv zeta in Hhit, Hrestart.
           destruct (Nat.leb_spec MAX_RESPONSE_SEGMENTS (switches (stream s)))
             as [Hsw | Hsw].
           ++ rewrite (Hhit Hsw). repeat split; assumption.
           ++ destruct (Hrestart Hsw) as (Ha & Hf' & _ & _ & Hseg).
              unfold ContinuationsBounded.
              rewrite Ha, Hf', Hseg, !countSegments_app, Hc, Hf.
              unfold countSegments. cbn. repeat split; lia.
        -- rewrite (continueOrComplete_concludes _ _ _ _ _ _ H1 H2 Hlen).
           apply concludeRun_bounded. repeat split; assumption.
    + destruct (continueOrComplete_continues content finishReason model provider
                  lastUserContent s Hd Hlim) as (Ha & Hf' & _ & _ & Hseg).
      cbv zeta in Ha, Hf', Hseg. unfold ContinuationsBounded.
      rewrite Ha, Hf', Hseg, !countSegments_app, Hc, Hf.
      unfold countSegments. cbn. repeat split; lia.
  - assert (H1 : shouldContinue
                   (analyzeRunContinuation chatModeOrBuild lastUserContent content
                      false (runContinuationAttempts s))
                 && negb (MAX_RUN_CONTINUATION_ATTEMPTS <=? runContinuationAttempts s)
                 = false) by now rewrite Hd.
    assert (H2 : shouldContinue
                   (analyzeRunContinuation chatModeOrBuild lastUserContent content
                      false (runContinuationAttempts s))
                 && (MAX_RUN_CONTINUATION_ATTEMPTS <=? runContinuationAttempts s)
                 && negb (forcedRunRecoveryAttempted s) && isBuild chatModeOrBuild
                 = false) by now rewrite Hd.
    destruct (isLength finishReason) eqn:Hlen.
    + destruct finishReason; try discriminate.
      destruct (continueOrComplete_length content model provider lastUserContent
                  s H1 H2) as [Hhit Hrestart]. cbv zeta in Hhit, Hrestart.
      destruct (Nat.leb_spec MAX_RESPONSE_SEGMENTS (switches (stream s)))
        as [Hsw | Hsw].
      * rewrite (Hhit Hsw). repeat split; assumption.
      * destruct (Hrestart Hsw) as (Ha & Hf' & _ & _ & Hseg).
        unfold ContinuationsBounded.
        rewrite Ha, Hf', Hseg, !countSegments_app, Hc, Hf.
        unfold countSegments. cbn. repeat split; lia.
    + rewrite (continueOrComplete_concludes _ _ _ _ _ _ H1 H2 Hlen).
      apply concludeRun_bounded. repeat split; assumption.
Qed.

#[local] Hint Resolve continueOrComplete_bounded concludeRun_bounded : run_steps.

Lemma perform_bounded (a : Action) :
  Preserves (ContinuationsBounded : State -> Prop) (perform a).
Proof.
  destruct a; unfold_callbacks;
    unfold writeCommentary, writeProgress, writeMessageAnnotation, pushMessage,
      startCommentaryHeartbeat, stopCommentaryHeartbeat, writeData;
    preserved.
Qed.

(** The flag of the forced recovery is never cleared. *)
Lemma perform_forced_stays (a : Action) :
  Preserves (fun s : State => forcedRunRecoveryAttempted s = true) (perform a).
Proof. destruct a; unfold_handlers; unfold_statements; preserved. Qed.

Lemma addUsage_frame usage (s : State) :
  runContinuationAttempts (addUsage usage s) = runContinuationAttempts s /\
  forcedRunRecoveryAttempted (addUsage usage s) = forcedRunRecoveryAttempted s /\
  processedMessages (addUsage usage s) = processedMessages s /\
  generatedIds (addUsage usage s) = generatedIds s /\
  segments (addUsage usage s) = segments s /\
  stream (addUsage usage s) = stream s /\
  thrown (addUsage usage s) = thrown s.
Proof. destruct usage; repeat split. Qed.

(** C2. In every state a run can reach, the continuation attempts are at
    most [MAX_RUN_CONTINUATION_ATTEMPTS] = 5, each attempt has issued one
    continuation segment, and the forced-recovery segment has been issued at
    most once: once if [forcedRunRecoveryAttempted] is set, never otherwise.
    When [onFinish] consults the analyzer with the ceiling reached and the
    analyzer says [shouldContinue], the forced-recovery turn has been issued
    exactly once afterwards: this call pushes the
    [buildForcedRunRecoveryPrompt] turn and issues its segment if the flag
    was clear, and issues no further one if the flag was set. *)
Theorem continuations_bounded_forced_recovery_once
    (messages : list Message) (s : State) :
  Reachable messages s ->
  AnalyzerContinuesOnlyInBuildMode ->
  (runContinuationAttempts s <= MAX_RUN_CONTINUATION_ATTEMPTS /\
   MAX_RUN_CONTINUATION_ATTEMPTS = 5 /\
   countSegments runContinuationSegment (segments s) = runContinuationAttempts s /\
   countSegments forcedRunRecoverySegment (segments s) =
     (if forcedRunRecoveryAttempted s then 1 else 0)) /\
  (forall content finishReason usage,
      consultsAnalyzer finishReason s = true ->
      shouldContinue
        (analyzeRunContinuation chatModeOrBuild (ex_content (lastUser s)) content
           false (runContinuationAttempts s)) = true ->
      MAX_RUN_CONTINUATION_ATTEMPTS <= runContinuationAttempts s ->
      let s' := perform (SegmentFinishes content finishReason usage) s in
      forcedRunRecoveryAttempted s' = true /\
      countSegments forcedRunRecoverySegment (segments s') = 1 /\
      (forcedRunRecoveryAttempted s = false ->
       processedMessages s' =
         (processedMessages s ++
          restartMessages s content
            (buildForcedRunRecoveryPrompt (ex_provider (lastUser s))
               (ex_model (lastUser s)) (ex_content (lastUser s))))%list /\
       segments s' =
         (segments s ++ [ {| seg_origin := forcedRunRecoverySegment;
                             seg_options := mainOptions;
                             seg_messages := processedMessages s' |} ])%list) /\
      (forcedRunRecoveryAttempted s = true ->
       countSegments forcedRunRecoverySegment (segments s') =
       countSegments forcedRunRecoverySegment (segments s))).
Proof.
  intros Hs Hanalyzer.
  assert (H : ContinuationsBounded s).
  { apply (reachable_invariant ContinuationsBounded messages);
      [| apply perform_bounded | exact Hs].
    repeat split. unfold MAX_RUN_CONTINUATION_ATTEMPTS. cbn. lia. }
  split.
  { destruct H as (H1 & H2 & H3). repeat split; assumption. }
  intros content finishReason usage Hconsult Hd Hlim s'.
  pose proof (perform_bounded (SegmentFinishes content finishReason usage) s H)
    as (_ & _ & Hcount'). fold s' in Hcount'.
  destruct (addUsage_frame usage s) as (Ua & Uf & Um & Ug & Useg & _ & _).
  assert (Hforced' : forcedRunRecoveryAttempted s' = true).
  { destruct (forcedRunRecoveryAttempted s) eqn:Hforced.
    - apply (perform_forced_stays (SegmentFinishes content finishReason usage) s Hforced).
    - subst s'. cbn [perform]. rewrite (onFinish_consults _ _ _ _ Hconsult).
      apply continueOrComplete_escalates.
      + unfold lastUser in Hd. now rewrite Ua.
      + now rewrite Ua.
      + now rewrite Uf.
      + apply (Hanalyzer _ _ _ _ _ Hd). }
  split; [exact Hforced'|]. split; [now rewrite Hcount', Hforced'|]. split.
  - intros Hforced. subst s'. cbn [perform].
    rewrite (onFinish_consults _ _ _ _ Hconsult).
    destruct (continueOrComplete_escalates content finishReason
                (ex_model (lastUser s)) (ex_provider (lastUser s))
                (ex_content (lastUser s)) (addUsage usage s))
      as (_ & _ & _ & Hm & Hseg).
    + now rewrite Ua.
    + now rewrite Ua.
    + now rewrite Uf.
    + apply (Hanalyzer _ _ _ _ _ Hd).
    + cbv zeta in Hm, Hseg. rewrite Um in Hm. rewrite Useg in Hseg.
      rewrite (restartMessages_ids _ s _ _ Ug) in Hm. split; assumption.
  - intros Hforced. destruct H as (_ & _ & Hcount).
    now rewrite Hcount', Hforced', Hcount, Hforced.
Qed.

End Continuations.

Lemma scaffoldOnly_build_only :
  AnalyzerContinuesOnlyInBuildMode (ext := exampleExternals 2 scaffoldOnly).
Proof. intros [] ? ? ? ? H; [discriminate | reflexivity]. Qed.

(** After five continuations the sixth finish escalates once; a finish in a
    state where the flag is set issues no second forced recovery. *)
Lemma continuations_bounded_forced_recovery_once_witness :
  (runContinuationAttempts (scaffoldState 5) <= 5 /\
   countSegments runContinuationSegment (segments (scaffoldState 5)) =
     runContinuationAttempts (scaffoldState 5)) /\
  (let s' := perform (ext := exampleExternals 2 scaffoldOnly) (req := exampleRequest)
               (SegmentFinishes "npm install" fr_stop None) (scaffoldState 5) in
   forcedRunRecoveryAttempted s' = true /\
   countSegments forcedRunRecoverySegment (segments s') = 1) /\
  (let s' := perform (ext := exampleExternals 2 scaffoldOnly) (req := exampleRequest)
               (SegmentFinishes "npm install" fr_stop None) (scaffoldState 6) in
   countSegments forcedRunRecoverySegment (segments s') =
   countSegments forcedRunRecoverySegment (segments (scaffoldState 6))).
Proof.
  destruct (continuations_bounded_forced_recovery_once
              (ext := exampleExternals 2 scaffoldOnly) (req := exampleRequest)
              exampleMessages (scaffoldState 5)) as ((H1 & _ & H2 & _) & H5).
  { exists (scaffoldRun 5). reflexivity. }
  { intros [] ? ? ? ? H; [discriminate H | reflexivity]. }
  destruct (continuations_bounded_forced_recovery_once
              (ext := exampleExternals 2 scaffoldOnly) (req := exampleRequest)
              exampleMessages (scaffoldState 6)) as (_ & H6).
  { exists (scaffoldRun 6). reflexivity. }
  { intros [] ? ? ? ? H; [discriminate H | reflexivity]. }
  split; [split; [exact H1 | exact H2] |]. split.
  - destruct (H5 "npm install" fr_stop None) as (Hf & Hc & _).
    + vm_compute. reflexivity.
    + vm_compute. reflexivity.
    + vm_compute. lia.
    + split; [exact Hf | exact Hc].
  - destruct (H6 "npm install" fr_stop None) as (_ & _ & _ & Hsame).
    + vm_compute. reflexivity.
    + vm_compute. reflexivity.
    + vm_compute. lia.
    + apply Hsame. vm_compute. reflexivity.
Defined.

Example scaffold_run_counts :
  map (fun n => runContinuationAttempts (scaffoldState n)) [0; 1; 4; 5; 6; 7; 9]
    = [0; 1; 4; 5; 5; 5; 5] /\
  map (fun n => countSegments forcedRunRecoverySegment (segments (scaffoldState n)))
      [5; 6; 7; 9]
    = [0; 1; 1; 1] /\
  map (fun n => completionEmitted (scaffoldState n)) [5; 6; 7; 9]
    = [false; false; true; true].
Proof. vm_compute. repeat split. Qed.

(** *** The commentary heartbeat *)

Section Heartbeat.
Context {RC : Type} {ext : Externals RC} {req : Request}.

Local Abbreviation State := (@RunState RC).

(** While the interval timer exists, each of its ticks writes exactly one
    commentary event, in progress, built by [buildCommentaryHeartbeat] from
    the elapsed time and the phase of the last commentary, and ordered by
    the counter. *)
Lemma heartbeat_tick_writes_commentary (s : State) :
  commentaryHeartbeat s = true ->
  exists c,
    written (perform HeartbeatFires s) = (written s ++ [agent_commentary c])%list /\
    c_status c = in_progress /\
    c_order c = progressCounter s /\
    c_phase c =
      hb_phase (buildCommentaryHeartbeat (now s - requestStartedAt)
                  (lastCommentaryPhase s)) /\
    commentaryHeartbeat (perform HeartbeatFires s) = true.
Proof.
  intros Hrunning.
  assert (E : perform HeartbeatFires s = commentaryHeartbeatCallback s).
  { cbn [perform]. unfold reading, when. now rewrite Hrunning. }
  rewrite E.
  unfold commentaryHeartbeatCallback, writeCommentary, writeData, reading,
    andThen, when, skip.
  destruct (isNone (firstCommentaryAt s)); cbn; eexists;
    (split; [reflexivity | repeat split; assumption]).
Qed.

(** Without the timer there is no tick. *)
Lemma heartbeat_stopped_is_silent (s : State) :
  commentaryHeartbeat s = false -> perform HeartbeatFires s = s.
Proof. intros H. cbn [perform]. unfold reading, when. now rewrite H. Qed.

Lemma startCommentaryHeartbeat_running (s : State) :
  commentaryHeartbeat (startCommentaryHeartbeat s) = true.
Proof.
  unfold startCommentaryHeartbeat, reading, when.
  destruct (commentaryHeartbeat s) eqn:E; cbn; [exact E | reflexivity].
Qed.

Lemma stopCommentaryHeartbeat_stopped (s : State) :
  commentaryHeartbeat (stopCommentaryHeartbeat s) = false.
Proof.
  unfold stopCommentaryHeartbeat, reading, when.
  destruct (commentaryHeartbeat s) eqn:E; cbn; [reflexivity | exact E].
Qed.

(** The run starts the heartbeat with its first commentary; the completion
    events and a stream failure stop it. *)
Lemma beginRun_starts_heartbeat (s : State) :
  commentaryHeartbeat (perform BeginRun s) = true.
Proof. cbn [perform]. unfold beginRun. apply startCommentaryHeartbeat_running. Qed.

Lemma stream_failure_stops_heartbeat (s : State) :
  commentaryHeartbeat (perform StreamFails s) = false.
Proof. cbn [perform]. apply stopCommentaryHeartbeat_stopped. Qed.

End Heartbeat.

(** *** The segment limit *)

Section SegmentLimit.
Context {RC : Type} {ext : Externals RC} {req : Request}.

Local Abbreviation State := (@RunState RC).

Lemma concludeRun_no_limit_error text model provider :
  Preserves (NoSegmentLimitError : State -> Prop) (concludeRun text model provider).
Proof. unfold concludeRun, stopRunMonitors; unfold_statements; preserved. Qed.

Lemma continueOrComplete_stream content finishReason model provider lastUserContent :
  Unchanged (stream : State -> _)
    (continueOrComplete content finishReason model provider lastUserContent).
Proof.
  unfold continueOrComplete, concludeRun, stopRunMonitors; unfold_statements;
    unchanged.
Qed.

Lemma continueOrComplete_no_limit_error content finishReason model provider
    lastUserContent :
  Preserves (NoSegmentLimitError : State -> Prop)
    (continueOrComplete content finishReason model provider lastUserContent).
Proof.
  intros s [Hsw Ht].
  destruct (continueOrComplete_cases content finishReason model provider
              lastUserContent s)
    as [(origin & directive & Ht' & _) | [(_ & ->) | (_ & Hhit & _)]].
  - split; [now rewrite continueOrComplete_stream | now rewrite Ht'].
  - apply concludeRun_no_limit_error. now split.
  - lia.
Qed.

#[local] Hint Resolve continueOrComplete_no_limit_error : run_steps.

Lemma perform_no_limit_error (a : Action) :
  Preserves (NoSegmentLimitError : State -> Prop) (perform a).
Proof.
  destruct a; unfold_callbacks; unfold concludeRun, stopRunMonitors;
    unfold_statements; preserved.
Qed.

(** The switch count the limit is checked against never leaves 0, so the
    segment-limit error is out of reach whenever the limit is positive. *)
Lemma segment_limit_error_unreachable (messages : list Message) (s : State) :
  Reachable messages s ->
  0 < MAX_RESPONSE_SEGMENTS ->
  switches (stream s) = 0 /\ thrown s = None.
Proof.
  intros Hs Hmax.
  assert (H0 : switches (stream s) = 0).
  { apply (reachable_invariant (fun s => switches (stream s) = 0) messages);
      [reflexivity | | exact Hs].
    intros a s0 H. now rewrite perform_stream. }
  split; [exact H0|].
  apply (reachable_invariant NoSegmentLimitError messages);
    [split; [exact Hmax | reflexivity] | apply perform_no_limit_error | exact Hs].
Qed.

End SegmentLimit.

(** C4 (the code departs from it). With a limit of two segments and three
    backend segments in a row finishing with reason [length], the run
    restarts three times with the continue prompt, the switch count is
    still 0 and no error is thrown: 'Cannot continue message: Maximum
    segments reached' is never raised. *)
Theorem length_finishes_pass_segment_limit :
  MAX_RESPONSE_SEGMENTS (Externals := exampleExternals 2 neverContinue) = 2 /\
  countSegments lengthContinuationSegment (segments (lengthState 3)) = 3 /\
  List.length (processedMessages (lengthState 3)) = 7 /\
  switches (stream (lengthState 3)) = 0 /\
  thrown (lengthState 3) = None.
Proof. vm_compute. repeat split. Qed.

Example length_run_never_stops :
  map (fun n => (countSegments lengthContinuationSegment (segments (lengthState n)),
                 thrown (lengthState n)))
      [0; 1; 2; 3; 12]
  = [(0, None); (1, None); (2, None); (3, None); (12, None)].
Proof. vm_compute. reflexivity. Qed.

(** *** The two synthetic messages of a restart *)

Section SyntheticMessages.
Context {RC : Type} {ext : Externals RC} {req : Request}.

Local Abbreviation State := (@RunState RC).
Local Notation "f ;; g" := (andThen f g) (at level 62, right associativity).

Lemma finalAnswerPrompt_envelope model provider pending toolSummary :
  exists directive,
    finalAnswerPrompt model provider pending toolSummary =
    (envelope model provider ++ directive)%string.
Proof. unfold finalAnswerPrompt. eexists. reflexivity. Qed.

(** The forced final answer pushes the same pair of messages, with its own
    directive. *)
Lemma finalizeAfterPause_effect content model provider (s : State) :
  let s' := finalizeAfterPause content model provider s in
  exists directive,
    processedMessages s' =
      (processedMessages s ++
       restartMessages s content (envelope model provider ++ directive)%string)%list /\
    segments s' =
      (segments s ++ [ {| seg_origin := finalizeSegment;
                          seg_options := finalizeOptions model provider;
                          seg_messages := processedMessages s' |} ])%list.
Proof.
  cbv zeta. unfold finalizeAfterPause. rewrite !andThen_apply. unfold reading.
  match goal with
  | |- context [writeCommentary ?p ?m ?st ?d s] =>
      destruct (writeCommentary_frame p m st d s) as (Wm & Wg & Wseg & _);
      cbv zeta in Wm, Wg, Wseg;
      set (s1 := writeCommentary p m st d s) in *
  end.
  match goal with
  | |- context [finalAnswerPrompt ?m ?p ?r ?t] =>
      destruct (finalAnswerPrompt_envelope m p r t) as [directive ->];
      exists directive
  end.
  destruct (restart_effect finalizeSegment (finalizeOptions model provider) content
              (envelope model provider ++ directive)%string s1) as (Hm & Hseg & _).
  cbv zeta in Hm, Hseg. rewrite !andThen_apply in Hm, Hseg. rewrite !andThen_apply.
  rewrite Hseg, Hm, Wm, Wseg, (restartMessages_ids _ _ _ _ Wg). split; reflexivity.
Qed.

Lemma concludeRun_conversation text model provider :
  Unchanged (fun s : State => (processedMessages s, segments s))
    (concludeRun text model provider).
Proof. unfold concludeRun, stopRunMonitors; unfold_statements; unchanged. Qed.

(** The forced final answer, with its directive spelled out. *)
Lemma finalizeAfterPause_restarts content model provider (s : State) :
  RestartedWith s (finalizeAfterPause content model provider s)
    finalizeSegment (finalizeOptions model provider) content
    (finalAnswerPrompt model provider (pendingRecoveryReason s)
       match collectedToolOutputs s with
       | [] => "(no tool results captured)"
       | _ => joinWith nl (lastN 6 (collectedToolOutputs s))
       end).
Proof.
  unfold RestartedWith, finalizeAfterPause. rewrite !andThen_apply. unfold reading.
  match goal with
  | |- context [writeCommentary ?p ?m ?st ?d s] =>
      destruct (writeCommentary_frame p m st d s) as (Wm & Wg & Wseg & _);
      cbv zeta in Wm, Wg, Wseg;
      assert (Wp : pendingRecoveryReason (writeCommentary p m st d s) =
                   pendingRecoveryReason s)
        by (unfold writeCommentary, writeData, reading, andThen, when, skip;
            now destruct (isNone (firstCommentaryAt s)));
      assert (Wo : collectedToolOutputs (writeCommentary p m st d s) =
                   collectedToolOutputs s)
        by (unfold writeCommentary, writeData, reading, andThen, when, skip;
            now destruct (isNone (firstCommentaryAt s)));
      set (s1 := writeCommentary p m st d s) in *
  end.
  destruct (restart_effect finalizeSegment (finalizeOptions model provider) content
              (finalAnswerPrompt model provider (pendingRecoveryReason s1)
                 match collectedToolOutputs s1 with
                 | [] => "(no tool results captured)"
                 | _ => joinWith nl (lastN 6 (collectedToolOutputs s1))
                 end) s1) as (Hm & Hseg & _).
  cbv zeta in Hm, Hseg. rewrite !andThen_apply in Hm, Hseg.
  cbv beta. rewrite ?andThen_apply.
  rewrite Hseg, Hm. unfold restartMessages. rewrite Wm, Wg, Wseg, Wp, Wo.
  split; reflexivity.
Qed.

(** C8, as amended. Every time the orchestrator starts a new backend segment
    after a finish, it first appends exactly two synthetic messages to the
    conversation: an assistant message with the finished segment's text,
    then a user message made of the model/provider envelope and the
    directive of the branch taken; the segment is issued with the
    conversation so extended.  The branches, in the order [onFinish] tests
    them: a forced final answer that is due (a tool-calls finish or a
    requested force-finalize, the first time) restarts with the final-answer
    directive, at once when no backoff is pending and otherwise when the
    recovery pause ends, nothing being appended before; a run continuation
    the analyzer asks for, below the ceiling, restarts with the
    run-continuation directive; at the ceiling, in build mode and the first
    time, the forced-recovery directive; otherwise a length-truncated finish
    restarts with [CONTINUE_PROMPT] unless the segment limit is hit, and any
    other finish, like a length finish at the limit, appends nothing and
    issues no segment. *)
Theorem restart_appends_two_synthetic_messages
    content finishReason usage (s : State) :
  let s' := onFinish content finishReason usage s in
  let model := ex_model (lastUser s) in
  let provider := ex_provider (lastUser s) in
  let request := ex_content (lastUser s) in
  let attempts := runContinuationAttempts s in
  let asked :=
    shouldContinue
      (analyzeRunContinuation chatModeOrBuild request content false attempts) in
  let envelope :=
    ("[Model: " ++ model ++ "]" ++ nl ++ nl ++
     "[Provider: " ++ provider ++ "]" ++ nl ++ nl)%string in
  let finalAnswerDirective := fun t : State =>
    joinWith nl
      [ "You already gathered tool outputs. Now provide the final answer without any more tool calls.";
        "If the user asked for a markdown file, create it using <boltAction type=" ++
          dq ++ "file" ++ dq ++ ">.";
        match pendingRecoveryReason t with
        | Some r =>
            if negb (String.eqb r EmptyString)
            then "Recovery reason: " ++ r ++ ". Summarize progress and continue."
            else ""
        | None => ""
        end;
        "";
        "Tool outputs:";
        match collectedToolOutputs t with
        | [] => "(no tool results captured)"
        | _ => joinWith nl (lastN 6 (collectedToolOutputs t))
        end ]%string in
  let runContinuationDirective :=
    joinWith nl
      [ "You scaffolded a project but did not complete the requested implementation.";
        "Continue now and do ALL of the following:";
        "1) continue from the current project files (do NOT re-run create-vite/create-react-app if package.json already exists).";
        "2) implement the requested product requirements from the original user request:";
        "   " ++ request;
        "3) install dependencies only if missing.";
        "4) include a <boltAction type=" ++ dq ++ "start" ++ dq ++
          "> command that launches the dev server.";
        "5) if a command fails, self-heal and retry with a corrected command.";
        "6) your response must start with executable <boltAction> steps (no plan-only prose).";
        "7) if preview still shows the starter, replace src/App.tsx (or equivalent entry UI file) with the requested implementation.";
        "8) keep the final response concise and execution-focused.";
        "9) do NOT run inspection-only commands (ls, pwd, cat, find, tree, env) as standalone steps.";
        "10) your first meaningful action must implement feature code files for the original request.";
        if (2 <=? attempts + 1)%nat
        then "11) this is the final continuation attempt: skip diagnostics and apply implementation changes immediately."
        else "";
        "" ]%string in
  let forcedRecoveryDirective :=
    joinWith nl
      [ "Forced recovery mode: previous attempts did not produce a runnable implementation.";
        "Continue from the current project state and execute the original request now.";
        "";
        "Original request:";
        request;
        "";
        "Hard requirements (must follow exactly):";
        "1) Emit exactly one <boltArtifact> with executable <boltAction> steps.";
        "2) Do NOT run inspection-only commands (ls, pwd, cat, find, tree, env, echo).";
        "3) Do NOT re-scaffold if package.json already exists.";
        "4) First meaningful actions must be <boltAction type=" ++ dq ++ "file" ++ dq ++
          "> updates that implement the requested features.";
        "5) If dependencies are missing, run a single install command.";
        "6) Include a <boltAction type=" ++ dq ++ "start" ++ dq ++
          "> command to run the dev server.";
        "7) If preview still shows fallback starter text, replace src/App.tsx (or equivalent root UI entry) immediately.";
        "8) Keep prose short; focus on executable steps and completion." ]%string in
  (consultsAnalyzer finishReason s = false ->
   pendingRecoveryBackoffMs s = 0 ->
   RestartedWith s s' finalizeSegment (finalizeOptions model provider) content
     (envelope ++ finalAnswerDirective s)%string) /\
  (consultsAnalyzer finishReason s = false ->
   0 < pendingRecoveryBackoffMs s ->
   processedMessages s' = processedMessages s /\
   segments s' = segments s /\
   suspendedFinalize s' =
     Some {| sf_content := content; sf_model := model; sf_provider := provider |}) /\
  (forall t : State,
      suspendedFinalize t =
        Some {| sf_content := content; sf_model := model; sf_provider := provider |} ->
      RestartedWith t (perform PauseEnds t) finalizeSegment
        (finalizeOptions model provider) content
        (envelope ++ finalAnswerDirective t)%string) /\
  (consultsAnalyzer finishReason s = true ->
   asked = true ->
   attempts < MAX_RUN_CONTINUATION_ATTEMPTS ->
   RestartedWith s s' runContinuationSegment mainOptions content
     (envelope ++ runContinuationDirective)%string) /\
  (consultsAnalyzer finishReason s = true ->
   asked = true ->
   MAX_RUN_CONTINUATION_ATTEMPTS <= attempts ->
   forcedRunRecoveryAttempted s = false ->
   chatModeOrBuild = build ->
   RestartedWith s s' forcedRunRecoverySegment mainOptions content
     (envelope ++ forcedRecoveryDirective)%string) /\
  (consultsAnalyzer finishReason s = true ->
   asked = false \/
   (MAX_RUN_CONTINUATION_ATTEMPTS <= attempts /\
    (forcedRunRecoveryAttempted s = true \/ chatModeOrBuild = discuss)) ->
   (finishReason = fr_length ->
    switches (stream s) < MAX_RESPONSE_SEGMENTS ->
    RestartedWith s s' lengthContinuationSegment mainOptions content
      (envelope ++ CONTINUE_PROMPT)%string) /\
   (finishReason = fr_length ->
    MAX_RESPONSE_SEGMENTS <= switches (stream s) ->
    processedMessages s' = processedMessages s /\ segments s' = segments s /\
    thrown s' = Some "Cannot continue message: Maximum segments reached") /\
   (finishReason <> fr_length ->
    processedMessages s' = processedMessages s /\ segments s' = segments s)).
Proof.
  cbv zeta.
  destruct (addUsage_frame usage s) as (Ua & Uf & Um & Ug & Useg & Ustream & Uthrown).
  assert (Uback : pendingRecoveryBackoffMs (addUsage usage s) =
                  pendingRecoveryBackoffMs s) by (destruct usage; reflexivity).
  assert (Upending : pendingRecoveryReason (addUsage usage s) =
                     pendingRecoveryReason s) by (destruct usage; reflexivity).
  assert (Uoutputs : collectedToolOutputs (addUsage usage s) =
                     collectedToolOutputs s) by (destruct usage; reflexivity).
  assert (Uflags : forceFinalizeRequested (addUsage usage s) = forceFinalizeRequested s /\
                   forceFinalizeAttempted (addUsage usage s) = forceFinalizeAttempted s)
    by (destruct usage; split; reflexivity).
  destruct Uflags as [Urequested Uattempted].
  assert (Hforced : consultsAnalyzer finishReason s = false ->
            onFinish content finishReason usage s =
            if 0 <? pendingRecoveryBackoffMs s then
              set_suspendedFinalize
                (Some {| sf_content := content; sf_model := ex_model (lastUser s);
                         sf_provider := ex_provider (lastUser s) |})
                (writeCommentary recovery
                   "I am taking a short recovery pause before the next step." warning
                   (Some ("Key changes: A quick safety pause is in progress." ++ nl ++
                          "Next: I will continue automatically right after this pause.")%string)
                   (set_forceFinalizeAttempted true (addUsage usage s)))
            else finalizeAfterPause content (ex_model (lastUser s))
                   (ex_provider (lastUser s))
                   (set_forceFinalizeAttempted true (addUsage usage s))).
  { intros Hconsult. unfold consultsAnalyzer in Hconsult.
    apply negb_false_iff in Hconsult.
    unfold onFinish, lastUser. rewrite andThen_apply. unfold reading.
    rewrite Urequested, Uattempted, Hconsult, Um, Uback. cbv iota.
    rewrite andThen_apply.
    destruct (0 <? pendingRecoveryBackoffMs s); reflexivity. }
  assert (Hnot : forall branch : bool,
            shouldContinue
              (analyzeRunContinuation chatModeOrBuild (ex_content (lastUser s))
                 content false (runContinuationAttempts s)) = false \/
            (MAX_RUN_CONTINUATION_ATTEMPTS <= runContinuationAttempts s /\
             (forcedRunRecoveryAttempted s = true \/ chatModeOrBuild = discuss)) ->
            shouldContinue
              (analyzeRunContinuation chatModeOrBuild (ex_content (lastUser s))
                 content false (runContinuationAttempts (addUsage usage s)))
            && negb (MAX_RUN_CONTINUATION_ATTEMPTS <=?
                     runContinuationAttempts (addUsage usage s)) = false /\
            shouldContinue
              (analyzeRunContinuation chatModeOrBuild (ex_content (lastUser s))
                 content false (runContinuationAttempts (addUsage usage s)))
            && (MAX_RUN_CONTINUATION_ATTEMPTS <=?
                runContinuationAttempts (addUsage usage s))
            && negb (forcedRunRecoveryAttempted (addUsage usage s))
            && isBuild chatModeOrBuild = false).
  { intros _ Hasked. rewrite Ua, Uf. destruct Hasked as [-> | [Hle Hwhy]].
    - split; reflexivity.
    - apply Nat.leb_le in Hle. rewrite Hle. cbn [negb]. split.
      + apply andb_false_r.
      + destruct Hwhy as [-> | ->]; cbn [negb isBuild];
          now rewrite ?andb_false_r. }
  split; [|split; [|split; [|split; [|split]]]].
  - intros Hconsult Hback. rewrite (Hforced Hconsult), Hback. cbn [Nat.ltb Nat.leb].
    destruct (finalizeAfterPause_restarts content (ex_model (lastUser s))
                (ex_provider (lastUser s))
                (set_forceFinalizeAttempted true (addUsage usage s))) as [Hm Hseg].
    cbn [processedMessages segments generatedIds pendingRecoveryReason
         collectedToolOutputs set_forceFinalizeAttempted] in Hm, Hseg.
    rewrite Um, Ug, Upending, Uoutputs in Hm. rewrite Useg in Hseg.
    split; [exact Hm | exact Hseg].
  - intros Hconsult Hback. rewrite (Hforced Hconsult).
    apply Nat.ltb_lt in Hback. rewrite Hback.
    match goal with
    | |- context [writeCommentary ?p ?m ?st ?d ?s0] =>
        destruct (writeCommentary_frame p m st d s0) as (Wm & _ & Wseg & _)
    end.
    cbv zeta in Wm, Wseg.
    cbn [processedMessages segments suspendedFinalize set_suspendedFinalize].
    rewrite Wm, Wseg. cbn [processedMessages segments set_forceFinalizeAttempted].
    now rewrite Um, Useg.
  - intros t Ht. cbn [perform]. unfold resumeFinalize, reading. rewrite Ht.
    rewrite andThen_apply.
    destruct (finalizeAfterPause_restarts content (ex_model (lastUser s))
                (ex_provider (lastUser s)) (set_suspendedFinalize None t)) as [Hm Hseg].
    cbn [processedMessages segments generatedIds pendingRecoveryReason
         collectedToolOutputs set_suspendedFinalize sf_content sf_model sf_provider]
      in Hm, Hseg |- *.
    split; [exact Hm | exact Hseg].
  - intros Hconsult Hasked Hlt. rewrite (onFinish_consults _ _ _ _ Hconsult).
    destruct (continueOrComplete_continues content finishReason
                (ex_model (lastUser s)) (ex_provider (lastUser s))
                (ex_content (lastUser s)) (addUsage usage s))
      as (_ & _ & _ & Hm & Hseg).
    + now rewrite Ua.
    + now rewrite Ua.
    + cbv zeta in Hm, Hseg. unfold restartMessages in Hm.
      rewrite Um, Ug, Ua in Hm. rewrite Useg in Hseg.
      split; [exact Hm | exact Hseg].
  - intros Hconsult Hasked Hle Hforcedno Hmode.
    rewrite (onFinish_consults _ _ _ _ Hconsult).
    destruct (continueOrComplete_escalates content finishReason
                (ex_model (lastUser s)) (ex_provider (lastUser s))
                (ex_content (lastUser s)) (addUsage usage s))
      as (_ & _ & _ & Hm & Hseg).
    + now rewrite Ua.
    + now rewrite Ua.
    + now rewrite Uf.
    + exact Hmode.
    + cbv zeta in Hm, Hseg. unfold restartMessages in Hm.
      rewrite Um, Ug in Hm. rewrite Useg in Hseg.
      split; [exact Hm | exact Hseg].
  - intros Hconsult Hasked. rewrite (onFinish_consults _ _ _ _ Hconsult).
    destruct (Hnot true Hasked) as [H1 H2].
    split; [|split].
    + intros -> Hsw.
      destruct (continueOrComplete_length content (ex_model (lastUser s))
                  (ex_provider (lastUser s)) (ex_content (lastUser s))
                  (addUsage usage s) H1 H2) as [_ Hrestart].
      cbv zeta in Hrestart. rewrite Ustream in Hrestart.
      destruct (Hrestart Hsw) as (_ & _ & _ & Hm & Hseg).
      unfold restartMessages in Hm. rewrite Um, Ug in Hm. rewrite Useg in Hseg.
      split; [exact Hm | exact Hseg].
    + intros -> Hsw.
      destruct (continueOrComplete_length content (ex_model (lastUser s))
                  (ex_provider (lastUser s)) (ex_content (lastUser s))
                  (addUsage usage s) H1 H2) as [Hhit _].
      cbv zeta in Hhit. rewrite Ustream in Hhit. rewrite (Hhit Hsw).
      cbn [processedMessages segments thrown set_thrown].
      now rewrite Um, Useg.
    + intros Hlength.
      rewrite continueOrComplete_concludes; [| exact H1 | exact H2 |
        now destruct finishReason].
      pose proof (concludeRun_conversation content (ex_model (lastUser s))
                    (ex_provider (lastUser s)) (addUsage usage s)) as H.
      cbv beta in H.
      assert (Hp : processedMessages
                     (concludeRun content (ex_model (lastUser s))
                        (ex_provider (lastUser s)) (addUsage usage s)) =
                   processedMessages (addUsage usage s))
        by exact (f_equal fst H).
      assert (Hs : segments
                     (concludeRun content (ex_model (lastUser s))
                        (ex_provider (lastUser s)) (addUsage usage s)) =
                   segments (addUsage usage s))
        by exact (f_equal snd H).
      now rewrite Hp, Hs, Um, Useg.
Qed.

End SyntheticMessages.

(** The directives of three restarts, as the backend receives them: a
    length finish, a finish the analyzer finds scaffold-only, and a
    tool-calls finish, which forces the final answer. *)
Lemma restart_appends_two_synthetic_messages_witness :
  RestartedWith (ext := exampleExternals 2 neverContinue) (lengthState 0)
    (onFinish (ext := exampleExternals 2 neverContinue) (req := exampleRequest)
       "partial output" fr_length None (lengthState 0))
    lengthContinuationSegment mainOptions "partial output"
    ("[Model: gpt-4o]" ++ nl ++ nl ++ "[Provider: OpenAI]" ++ nl ++ nl ++
     CONTINUE_PROMPT (Externals := exampleExternals 2 neverContinue))%string /\
  RestartedWith (ext := exampleExternals 2 scaffoldOnly) (scaffoldState 0)
    (onFinish (ext := exampleExternals 2 scaffoldOnly) (req := exampleRequest)
       "npm create vite" fr_stop None (scaffoldState 0))
    runContinuationSegment mainOptions "npm create vite"
    ("[Model: gpt-4o]" ++ nl ++ nl ++ "[Provider: OpenAI]" ++ nl ++ nl ++
     "You scaffolded a project but did not complete the requested implementation." ++ nl ++
     "Continue now and do ALL of the following:" ++ nl ++
     "1) continue from the current project files (do NOT re-run create-vite/create-react-app if package.json already exists)." ++ nl ++
     "2) implement the requested product requirements from the original user request:" ++ nl ++
     "   build a todo app" ++ nl ++
     "3) install dependencies only if missing." ++ nl ++
     "4) include a <boltAction type=" ++ dq ++ "start" ++ dq ++
       "> command that launches the dev server." ++ nl ++
     "5) if a command fails, self-heal and retry with a corrected command." ++ nl ++
     "6) your response must start with executable <boltAction> steps (no plan-only prose)." ++ nl ++
     "7) if preview still shows the starter, replace src/App.tsx (or equivalent entry UI file) with the requested implementation." ++ nl ++
     "8) keep the final response concise and execution-focused." ++ nl ++
     "9) do NOT run inspection-only commands (ls, pwd, cat, find, tree, env) as standalone steps." ++ nl ++
     "10) your first meaningful action must implement feature code files for the original request." ++ nl ++
     "" ++ nl ++ "")%string /\
  RestartedWith (ext := exampleExternals 2 neverContinue) (lengthState 0)
    (onFinish (ext := exampleExternals 2 neverContinue) (req := exampleRequest)
       "calling a tool" fr_tool_calls None (lengthState 0))
    finalizeSegment (finalizeOptions "gpt-4o" "OpenAI") "calling a tool"
    ("[Model: gpt-4o]" ++ nl ++ nl ++ "[Provider: OpenAI]" ++ nl ++ nl ++
     "You already gathered tool outputs. Now provide the final answer without any more tool calls." ++ nl ++
     "If the user asked for a markdown file, create it using <boltAction type=" ++
       dq ++ "file" ++ dq ++ ">." ++ nl ++
     "" ++ nl ++ "" ++ nl ++
     "Tool outputs:" ++ nl ++
     "(no tool results captured)")%string /\
  (let paused :=
     onFinish (ext := exampleExternals 2 neverContinue) (req := exampleRequest)
       "calling a tool" fr_tool_calls None stalledState in
   processedMessages paused = processedMessages stalledState /\
   segments paused = segments stalledState /\
   RestartedWith (ext := exampleExternals 2 neverContinue) paused
     (perform (ext := exampleExternals 2 neverContinue) (req := exampleRequest)
        PauseEnds paused)
     finalizeSegment (finalizeOptions "gpt-4o" "OpenAI") "calling a tool"
     ("[Model: gpt-4o]" ++ nl ++ nl ++ "[Provider: OpenAI]" ++ nl ++ nl ++
      "You already gathered tool outputs. Now provide the final answer without any more tool calls." ++ nl ++
      "If the user asked for a markdown file, create it using <boltAction type=" ++
        dq ++ "file" ++ dq ++ ">." ++ nl ++
      "Recovery reason: stream-timeout. Summarize progress and continue." ++ nl ++
      "" ++ nl ++
      "Tool outputs:" ++ nl ++
      "(no tool results captured)")%string).
Proof.
  pose proof (restart_appends_two_synthetic_messages
                (ext := exampleExternals 2 neverContinue) (req := exampleRequest)
                "calling a tool" fr_tool_calls None stalledState) as Hpaused.
  cbv zeta in Hpaused. destruct Hpaused as (_ & Hpaused & Hresumed & _).
  pose proof (restart_appends_two_synthetic_messages
                (ext := exampleExternals 2 neverContinue) (req := exampleRequest)
                "partial output" fr_length None (lengthState 0)) as Hlength.
  pose proof (restart_appends_two_synthetic_messages
                (ext := exampleExternals 2 scaffoldOnly) (req := exampleRequest)
                "npm create vite" fr_stop None (scaffoldState 0)) as Hscaffold.
  pose proof (restart_appends_two_synthetic_messages
                (ext := exampleExternals 2 neverContinue) (req := exampleRequest)
                "calling a tool" fr_tool_calls None (lengthState 0)) as Htool.
  cbv zeta in Hlength, Hscaffold, Htool.
  destruct Hlength as (_ & _ & _ & _ & _ & Hlength).
  destruct Hscaffold as (_ & _ & _ & Hscaffold & _).
  destruct Htool as (Htool & _).
  split; [|split; [|split]].
  - apply Hlength.
    + vm_compute. reflexivity.
    + left. vm_compute. reflexivity.
    + reflexivity.
    + vm_compute. lia.
  - apply Hscaffold.
    + vm_compute. reflexivity.
    + vm_compute. reflexivity.
    + vm_compute. lia.
  - apply Htool.
    + vm_compute. reflexivity.
    + vm_compute. reflexivity.
  - cbv zeta.
    destruct Hpaused as (Hm & Hseg & Hsuspended);
      [vm_compute; reflexivity | vm_compute; lia |].
    split; [exact Hm|]. split; [exact Hseg|].
    apply Hresumed. exact Hsuspended.
Defined.

(** C8, as stated, fails: a length finish of an answer the analyzer finds
    scaffold-only restarts the backend with the run-continuation directive,
    not with [CONTINUE_PROMPT]. *)
Lemma length_restart_without_continue_prompt :
  ~ LengthRestartUsesContinuePrompt
      (ext := exampleExternals 2 scaffoldOnly) (req := exampleRequest)
      (scaffoldState 0) "npm create vite" None.
Proof.
  unfold LengthRestartUsesContinuePrompt. cbv zeta. intros H.
  assert (Hsegments :
            segments (onFinish (ext := exampleExternals 2 scaffoldOnly)
                        (req := exampleRequest)
                        "npm create vite" fr_length None (scaffoldState 0))
            <> segments (scaffoldState 0)).
  { vm_compute. discriminate. }
  specialize (H Hsegments). vm_compute in H. discriminate H.
Qed.

Example length_restart_origin :
  map seg_origin
    (segments (onFinish (ext := exampleExternals 2 scaffoldOnly)
                 (req := exampleRequest)
                 "npm create vite" fr_length None (scaffoldState 0)))
  = [initialSegment; runContinuationSegment].
Proof. vm_compute. reflexivity. Qed.

End ChatFacts.

(* ===================================================================== *)
(** ** More on the credential helpers *)
(* ===================================================================== *)

Module CredentialsMoreFacts.
Import JsString JsStringFacts Credentials CredentialsFacts.

(** What [trimStart] leaves starts with a character that is not white
    space. *)
Lemma trimStart_head (s : string) :
  match trimStart s with
  | String c _ => isWhiteSpace c = false
  | EmptyString => True
  end.
Proof.
  induction s as [|c s IH]; simpl; [exact I|].
  destruct (isWhiteSpace c) eqn:E; [exact IH | exact E].
Qed.

Lemma trimEnd_idempotent (s : string) : trimEnd (trimEnd s) = trimEnd s.
Proof.
  induction s as [|c s IH]; simpl; [reflexivity|].
  destruct (trimEnd s) as [|d r] eqn:E.
  - destruct (isWhiteSpace c) eqn:Ec; simpl; [reflexivity | now rewrite Ec].
  - simpl. simpl in IH. now rewrite IH.
Qed.

(** [trimEnd] keeps a first character that is not white space. *)
Lemma trimEnd_keeps_head (c : ascii) (s : string) :
  isWhiteSpace c = false -> exists r, trimEnd (String c s) = String c r.
Proof.
  intros Hc. simpl. destruct (trimEnd s) as [|d r].
  - rewrite Hc. now exists EmptyString.
  - now exists (String d r).
Qed.

Lemma trim_idempotent (s : string) : trim (trim s) = trim s.
Proof.
  unfold trim. pose proof (trimStart_head s) as H.
  destruct (trimStart s) as [|c r]; [reflexivity|].
  destruct (trimEnd_keeps_head c r H) as [r' E]. rewrite E.
  cbn [trimStart]. rewrite H, <- E. apply trimEnd_idempotent.
Qed.

(** A trimmed string neither starts nor ends with white space. *)
Lemma trim_head (s : string) :
  match trim s with
  | String c _ => isWhiteSpace c = false
  | EmptyString => True
  end.
Proof.
  unfold trim. pose proof (trimStart_head s) as H.
  destruct (trimStart s) as [|c r]; [exact I|].
  destruct (trimEnd_keeps_head c r H) as [r' E]. now rewrite E.
Qed.

Lemma trimEnd_last (s r : string) (c : ascii) :
  trimEnd s = (r ++ String c EmptyString)%string -> isWhiteSpace c = false.
Proof.
  revert r. induction s as [|a s IH]; intros r; simpl.
  - destruct r; discriminate.
  - destruct (trimEnd s) as [|d t] eqn:E.
    + destruct (isWhiteSpace a) eqn:Ea.
      * destruct r; discriminate.
      * destruct r as [|x r]; simpl; intros H.
        -- now injection H as ->.
        -- injection H as _ H. destruct r; discriminate.
    + destruct r as [|x r]; simpl; intros H.
      * discriminate.
      * injection H as _ H. now apply (IH r).
Qed.

Lemma trim_last (s r : string) (c : ascii) :
  trim s = (r ++ String c EmptyString)%string -> isWhiteSpace c = false.
Proof. apply trimEnd_last. Qed.

Lemma toLowerChar_idempotent (c : ascii) :
  toLowerChar (toLowerChar c) = toLowerChar c.
Proof. destruct c as [[] [] [] [] [] [] [] []]; reflexivity. Qed.

Lemma toLowerChar_whitespace (c : ascii) :
  isWhiteSpace (toLowerChar c) = isWhiteSpace c.
Proof. destruct c as [[] [] [] [] [] [] [] []]; reflexivity. Qed.

Lemma toLowerChar_bracket (c b : ascii) :
  b = "<"%char \/ b = ">"%char ->
  Ascii.eqb (toLowerChar c) b = Ascii.eqb c b.
Proof.
  intros [-> | ->]; destruct c as [[] [] [] [] [] [] [] []]; reflexivity.
Qed.

Lemma toLowerCase_idempotent (s : string) :
  toLowerCase (toLowerCase s) = toLowerCase s.
Proof.
  induction s as [|c s IH]; simpl; [reflexivity|].
  now rewrite toLowerChar_idempotent, IH.
Qed.

Lemma trimStart_toLowerCase (s : string) :
  trimStart (toLowerCase s) = toLowerCase (trimStart s).
Proof.
  induction s as [|c s IH]; simpl; [reflexivity|].
  rewrite toLowerChar_whitespace. now destruct (isWhiteSpace c).
Qed.

Lemma trimEnd_toLowerCase (s : string) :
  trimEnd (toLowerCase s) = toLowerCase (trimEnd s).
Proof.
  induction s as [|c s IH]; simpl; [reflexivity|].
  rewrite IH, toLowerChar_whitespace.
  destruct (trimEnd s); simpl; [now destruct (isWhiteSpace c) | reflexivity].
Qed.

Lemma trim_toLowerCase (s : string) :
  trim (toLowerCase s) = toLowerCase (trim s).
Proof. unfold trim. now rewrite trimStart_toLowerCase, trimEnd_toLowerCase. Qed.

Lemma bracketBody_toLowerCase (seen : bool) (s : string) :
  bracketBody seen (toLowerCase s) = bracketBody seen s.
Proof.
  revert seen. induction s as [|c s IH]; intros seen; simpl; [reflexivity|].
  rewrite toLowerChar_bracket by now right.
  rewrite IH. now destruct s.
Qed.

Lemma isBracketPlaceholder_toLowerCase (s : string) :
  isBracketPlaceholder (toLowerCase s) = isBracketPlaceholder s.
Proof.
  unfold isBracketPlaceholder. rewrite trim_toLowerCase.
  destruct (trim s) as [|c r]; simpl; [reflexivity|].
  rewrite toLowerChar_bracket by now left.
  now rewrite bracketBody_toLowerCase.
Qed.

Lemma isBracketPlaceholder_trim (s : string) :
  isBracketPlaceholder (trim s) = isBracketPlaceholder s.
Proof. unfold isBracketPlaceholder. now rewrite trim_idempotent. Qed.

(** X1. Whether a value is a placeholder credential depends neither on the
    white space around it nor on the case of its letters. *)
Theorem isPlaceholderCredential_ignores_case_and_padding (s : string) :
  isPlaceholderCredential (trim s) = isPlaceholderCredential s /\
  isPlaceholderCredential (toLowerCase s) = isPlaceholderCredential s.
Proof.
  unfold isPlaceholderCredential. cbv zeta. split.
  - now rewrite trim_idempotent, isBracketPlaceholder_trim.
  - now rewrite trim_toLowerCase, toLowerCase_idempotent,
      isBracketPlaceholder_toLowerCase.
Qed.

(** X2. [normalizeCredential] returns the trimmed string exactly when the
    input is a string whose trimmed value is non-empty and is not a
    placeholder credential, and undefined in every other case. *)
Theorem normalizeCredential_exactly_when (v : JsValue) (t : string) :
  normalizeCredential v = Some t <->
  exists s, v = JsString s /\ t = trim s /\ t <> EmptyString /\
            ~ PlaceholderCredential t.
Proof.
  destruct v as [| |b|z|s]; simpl;
    try (split; [discriminate | intros (s' & H & _); discriminate]).
  destruct (String.length (trim s) =? 0) eqn:E0; simpl.
  { apply length_zero_iff in E0. split; [discriminate|].
    intros (s' & [= <-] & -> & H & _). contradiction. }
  destruct (isPlaceholderCredential (trim s)) eqn:E1.
  { apply isPlaceholderCredential_spec in E1. split; [discriminate|].
    intros (s' & [= <-] & -> & _ & H). contradiction. }
  split.
  - intros [= <-]. exists s. repeat split; auto.
    + intros H. apply length_zero_iff in H. congruence.
    + intros H. apply isPlaceholderCredential_spec in H. congruence.
  - intros (s' & [= <-] & -> & _). reflexivity.
Qed.

(** X3. A credential that [normalizeCredential] returns is in normal form:
    it is not empty, has no white space at either end, is not a
    placeholder, and normalising it again returns it unchanged. *)
Theorem normalizeCredential_result_is_normal (v : JsValue) (t : string) :
  normalizeCredential v = Some t ->
  t <> EmptyString /\ trim t = t /\ isPlaceholderCredential t = false /\
  normalizeCredential (JsString t) = Some t.
Proof.
  destruct v as [| |b|z|s]; simpl; try discriminate.
  destruct (String.length (trim s) =? 0) eqn:E0; simpl; [discriminate|].
  destruct (isPlaceholderCredential (trim s)) eqn:E1; [discriminate|].
  intros [= <-]. rewrite trim_idempotent, E0, E1. simpl.
  repeat split; auto.
  intros H. apply length_zero_iff in H. congruence.
Qed.

Lemma normalizeCredential_result_is_normal_witness :
  normalizeCredential (JsString "  sk-live-123 ") = Some "sk-live-123" /\
  normalizeCredential (JsString "sk-live-123") = Some "sk-live-123".
Proof.
  split; [reflexivity|].
  apply (normalizeCredential_result_is_normal (JsString "  sk-live-123 ")).
  reflexivity.
Defined.

(** X4. [normalizeHttpUrl] accepts exactly the values that
    [normalizeCredential] accepts and that begin with the http or https
    scheme, and returns the same string. *)
Theorem normalizeHttpUrl_refines_normalizeCredential (v : JsValue) (t : string) :
  normalizeHttpUrl v = Some t <->
  normalizeCredential v = Some t /\ httpSchemeTest t = true.
Proof.
  destruct v as [| |b|z|s]; simpl; try (split; [discriminate | intros [H _]; discriminate]).
  destruct ((String.length (trim s) =? 0) || isPlaceholderCredential (trim s)).
  - split; [discriminate | intros [H _]; discriminate].
  - destruct (httpSchemeTest (trim s)) eqn:E; simpl.
    + split; [intros [= <-]; auto | now intros [H _]].
    + split; [discriminate | intros [[= <-] H]; congruence].
Qed.

End CredentialsMoreFacts.

(* ===================================================================== *)
(** ** More on the interactive step runner *)
(* ===================================================================== *)

Module StepRunnerMoreFacts.
Import JsString StepRunner StepRunnerEvents.

Lemma substring_length_le (n m : nat) (s : string) :
  String.length (substring n m s) <= m.
Proof.
  revert n m. induction s as [|c s IH]; intros n m.
  - destruct n, m; simpl; lia.
  - destruct n as [|n]; [destruct m as [|m]|]; simpl.
    + lia.
    + specialize (IH 0 m). lia.
    + apply IH.
Qed.

Lemma sliceLast_length (n : nat) (s : string) :
  String.length (sliceLast n s) <= n.
Proof. apply substring_length_le. Qed.

Lemma mapSet_In {V : Type} (k : string) (v : V) (m : list (string * V)) kv :
  In kv (mapSet k v m) -> kv = (k, v) \/ In kv m.
Proof.
  induction m as [|[k' v'] m IH]; simpl.
  - intros [<- | []]. now left.
  - destruct (String.eqb k k'); simpl; intros [<- | H]; auto.
    destruct (IH H); auto.
Qed.

Lemma mapGet_mapSet {V : Type} (k : string) (v : V) (m : list (string * V)) :
  mapGet k (mapSet k v m) = Some v.
Proof.
  induction m as [|[k' v'] m IH]; simpl.
  - now rewrite String.eqb_refl.
  - destruct (String.eqb k k') eqn:E; simpl.
    + now rewrite String.eqb_refl.
    + now rewrite E.
Qed.

Lemma sliceFrom_zero (s : string) : sliceFrom 0 s = s.
Proof. now destruct s. Qed.

Lemma substring_sliceFrom (s : string) :
  forall k n, String.length s <= k + n -> substring k n s = sliceFrom k s.
Proof.
  induction s as [|c s IH]; intros k n H.
  - destruct k, n; reflexivity.
  - destruct k as [|k]; simpl in *.
    + destruct n as [|n]; [lia|]. simpl. rewrite (IH 0 n) by lia.
      now rewrite sliceFrom_zero.
    + apply IH. lia.
Qed.

Lemma sliceLast_sliceFrom (n : nat) (s : string) :
  sliceLast n s = sliceFrom (String.length s - n) s.
Proof. apply substring_sliceFrom. lia. Qed.

Lemma length_append (a b : string) :
  String.length (a ++ b) = String.length a + String.length b.
Proof. induction a as [|c a IH]; simpl; [reflexivity | now rewrite IH]. Qed.

Lemma sliceFrom_length (k : nat) (s : string) :
  String.length (sliceFrom k s) = String.length s - k.
Proof.
  revert k. induction s as [|c s IH]; intros [|k]; simpl; try reflexivity.
  apply IH.
Qed.

Lemma sliceFrom_append (k : nat) (a b : string) :
  k <= String.length a -> sliceFrom k (a ++ b) = (sliceFrom k a ++ b)%string.
Proof.
  revert k. induction a as [|c a IH]; intros [|k] H; simpl in *;
    try reflexivity; try lia.
  apply IH. lia.
Qed.

Lemma sliceFrom_sliceFrom (j k : nat) (s : string) :
  sliceFrom j (sliceFrom k s) = sliceFrom (k + j) s.
Proof.
  revert k. induction s as [|c s IH]; intros [|k]; simpl.
  - now destruct j.
  - now destruct j.
  - reflexivity.
  - apply IH.
Qed.

(** Cutting to the last [n] characters before appending does not change the
    last [n] characters of the whole. *)
Lemma sliceLast_append (n : nat) (a b : string) :
  sliceLast n (sliceLast n a ++ b) = sliceLast n (a ++ b).
Proof.
  rewrite !sliceLast_sliceFrom.
  rewrite <- sliceFrom_append by lia.
  rewrite sliceFrom_sliceFrom.
  rewrite sliceFrom_length, !length_append. f_equal. lia.
Qed.

Lemma sliceLast_short (n : nat) (s : string) :
  String.length s <= n -> sliceLast n s = s.
Proof.
  intros H. rewrite sliceLast_sliceFrom.
  replace (String.length s - n) with 0 by lia. apply sliceFrom_zero.
Qed.

Lemma mapSet_not_nil {V : Type} (k : string) (v : V) (m : list (string * V)) :
  mapSet k v m <> [].
Proof. destruct m as [|[k' v'] m]; simpl; [|destruct (String.eqb k k')]; discriminate. Qed.

Lemma countType_app t (a b : list InteractiveStepRunnerEvent) :
  countType t (a ++ b) = countType t a + countType t b.
Proof. unfold countType. now rewrite filter_app, length_app. Qed.

Lemma countType_single t ev :
  countType t [ev] = if sameType (type ev) t then 1 else 0.
Proof. unfold countType. cbn [filter]. now destruct (sameType (type ev) t). Qed.

Section WithEnvironment.
Variable X : Type.
Variable executeStep :
      X -> InteractiveStep -> list ExecutorCallback * ExecutorOutcome * X.
Variable socket : option (nat -> Z).
Variable isoTime : nat -> string.
Variable normalizeStreamChunk : string -> string.

Local Abbreviation emit := (emit socket).
Local Abbreviation flushStreamBuffer := (flushStreamBuffer socket).
Local Abbreviation bufferStreamChunk := (bufferStreamChunk isoTime normalizeStreamChunk).
Local Abbreviation runCallback := (runCallback socket isoTime normalizeStreamChunk).
Local Abbreviation runFrom := (runFrom X executeStep socket isoTime normalizeStreamChunk).
Local Abbreviation run := (run X executeStep socket isoTime normalizeStreamChunk).

(** *** What each private method does to the runner *)

Lemma fold_emit_dispatched (l : list (string * InteractiveStepRunnerEvent)) r :
  dispatched (fold_left (fun acc kv => emit (snd kv) acc) l r) =
  (dispatched r ++ map snd l)%list.
Proof.
  revert r. induction l as [|kv l IH]; intros r; simpl.
  - now rewrite app_nil_r.
  - rewrite IH. cbn [dispatched StepRunner.emit]. now rewrite <- app_assoc.
Qed.

Lemma flushStreamBuffer_dispatched r :
  dispatched (flushStreamBuffer r) = (dispatched r ++ map snd (streamBuffer r))%list.
Proof.
  unfold StepRunner.flushStreamBuffer. cbn [streamBuffer].
  destruct (streamBuffer r) as [|kv l] eqn:E; cbn [dispatched].
  - now rewrite app_nil_r.
  - now rewrite fold_emit_dispatched.
Qed.

Lemma fold_emit_timer (l : list (string * InteractiveStepRunnerEvent)) r :
  streamFlushTimer (fold_left (fun acc kv => emit (snd kv) acc) l r) =
  streamFlushTimer r.
Proof.
  revert r. induction l as [|kv l IH]; intros r; simpl; [reflexivity|].
  now rewrite IH.
Qed.

Lemma flushStreamBuffer_empties r :
  streamBuffer (flushStreamBuffer r) = [] /\
  streamFlushTimer (flushStreamBuffer r) = false.
Proof.
  unfold StepRunner.flushStreamBuffer. cbn [streamBuffer].
  destruct (streamBuffer r) as [|kv l] eqn:E;
    cbn [streamBuffer streamFlushTimer]; [auto|].
  now rewrite fold_emit_timer.
Qed.

(** The step a chunk takes through [#bufferStreamChunk]: dropped when it is
    blank after the clean-up, stored under its key with the timer armed
    otherwise. *)
Lemma bufferStreamChunk_dropped t i d o r :
  trim (normalizeStreamChunk o) = EmptyString ->
  bufferStreamChunk t i d o r = r.
Proof.
  intros H. unfold StepRunner.bufferStreamChunk. cbv zeta.
  now rewrite H.
Qed.

Lemma bufferStreamChunk_stored t i d o r :
  trim (normalizeStreamChunk o) <> EmptyString ->
  exists ev,
    type ev = t /\
    output ev =
      Some (sliceLast MAX_STREAM_BUFFER_CHARS
              (match mapGet (streamBufferKey i t) (streamBuffer r) with
               | Some old => match output old with Some p => p | None => EmptyString end
               | None => EmptyString
               end ++ normalizeStreamChunk o)) /\
    streamBuffer (bufferStreamChunk t i d o r) =
      mapSet (streamBufferKey i t) ev (streamBuffer r) /\
    streamFlushTimer (bufferStreamChunk t i d o r) = true /\
    dispatched (bufferStreamChunk t i d o r) = dispatched r /\
    sent (bufferStreamChunk t i d o r) = sent r /\
    executed (bufferStreamChunk t i d o r) = executed r.
Proof.
  intros H.
  unfold StepRunner.bufferStreamChunk, scheduleStreamFlush, readClock. cbv zeta.
  destruct (String.eqb _ _) eqn:E; [now apply String.eqb_eq in E|].
  eexists. cbn [streamFlushTimer streamBuffer dispatched sent executed].
  destruct (streamFlushTimer r) eqn:Et; cbn; rewrite ?Et; repeat split; reflexivity.
Qed.

Lemma bufferStreamChunk_cases t i d o r :
  bufferStreamChunk t i d o r = r \/
  exists ev,
    type ev = t /\
    output ev =
      Some (sliceLast MAX_STREAM_BUFFER_CHARS
              (match mapGet (streamBufferKey i t) (streamBuffer r) with
               | Some old => match output old with Some p => p | None => EmptyString end
               | None => EmptyString
               end ++ normalizeStreamChunk o)) /\
    streamBuffer (bufferStreamChunk t i d o r) =
      mapSet (streamBufferKey i t) ev (streamBuffer r) /\
    streamFlushTimer (bufferStreamChunk t i d o r) = true /\
    dispatched (bufferStreamChunk t i d o r) = dispatched r /\
    sent (bufferStreamChunk t i d o r) = sent r /\
    executed (bufferStreamChunk t i d o r) = executed r.
Proof.
  destruct (string_dec (trim (normalizeStreamChunk o)) EmptyString) as [H | H].
  - left. now apply bufferStreamChunk_dropped.
  - right. now apply bufferStreamChunk_stored.
Qed.

Lemma emit_dispatched ev r : dispatched (emit ev r) = (dispatched r ++ [ev])%list.
Proof. reflexivity. Qed.

Lemma emit_sent ev r :
  sent (emit ev r) =
  (sent r ++ if socketIsOpenAt socket (List.length (dispatched r)) then [ev] else [])%list.
Proof.
  unfold StepRunner.emit, socketIsOpenAt. cbn [sent].
  destruct socket as [readyState|];
    [destruct (Z.eqb (readyState (List.length (dispatched r))) WS_OPEN)|];
    now rewrite ?app_nil_r.
Qed.

Lemma sentWhileOpen_app (n : nat) (a b : list InteractiveStepRunnerEvent) :
  sentWhileOpen socket n (a ++ b) =
  (sentWhileOpen socket n a ++ sentWhileOpen socket (n + List.length a) b)%list.
Proof.
  revert n. induction a as [|ev a IH]; intros n; cbn [app sentWhileOpen List.length].
  - now rewrite Nat.add_0_r.
  - rewrite IH, Nat.add_succ_r. now destruct (socketIsOpenAt socket n).
Qed.

(** What has been sent is what was dispatched while the socket was open. *)
Lemma emit_mirrors ev r :
  sent r = sentWhileOpen socket 0 (dispatched r) ->
  sent (emit ev r) = sentWhileOpen socket 0 (dispatched (emit ev r)).
Proof.
  intros H. rewrite emit_sent, emit_dispatched, sentWhileOpen_app, H.
  cbn [sentWhileOpen Nat.add].
  now destruct (socketIsOpenAt socket (List.length (dispatched r))).
Qed.

Lemma fold_emit_mirrors (l : list (string * InteractiveStepRunnerEvent)) r :
  sent r = sentWhileOpen socket 0 (dispatched r) ->
  sent (fold_left (fun acc kv => emit (snd kv) acc) l r) =
  sentWhileOpen socket 0 (dispatched (fold_left (fun acc kv => emit (snd kv) acc) l r)).
Proof.
  revert r. induction l as [|kv l IH]; intros r H; cbn [fold_left]; [exact H|].
  apply IH. now apply emit_mirrors.
Qed.

Lemma flushStreamBuffer_mirrors r :
  sent r = sentWhileOpen socket 0 (dispatched r) ->
  sent (flushStreamBuffer r) = sentWhileOpen socket 0 (dispatched (flushStreamBuffer r)).
Proof.
  intros H. unfold StepRunner.flushStreamBuffer. cbn [streamBuffer].
  destruct (streamBuffer r) as [|kv l] eqn:E; cbn [sent dispatched]; [exact H|].
  now apply fold_emit_mirrors.
Qed.

Lemma sentWhileOpen_always (events : list InteractiveStepRunnerEvent) :
  forall n,
    (forall k, socketIsOpenAt socket k = true) ->
    sentWhileOpen socket n events = events.
Proof.
  induction events as [|ev rest IH]; intros n H; cbn [sentWhileOpen]; [reflexivity|].
  now rewrite H, IH.
Qed.

Lemma sentWhileOpen_never (events : list InteractiveStepRunnerEvent) :
  forall n,
    (forall k, socketIsOpenAt socket k = false) ->
    sentWhileOpen socket n events = [].
Proof.
  induction events as [|ev rest IH]; intros n H; cbn [sentWhileOpen]; [reflexivity|].
  now rewrite H, IH.
Qed.

(** *** Invariants of [run]

    A property of the runner that every private method keeps is kept by
    [run].  [emit] is only asked to keep it for the events the loop itself
    builds: they are not stream events, and a [complete] event reports the
    number of steps. *)
Section Invariant.
Variable P : Runner -> Prop.
Variable total : nat.
Hypothesis Hclock : forall r,
  P r ->
  P {| streamBuffer := streamBuffer r; streamFlushTimer := streamFlushTimer r;
       dispatched := dispatched r; sent := sent r; executed := executed r;
       clockReads := S (clockReads r) |}.
Hypothesis Hemit : forall ev r,
  isStreamType (type ev) = false -> CompleteReports total ev ->
  P r -> P (emit ev r).
Hypothesis Hnote : forall i r, P r -> P (noteExecution i r).
Hypothesis Hflush : forall r, P r -> P (flushStreamBuffer r).
Hypothesis Hbuffer : forall t i d o r,
  isStreamType t = true -> P r -> P (bufferStreamChunk t i d o r).

Lemma callbacks_invariant i step cbs r :
  P r -> P (fold_left (fun acc cb => runCallback i step cb acc) cbs r).
Proof.
  revert r. induction cbs as [|cb cbs IH]; intros r H; simpl; [exact H|].
  apply IH. destruct cb; simpl.
  - now apply Hbuffer.
  - now apply Hbuffer.
  - destruct (streamFlushTimer r); [now apply Hflush | exact H].
Qed.

Ltac loop_event :=
  apply Hemit;
  [ reflexivity
  | unfold CompleteReports; cbn [type totalSteps]; first [discriminate | reflexivity]
  | ].

Lemma runFrom_invariant steps :
  forall index r x, P r -> P (snd (fst (runFrom index steps total r x))).
Proof.
  induction steps as [|step rest IH]; intros index r x H.
  - cbn [StepRunner.runFrom]. unfold readClock. cbn [fst snd].
    loop_event. apply Hclock. now apply Hflush.
  - cbn [StepRunner.runFrom]. unfold readClock. cbv zeta.
    destruct (executeStep x step) as [[cbs outcome] x1].
    assert (H1 : P (fold_left (fun acc cb => runCallback index step cb acc) cbs
                     (noteExecution index
                        (emit {| type := step_start; timestamp := isoTime (clockReads r);
                                 stepIndex := Some index;
                                 ev_description := Some (description step);
                                 ev_command := Some (command step);
                                 output := None; ev_exitCode := None;
                                 ev_error := None; totalSteps := None |}
                           {| streamBuffer := streamBuffer r;
                              streamFlushTimer := streamFlushTimer r;
                              dispatched := dispatched r; sent := sent r;
                              executed := executed r;
                              clockReads := S (clockReads r) |})))).
    { apply callbacks_invariant, Hnote. loop_event. now apply Hclock. }
    revert H1. generalize (fold_left (fun acc cb => runCallback index step cb acc) cbs
                     (noteExecution index
                        (emit {| type := step_start; timestamp := isoTime (clockReads r);
                                 stepIndex := Some index;
                                 ev_description := Some (description step);
                                 ev_command := Some (command step);
                                 output := None; ev_exitCode := None;
                                 ev_error := None; totalSteps := None |}
                           {| streamBuffer := streamBuffer r;
                              streamFlushTimer := streamFlushTimer r;
                              dispatched := dispatched r; sent := sent r;
                              executed := executed r;
                              clockReads := S (clockReads r) |}))).
    intros r1 H1.
    destruct outcome as [result | err].
    + destruct (negb (Z.eqb (exitCode result) 0)).
      * cbn [fst snd]. loop_event. apply Hclock. loop_event. apply Hclock.
        now apply Hflush.
      * apply IH. loop_event. apply Hclock. now apply Hflush.
    + cbn [fst snd]. loop_event. apply Hclock. now apply Hflush.
Qed.

End Invariant.

Lemma BufferWellFormed_buffer t i d o r :
  isStreamType t = true -> BufferWellFormed r ->
  BufferWellFormed (bufferStreamChunk t i d o r).
Proof.
  intros Ht H.
  destruct (bufferStreamChunk_cases t i d o r)
    as [-> | (ev & Hty & Hout & Hbuf & _)]; [exact H|].
  unfold BufferWellFormed. rewrite Hbuf. apply Forall_forall. intros kv Hin.
  apply mapSet_In in Hin as [-> | Hin].
  - cbn [snd]. rewrite Hty. split; [exact Ht|]. intros _.
    eexists. split; [exact Hout | apply sliceLast_length].
  - unfold BufferWellFormed in H. rewrite Forall_forall in H. now apply H.
Qed.

(** X5. Every [stdout] or [stderr] event that a run dispatches carries at most
    [MAX_STREAM_BUFFER_CHARS] = 2400 characters of output, whatever the
    executor writes and however the chunks are cleaned. *)
Theorem streamed_output_is_bounded (steps : list InteractiveStep) (x : X) :
  Forall StreamOutputBounded (dispatched (snd (fst (run steps newRunner x)))).
Proof.
  pose (P := fun r => Forall StreamOutputBounded (dispatched r) /\ BufferWellFormed r).
  enough (P (snd (fst (run steps newRunner x)))) as [H _] by exact H.
  apply (runFrom_invariant P (List.length steps)); unfold P.
  - intros r H. exact H.
  - intros ev r Hty _ [H1 H2]. split; [|exact H2].
    rewrite emit_dispatched. apply Forall_app. split; [exact H1|].
    constructor; [|constructor]. intros Hs. congruence.
  - intros i r H. exact H.
  - intros r [H1 H2]. split.
    + rewrite flushStreamBuffer_dispatched. apply Forall_app. split; [exact H1|].
      apply Forall_map. unfold BufferWellFormed in H2.
      eapply Forall_impl; [|exact H2]. now intros kv [_ H].
    + unfold BufferWellFormed. now rewrite (proj1 (flushStreamBuffer_empties r)).
  - intros t i d o r Ht [H1 H2]. split.
    + destruct (bufferStreamChunk_cases t i d o r)
        as [-> | (ev & _ & _ & _ & _ & -> & _)]; exact H1.
    + now apply BufferWellFormed_buffer.
  - split; constructor.
Qed.

(** X6. [#emit] dispatches every event to the listeners and sends it on the
    socket if the socket is open at that moment: after a run, the events
    sent are exactly the dispatched events at whose emit the socket's
    [readyState] was [WS_OPEN], in the order of dispatch.  So a socket that
    opens or closes during the run receives part of the events; one that
    is open throughout receives them all; and nothing is sent without a
    socket or on a socket that is never open. *)
Theorem socket_mirrors_listeners (steps : list InteractiveStep) (x : X) :
  sent (snd (fst (run steps newRunner x))) =
    sentWhileOpen socket 0 (dispatched (snd (fst (run steps newRunner x)))) /\
  ((forall n, socketIsOpenAt socket n = true) ->
   sent (snd (fst (run steps newRunner x))) =
   dispatched (snd (fst (run steps newRunner x)))) /\
  ((forall n, socketIsOpenAt socket n = false) ->
   sent (snd (fst (run steps newRunner x))) = []).
Proof.
  pose (P := fun r => sent r = sentWhileOpen socket 0 (dispatched r)).
  assert (H : P (snd (fst (run steps newRunner x)))).
  { apply (runFrom_invariant P (List.length steps)); unfold P.
    - intros r H. exact H.
    - intros ev r _ _ H. now apply emit_mirrors.
    - intros i r H. exact H.
    - intros r H. now apply flushStreamBuffer_mirrors.
    - intros t i d o r _ H.
      destruct (bufferStreamChunk_cases t i d o r)
        as [-> | (ev & _ & _ & _ & _ & -> & -> & _)]; exact H.
    - reflexivity. }
  unfold P in H. split; [exact H|]. split; intros Hsocket; rewrite H.
  - now apply sentWhileOpen_always.
  - now apply sentWhileOpen_never.
Qed.

(** X7. [run] never returns with output still buffered or with the flush timer
    armed, from whatever state of the runner it starts. *)
Theorem run_leaves_nothing_buffered (steps : list InteractiveStep)
    (r : Runner) (x : X) :
  streamBuffer (snd (fst (run steps r x))) = [] /\
  streamFlushTimer (snd (fst (run steps r x))) = false.
Proof.
  unfold StepRunner.run. generalize (List.length steps) as total. intros total.
  generalize 0 as index. revert r x.
  induction steps as [|step rest IH]; intros r x index.
  - cbn [StepRunner.runFrom]. unfold readClock. cbn [fst snd].
    cbn [StepRunner.emit streamBuffer streamFlushTimer].
    apply flushStreamBuffer_empties.
  - cbn [StepRunner.runFrom]. unfold readClock. cbv zeta.
    destruct (executeStep x step) as [[cbs outcome] x1].
    destruct outcome as [result | err].
    + destruct (negb (Z.eqb (exitCode result) 0)).
      * cbn [fst snd StepRunner.emit streamBuffer streamFlushTimer].
        apply flushStreamBuffer_empties.
      * apply IH.
    + cbn [fst snd StepRunner.emit streamBuffer streamFlushTimer].
      apply flushStreamBuffer_empties.
Qed.

(** X8. While a step is executing, output is waiting in the buffer exactly when
    the flush timer is armed: buffered output always has a flush ahead of
    it, and the timer never stays armed for an empty buffer. *)
Theorem buffered_output_has_flush_scheduled
    (i : nat) (step : InteractiveStep) (cbs : list ExecutorCallback) (r : Runner) :
  TimerMatchesBuffer r ->
  TimerMatchesBuffer (fold_left (fun acc cb => runCallback i step cb acc) cbs r).
Proof.
  apply (callbacks_invariant TimerMatchesBuffer); unfold TimerMatchesBuffer.
  - intros r0 _. destruct (flushStreamBuffer_empties r0) as [-> ->].
    split; [discriminate | congruence].
  - intros t j d o r0 _ H.
    destruct (bufferStreamChunk_cases t j d o r0)
      as [-> | (ev & _ & _ & -> & -> & _)]; [exact H|].
    split; [intros _; apply mapSet_not_nil | reflexivity].
Qed.

(** Chunks written onto an event that is already buffered extend its
    output. *)
Lemma chunks_coalesce_onto t i d (cs : list string) :
  forall r ev0 e0,
    mapGet (streamBufferKey i t) (streamBuffer r) = Some ev0 ->
    output ev0 = Some (sliceLast MAX_STREAM_BUFFER_CHARS e0) ->
    option_map output
      (mapGet (streamBufferKey i t)
         (streamBuffer (fold_left (fun acc c => bufferStreamChunk t i d c acc) cs r))) =
    Some (Some (sliceLast MAX_STREAM_BUFFER_CHARS
                  (e0 ++ joinChunks
                     (map normalizeStreamChunk
                        (filter (fun c => negb (String.eqb (trim (normalizeStreamChunk c))
                                                    EmptyString)) cs))))).
Proof.
  induction cs as [|c cs IH]; intros r ev0 e0 Hget Hout.
  - cbn. rewrite Hget. cbn. rewrite Hout.
    now rewrite JsStringFacts.append_nil_r.
  - cbn [fold_left filter].
    destruct (String.eqb (trim (normalizeStreamChunk c)) EmptyString) eqn:E; cbn [negb].
    + apply String.eqb_eq in E. rewrite (bufferStreamChunk_dropped _ _ _ _ _ E).
      now apply (IH r ev0).
    + apply String.eqb_neq in E.
      destruct (bufferStreamChunk_stored t i d c r E) as (ev & _ & Hev & Hbuf & _).
      rewrite Hget, Hout, sliceLast_append in Hev.
      cbn [map joinChunks fold_right].
      rewrite <- JsStringFacts.append_assoc.
      apply (IH _ ev); [|exact Hev].
      rewrite Hbuf. apply mapGet_mapSet.
Qed.

(** X9. The chunks written to one stream of one step while nothing is flushed
    end up in a single buffered event; its output is the last
    [MAX_STREAM_BUFFER_CHARS] characters of the cleaned chunks put end to
    end, the chunks that are blank after the clean-up left out. *)
Theorem chunks_coalesce t i d (cs : list string) (r : Runner) :
  mapGet (streamBufferKey i t) (streamBuffer r) = None ->
  option_map output
    (mapGet (streamBufferKey i t)
       (streamBuffer (fold_left (fun acc c => bufferStreamChunk t i d c acc) cs r))) =
  match filter (fun c => negb (String.eqb (trim (normalizeStreamChunk c)) EmptyString)) cs with
  | [] => None
  | kept =>
      Some (Some (sliceLast MAX_STREAM_BUFFER_CHARS
                    (joinChunks (map normalizeStreamChunk kept))))
  end.
Proof.
  revert r. induction cs as [|c cs IH]; intros r Hget.
  - cbn. now rewrite Hget.
  - cbn [fold_left filter].
    destruct (String.eqb (trim (normalizeStreamChunk c)) EmptyString) eqn:E; cbn [negb].
    + apply String.eqb_eq in E. rewrite (bufferStreamChunk_dropped _ _ _ _ _ E).
      now apply IH.
    + apply String.eqb_neq in E.
      destruct (bufferStreamChunk_stored t i d c r E) as (ev & _ & Hev & Hbuf & _).
      rewrite Hget in Hev. cbn [append] in Hev.
      cbn [map joinChunks fold_right].
      apply (chunks_coalesce_onto t i d cs _ ev); [|exact Hev].
      rewrite Hbuf. apply mapGet_mapSet.
Qed.

(** *** Counting the events of a run *)

Lemma countType_buffer t r :
  isStreamType t = false -> BufferWellFormed r ->
  countType t (map snd (streamBuffer r)) = 0.
Proof.
  unfold BufferWellFormed, countType. intros Ht H.
  induction H as [|kv l [Hkv _] _ IH]; [reflexivity|].
  cbn [map filter]. destruct (sameType (type (snd kv)) t) eqn:E; [|exact IH].
  destruct (type (snd kv)), t; discriminate.
Qed.

Lemma callbacks_counts t i step cbs r :
  isStreamType t = false -> BufferWellFormed r ->
  BufferWellFormed (fold_left (fun acc cb => runCallback i step cb acc) cbs r) /\
  countType t (dispatched (fold_left (fun acc cb => runCallback i step cb acc) cbs r)) =
  countType t (dispatched r).
Proof.
  intros Ht H.
  apply (callbacks_invariant
           (fun r' => BufferWellFormed r' /\
                      countType t (dispatched r') = countType t (dispatched r))).
  - intros r0 [H1 H2]. split.
    + unfold BufferWellFormed. now rewrite (proj1 (flushStreamBuffer_empties r0)).
    + rewrite flushStreamBuffer_dispatched, countType_app, H2.
      rewrite countType_buffer by assumption. lia.
  - intros t' j d o r0 Ht' [H1 H2]. split.
    + now apply BufferWellFormed_buffer.
    + destruct (bufferStreamChunk_cases t' j d o r0)
        as [-> | (ev & _ & _ & _ & _ & -> & _)]; exact H2.
  - auto.
Qed.

Lemma flush_counts t r :
  isStreamType t = false -> BufferWellFormed r ->
  countType t (dispatched (flushStreamBuffer r)) = countType t (dispatched r).
Proof.
  intros Ht H. rewrite flushStreamBuffer_dispatched, countType_app.
  rewrite countType_buffer by assumption. lia.
Qed.

Lemma flush_well_formed r : BufferWellFormed (flushStreamBuffer r).
Proof.
  unfold BufferWellFormed. rewrite (proj1 (flushStreamBuffer_empties r)). constructor.
Qed.

Ltac count_events :=
  repeat first
    [ rewrite emit_dispatched
    | rewrite countType_app
    | rewrite flush_counts by (reflexivity || assumption)
    | rewrite StepRunnerFacts.emit_executed
    | rewrite StepRunnerFacts.flushStreamBuffer_executed
    | rewrite countType_single
    | progress cbn [dispatched executed status res_exitCode type sameType] ].

Lemma runFrom_counts steps :
  forall index total r x,
    BufferWellFormed r ->
    exists n,
      List.length (executed (snd (fst (runFrom index steps total r x)))) =
        List.length (executed r) + n /\
      countType step_start (dispatched (snd (fst (runFrom index steps total r x)))) =
        countType step_start (dispatched r) + n /\
      match status (fst (fst (runFrom index steps total r x))) with
      | status_complete =>
          n = List.length steps /\
          countType step_end (dispatched (snd (fst (runFrom index steps total r x)))) =
            countType step_end (dispatched r) + n /\
          countType complete_t (dispatched (snd (fst (runFrom index steps total r x)))) =
            countType complete_t (dispatched r) + 1 /\
          countType error_t (dispatched (snd (fst (runFrom index steps total r x)))) =
            countType error_t (dispatched r)
      | status_error =>
          countType step_end (dispatched (snd (fst (runFrom index steps total r x)))) +
            match res_exitCode (fst (fst (runFrom index steps total r x))) with
            | Some _ => 0
            | None => 1
            end = countType step_end (dispatched r) + n /\
          countType complete_t (dispatched (snd (fst (runFrom index steps total r x)))) =
            countType complete_t (dispatched r) /\
          countType error_t (dispatched (snd (fst (runFrom index steps total r x)))) =
            countType error_t (dispatched r) + 1
      end.
Proof.
  induction steps as [|step rest IH]; intros index total r x H.
  - exists 0. cbn [StepRunner.runFrom]. unfold readClock. cbn [fst snd].
    count_events. repeat split; lia.
  - cbn [StepRunner.runFrom]. unfold readClock. cbv zeta.
    destruct (executeStep x step) as [[cbs outcome] x1].
    set (r0 := noteExecution index _).
    assert (H0 : BufferWellFormed r0) by exact H.
    assert (E0 : executed r0 = (executed r ++ [index])%list) by reflexivity.
    assert (C0 : forall t, countType t (dispatched r0) =
                           countType t (dispatched r) +
                           if sameType step_start t then 1 else 0).
    { intros t. subst r0. cbn [noteExecution dispatched].
      rewrite emit_dispatched, countType_app, countType_single. reflexivity. }
    clearbody r0.
    set (r1 := fold_left _ cbs r0).
    assert (H1 : BufferWellFormed r1) by (apply (callbacks_counts step_end); auto).
    assert (E1 : executed r1 = (executed r ++ [index])%list).
    { subst r1. now rewrite StepRunnerFacts.callbacks_executed. }
    assert (C1 : forall t, isStreamType t = false ->
                           countType t (dispatched r1) =
                           countType t (dispatched r) +
                           if sameType step_start t then 1 else 0).
    { intros t Ht. subst r1.
      rewrite (proj2 (callbacks_counts t index step cbs r0 Ht H0)). apply C0. }
    clearbody r1. clear r0 H0 E0 C0.
    destruct outcome as [result | err].
    + destruct (negb (Z.eqb (exitCode result) 0)).
      * exists 1. cbn [fst snd]. count_events.
        rewrite E1, !C1 by reflexivity. cbn [sameType].
        rewrite length_app. cbn [List.length]. repeat split; lia.
      * match goal with
        | |- context [runFrom (S index) rest total ?r2 x1] =>
            destruct (IH (S index) total r2 x1) as (n & Hn1 & Hn2 & Hn3);
              [ unfold BufferWellFormed; cbn [StepRunner.emit streamBuffer];
                apply flush_well_formed | ]
        end.
        exists (S n). rewrite Hn1, Hn2.
        split; [|split].
        -- count_events. rewrite E1, length_app. cbn [List.length]. lia.
        -- count_events. rewrite C1 by reflexivity. cbn [sameType]. lia.
        -- destruct (status _).
           ++ destruct Hn3 as (-> & Hn3 & Hn4 & Hn5). rewrite Hn3, Hn4, Hn5.
              count_events. rewrite !C1 by reflexivity. cbn [sameType List.length].
              repeat split; lia.
           ++ destruct Hn3 as (Hn3 & Hn4 & Hn5). rewrite Hn3, Hn4, Hn5.
              count_events. rewrite !C1 by reflexivity. cbn [sameType].
              repeat split; lia.
    + exists 1. cbn [fst snd]. count_events.
      rewrite E1, !C1 by reflexivity. cbn [sameType].
      rewrite length_app. cbn [List.length]. repeat split; lia.
Qed.

(** X10. A run dispatches one [step-start] event per call of the executor and
    exactly one closing event.  A run that completes has one [step-end] per
    step, one [complete] event and no [error] event; a run that fails has
    one [error] event, no [complete] event, and one [step-end] for each
    executed step except a step whose executor threw.  Every [complete]
    event reports the number of steps. *)
Theorem run_event_counts (steps : list InteractiveStep) (x : X) :
  countType step_start (dispatched (snd (fst (run steps newRunner x)))) =
    List.length (executed (snd (fst (run steps newRunner x)))) /\
  Forall (CompleteReports (List.length steps))
    (dispatched (snd (fst (run steps newRunner x)))) /\
  match status (fst (fst (run steps newRunner x))) with
  | status_complete =>
      countType step_end (dispatched (snd (fst (run steps newRunner x)))) =
        List.length steps /\
      countType complete_t (dispatched (snd (fst (run steps newRunner x)))) = 1 /\
      countType error_t (dispatched (snd (fst (run steps newRunner x)))) = 0
  | status_error =>
      countType step_end (dispatched (snd (fst (run steps newRunner x)))) +
        match res_exitCode (fst (fst (run steps newRunner x))) with
        | Some _ => 0
        | None => 1
        end = List.length (executed (snd (fst (run steps newRunner x)))) /\
      countType complete_t (dispatched (snd (fst (run steps newRunner x)))) = 0 /\
      countType error_t (dispatched (snd (fst (run steps newRunner x)))) = 1
  end.
Proof.
  assert (W : BufferWellFormed newRunner) by constructor.
  destruct (runFrom_counts steps 0 (List.length steps) newRunner x W)
    as (n & H1 & H2 & H3).
  unfold StepRunner.run. rewrite H1, H2. split; [reflexivity|]. split.
  - pose (P := fun r => Forall (CompleteReports (List.length steps)) (dispatched r) /\
                        BufferWellFormed r).
    enough (P (snd (fst (runFrom 0 steps (List.length steps) newRunner x))))
      as [H _] by exact H.
    apply (runFrom_invariant P (List.length steps)); unfold P.
    + intros r H. exact H.
    + intros ev r _ Hc [Ha Hb]. split; [|exact Hb].
      rewrite emit_dispatched. apply Forall_app. split; [exact Ha|].
      constructor; [exact Hc | constructor].
    + intros i r H. exact H.
    + intros r [Ha Hb]. split; [|apply flush_well_formed].
      rewrite flushStreamBuffer_dispatched. apply Forall_app. split; [exact Ha|].
      apply Forall_map. unfold BufferWellFormed in Hb.
      eapply Forall_impl; [|exact Hb].
      intros kv [Hs _] Hc. rewrite Hc in Hs. discriminate.
    + intros t i d o r Ht [Ha Hb]. split; [|now apply BufferWellFormed_buffer].
      destruct (bufferStreamChunk_cases t i d o r)
        as [-> | (ev & _ & _ & _ & _ & -> & _)]; exact Ha.
    + split; constructor.
  - destruct (status _).
    + destruct H3 as (-> & -> & -> & ->). auto.
    + destruct H3 as (-> & -> & ->). auto.
Qed.

End WithEnvironment.

(** The runner of interactive-step-runner.spec.ts in the middle of a step. *)
Lemma buffered_output_has_flush_scheduled_witness :
  TimerMatchesBuffer newRunner /\
  TimerMatchesBuffer
    (fold_left
       (fun acc cb => runCallback None fixedClock (fun s => s) 0
                        {| description := "stream"; command := ["echo"; "stream"] |}
                        cb acc)
       [onStdout "hello"; onStdout " world"; flushTimerFires; onStderr "warn"]
       newRunner).
Proof.
  assert (H : TimerMatchesBuffer newRunner).
  { split; [discriminate | intros H; now elim H]. }
  split; [exact H|].
  apply (buffered_output_has_flush_scheduled None fixedClock (fun s => s)), H.
Defined.

(** The coalescing test of interactive-step-runner.spec.ts. *)
Lemma chunks_coalesce_witness :
  mapGet (streamBufferKey 0 stdout_t) (streamBuffer newRunner) = None /\
  option_map output
    (mapGet (streamBufferKey 0 stdout_t)
       (streamBuffer
          (fold_left
             (fun acc c => bufferStreamChunk fixedClock (fun s => s) stdout_t 0 "stream" c acc)
             ["hello"; "  "; " world"] newRunner))) =
  Some (Some "hello world").
Proof.
  split; [reflexivity|].
  apply (chunks_coalesce fixedClock (fun s => s) stdout_t 0 "stream"
           ["hello"; "  "; " world"] newRunner).
  reflexivity.
Defined.

(** A socket that opens while the first step is running misses the events
    emitted before it opened and receives the rest. *)
Example socket_opening_mid_run :
  let r := snd (fst (run nat echoingExecutor (opensAfter 3) fixedClock (fun s => s)
                       twoSteps newRunner 0)) in
  map type (dispatched r) =
    [step_start; stdout_t; stderr_t; step_end;
     step_start; stdout_t; stderr_t; step_end; complete_t] /\
  map type (sent r) =
    [step_end; step_start; stdout_t; stderr_t; step_end; complete_t].
Proof. vm_compute. auto. Qed.

End StepRunnerMoreFacts.

(* ===================================================================== *)
(** ** More on the chat run *)
(* ===================================================================== *)

Module ChatMoreFacts.
Import Chat ChatInvariants ChatFacts.

(** *** One timeline for progress and commentary *)

Section Timeline.
Context {RC : Type} {ext : Externals RC} {req : Request}.

Local Abbreviation State := (@RunState RC).

Lemma eventOrders_app (w1 w2 : list StreamPart) :
  eventOrders (w1 ++ w2) = (eventOrders w1 ++ eventOrders w2)%list.
Proof. apply flat_map_app. Qed.

Lemma writeCommentary_timeline phase message status detail :
  Preserves (TimelineOrdered : State -> Prop)
    (writeCommentary phase message status detail).
Proof.
  intros s [Hs Hb]. unfold TimelineOrdered.
  unfold writeCommentary, writeData, reading, andThen, when, skip.
  destruct (isNone (firstCommentaryAt s)); cbn;
    rewrite eventOrders_app; cbn; (split;
      [ now apply sorted_snoc
      | apply Forall_app; split; [now apply below_weaken | repeat constructor] ]).
Qed.

Lemma writeProgress_timeline label status message :
  Preserves (TimelineOrdered : State -> Prop) (writeProgress label status message).
Proof.
  intros s [Hs Hb]. unfold TimelineOrdered.
  unfold writeProgress, writeData, reading, andThen. cbn.
  rewrite eventOrders_app. cbn. split;
    [ now apply sorted_snoc
    | apply Forall_app; split; [now apply below_weaken | repeat constructor] ].
Qed.

Lemma writeData_timeline (part : StreamPart) :
  eventOrders [part] = [] ->
  Preserves (TimelineOrdered : State -> Prop) (writeData part).
Proof.
  intros Hpart s [Hs Hb]. unfold TimelineOrdered, writeData, reading. cbn.
  rewrite eventOrders_app, Hpart, app_nil_r. auto.
Qed.

#[local] Hint Resolve writeCommentary_timeline writeProgress_timeline : run_steps.
#[local] Hint Extern 2 (Preserves TimelineOrdered (writeData _)) =>
  (apply writeData_timeline; reflexivity) : run_steps.
#[local] Hint Extern 2 (Preserves TimelineOrdered (writeMessageAnnotation _)) =>
  (apply writeData_timeline; reflexivity) : run_steps.

Lemma perform_timeline (a : Action) :
  Preserves (TimelineOrdered : State -> Prop) (perform a).
Proof.
  destruct a; unfold_handlers;
    unfold emitRunCompletionEvents, issueSegment, pushMessage,
      createStreamAbortSignal, startCommentaryHeartbeat,
      stopCommentaryHeartbeat, markRunActivity;
    preserved.
Qed.

(** X11. Progress events and commentary events share one counter: taken
    together, in emission order, their order values increase strictly, so
    no progress event carries the order of a commentary event, and every
    order handed out so far is below the counter. *)
Theorem timeline_orders_strictly_increase (messages : list Message) (s : State) :
  Reachable messages s ->
  StronglySorted lt (eventOrders (written s)) /\
  NoDup (eventOrders (written s)) /\
  Forall (fun o => o < progressCounter s) (eventOrders (written s)).
Proof.
  intros Hs.
  assert (H : TimelineOrdered s).
  { apply (reachable_invariant TimelineOrdered messages);
      [| apply perform_timeline | exact Hs].
    split; constructor. }
  destruct H as [Hsorted Hbelow]. split; [exact Hsorted|]. split; [|exact Hbelow].
  clear - Hsorted. induction Hsorted as [|a l Hl IH Ha]; constructor; [|exact IH].
  intros Hin. rewrite Forall_forall in Ha. specialize (Ha a Hin). lia.
Qed.

End Timeline.
(** *** The time of the first commentary *)

Section FirstCommentary.
Context {RC : Type} {ext : Externals RC} {req : Request}.

Local Abbreviation State := (@RunState RC).

Lemma writeCommentary_first phase message status detail (s : State) :
  FirstCommentaryRecorded (writeCommentary phase message status detail s).
Proof.
  unfold FirstCommentaryRecorded, writeCommentary, writeData, reading, andThen,
    when, skip.
  destruct (firstCommentaryAt s) eqn:E; cbn; rewrite ?E, commentaryOrders_app; cbn;
    (split; [discriminate | intros H; apply app_eq_nil in H as [_ H]; discriminate]).
Qed.

Lemma writeData_first (part : StreamPart) :
  commentaryOrders [part] = [] ->
  Preserves (FirstCommentaryRecorded : State -> Prop) (writeData part).
Proof.
  intros Hpart s H. unfold FirstCommentaryRecorded, writeData, reading. cbn.
  now rewrite commentaryOrders_app, Hpart, app_nil_r.
Qed.

Lemma writeProgress_first label status message :
  Preserves (FirstCommentaryRecorded : State -> Prop)
    (writeProgress label status message).
Proof.
  intros s H. unfold FirstCommentaryRecorded, writeProgress, writeData, reading,
    andThen. cbn.
  rewrite commentaryOrders_app. cbn. now rewrite app_nil_r.
Qed.

#[local] Hint Resolve writeProgress_first : run_steps.
#[local] Hint Extern 2 (Preserves FirstCommentaryRecorded (writeCommentary _ _ _ _)) =>
  (let s := fresh "s" in intros s _; apply writeCommentary_first) : run_steps.
#[local] Hint Extern 2 (Preserves FirstCommentaryRecorded (writeData _)) =>
  (apply writeData_first; reflexivity) : run_steps.
#[local] Hint Extern 2 (Preserves FirstCommentaryRecorded (writeMessageAnnotation _)) =>
  (apply writeData_first; reflexivity) : run_steps.

Lemma perform_first (a : Action) :
  Preserves (FirstCommentaryRecorded : State -> Prop) (perform a).
Proof.
  destruct a; unfold_handlers;
    unfold emitRunCompletionEvents, issueSegment, pushMessage,
      createStreamAbortSignal, startCommentaryHeartbeat,
      stopCommentaryHeartbeat, markRunActivity;
    preserved.
Qed.

Lemma writeCommentary_keeps_first (t : Z) phase message status detail :
  Preserves (fun s : State => firstCommentaryAt s = Some t)
    (writeCommentary phase message status detail).
Proof.
  intros s H. unfold writeCommentary, writeData, reading, andThen, when, skip.
  rewrite H. cbn. exact H.
Qed.

#[local] Hint Resolve writeCommentary_keeps_first : run_steps.

Lemma perform_keeps_first (t : Z) (a : Action) :
  Preserves (fun s : State => firstCommentaryAt s = Some t) (perform a).
Proof.
  destruct a; unfold_handlers;
    unfold emitRunCompletionEvents, writeProgress, writeMessageAnnotation,
      issueSegment, pushMessage, createStreamAbortSignal,
      startCommentaryHeartbeat, stopCommentaryHeartbeat, writeData,
      markRunActivity;
    preserved.
Qed.

(** X12. [firstCommentaryAt], from which the run metrics compute the latency of
    the first commentary, is unset exactly as long as no commentary event
    has been written, and once set it is never overwritten: no later
    commentary, heartbeat or recovery moves it. *)
Theorem first_commentary_time_is_recorded_once (messages : list Message) (s : State) :
  Reachable messages s ->
  (firstCommentaryAt s = None <-> commentaryOrders (written s) = []) /\
  (forall t a, firstCommentaryAt s = Some t ->
               firstCommentaryAt (perform a s) = Some t).
Proof.
  intros Hs. split.
  - apply (reachable_invariant FirstCommentaryRecorded messages);
      [| apply perform_first | exact Hs].
    split; reflexivity.
  - intros t a H. now apply perform_keeps_first.
Qed.

End FirstCommentary.

Lemma first_commentary_time_is_recorded_once_witness :
  firstCommentaryAt completedState <> None /\
  commentaryOrders (written completedState) <> [].
Proof.
  destruct (first_commentary_time_is_recorded_once
              (ext := exampleExternals 2 neverContinue) (req := exampleRequest)
              exampleMessages completedState) as [H _].
  - exists completedRun. reflexivity.
  - assert (N : commentaryOrders (written completedState) <> []).
    { vm_compute. discriminate. }
    split; [|exact N]. intros E. apply N, H, E.
Defined.

(** *** Recovery flags *)

Section RecoveryFlags.
Context {RC : Type} {ext : Externals RC} {req : Request}.

Local Abbreviation State := (@RunState RC).
Local Notation "f ;; g" := (andThen f g) (at level 62, right associativity).

Lemma writeCommentary_recovery phase message status detail :
  Preserves (RecoveryConsistent : State -> Prop)
    (writeCommentary phase message status detail).
Proof.
  intros s [H1 H2]. unfold RecoveryConsistent, writeCommentary, writeData, reading,
    andThen, when, skip.
  destruct (isNone (firstCommentaryAt s)); cbn;
    (split; [exact H1 | apply Forall_app; split; [exact H2 | repeat constructor]]).
Qed.

Lemma writeData_recovery (part : StreamPart) :
  metricsConsistent part ->
  Preserves (RecoveryConsistent : State -> Prop) (writeData part).
Proof.
  intros Hpart s [H1 H2]. unfold RecoveryConsistent, writeData, reading. cbn.
  split; [exact H1 | apply Forall_app; split; [exact H2 | repeat constructor; exact Hpart]].
Qed.

Lemma writeProgress_recovery label status message :
  Preserves (RecoveryConsistent : State -> Prop) (writeProgress label status message).
Proof.
  intros s [H1 H2]. unfold RecoveryConsistent, writeProgress, writeData, reading,
    andThen. cbn.
  split; [exact H1 | apply Forall_app; split; [exact H2 | repeat constructor]].
Qed.

Lemma writeCommentary_flags phase message status detail (s : State) :
  let s' := writeCommentary phase message status detail s in
  recoveryTriggered s' = recoveryTriggered s /\
  recoverySucceeded s' = recoverySucceeded s /\
  pendingRecoveryReason s' = pendingRecoveryReason s.
Proof.
  unfold writeCommentary, writeData, reading, andThen, when, skip.
  destruct (isNone (firstCommentaryAt s)); cbn; repeat split.
Qed.

(** A recovery signal sets [recoveryTriggered] along with the pending
    reason. *)
Lemma mergeRecoverySignal_recovery (signal : RecoverySignal) :
  Preserves (RecoveryConsistent : State -> Prop) (mergeRecoverySignal signal).
Proof.
  intros s [H1 H2]. unfold mergeRecoverySignal. rewrite !andThen_apply.
  apply writeCommentary_recovery. split; [intros _; reflexivity | exact H2].
Qed.

(** The recovery is marked as succeeded only when a reason is pending. *)
Lemma closeRecovery_recovery :
  Preserves (RecoveryConsistent : State -> Prop)
    (reading pendingRecoveryReason (fun pending =>
       when (truthy pending)
         (set_recoverySucceeded true ;;
          writeCommentary recovery "Recovery finished successfully." recovered
            (Some recoveryFinishedDetail) ;;
          set_pendingRecoveryReason None ;;
          set_pendingRecoveryBackoffMs 0 ;;
          set_forceFinalizeRequested false))).
Proof.
  intros s H. pose proof H as [H1 H2]. unfold reading.
  case_eq (truthy (pendingRecoveryReason s)); intros E; [|exact H].
  cbn [when]. rewrite !andThen_apply.
  assert (Ht : recoveryTriggered s = true) by (apply H1; now left).
  pose proof (writeCommentary_recovery recovery "Recovery finished successfully."
                recovered (Some recoveryFinishedDetail)
                (set_recoverySucceeded true s)) as Hw.
  destruct (writeCommentary_flags recovery "Recovery finished successfully."
              recovered (Some recoveryFinishedDetail)
              (set_recoverySucceeded true s)) as (Ft & _ & _).
  cbv zeta in Ft.
  destruct Hw as [_ Hw2]; [split; [intros _; exact Ht | exact H2] |].
  revert Ft Hw2.
  generalize (writeCommentary recovery "Recovery finished successfully." recovered
                (Some recoveryFinishedDetail) (set_recoverySucceeded true s)).
  intros X Ft Hw2.
  split; [intros _; exact (eq_trans Ft Ht) | exact Hw2].
Qed.

Lemma emitRunCompletionEvents_recovery text model provider :
  Preserves (RecoveryConsistent : State -> Prop)
    (emitRunCompletionEvents text model provider).
Proof.
  intros s [H1 H2]. destruct (completionEmitted s) eqn:E.
  - rewrite emitRunCompletionEvents_again by exact E. now split.
  - unfold RecoveryConsistent, emitRunCompletionEvents, reading. rewrite E.
    unfold stopCommentaryHeartbeat, writeProgress, writeMessageAnnotation,
      writeData, reading, andThen, when, skip.
    destruct (commentaryHeartbeat s); cbn;
      (split; [exact H1|]);
      repeat rewrite <- app_assoc; cbn;
      (apply Forall_app; split; [exact H2|]);
      repeat constructor; cbn; intros Hsucc; apply H1; now right.
Qed.

#[local] Hint Resolve writeCommentary_recovery writeProgress_recovery
  mergeRecoverySignal_recovery emitRunCompletionEvents_recovery : run_steps.
#[local] Hint Extern 2 (Preserves RecoveryConsistent (writeData _)) =>
  (apply writeData_recovery; exact I) : run_steps.
#[local] Hint Extern 2 (Preserves RecoveryConsistent (writeMessageAnnotation _)) =>
  (apply writeData_recovery; exact I) : run_steps.
#[local] Hint Extern 2 (Preserves RecoveryConsistent (set_recoveryTriggered true)) =>
  (let s := fresh "s" in let H := fresh "H" in
   intros s H; split; [intros _; reflexivity | exact (proj2 H)]) : run_steps.

Lemma concludeRun_recovery text model provider :
  Preserves (RecoveryConsistent : State -> Prop) (concludeRun text model provider).
Proof.
  unfold concludeRun. apply preserves_andThen; [apply closeRecovery_recovery|].
  unfold stopRunMonitors, stopCommentaryHeartbeat. preserved.
Qed.

#[local] Hint Resolve concludeRun_recovery : run_steps.

Lemma perform_recovery (a : Action) :
  Preserves (RecoveryConsistent : State -> Prop) (perform a).
Proof.
  destruct a;
    unfold perform, beginRun, summaryStarts, summaryReturns, contextReturns,
      planningStarts, plannerProgress, plannerReturns, plannerThrows,
      startExecution, stopHeartbeatIfRunning, commentaryHeartbeatCallback,
      onTimeout, onStepFinish, onFinish, resumeFinalize, finalizeOnFinish,
      finalizeAfterPause, addUsage, markRunActivity,
      continueOrComplete,
      issueSegment, pushMessage, createStreamAbortSignal,
      startCommentaryHeartbeat, stopCommentaryHeartbeat, markRunActivity;
    preserved.
Qed.

(** X13. A run never reports a recovery as succeeded without having reported it
    as triggered: [recoverySucceeded] implies [recoveryTriggered] in every
    state a run can reach, a pending recovery reason implies
    [recoveryTriggered] too, and so does every run-metrics event written on
    the stream. *)
Theorem recovery_success_implies_trigger (messages : list Message) (s : State) :
  Reachable messages s ->
  (recoverySucceeded s = true -> recoveryTriggered s = true) /\
  (truthy (pendingRecoveryReason s) = true -> recoveryTriggered s = true) /\
  (forall m, In (run_metrics m) (written s) ->
             m_recoverySucceeded m = true -> m_recoveryTriggered m = true).
Proof.
  intros Hs.
  assert (H : RecoveryConsistent s).
  { apply (reachable_invariant RecoveryConsistent messages);
      [| apply perform_recovery | exact Hs].
    split; [intros [H | H]; discriminate | constructor]. }
  destruct H as [H1 H2]. repeat split.
  - intros H. apply H1. now right.
  - intros H. apply H1. now left.
  - intros m Hin. rewrite Forall_forall in H2. apply (H2 _ Hin).
Qed.

End RecoveryFlags.
Lemma recovery_success_implies_trigger_witness :
  recoverySucceeded completedState = true /\
  recoveryTriggered completedState = true.
Proof.
  destruct (recovery_success_implies_trigger
              (ext := exampleExternals 2 neverContinue) (req := exampleRequest)
              exampleMessages completedState) as (H & _ & _).
  - exists completedRun. reflexivity.
  - assert (E : recoverySucceeded completedState = true) by (vm_compute; reflexivity).
    split; [exact E | exact (H E)].
Defined.

Lemma timeline_orders_strictly_increase_witness :
  StronglySorted lt (eventOrders (written completedState)) /\
  NoDup (eventOrders (written completedState)) /\
  Forall (fun o => o < progressCounter completedState)
    (eventOrders (written completedState)).
Proof.
  apply (timeline_orders_strictly_increase
           (ext := exampleExternals 2 neverContinue) (req := exampleRequest)
           exampleMessages).
  exists completedRun. reflexivity.
Defined.

(** *** The end of a run *)

Section Closing.
Context {RC : Type} {ext : Externals RC} {req : Request}.

Local Abbreviation State := (@RunState RC).
Local Notation "f ;; g" := (andThen f g) (at level 62, right associativity).

Lemma emitRunCompletionEvents_closes text model provider (s : State) :
  commentaryHeartbeat s = false ->
  streamRecoveryMonitoring s = false ->
  activeStreamAbortController s = None ->
  truthy (pendingRecoveryReason s) = false ->
  RunIsClosed (emitRunCompletionEvents text model provider s).
Proof.
  intros Hh Hm Hc Hp. destruct (completionEmitted s) eqn:E.
  - rewrite emitRunCompletionEvents_again by exact E. repeat split; assumption.
  - unfold RunIsClosed, emitRunCompletionEvents, reading. rewrite E.
    unfold stopCommentaryHeartbeat, writeProgress, writeMessageAnnotation,
      writeData, reading, andThen, when, skip.
    rewrite Hh. cbn. repeat split; assumption.
Qed.

Lemma stopRunMonitors_effect (s : State) :
  commentaryHeartbeat (stopRunMonitors s) = false /\
  streamRecoveryMonitoring (stopRunMonitors s) = false /\
  activeStreamAbortController (stopRunMonitors s) = None /\
  pendingRecoveryReason (stopRunMonitors s) = pendingRecoveryReason s.
Proof.
  unfold stopRunMonitors, stopCommentaryHeartbeat, reading, andThen, when, skip.
  cbn. destruct (commentaryHeartbeat s) eqn:E; cbn; rewrite ?E; repeat split.
Qed.

(** X14. The statements that close a run leave nothing of it running: the
    completion batch is emitted, the heartbeat and the stream monitor are
    stopped, the abort controller is dropped and no recovery is pending.
    This holds of the finish of the forced final answer and of every
    finish that concludes the run. *)
Theorem concluded_run_is_closed text usage model provider (s : State) :
  RunIsClosed (concludeRun text model provider s) /\
  RunIsClosed (perform (FinalAnswerFinishes text usage model provider) s).
Proof.
  assert (H : forall s0 : State, RunIsClosed (concludeRun text model provider s0)).
  { intros s0. unfold concludeRun. rewrite !andThen_apply.
    match goal with
    | |- RunIsClosed (emitRunCompletionEvents _ _ _ (stopRunMonitors ?s2)) =>
        destruct (stopRunMonitors_effect s2) as (Hh & Hm & Hc & Hp);
        apply emitRunCompletionEvents_closes; try assumption; rewrite Hp
    end.
    unfold reading.
    match goal with
    | |- context [if ?b then _ else _] => destruct b
    end;
    match goal with
    | |- context [writeCommentary ?p ?m ?st ?d ?s1] =>
        destruct (writeCommentary_flags p m st d s1) as (_ & _ & ->)
    end;
    (destruct (truthy (pendingRecoveryReason s0)) eqn:E; [reflexivity | exact E]). }
  split; [apply H|]. cbn [perform]. unfold finalizeOnFinish.
  rewrite andThen_apply. apply H.
Qed.

End Closing.
(** *** Backend calls and the conversation *)

Section Conversation.
Context {RC : Type} {ext : Externals RC} {req : Request}.

Local Abbreviation State := (@RunState RC).
Local Notation "f ;; g" := (andThen f g) (at level 62, right associativity).

(** The variables the restarts are told by. *)
Local Abbreviation restartView :=
  (fun s : State =>
     (processedMessages s, segments s, forceFinalizeAttempted s, suspendedFinalize s)).

Lemma quad_eq {A B C D : Type} (a a' : A) (b b' : B) (c c' : C) (d d' : D) :
  (a, b, c, d) = (a', b', c', d') -> a = a' /\ b = b' /\ c = c' /\ d = d'.
Proof. intros H. now inversion H. Qed.

Lemma view_eq (s1 s2 : State) :
  restartView s1 = restartView s2 ->
  processedMessages s1 = processedMessages s2 /\
  segments s1 = segments s2 /\
  forceFinalizeAttempted s1 = forceFinalizeAttempted s2 /\
  suspendedFinalize s1 = suspendedFinalize s2.
Proof.
  intros H. repeat split.
  - exact (f_equal (fun v => fst (fst (fst v))) H).
  - exact (f_equal (fun v => snd (fst (fst v))) H).
  - exact (f_equal (fun v => snd (fst v)) H).
  - exact (f_equal snd H).
Qed.

Lemma flags_eq (s1 s2 : State) :
  (forceFinalizeAttempted s1, suspendedFinalize s1) =
  (forceFinalizeAttempted s2, suspendedFinalize s2) ->
  forceFinalizeAttempted s1 = forceFinalizeAttempted s2 /\
  suspendedFinalize s1 = suspendedFinalize s2.
Proof.
  intros H. split; [exact (f_equal fst H) | exact (f_equal snd H)].
Qed.

Lemma addUsage_view usage (s : State) : restartView (addUsage usage s) = restartView s.
Proof. destruct usage; reflexivity. Qed.

Lemma writeCommentary_view phase message status detail :
  Unchanged restartView (writeCommentary phase message status detail).
Proof. unfold_statements; unchanged. Qed.

Lemma concludeRun_view text model provider :
  Unchanged restartView (concludeRun text model provider).
Proof. unfold concludeRun, stopRunMonitors; unfold_statements; unchanged. Qed.

Lemma continueOrComplete_flags content finishReason model provider lastUserContent :
  Unchanged (fun s : State => (forceFinalizeAttempted s, suspendedFinalize s))
    (continueOrComplete content finishReason model provider lastUserContent).
Proof.
  unfold continueOrComplete, concludeRun, stopRunMonitors; unfold_statements;
    unchanged.
Qed.

Lemma finalizeAfterPause_flags content model provider :
  Unchanged (fun s : State => (forceFinalizeAttempted s, suspendedFinalize s))
    (finalizeAfterPause content model provider).
Proof. unfold finalizeAfterPause; unfold_statements; unchanged. Qed.

(** [onFinish] when a forced final answer is due: after the flag is set,
    either the recovery pause or the final answer at once. *)
Lemma onFinish_forces content finishReason usage (s : State) :
  consultsAnalyzer finishReason s = false ->
  forceFinalizeAttempted s = false /\
  onFinish content finishReason usage s =
  (if 0 <? pendingRecoveryBackoffMs s
   then
     writeCommentary recovery
       "I am taking a short recovery pause before the next step." warning
       (Some ("Key changes: A quick safety pause is in progress." ++ nl ++
              "Next: I will continue automatically right after this pause.")%string) ;;
     set_suspendedFinalize
       (Some {| sf_content := content; sf_model := ex_model (lastUser s);
                sf_provider := ex_provider (lastUser s) |})
   else finalizeAfterPause content (ex_model (lastUser s)) (ex_provider (lastUser s)))
    (set_forceFinalizeAttempted true (addUsage usage s)).
Proof.
  unfold consultsAnalyzer. intros H. apply negb_false_iff in H. split.
  { apply andb_true_iff in H as [_ H]. now apply negb_true_iff in H. }
  unfold onFinish, lastUser. rewrite andThen_apply. unfold reading.
  replace (forceFinalizeRequested (addUsage usage s))
    with (forceFinalizeRequested s) by (destruct usage; reflexivity).
  replace (forceFinalizeAttempted (addUsage usage s))
    with (forceFinalizeAttempted s) by (destruct usage; reflexivity).
  replace (pendingRecoveryBackoffMs (addUsage usage s))
    with (pendingRecoveryBackoffMs s) by (destruct usage; reflexivity).
  replace (processedMessages (addUsage usage s))
    with (processedMessages s) by (destruct usage; reflexivity).
  rewrite H. cbv iota. rewrite andThen_apply.
  now destruct (0 <? pendingRecoveryBackoffMs s).
Qed.

(** What one block of [execute] does to the conversation and to the
    list of backend calls: nothing; the first call; a restart with a
    continuation, recovery or continue directive; the start of the recovery
    pause before the forced final answer; the forced final answer. *)
Inductive RestartStep (s s' : State) : Prop :=
  | quiet_step :
      restartView s' = restartView s -> RestartStep s s'
  | first_call :
      processedMessages s' = processedMessages s ->
      segments s' =
        (segments s ++ [ {| seg_origin := initialSegment; seg_options := mainOptions;
                            seg_messages := processedMessages s |} ])%list ->
      forceFinalizeAttempted s' = forceFinalizeAttempted s ->
      suspendedFinalize s' = suspendedFinalize s ->
      RestartStep s s'
  | restart_step origin content directive :
      sameOrigin origin initialSegment = false ->
      sameOrigin origin finalizeSegment = false ->
      processedMessages s' =
        (processedMessages s ++ restartMessages s content directive)%list ->
      segments s' =
        (segments s ++ [ {| seg_origin := origin; seg_options := mainOptions;
                            seg_messages := processedMessages s' |} ])%list ->
      forceFinalizeAttempted s' = forceFinalizeAttempted s ->
      suspendedFinalize s' = suspendedFinalize s ->
      RestartStep s s'
  | pause_step suspended :
      processedMessages s' = processedMessages s ->
      segments s' = segments s ->
      forceFinalizeAttempted s = false ->
      forceFinalizeAttempted s' = true ->
      suspendedFinalize s' = Some suspended ->
      RestartStep s s'
  | finalize_step options content directive :
      processedMessages s' =
        (processedMessages s ++ restartMessages s content directive)%list ->
      segments s' =
        (segments s ++ [ {| seg_origin := finalizeSegment; seg_options := options;
                            seg_messages := processedMessages s' |} ])%list ->
      (forceFinalizeAttempted s = false /\ forceFinalizeAttempted s' = true /\
       suspendedFinalize s' = suspendedFinalize s) \/
      (suspendedFinalize s <> None /\ suspendedFinalize s' = None /\
       forceFinalizeAttempted s' = forceFinalizeAttempted s) ->
      RestartStep s s'.

Lemma onFinish_restart_step content finishReason usage (s : State) :
  RestartStep s (onFinish content finishReason usage s).
Proof.
  destruct (view_eq _ _ (addUsage_view usage s)) as (Um & Useg & Ua & Us).
  destruct (addUsage_frame usage s) as (_ & _ & _ & Ug & _).
  destruct (consultsAnalyzer finishReason s) eqn:Hconsult.
  - rewrite (onFinish_consults _ _ _ _ Hconsult).
    destruct (flags_eq _ _ (continueOrComplete_flags content finishReason
                  (ex_model (lastUser s)) (ex_provider (lastUser s))
                  (ex_content (lastUser s)) (addUsage usage s))) as (Fa & Fs).
    rewrite Ua in Fa. rewrite Us in Fs.
    destruct (continueOrComplete_cases content finishReason
                (ex_model (lastUser s)) (ex_provider (lastUser s))
                (ex_content (lastUser s)) (addUsage usage s))
      as [(origin & directive & _ & Hm & Hseg & Hwhich) | [(_ & E) | (_ & _ & E)]].
    + rewrite Um in Hm. rewrite Useg in Hseg.
      rewrite (restartMessages_ids _ s _ _ Ug) in Hm.
      apply (restart_step _ _ origin content directive); try assumption;
        destruct Hwhich as [(-> & _) | [(-> & _) | (-> & _)]]; reflexivity.
    + apply quiet_step. rewrite E, concludeRun_view. apply addUsage_view.
    + apply quiet_step. rewrite E. apply addUsage_view.
  - destruct (onFinish_forces content finishReason usage s Hconsult) as [Hatt ->].
    destruct (0 <? pendingRecoveryBackoffMs s).
    + rewrite andThen_apply.
      match goal with
      | |- RestartStep _ (set_suspendedFinalize (Some ?f) (writeCommentary ?p ?m ?st ?d ?s0)) =>
          destruct (view_eq _ _ (writeCommentary_view p m st d s0))
            as (Wm & Wseg & Wa & _);
          apply (pause_step _ _ f)
      end; cbn [processedMessages segments forceFinalizeAttempted suspendedFinalize
                set_suspendedFinalize];
        rewrite ?Wm, ?Wseg, ?Wa; cbn [processedMessages segments forceFinalizeAttempted
                                       set_forceFinalizeAttempted];
        auto.
    + destruct (finalizeAfterPause_effect content (ex_model (lastUser s))
                  (ex_provider (lastUser s))
                  (set_forceFinalizeAttempted true (addUsage usage s)))
        as (directive & Hm & Hseg).
      destruct (flags_eq _ _ (finalizeAfterPause_flags content (ex_model (lastUser s))
                    (ex_provider (lastUser s))
                    (set_forceFinalizeAttempted true (addUsage usage s)))) as (Fa & Fs).
      cbn [processedMessages segments forceFinalizeAttempted suspendedFinalize
           set_forceFinalizeAttempted] in Hm, Hseg, Fa, Fs.
      rewrite Um in Hm. rewrite Useg in Hseg. rewrite Us in Fs.
      rewrite (restartMessages_ids _ s _ _) in Hm by (cbn; exact Ug).
      eapply finalize_step; [exact Hm | exact Hseg | left; auto].
Qed.

Lemma resumeFinalize_restart_step (s : State) : RestartStep s (resumeFinalize s).
Proof.
  unfold resumeFinalize, reading.
  destruct (suspendedFinalize s) as [f|] eqn:E; [|now apply quiet_step].
  rewrite andThen_apply.
  destruct (finalizeAfterPause_effect (sf_content f) (sf_model f) (sf_provider f)
              (set_suspendedFinalize None s)) as (directive & Hm & Hseg).
  destruct (flags_eq _ _ (finalizeAfterPause_flags (sf_content f) (sf_model f)
                            (sf_provider f) (set_suspendedFinalize None s))) as (Fa & Fs).
  cbn [processedMessages segments forceFinalizeAttempted suspendedFinalize
       set_suspendedFinalize] in Hm, Hseg, Fa, Fs.
  rewrite (restartMessages_ids _ s _ _) in Hm by reflexivity.
  eapply finalize_step; [exact Hm | exact Hseg |].
  right. rewrite E. repeat split; [discriminate | exact Fs | exact Fa].
Qed.

Lemma writeProgress_view label status message :
  Unchanged restartView (writeProgress label status message).
Proof. unfold_statements; unchanged. Qed.

Lemma issueSegment_view origin options (s : State) :
  restartView (issueSegment origin options s) =
  (processedMessages s,
   (segments s ++ [ {| seg_origin := origin; seg_options := options;
                       seg_messages := processedMessages s |} ])%list,
   forceFinalizeAttempted s, suspendedFinalize s).
Proof. reflexivity. Qed.

Lemma startExecution_restart_step (s : State) : RestartStep s (startExecution s).
Proof.
  unfold startExecution. rewrite !andThen_apply.
  match goal with
  | |- RestartStep _ (issueSegment ?o ?opt (writeCommentary ?p ?m ?st ?d (writeProgress ?l ?ps ?pm s))) =>
      pose proof (writeProgress_view l ps pm s) as P;
      set (s1 := writeProgress l ps pm s) in *;
      pose proof (writeCommentary_view p m st d s1) as W;
      set (s2 := writeCommentary p m st d s1) in *;
      pose proof (issueSegment_view o opt s2) as V;
      set (s3 := issueSegment o opt s2) in *
  end.
  clearbody s3 s2 s1.
  destruct (view_eq _ _ P) as (Pm & Pseg & Pa & Ps).
  destruct (view_eq _ _ W) as (Wm & Wseg & Wa & Ws).
  destruct (quad_eq _ _ _ _ _ _ _ _ V) as (Vm & Vseg & Va & Vs).
  apply first_call; congruence.
Qed.

Lemma perform_restart_step (a : Action) (s : State) : RestartStep s (perform a s).
Proof.
  destruct a;
    lazymatch goal with
    | |- RestartStep s (perform StartExecution s) => apply startExecution_restart_step
    | |- RestartStep s (perform (SegmentFinishes _ _ _) s) => apply onFinish_restart_step
    | |- RestartStep s (perform PauseEnds s) => apply resumeFinalize_restart_step
    | |- RestartStep s (perform ?a s) =>
        assert (U : Unchanged restartView (perform a))
          by (unfold_handlers; unfold_statements; unchanged);
        apply quiet_step; exact (U s)
    end.
Qed.

Lemma restarts_app (l1 l2 : list Segment) :
  restarts (l1 ++ l2) = restarts l1 + restarts l2.
Proof. unfold restarts. now rewrite filter_app, length_app. Qed.

Lemma lastSegment_snoc (l : list Segment) (seg : Segment) :
  lastSegment (l ++ [seg]) = Some seg.
Proof. unfold lastSegment. rewrite map_app. cbn [map]. now rewrite last_last. Qed.

Lemma syntheticPairs_app (l p : list Message) :
  syntheticPairs l = true -> syntheticPairs p = true ->
  syntheticPairs (l ++ p) = true.
Proof.
  revert l. fix IH 1. intros [|a [|u r]] Hl Hp; cbn in *; try discriminate.
  - exact Hp.
  - apply andb_true_iff in Hl as [Hau Hr]. rewrite Hau. cbn. now apply IH.
Qed.

Lemma restart_step_finalize (s s' : State) :
  RestartStep s s' -> FinalizeOnce s -> FinalizeOnce s'.
Proof.
  unfold FinalizeOnce.
  intros [ V | Hm Hseg Ha Hs | origin content directive _ Ho Hm Hseg Ha Hs
         | f Hm Hseg Ha Ha' Hs | options content directive Hm Hseg Hw ] H.
  - destruct (view_eq _ _ V) as (_ & -> & -> & ->). exact H.
  - rewrite Hseg, Ha, Hs, countSegments_app. unfold countSegments at 2. cbn. lia.
  - rewrite Hseg, Ha, Hs, countSegments_app. unfold countSegments at 2. cbn.
    rewrite Ho. cbn. lia.
  - rewrite Hseg, Ha', Hs. rewrite Ha in H. cbn.
    destruct (isNone (suspendedFinalize s)); lia.
  - rewrite Hseg, countSegments_app. unfold countSegments at 2. cbn.
    destruct Hw as [(Ha & -> & ->) | (Hs & -> & ->)].
    + rewrite Ha in H. destruct (isNone (suspendedFinalize s)); lia.
    + destruct (suspendedFinalize s); [|contradiction]. cbn in *.
      destruct (forceFinalizeAttempted s); lia.
Qed.

Lemma restart_step_conversation (messages : list Message) (s s' : State) :
  RestartStep s s' ->
  ConversationAppendOnly messages s -> ConversationAppendOnly messages s'.
Proof.
  assert (Grow : forall origin options content directive,
             sameOrigin origin initialSegment = false ->
             processedMessages s' =
               (processedMessages s ++ restartMessages s content directive)%list ->
             segments s' =
               (segments s ++ [ {| seg_origin := origin; seg_options := options;
                                   seg_messages := processedMessages s' |} ])%list ->
             ConversationAppendOnly messages s ->
             ConversationAppendOnly messages s').
  { intros origin options content directive Ho Hm Hseg (synthetic & E & Hp & Hl & _).
    exists (synthetic ++ restartMessages s content directive)%list.
    rewrite Hseg, lastSegment_snoc, restarts_app, length_app.
    unfold restarts at 2. cbn [filter seg_origin]. rewrite Ho. cbn [negb List.length].
    repeat split.
    - now rewrite Hm, E, app_assoc.
    - apply syntheticPairs_app; [exact Hp | reflexivity].
    - cbn [restartMessages List.length]. lia. }
  intros [ V | Hm Hseg _ _ | origin content directive Ho _ Hm Hseg _ _
         | f Hm Hseg _ _ _ | options content directive Hm Hseg _ ] H.
  - destruct (view_eq _ _ V) as (Vm & Vseg & _).
    unfold ConversationAppendOnly. rewrite Vm, Vseg. exact H.
  - destruct H as (synthetic & E & Hp & Hl & _). exists synthetic.
    rewrite Hseg, lastSegment_snoc, restarts_app, Hm.
    unfold restarts at 2. cbn. repeat split; auto. lia.
  - now apply (Grow origin mainOptions content directive).
  - unfold ConversationAppendOnly. rewrite Hm, Hseg. exact H.
  - now apply (Grow finalizeSegment options content directive).
Qed.

(** X15. The orchestrator never drops or rewrites a message of the conversation:
    in every state a run can reach, [processedMessages] is the client's
    messages followed by assistant/user pairs, one pair for each backend
    call after the first, and the latest backend call was issued with the
    whole conversation. *)
Theorem conversation_is_append_only (messages : list Message) (s : State) :
  Reachable messages s ->
  exists synthetic,
    processedMessages s = (messages ++ synthetic)%list /\
    syntheticPairs synthetic = true /\
    List.length synthetic = 2 * restarts (segments s) /\
    match lastSegment (segments s) with
    | Some seg => seg_messages seg = processedMessages s
    | None => synthetic = []
    end.
Proof.
  apply (reachable_invariant (ConversationAppendOnly messages) messages).
  - exists []. cbn. now rewrite app_nil_r.
  - intros a s0. apply restart_step_conversation, perform_restart_step.
Qed.

(** X16. The forced final answer is issued at most once in a run, and only
    after [forceFinalizeAttempted] has been set: the final-answer segments
    issued, plus one while its recovery pause is running, are one if the
    flag is set and none otherwise. *)
Theorem forced_final_answer_at_most_once (messages : list Message) (s : State) :
  Reachable messages s ->
  countSegments finalizeSegment (segments s) <= 1 /\
  countSegments finalizeSegment (segments s) +
    (if isNone (suspendedFinalize s) then 0 else 1) =
    (if forceFinalizeAttempted s then 1 else 0).
Proof.
  intros Hs.
  assert (H : FinalizeOnce s).
  { apply (reachable_invariant FinalizeOnce messages); [reflexivity | | exact Hs].
    intros a s0. apply restart_step_finalize, perform_restart_step. }
  split; [|exact H]. unfold FinalizeOnce in H.
  destruct (forceFinalizeAttempted s); lia.
Qed.

End Conversation.

Lemma conversation_is_append_only_witness :
  exists synthetic,
    processedMessages (lengthState 3) = (exampleMessages ++ synthetic)%list /\
    syntheticPairs synthetic = true /\
    List.length synthetic = 2 * restarts (segments (lengthState 3)) /\
    match lastSegment (segments (lengthState 3)) with
    | Some seg => seg_messages seg = processedMessages (lengthState 3)
    | None => synthetic = []
    end.
Proof.
  apply (conversation_is_append_only
           (ext := exampleExternals 2 neverContinue) (req := exampleRequest)).
  exists (lengthRun 3). reflexivity.
Defined.

Lemma forced_final_answer_at_most_once_witness :
  countSegments finalizeSegment (segments finalizedState) <= 1 /\
  countSegments finalizeSegment (segments finalizedState) +
    (if isNone (suspendedFinalize finalizedState) then 0 else 1) =
    (if forceFinalizeAttempted finalizedState then 1 else 0).
Proof.
  apply (forced_final_answer_at_most_once
           (ext := exampleExternals 2 neverContinue) (req := exampleRequest)
           exampleMessages).
  exists finalizedRun. reflexivity.
Defined.

Example finalized_run_segments :
  map seg_origin (segments finalizedState) = [initialSegment; finalizeSegment] /\
  forceFinalizeAttempted finalizedState = true /\
  completionEmitted finalizedState = true /\
  List.length (processedMessages finalizedState) = 3.
Proof. vm_compute. repeat split. Qed.

(** *** Boolean settings of the environment *)

(** X17. [parseBooleanEnv] reads a setting without regard to the white space
    around it and to the case of its letters, and it falls back on the
    default only for a value it does not recognise: a recognised value
    gives the same answer whatever the default is. *)
Theorem parseBooleanEnv_ignores_case_and_padding (v : string) (fallback : bool) :
  parseBooleanEnv (Some (JsString.trim v)) fallback = parseBooleanEnv (Some v) fallback /\
  parseBooleanEnv (Some (JsString.toLowerCase v)) fallback =
    parseBooleanEnv (Some v) fallback /\
  (parseBooleanEnv (Some v) true = parseBooleanEnv (Some v) false \/
   forall b, parseBooleanEnv (Some v) b = b).
Proof.
  unfold parseBooleanEnv. cbv zeta. repeat split.
  - now rewrite CredentialsMoreFacts.trim_idempotent.
  - now rewrite CredentialsMoreFacts.trim_toLowerCase,
      CredentialsMoreFacts.toLowerCase_idempotent.
  - destruct (existsb _ ["1"; "true"; "yes"; "on"]); [now left|].
    destruct (existsb _ ["0"; "false"; "no"; "off"]); [now left|].
    right. reflexivity.
Qed.

Example parseBooleanEnv_values :
  map (fun v => parseBooleanEnv v false)
      [Some " TRUE "; Some "On"; Some "1"; Some "yes"; Some "enabled"; Some ""; None]
    = [true; true; true; true; false; false; false] /\
  map (fun v => parseBooleanEnv v true)
      [Some " Off"; Some "FALSE"; Some "0"; Some "no "; Some "disabled"; None]
    = [false; false; false; false; true; true].
Proof. split; reflexivity. Qed.

End ChatMoreFacts.

(* ===================================================================== *)
(** ** Cookie helpers *)
(* ===================================================================== *)

Module CookiesFacts.
Import JsString JsStringFacts Credentials CredentialsMoreFacts Cookies.

Lemma split_not_nil (sep : ascii) (s : string) : split sep s <> [].
Proof.
  induction s as [|c s IH]; simpl; [discriminate|].
  destruct (Ascii.eqb c sep); [discriminate|].
  destruct (split sep s); [contradiction | discriminate].
Qed.

Lemma split_without (sep : ascii) (s : string) :
  allChars (fun c => negb (Ascii.eqb c sep)) s = true -> split sep s = [s].
Proof.
  induction s as [|c s IH]; simpl; [reflexivity|].
  intros H. apply andb_true_iff in H as [Hc Hs].
  apply negb_true_iff in Hc. rewrite Hc, (IH Hs). reflexivity.
Qed.

Lemma split_app (sep : ascii) (a b : string) :
  allChars (fun c => negb (Ascii.eqb c sep)) a = true ->
  split sep (a ++ String sep b) = a :: split sep b.
Proof.
  induction a as [|c a IH]; simpl.
  - intros _. now rewrite Ascii.eqb_refl.
  - intros H. apply andb_true_iff in H as [Hc Ha].
    apply negb_true_iff in Hc. rewrite Hc, (IH Ha). reflexivity.
Qed.

Lemma joinWith_cons (sep x y : string) (r : list string) :
  Chat.joinWith sep (x :: y :: r) = (x ++ sep ++ Chat.joinWith sep (y :: r))%string.
Proof. reflexivity. Qed.

(** Joining the pieces of a split with the separator gives the string
    back. *)
Lemma join_split (sep : ascii) (s : string) :
  Chat.joinWith (String sep EmptyString) (split sep s) = s.
Proof.
  induction s as [|c s IH]; simpl; [reflexivity|].
  pose proof (split_not_nil sep s) as N.
  destruct (split sep s) as [|p ps]; [contradiction|].
  destruct (Ascii.eqb c sep) eqn:E.
  - apply Ascii.eqb_eq in E. subst c.
    rewrite joinWith_cons, IH. reflexivity.
  - destruct ps as [|q qs].
    + cbn in IH |- *. now rewrite IH.
    + rewrite joinWith_cons. rewrite joinWith_cons in IH.
      change (String c p ++ String sep "" ++ Chat.joinWith (String sep "") (q :: qs))%string
        with (String c (p ++ String sep "" ++ Chat.joinWith (String sep "") (q :: qs)))%string.
      now rewrite IH.
Qed.

(** *** Trimming the items of a header *)

Lemma trimmed_parts (s : string) :
  trim s = s -> trimStart s = s /\ trimEnd s = s.
Proof.
  intros H. pose proof (trim_head s) as Hh. rewrite H in Hh.
  assert (Hs : trimStart s = s).
  { destruct s as [|c r]; [reflexivity|]. simpl. now rewrite Hh. }
  split; [exact Hs|]. unfold trim in H. now rewrite Hs in H.
Qed.

Lemma trimEnd_append (a b : string) :
  trimEnd b <> EmptyString -> trimEnd (a ++ b) = (a ++ trimEnd b)%string.
Proof.
  intros Hb. induction a as [|c a IH]; simpl; [reflexivity|].
  rewrite IH. destruct (a ++ trimEnd b)%string eqn:E; [|reflexivity].
  destruct a; simpl in E; [contradiction | discriminate].
Qed.

Lemma trimStart_padding (pad x : string) :
  allChars isWhiteSpace pad = true -> trimStart (pad ++ x) = trimStart x.
Proof.
  induction pad as [|c pad IH]; simpl; [reflexivity|].
  intros H. apply andb_true_iff in H as [-> H]. now apply IH.
Qed.

Lemma allChars_append (p : ascii -> bool) (a b : string) :
  allChars p (a ++ b) = allChars p a && allChars p b.
Proof.
  induction a as [|c a IH]; simpl; [reflexivity|].
  now rewrite IH, andb_assoc.
Qed.

Lemma isCookieText_inv (s : string) :
  isCookieText s = true ->
  allChars (fun c => negb (Ascii.eqb c ";")) s = true /\ trim s = s.
Proof.
  unfold isCookieText. intros H. apply andb_true_iff in H as [H1 H2].
  now apply String.eqb_eq in H2.
Qed.

Lemma isCookieName_inv (s : string) :
  isCookieName s = true ->
  isCookieText s = true /\ s <> EmptyString /\
  allChars (fun c => negb (Ascii.eqb c "=")) s = true.
Proof.
  unfold isCookieName. intros H. apply andb_true_iff in H as [H H3].
  apply andb_true_iff in H as [H1 H2].
  apply negb_true_iff, String.eqb_neq in H2. auto.
Qed.

(** An item [name=value] of a header has no semicolon and nothing to
    trim. *)
Lemma cookieItem_text (pair : string * string) :
  isCookieName (fst pair) = true -> isCookieText (snd pair) = true ->
  allChars (fun c => negb (Ascii.eqb c ";")) (cookieItem pair) = true /\
  trim (cookieItem pair) = cookieItem pair.
Proof.
  destruct pair as [k v]. cbn [fst snd]. intros Hk Hv.
  apply isCookieName_inv in Hk as (Hk & Hne & _).
  apply isCookieText_inv in Hk as (Hk1 & Hk2).
  apply isCookieText_inv in Hv as (Hv1 & Hv2).
  unfold cookieItem. cbn [fst snd]. split.
  - rewrite allChars_append, Hk1. cbn. exact Hv1.
  - destruct (trimmed_parts v Hv2) as (_ & Ve).
    pose proof (trim_head k) as Hh. rewrite Hk2 in Hh.
    destruct k as [|c r]; [contradiction|].
    unfold trim.
    replace (trimStart (String c r ++ "=" ++ v))
      with (String c r ++ "=" ++ v)%string by (simpl; now rewrite Hh).
    rewrite trimEnd_append.
    + f_equal. simpl. rewrite Ve. now destruct v.
    + simpl. rewrite Ve. destruct v; discriminate.
Qed.

Lemma whitespace_not_semicolon (pad : string) :
  allChars isWhiteSpace pad = true ->
  allChars (fun c => negb (Ascii.eqb c ";")) pad = true.
Proof.
  induction pad as [|c pad IH]; simpl; [reflexivity|].
  intros H. apply andb_true_iff in H as [Hc H]. rewrite (IH H), andb_true_r.
  destruct c as [[] [] [] [] [] [] [] []]; try reflexivity; discriminate.
Qed.

Lemma trim_padded_item (pad : string) (pair : string * string) :
  allChars isWhiteSpace pad = true ->
  isCookieName (fst pair) = true -> isCookieText (snd pair) = true ->
  trim (pad ++ cookieItem pair) = cookieItem pair.
Proof.
  intros Hpad Hk Hv. destruct (cookieItem_text pair Hk Hv) as [_ Ht].
  unfold trim in *. now rewrite trimStart_padding.
Qed.

Lemma cookieHeaderOf_cons (p q : string * string) (r : list (string * string)) :
  cookieHeaderOf (p :: q :: r) =
  (cookieItem p ++ String ";" (" " ++ cookieHeaderOf (q :: r)))%string.
Proof. reflexivity. Qed.

(** Splitting a header at the semicolons and trimming the pieces gives its
    items back. *)
Lemma items_of_header (pairs : list (string * string)) :
  pairs <> [] ->
  Forall (fun p => isCookieName (fst p) = true /\ isCookieText (snd p) = true) pairs ->
  forall pad,
    allChars isWhiteSpace pad = true ->
    map trim (split ";" (pad ++ cookieHeaderOf pairs)) = map cookieItem pairs.
Proof.
  induction pairs as [|p ps IH]; [contradiction|].
  intros _ Hall pad Hpad. inversion Hall as [|? ? [Hk Hv] Hps]; subst.
  destruct (cookieItem_text p Hk Hv) as [Hsemi _].
  destruct ps as [|q qs].
  - change (cookieHeaderOf [p]) with (cookieItem p).
    rewrite split_without.
    + cbn [map]. now rewrite trim_padded_item.
    + now rewrite allChars_append, whitespace_not_semicolon, Hsemi.
  - rewrite cookieHeaderOf_cons, <- append_assoc, split_app.
    + cbn [map]. rewrite trim_padded_item by assumption. f_equal.
      apply IH; [discriminate | exact Hps | reflexivity].
    + now rewrite allChars_append, whitespace_not_semicolon, Hsemi.
Qed.

Lemma cookieHeaderOf_not_empty (p : string * string) (ps : list (string * string)) :
  fst p <> EmptyString -> cookieHeaderOf (p :: ps) <> EmptyString.
Proof.
  intros Hk. destruct ps as [|q qs].
  - change (cookieHeaderOf [p]) with (cookieItem p). unfold cookieItem.
    destruct (fst p); [contradiction | discriminate].
  - rewrite cookieHeaderOf_cons. unfold cookieItem.
    destruct (fst p); [contradiction | discriminate].
Qed.

Section WithHost.
Variable decodeURIComponent : string -> option string.
Variable parseEntries : string -> option (list (string * JsValue)).

Local Abbreviation storeItem := (storeItem decodeURIComponent).
Local Abbreviation storeItemChat := (storeItemChat decodeURIComponent).
Local Abbreviation parseCookies := (parseCookies decodeURIComponent).
Local Abbreviation parseCookiesChat := (parseCookiesChat decodeURIComponent).
Local Abbreviation getApiKeysFromCookie :=
  (getApiKeysFromCookie decodeURIComponent parseEntries).

(** Both loops store the decoded name and value of an item [name=value];
    the [=] characters of the value are kept. *)
Lemma storeItem_pair (cookies : JsRecord) (p d : string * string) :
  isCookieName (fst p) = true -> isCookieText (snd p) = true ->
  decodeURIComponent (fst p) = Some (fst d) ->
  decodeURIComponent (snd p) = Some (snd d) ->
  storeItem cookies (cookieItem p) = Some (recordSet (fst d) (snd d) cookies) /\
  storeItemChat cookies (cookieItem p) = Some (recordSet (fst d) (snd d) cookies).
Proof.
  intros Hk Hv Dk Dv.
  apply isCookieName_inv in Hk as (Hk & Hne & Heq).
  apply isCookieText_inv in Hk as (_ & Hk).
  apply isCookieText_inv in Hv as (_ & Hv).
  unfold Cookies.storeItem, Cookies.storeItemChat, cookieItem.
  change (fst p ++ "=" ++ snd p)%string with (fst p ++ String "=" (snd p))%string.
  rewrite (split_app "=" _ _ Heq).
  apply String.eqb_neq in Hne. rewrite Hne. cbn [negb andb].
  pose proof (split_not_nil "=" (snd p)) as N.
  assert (L : (0 <? List.length (split "=" (snd p))) = true).
  { destruct (split "=" (snd p)); [contradiction | reflexivity]. }
  rewrite L, Hk, Dk.
  change "="%string with (String "=" EmptyString).
  now rewrite join_split, Hv, Dv.
Qed.

Lemma forEach_pairs (body : JsRecord -> string -> option JsRecord)
    (pairs decoded : list (string * string)) :
  (forall cookies p d,
      isCookieName (fst p) = true /\ isCookieText (snd p) = true ->
      decodeURIComponent (fst p) = Some (fst d) /\
      decodeURIComponent (snd p) = Some (snd d) ->
      body cookies (cookieItem p) = Some (recordSet (fst d) (snd d) cookies)) ->
  Forall (fun p => isCookieName (fst p) = true /\ isCookieText (snd p) = true) pairs ->
  Forall2 (fun p d => decodeURIComponent (fst p) = Some (fst d) /\
                      decodeURIComponent (snd p) = Some (snd d)) pairs decoded ->
  forall cookies,
    forEach body (map cookieItem pairs) cookies =
    Some (fold_left (fun record d => recordSet (fst d) (snd d) record) decoded cookies).
Proof.
  intros Hbody Hall Hdec. induction Hdec as [|p d ps ds Hpd _ IH]; intros cookies.
  - reflexivity.
  - inversion Hall as [|? ? Hp Hps]; subst.
    cbn [map forEach fold_left]. rewrite (Hbody cookies p d Hp Hpd).
    now apply IH.
Qed.

(** X18. Round trip. For a [Cookie] header made of [name=value] items separated
    by [; ], the names without [=], both parsers return the record that
    results from assigning the decoded values to the decoded names in the
    order of the header: a value keeps its [=] characters, and of two items
    with the same name the later one wins. *)
Theorem parseCookies_reads_header (pairs decoded : list (string * string)) :
  Forall (fun p => isCookieName (fst p) = true /\ isCookieText (snd p) = true) pairs ->
  Forall2 (fun p d => decodeURIComponent (fst p) = Some (fst d) /\
                      decodeURIComponent (snd p) = Some (snd d)) pairs decoded ->
  parseCookies (Some (cookieHeaderOf pairs)) =
    Some (fold_left (fun record d => recordSet (fst d) (snd d) record) decoded []) /\
  parseCookiesChat (cookieHeaderOf pairs) =
    Some (fold_left (fun record d => recordSet (fst d) (snd d) record) decoded []).
Proof.
  intros Hall Hdec. destruct pairs as [|p ps].
  - inversion Hdec; subst. split; reflexivity.
  - assert (Hne : cookieHeaderOf (p :: ps) <> EmptyString).
    { apply cookieHeaderOf_not_empty. inversion Hall as [|? ? [Hk _] _]; subst.
      now apply isCookieName_inv in Hk as (_ & Hk & _). }
    unfold Cookies.parseCookies, Cookies.parseCookiesChat.
    apply String.eqb_neq in Hne. rewrite Hne.
    pose proof (items_of_header (p :: ps)) as Hitems.
    specialize (Hitems ltac:(discriminate) Hall EmptyString eq_refl).
    cbn [append] in Hitems. rewrite Hitems. split.
    + apply forEach_pairs; try assumption.
      intros cookies q d [Hk Hv] [Dk Dv]. now apply storeItem_pair.
    + apply forEach_pairs; try assumption.
      intros cookies q d [Hk Hv] [Dk Dv]. now apply storeItem_pair.
Qed.

(** X19. An item without [=]: cookies.ts leaves it out, the copy in api.chat.ts
    stores its name with the decoding of the empty string as value. *)
Theorem cookie_without_value (name decodedName decodedEmpty : string) :
  isCookieName name = true ->
  decodeURIComponent name = Some decodedName ->
  decodeURIComponent EmptyString = Some decodedEmpty ->
  parseCookies (Some name) = Some [] /\
  parseCookiesChat name = Some (recordSet decodedName decodedEmpty []).
Proof.
  intros Hname Dn De.
  apply isCookieName_inv in Hname as (Ht & Hne & Heq).
  apply isCookieText_inv in Ht as (Hsemi & Ht).
  unfold Cookies.parseCookies, Cookies.parseCookiesChat.
  apply String.eqb_neq in Hne. rewrite Hne, (split_without ";" name Hsemi).
  cbn [map forEach]. rewrite Ht.
  unfold Cookies.storeItem, Cookies.storeItemChat.
  rewrite (split_without "=" name Heq), Hne. cbn [negb andb List.length Nat.ltb Nat.leb].
  cbn [Chat.joinWith]. rewrite Ht, Dn.
  change (trim EmptyString) with EmptyString. rewrite De. split; reflexivity.
Qed.

(** *** API keys *)

Lemma recordGet_recordSet (key key' value value' : string) (record : JsRecord) :
  recordGet key (recordSet key' value' record) = Some value ->
  value = value' \/ recordGet key record = Some value.
Proof.
  unfold recordGet, recordSet. destruct (String.eqb key' "__proto__"); [now right|].
  induction record as [|[k v] record IH]; simpl.
  - destruct (String.eqb key key'); [intros [= <-]; now left | discriminate].
  - destruct (String.eqb key' k) eqn:E; simpl.
    + destruct (String.eqb key key') eqn:E'; [intros [= <-]; now left|].
      apply String.eqb_eq in E. subst k. rewrite E'. now right.
    + destruct (String.eqb key k); [now right | exact IH].
Qed.

Lemma normalizeCredential_inv (v : JsValue) (t : string) :
  normalizeCredential v = Some t ->
  exists s, v = JsString s /\ t = trim s /\ t <> EmptyString /\
            isPlaceholderCredential t = false.
Proof.
  destruct v as [| |b|z|s]; simpl; try discriminate.
  destruct (String.length (trim s) =? 0) eqn:E0; simpl; [discriminate|].
  destruct (isPlaceholderCredential (trim s)) eqn:E1; [discriminate|].
  intros [= <-]. exists s. repeat split; auto.
  intros H. apply length_zero_iff in H. congruence.
Qed.

Lemma keepCredential_normal (entries : list (string * JsValue)) :
  forall record : JsRecord,
    (forall k v, recordGet k record = Some v ->
                 v <> EmptyString /\ trim v = v /\ isPlaceholderCredential v = false) ->
    forall k v, recordGet k (fold_left keepCredential entries record) = Some v ->
                v <> EmptyString /\ trim v = v /\ isPlaceholderCredential v = false.
Proof.
  induction entries as [|[name raw] entries IH]; intros record Hrec; [exact Hrec|].
  cbn [fold_left]. apply IH. intros k v. unfold keepCredential. cbn [fst snd].
  destruct (normalizeCredential raw) as [credential|] eqn:E; [|apply (Hrec k)].
  destruct (String.eqb credential EmptyString); [apply (Hrec k)|].
  intros H. apply recordGet_recordSet in H as [-> | H]; [|now apply (Hrec k)].
  apply normalizeCredential_inv in E as (s & _ & -> & Hne & Hp).
  repeat split; [exact Hne | apply trim_idempotent | exact Hp].
Qed.

(** X20. Every API key that [getApiKeysFromCookie] returns has passed
    [normalizeCredential]: it is not empty, carries no white space at
    either end and is not a placeholder, whatever the cookie holds and
    whatever its JSON parses to; a cookie that fails to parse gives the
    empty record. *)
Theorem api_keys_from_cookie_are_normalized
    (cookieHeader : option string) (keys : JsRecord) (provider credential : string) :
  getApiKeysFromCookie cookieHeader = Some keys ->
  recordGet provider keys = Some credential ->
  credential <> EmptyString /\ trim credential = credential /\
  isPlaceholderCredential credential = false /\
  normalizeCredential (JsString credential) = Some credential.
Proof.
  unfold Cookies.getApiKeysFromCookie. intros Hkeys Hget.
  assert (H : credential <> EmptyString /\ trim credential = credential /\
              isPlaceholderCredential credential = false).
  { destruct (Cookies.parseCookies decodeURIComponent cookieHeader) as [cookies|];
      [|discriminate].
    destruct (recordGet "apiKeys" cookies) as [apiKeys|];
      [|injection Hkeys as <-; discriminate].
    destruct (String.eqb apiKeys EmptyString); [injection Hkeys as <-; discriminate|].
    destruct (parseEntries apiKeys) as [entries|];
      [|injection Hkeys as <-; discriminate].
    injection Hkeys as <-.
    apply (keepCredential_normal entries []) with (k := provider);
      [intros k v H; discriminate | exact Hget]. }
  destruct H as (Hne & Ht & Hp). repeat split; try assumption.
  simpl. rewrite Ht, Hp.
  destruct (String.length credential =? 0) eqn:E; [|reflexivity].
  apply length_zero_iff in E. contradiction.
Qed.

End WithHost.

Lemma parseCookies_reads_header_witness :
  parseCookies exampleDecode
    (Some (cookieHeaderOf [("theme", "dark"); ("apiKeys", "a%3Db=c"); ("theme", "light")])) =
    Some [("theme", "light"); ("apiKeys", "a=b=c")] /\
  parseCookiesChat exampleDecode
    (cookieHeaderOf [("theme", "dark"); ("apiKeys", "a%3Db=c"); ("theme", "light")]) =
    Some [("theme", "light"); ("apiKeys", "a=b=c")].
Proof.
  apply (parseCookies_reads_header exampleDecode
           [("theme", "dark"); ("apiKeys", "a%3Db=c"); ("theme", "light")]
           [("theme", "dark"); ("apiKeys", "a=b=c"); ("theme", "light")]).
  - repeat constructor.
  - repeat constructor.
Defined.

Lemma cookie_without_value_witness :
  parseCookies exampleDecode (Some "flag") = Some [] /\
  parseCookiesChat exampleDecode "flag" = Some [("flag", "")].
Proof.
  apply (cookie_without_value exampleDecode "flag" "flag" ""); reflexivity.
Defined.

Lemma api_keys_from_cookie_are_normalized_witness :
  getApiKeysFromCookie exampleDecode exampleParseEntries (Some exampleCookieHeader) =
    Some [("OpenAI", "sk-live-1")] /\
  "sk-live-1"%string <> EmptyString /\ trim "sk-live-1" = "sk-live-1"%string /\
  isPlaceholderCredential "sk-live-1" = false /\
  normalizeCredential (JsString "sk-live-1") = Some "sk-live-1"%string.
Proof.
  split; [reflexivity|].
  apply (api_keys_from_cookie_are_normalized exampleDecode exampleParseEntries
           (Some exampleCookieHeader) [("OpenAI", "sk-live-1")] "OpenAI");
    reflexivity.
Defined.

Example cookie_edge_cases :
  parseCookies exampleDecode None = Some [] /\
  parseCookies exampleDecode (Some "") = Some [] /\
  parseCookies exampleDecode (Some "a=1; ;=x; b = 2 ;a=3") =
    Some [("a", "3"); ("b", "2")] /\
  parseCookies exampleDecode (Some "a=%zz") = None /\
  parseCookies exampleDecode (Some "__proto__=x; a=1") = Some [("a", "1")] /\
  getApiKeysFromCookie exampleDecode exampleParseEntries (Some "apiKeys=not json") =
    Some [] /\
  getApiKeysFromCookie exampleDecode exampleParseEntries (Some "theme=dark") = Some [].
Proof. repeat split; reflexivity. Qed.

End CookiesFacts.

(* ===================================================================== *)
(** ** Configured providers *)
(* ===================================================================== *)

Module ConfiguredProvidersFacts.
Import JsString Credentials ConfiguredProviders.

Section WithRequest.
Variable cloudflareEnv : Environment.
Variable processEnv : Environment.

Local Abbreviation checkProvider := (checkProvider cloudflareEnv processEnv).
Local Abbreviation loader := (loader cloudflareEnv processEnv).

Lemma checkProvider_name (manager : LLMManager) (providerName : string) :
  name (checkProvider manager providerName) = providerName.
Proof. reflexivity. Qed.

Lemma checkProvider_method (manager : LLMManager) (providerName : string) :
  isConfigured (checkProvider manager providerName) = true <->
  configMethod (checkProvider manager providerName) = environment.
Proof.
  unfold ConfiguredProviders.checkProvider. cbn [isConfigured configMethod].
  destruct (getProvider manager providerName) as [config|]; [|split; discriminate].
  destruct (baseUrlKey config) as [urlKey|], (apiTokenKey config) as [tokenKey|];
    cbv zeta;
    repeat match goal with
           | |- context [if ?b then _ else _] => destruct b; cbn [fst snd negb andb]
           end;
    split; (reflexivity || discriminate).
Qed.

(** X21. The answer of the loader lists every local provider once, under its
    name and in the order of [LOCAL_PROVIDERS], also when the manager cannot
    be obtained; an entry says [environment] exactly when it says the
    provider is configured, and a provider the manager does not know is not
    configured. *)
Theorem loader_lists_every_local_provider
    (LOCAL_PROVIDERS : list string) (llmManager : option LLMManager) :
  map name (loader LOCAL_PROVIDERS llmManager) = LOCAL_PROVIDERS /\
  Forall (fun p => isConfigured p = true <-> configMethod p = environment)
    (loader LOCAL_PROVIDERS llmManager) /\
  Forall (fun p => match llmManager with
                   | Some manager =>
                       getProvider manager (name p) = None -> isConfigured p = false
                   | None => isConfigured p = false
                   end)
    (loader LOCAL_PROVIDERS llmManager).
Proof.
  destruct llmManager as [manager|]; cbn [ConfiguredProviders.loader].
  - split; [|split].
    + rewrite map_map. rewrite <- (map_id LOCAL_PROVIDERS) at 2.
      apply map_ext. intros p. reflexivity.
    + apply Forall_map, Forall_forall. intros p _. apply checkProvider_method.
    + apply Forall_map, Forall_forall. intros p _.
      rewrite checkProvider_name. intros H.
      unfold ConfiguredProviders.checkProvider. now rewrite H.
  - split; [|split].
    + rewrite map_map. rewrite <- (map_id LOCAL_PROVIDERS) at 2.
      apply map_ext. intros p. reflexivity.
    + apply Forall_map, Forall_forall. intros p _. split; discriminate.
    + apply Forall_map, Forall_forall. intros p _. reflexivity.
Qed.

(** X22. The three environments are not consulted alike.  For the base URL each
    value is normalised before the next is tried, so a usable URL in
    [process.env] configures the provider whatever the Cloudflare
    environment holds.  For the API token the first truthy value is taken
    and then normalised, so a placeholder in the Cloudflare environment
    hides a token of [process.env] or of the manager: a provider without
    usable base URL is then reported as not configured. *)
Theorem placeholder_token_hides_later_token
    (manager : LLMManager) (providerName urlKey tokenKey : string) :
  getProvider manager providerName =
    Some {| baseUrlKey := Some urlKey; apiTokenKey := Some tokenKey |} ->
  urlKey <> EmptyString -> tokenKey <> EmptyString ->
  (forall url, normalizeHttpUrl (processEnv urlKey) = Some url ->
               isConfigured (checkProvider manager providerName) = true) /\
  (normalizeHttpUrl (cloudflareEnv urlKey) = None ->
   normalizeHttpUrl (processEnv urlKey) = None ->
   normalizeHttpUrl (env manager urlKey) = None ->
   truthy (cloudflareEnv tokenKey) = true ->
   normalizeCredential (cloudflareEnv tokenKey) = None ->
   isConfigured (checkProvider manager providerName) = false).
Proof.
  intros Hp Hu Ht. apply String.eqb_neq in Hu, Ht.
  unfold ConfiguredProviders.checkProvider. rewrite Hp.
  cbn [baseUrlKey apiTokenKey isConfigured]. rewrite Hu, Ht. cbn [negb andb]. split.
  - intros url Hurl. rewrite Hurl.
    assert (Hne : url <> EmptyString).
    { destruct (processEnv urlKey) as [| |b|z|s]; simpl in Hurl; try discriminate.
      destruct (String.length (trim s) =? 0) eqn:E; simpl in Hurl; [discriminate|].
      destruct (isPlaceholderCredential (trim s)); [discriminate|].
      destruct (negb (httpSchemeTest (trim s))); [discriminate|].
      injection Hurl as <-. intros H. rewrite H in E. discriminate. }
    apply String.eqb_neq in Hne.
    assert (E : isSet (orUndefined
                         (orUndefined (normalizeHttpUrl (cloudflareEnv urlKey)) (Some url))
                         (normalizeHttpUrl (env manager urlKey))) = true).
    { destruct (normalizeHttpUrl (cloudflareEnv urlKey)) as [u|]; cbn [orUndefined].
      - destruct (String.eqb u EmptyString) eqn:Eu; cbn [orUndefined isSet];
          rewrite ?Hne, ?Eu; cbn [isSet]; rewrite ?Hne, ?Eu; reflexivity.
      - rewrite Hne. cbn [isSet]. now rewrite Hne. }
    rewrite E. reflexivity.
  - intros H1 H2 H3 Htruthy Hcred. rewrite H1, H2, H3. cbn [orUndefined isSet fst negb].
    unfold jsOr. rewrite Htruthy. cbn [truthy]. rewrite Htruthy, Hcred. reflexivity.
Qed.

End WithRequest.

Lemma placeholder_token_hides_later_token_witness :
  isConfigured
    (checkProvider (envOf [("OPENAI_LIKE_API_BASE_URL", "your_base_url_here")])
       (envOf [("OPENAI_LIKE_API_BASE_URL", "http://127.0.0.1:8080/v1")])
       exampleManager "OpenAILike") = true /\
  isConfigured
    (checkProvider (envOf [("OPENAI_LIKE_API_KEY", "your_api_key_here")])
       (envOf [("OPENAI_LIKE_API_KEY", "sk-live-1")])
       exampleManager "OpenAILike") = false.
Proof.
  split.
  - apply (proj1 (placeholder_token_hides_later_token
                    (envOf [("OPENAI_LIKE_API_BASE_URL", "your_base_url_here")])
                    (envOf [("OPENAI_LIKE_API_BASE_URL", "http://127.0.0.1:8080/v1")])
                    exampleManager "OpenAILike" "OPENAI_LIKE_API_BASE_URL"
                    "OPENAI_LIKE_API_KEY" eq_refl ltac:(discriminate) ltac:(discriminate))
                 "http://127.0.0.1:8080/v1").
    reflexivity.
  - apply (proj2 (placeholder_token_hides_later_token
                    (envOf [("OPENAI_LIKE_API_KEY", "your_api_key_here")])
                    (envOf [("OPENAI_LIKE_API_KEY", "sk-live-1")])
                    exampleManager "OpenAILike" "OPENAI_LIKE_API_BASE_URL"
                    "OPENAI_LIKE_API_KEY" eq_refl ltac:(discriminate) ltac:(discriminate)));
      reflexivity.
Defined.

Example loader_example :
  loader (envOf []) (envOf [("OLLAMA_API_BASE_URL", " http://127.0.0.1:11434 ");
                            ("OPENAI_LIKE_API_KEY", "sk-live-1")])
    ["Ollama"; "LMStudio"; "OpenAILike"] (Some exampleManager) =
  [ {| name := "Ollama"; isConfigured := true; configMethod := environment |};
    {| name := "LMStudio"; isConfigured := false; configMethod := none |};
    {| name := "OpenAILike"; isConfigured := true; configMethod := environment |} ].
Proof. reflexivity. Qed.

End ConfiguredProvidersFacts.

(* ===================================================================== *)
(** ** Request helpers, error text and stream transform of the chat route *)
(* ===================================================================== *)

Module ChatStreamFacts.
Import JsString JsStringFacts ChatStream.

(** *** [detectManualIntervention] *)

Lemma find_skips {A : Type} (f : A -> bool) (l1 l2 : list A) :
  (forall x, In x l1 -> f x = false) -> find f (l1 ++ l2) = find f l2.
Proof.
  induction l1 as [|a l1 IH]; intros H; simpl; [reflexivity|].
  rewrite (H a) by now left. apply IH. intros x Hx. apply H. now right.
Qed.

(** X23. Only the latest user message counts: whatever stands before it, and
    whatever assistant or system messages follow it, the answer is the test
    of that message alone: one of the four continue cues in its lower-cased
    text, or a tool invocation part in state [result].  Without a user
    message the answer is no. *)
Theorem detectManualIntervention_reads_last_user_message :
  (forall before lastUser after,
      isUser lastUser = true ->
      (forall m, In m after -> isUser m = false) ->
      detectManualIntervention (before ++ lastUser :: after) = intervenes lastUser) /\
  (forall messages,
      (forall m, In m messages -> isUser m = false) ->
      detectManualIntervention messages = false).
Proof.
  split.
  - intros before lastUser after Hu Hafter. unfold detectManualIntervention.
    rewrite rev_app_distr. cbn [rev]. rewrite <- app_assoc. cbn [app].
    rewrite find_skips.
    + cbn [find]. now rewrite Hu.
    + intros x Hx. apply Hafter. now apply in_rev.
  - intros messages H. unfold detectManualIntervention.
    rewrite <- (app_nil_r (rev messages)), find_skips; [reflexivity|].
    intros x Hx. apply H. now apply in_rev.
Qed.

Lemma detectManualIntervention_reads_last_user_message_witness :
  detectManualIntervention
    [ {| role := Chat.user; content := Some "Please continue"; parts := None |};
      {| role := Chat.assistant; content := Some "go on"; parts := None |};
      {| role := Chat.user; content := Some "Add a dark mode"; parts := None |};
      {| role := Chat.assistant; content := Some "resume from here"; parts := None |} ]
  = false /\
  detectManualIntervention
    [ {| role := Chat.assistant; content := Some "please continue"; parts := None |} ]
  = false.
Proof.
  destruct detectManualIntervention_reads_last_user_message as [H1 H2]. split.
  - apply (H1 [ {| role := Chat.user; content := Some "Please continue"; parts := None |};
                {| role := Chat.assistant; content := Some "go on"; parts := None |} ]
              {| role := Chat.user; content := Some "Add a dark mode"; parts := None |}
              [ {| role := Chat.assistant; content := Some "resume from here";
                   parts := None |} ]).
    + reflexivity.
    + intros m [<- | []]. reflexivity.
  - apply H2. intros m [<- | []]. reflexivity.
Defined.

Example detectManualIntervention_cues :
  map (fun text =>
         detectManualIntervention
           [ {| role := Chat.user; content := Some text; parts := None |} ])
      [ "Please CONTINUE"; "continue"; "Go on."; "use Lego only"; "Resume from step 3";
        "" ]
  = [true; false; true; true; true; false] /\
  detectManualIntervention
    [ {| role := Chat.user; content := None;
         parts := Some [ {| part_type := "text"; toolInvocationState := None |};
                         {| part_type := "tool-invocation";
                            toolInvocationState := Some "result" |} ] |} ] = true /\
  detectManualIntervention
    [ {| role := Chat.user; content := None;
         parts := Some [ {| part_type := "tool-invocation";
                            toolInvocationState := Some "call" |} ] |} ] = false.
Proof. repeat split; reflexivity. Qed.

(** *** [onError] *)

Lemma startsWith_includes (a s t : string) :
  startsWith (a ++ s) t = true -> includes s t = true.
Proof.
  revert t. induction a as [|x a IH]; intros t; simpl.
  - intros H. destruct t; simpl; now rewrite H.
  - destruct t as [|c t]; [discriminate|].
    intros H. apply andb_true_iff in H as [_ H]. cbn [includes].
    rewrite (IH _ H). apply orb_true_r.
Qed.

Lemma includes_suffix (a s t : string) :
  includes (a ++ s) t = true -> includes s t = true.
Proof.
  rewrite !includes_spec. intros (pre & post & ->).
  exists (pre ++ a)%string, post. now rewrite !append_assoc.
Qed.

Lemma startsWith_across (sp : ascii) (b post name : string) :
  allChars (fun c => negb (Ascii.eqb c sp)) name = true ->
  forall a,
    startsWith (a ++ String sp b) (name ++ post) = true ->
    includes (String sp b) post = true.
Proof.
  induction name as [|c name IH]; intros Hname a H.
  - now apply startsWith_includes in H.
  - cbn [allChars] in Hname. apply andb_true_iff in Hname as [Hc Hname].
    destruct a as [|x a]; cbn [append startsWith] in H.
    + apply andb_true_iff in H as [H _]. apply Ascii.eqb_eq in H. subst c.
      rewrite Ascii.eqb_refl in Hc. discriminate.
    + apply andb_true_iff in H as [_ H]. now apply (IH Hname a).
Qed.

(** A text with a character [sp] that [name] does not have can only occur
    in [name ++ post] with that character inside [post]. *)
Lemma includes_across (sp : ascii) (a b name post : string) :
  allChars (fun c => negb (Ascii.eqb c sp)) name = true ->
  includes (a ++ String sp b) (name ++ post) = true ->
  includes (String sp b) post = true.
Proof.
  intros Hname. induction name as [|c name IH].
  - apply includes_suffix.
  - cbn [allChars] in Hname. apply andb_true_iff in Hname as [Hc Hname].
    cbn [append includes]. intros H. apply orb_true_iff in H as [H | H].
    + apply (startsWith_across sp b post (String c name)) with (a := a).
      * cbn [allChars]. now rewrite Hc, Hname.
      * exact H.
    + now apply IH.
Qed.

Lemma includes_chars (p : ascii -> bool) (sub s : string) :
  includes sub s = true -> allChars p s = true -> allChars p sub = true.
Proof.
  rewrite includes_spec. intros (pre & post & ->) H.
  rewrite !CookiesFacts.allChars_append in H.
  apply andb_true_iff in H as [_ H]. now apply andb_true_iff in H as [H _].
Qed.

(** X24. The error with which the run aborts a stalled stream is always
    answered with the stream-timeout text, never with the model, network or
    generic text, whatever the configured timeout is. *)
Theorem stream_timeout_abort_is_reported_as_timeout (timeout : string) :
  allChars (fun c => negb (Ascii.eqb c " ")) timeout = true ->
  onError (Some (streamTimeoutAbortMessage timeout)) = STREAM_TIMED_OUT.
Proof.
  intros Htimeout. unfold onError, streamTimeoutAbortMessage.
  cbn [append String.eqb Ascii.eqb Bool.eqb].
  match goal with
  | |- context [includes "not found" ?m] =>
      assert (H : includes "not found" m = false)
  end.
  { cbn [includes startsWith Ascii.eqb Bool.eqb andb orb].
    destruct (includes "not found" (timeout ++ "ms")) eqn:E; [|reflexivity].
    apply (includes_chars (fun c => negb (Ascii.eqb c " "))) in E; [discriminate|].
    now rewrite CookiesFacts.allChars_append, Htimeout. }
  rewrite H, andb_false_r.
  cbn [includes startsWith Ascii.eqb Bool.eqb andb orb]. reflexivity.
Qed.

Lemma stream_timeout_abort_is_reported_as_timeout_witness :
  onError (Some "BOLT_STREAM_TIMEOUT: no stream activity for 180000ms") = STREAM_TIMED_OUT.
Proof.
  apply (stream_timeout_abort_is_reported_as_timeout "180000"). reflexivity.
Defined.

(** A text that cannot be found in [name ++ post], [name] being free of
    the character [sp] of the text. *)
Ltac not_across sp a b :=
  match goal with
  | |- includes _ (?name ++ ?post) = false =>
      let E := fresh "E" in
      destruct (includes (a ++ String sp b) (name ++ post)) eqn:E; [|exact E];
      apply (includes_across sp a b name post) in E;
      [vm_compute in E; discriminate E | assumption]
  end.

(** X25. The error a provider throws when it has no API key is answered with
    the provider-not-configured text: the test for it comes before the test
    for the words API key, which would answer with the invalid-key text. *)
Theorem missing_api_key_is_reported_as_not_configured (providerName : string) :
  allChars (fun c => negb (Ascii.eqb c " ")) providerName = true ->
  allChars (fun c => negb (Ascii.eqb c "_")) providerName = true ->
  onError (Some (missingApiKeyMessage providerName)) = PROVIDER_NOT_CONFIGURED /\
  PROVIDER_NOT_CONFIGURED <> INVALID_API_KEY.
Proof.
  intros Hspace Hunder. split; [|discriminate].
  unfold onError, missingApiKeyMessage.
  cbn [append String.eqb Ascii.eqb Bool.eqb].
  cbn [includes startsWith Ascii.eqb Bool.eqb andb orb].
  assert (H1 : includes "not found" (providerName ++ " provider") = false)
    by not_across " "%char "not" "found".
  assert (H2 : includes "BOLT_STREAM_TIMEOUT" (providerName ++ " provider") = false)
    by not_across "_"%char "BOLT" "STREAM_TIMEOUT".
  assert (H3 : includes "Invalid JSON response" (providerName ++ " provider") = false)
    by not_across " "%char "Invalid" "JSON response".
  assert (H4 : includes "Invalid AWS Bedrock configuration format"
                 (providerName ++ " provider") = false)
    by not_across " "%char "Invalid" "AWS Bedrock configuration format".
  assert (H5 : includes "Missing required AWS credentials"
                 (providerName ++ " provider") = false)
    by not_across " "%char "Missing" "required AWS credentials".
  rewrite H1, H2, H3, H4, H5, andb_false_r. reflexivity.
Qed.

Lemma missing_api_key_is_reported_as_not_configured_witness :
  onError (Some "Missing API key for OpenRouter provider") = PROVIDER_NOT_CONFIGURED /\
  PROVIDER_NOT_CONFIGURED <> INVALID_API_KEY.
Proof.
  apply (missing_api_key_is_reported_as_not_configured "OpenRouter"); reflexivity.
Defined.

Example onError_texts :
  map onError
      [ None; Some ""; Some "model gpt-9 not found"; Some "Invalid API key provided";
        Some "429 Too Many Requests"; Some "maximum token limit reached";
        Some "fetch failed: network unreachable";
        Some "Cannot continue message: Maximum segments reached" ]
  = [ "Custom error: Unknown error"; "Custom error: Unknown error"; INVALID_MODEL;
      INVALID_API_KEY; RATE_LIMIT; TOKEN_LIMIT; NETWORK_ERROR;
      "Custom error: Cannot continue message: Maximum segments reached" ].
Proof. reflexivity. Qed.

(** *** The stream transform *)

Lemma countOpen_app (a b : list Enqueued) :
  countOpen (a ++ b) = countOpen a + countOpen b.
Proof. unfold countOpen. now rewrite filter_app, length_app. Qed.

Lemma countClose_app (a b : list Enqueued) :
  countClose (a ++ b) = countClose a + countClose b.
Proof. unfold countClose. now rewrite filter_app, length_app. Qed.

(** One string chunk: the wrapper lines keep step with the change between
    reasoning and other chunks. *)
Lemma transform_string (lastChunk : option Chunk) (text : string) :
  callable lastChunk ->
  exists out,
    transform lastChunk (StringChunk text) = Some (out, Some (StringChunk text)) /\
    countOpen out + (if inThought lastChunk then 1 else 0) =
    countClose out + (if startsWith "g" text then 1 else 0).
Proof.
  intros Hc. unfold transform.
  destruct lastChunk as [[lastText | [] json]|]; cbn [callable] in Hc;
    try contradiction; cbn [inThought].
  - destruct (String.eqb lastText EmptyString) eqn:E.
    + apply String.eqb_eq in E. subst lastText.
      change (startsWith "g" " ") with false. change (startsWith "g" "") with false.
      destruct (startsWith "g" text); eexists; split; reflexivity.
    + destruct (startsWith "g" text), (startsWith "g" lastText);
        eexists; split; reflexivity.
  - change (startsWith "g" " ") with false.
    destruct (startsWith "g" text); eexists; split; reflexivity.
  - change (startsWith "g" " ") with false.
    destruct (startsWith "g" text); eexists; split; reflexivity.
Qed.

Lemma transformAll_strings (texts : list string) :
  forall lastChunk,
    callable lastChunk ->
    exists out lastChunk',
      transformAll lastChunk (map StringChunk texts) = Some (out, lastChunk') /\
      countOpen out + (if inThought lastChunk then 1 else 0) =
      countClose out + (if inThought lastChunk' then 1 else 0).
Proof.
  induction texts as [|text texts IH]; intros lastChunk Hc.
  - exists [], lastChunk. split; reflexivity.
  - destruct (transform_string lastChunk text Hc) as (out & Ht & Hcount).
    destruct (IH (Some (StringChunk text)) I) as (out' & lastChunk' & Hall & Hcount').
    exists (out ++ out')%list, lastChunk'. cbn [map transformAll].
    rewrite Ht, Hall. split; [reflexivity|].
    rewrite countOpen_app, countClose_app. cbn [inThought] in Hcount'. lia.
Qed.

(** X26. Over a stream of string chunks the transform never throws, and the
    lines that open and close a thought block stay balanced: as many blocks
    have been closed as opened, except for the one that is open while the
    latest chunk is a reasoning chunk.  Nothing closes a block that is open
    when the stream ends.  After a truthy chunk that is not a string, a
    string chunk makes the transform throw. *)
Theorem thought_blocks_are_balanced (texts : list string) :
  (exists out lastChunk,
      transformAll None (map StringChunk texts) = Some (out, lastChunk) /\
      countOpen out = countClose out + (if inThought lastChunk then 1 else 0)) /\
  (forall json text,
      transform (Some (OtherChunk true json)) (StringChunk text) = None).
Proof.
  split; [|reflexivity].
  destruct (transformAll_strings texts None I) as (out & lastChunk & H & Hcount).
  exists out, lastChunk. split; [exact H|]. cbn [inThought] in Hcount. lia.
Qed.

Lemma substring_prefix (x y : string) :
  substring 0 (String.length x) (x ++ y) = x.
Proof.
  induction x as [|c x IH]; simpl; [now destruct y | now rewrite IH].
Qed.

Lemma substring_after (n : nat) (x y : string) :
  substring (String.length x) n (x ++ y) = substring 0 n y.
Proof. induction x as [|c x IH]; simpl; [reflexivity | exact IH]. Qed.

Lemma endsWith_newline (x : string) : endsWith nl (x ++ nl) = true.
Proof.
  unfold endsWith. rewrite StepRunnerMoreFacts.length_append.
  change (String.length nl) with 1.
  replace (String.length x + 1 - 1) with (String.length x) by lia.
  rewrite substring_after.
  replace (1 <=? String.length x + 1) with true
    by (symmetry; apply Nat.leb_le; lia).
  reflexivity.
Qed.

Lemma rewriteReasoning_payload (payload : string) :
  rewriteReasoning ("g:" ++ payload ++ nl) = ("0:" ++ payload ++ nl)%string.
Proof.
  unfold rewriteReasoning.
  change (Cookies.split ":" ("g:" ++ payload ++ nl))
    with (match Cookies.split ":" (String ":" (payload ++ nl)) with
          | piece :: pieces => String "g" piece :: pieces
          | [] => ["g"%string]
          end).
  change (Cookies.split ":" (String ":" (payload ++ nl)))
    with (EmptyString :: Cookies.split ":" (payload ++ nl)).
  cbn [List.tl].
  change ":"%string with (String ":" EmptyString).
  rewrite CookiesFacts.join_split, endsWith_newline.
  rewrite StepRunnerMoreFacts.length_append. change (String.length nl) with 1.
  replace (String.length payload + 1 - 1) with (String.length payload) by lia.
  now rewrite substring_prefix.
Qed.

(** X27. A reasoning chunk [g:payload] leaves the transform as the text chunk
    [0:payload], its payload unchanged whatever colons and line feeds it
    holds, behind the line that opens a thought block unless one is open;
    any other string chunk leaves it as it came, behind the line that
    closes the thought block if one is open. *)
Theorem reasoning_chunk_is_relabelled (lastChunk : option Chunk) :
  callable lastChunk ->
  (forall payload,
      transform lastChunk (StringChunk ("g:" ++ payload ++ nl)) =
      Some (((if inThought lastChunk then [] else [ThoughtOpen]) ++
             [Payload ("0:" ++ payload ++ nl)])%list,
            Some (StringChunk ("g:" ++ payload ++ nl)))) /\
  (forall text,
      startsWith "g" text = false ->
      transform lastChunk (StringChunk text) =
      Some (((if inThought lastChunk then [ThoughtClose] else []) ++
             [Payload text])%list,
            Some (StringChunk text))).
Proof.
  intros Hc. split.
  - intros payload. unfold transform.
    rewrite rewriteReasoning_payload.
    change (startsWith "g" ("g:" ++ payload ++ nl)) with true.
    destruct lastChunk as [[lastText | [] json]|]; cbn [callable] in Hc;
      try contradiction; cbn [inThought]; try reflexivity.
    destruct (String.eqb lastText EmptyString) eqn:E.
    + apply String.eqb_eq in E. subst lastText. reflexivity.
    + now destruct (startsWith "g" lastText).
  - intros text Hg. unfold transform. rewrite Hg.
    destruct lastChunk as [[lastText | [] json]|]; cbn [callable] in Hc;
      try contradiction; cbn [inThought]; try reflexivity.
    destruct (String.eqb lastText EmptyString) eqn:E.
    + apply String.eqb_eq in E. subst lastText. reflexivity.
    + cbn [andb negb]. now destruct (startsWith "g" lastText).
Qed.

Lemma reasoning_chunk_is_relabelled_witness :
  transform (Some (StringChunk ("0:" ++ dq ++ "Hello" ++ dq ++ nl)))
    (StringChunk ("g:" ++ (dq ++ "step 1: think" ++ dq) ++ nl)) =
  Some ([ThoughtOpen; Payload ("0:" ++ (dq ++ "step 1: think" ++ dq) ++ nl)],
        Some (StringChunk ("g:" ++ (dq ++ "step 1: think" ++ dq) ++ nl))).
Proof.
  exact (proj1 (reasoning_chunk_is_relabelled
                  (Some (StringChunk ("0:" ++ dq ++ "Hello" ++ dq ++ nl))) I)
           (dq ++ "step 1: think" ++ dq)%string).
Defined.

Example transform_stream :
  option_map (fun r => map encode (fst r))
    (transformAll None
       (map StringChunk
          [ ("g:" ++ dq ++ "think" ++ dq ++ nl)%string;
            ("g:" ++ dq ++ "more" ++ dq ++ nl)%string;
            ("0:" ++ dq ++ "Hi" ++ dq ++ nl)%string ])) =
  Some [ encode ThoughtOpen;
         ("0:" ++ dq ++ "think" ++ dq ++ nl)%string;
         ("0:" ++ dq ++ "more" ++ dq ++ nl)%string;
         encode ThoughtClose;
         ("0:" ++ dq ++ "Hi" ++ dq ++ nl)%string ].
Proof. reflexivity. Qed.

End ChatStreamFacts.

(* ===================================================================== *)
(** ** The clean-up of streamed output *)
(* ===================================================================== *)

Module StreamChunkFacts.
Import JsString StepRunnerEvents StreamChunk.

Example normalizeStreamChunk_examples :
  normalizeStreamChunk "" = EmptyString /\
  normalizeStreamChunk ("one" ++ String CR (String LF "two")) =
    ("one" ++ String LF (String LF "two"))%string /\
  normalizeStreamChunk (String ESC "[31;1mred" ++ String ESC "[0m") = "red"%string /\
  normalizeStreamChunk (String ESC "]0;title" ++ String BEL "text") = "text"%string /\
  normalizeStreamChunk ("a" ++ String LF (String LF (String LF (String LF "b")))) =
    ("a" ++ String LF (String LF "b"))%string /\
  normalizeStreamChunk
    ("Installing" ++ String LF "Progress: resolved 10, reused 5" ++ String LF "Done") =
    ("Installing" ++ String LF "Done")%string /\
  normalizeStreamChunk ("  Packages: +12" ++ String LF "added") =
    (String LF "added")%string /\
  normalizeStreamChunk "in progress: resolved" = "in progress: resolved"%string /\
  normalizeStreamChunk "Already up to date" = EmptyString.
Proof. repeat split; reflexivity. Qed.

(** *** What every replacement keeps *)

Lemma replaceAll_allChars (p : ascii -> bool)
    (matchLength : option ascii -> string -> option nat) (replacement : string) :
  allChars p replacement = true ->
  forall s previous skip,
    allChars p s = true ->
    allChars p (replaceAll matchLength replacement previous skip s) = true.
Proof.
  intros Hrep. induction s as [|c r IH]; intros previous skip H; [reflexivity|].
  cbn [allChars] in H. apply andb_true_iff in H as [Hc Hr].
  cbn [replaceAll]. destruct skip as [|k]; [|now apply IH].
  destruct (matchLength previous (String c r)) as [[|n]|].
  - cbn [allChars]. now rewrite Hc, IH.
  - rewrite CookiesFacts.allChars_append, Hrep. now apply IH.
  - cbn [allChars]. now rewrite Hc, IH.
Qed.

Lemma replaceAll_deletes_length
    (matchLength : option ascii -> string -> option nat) :
  forall s previous skip,
    String.length (replaceAll matchLength EmptyString previous skip s) <=
    String.length s.
Proof.
  induction s as [|c r IH]; intros previous skip; [apply Nat.le_refl|].
  cbn [replaceAll]. destruct skip as [|k].
  - destruct (matchLength previous (String c r)) as [[|n]|]; cbn [append String.length].
    + specialize (IH (Some c) 0). lia.
    + specialize (IH (Some c) n). lia.
    + specialize (IH (Some c) 0). lia.
  - specialize (IH (Some c) k). cbn [String.length]. lia.
Qed.

Lemma spanLength_le (p : ascii -> bool) (s : string) :
  spanLength p s <= String.length s.
Proof.
  induction s as [|c r IH]; simpl; [lia|]. destruct (p c); simpl; lia.
Qed.

(** No carriage return is left behind [/\r/g]. *)
Lemma carriageReturns_replaced (s : string) :
  forall previous,
    allChars notCarriageReturn
      (replaceAll carriageReturnLength (String LF EmptyString) previous 0 s) = true.
Proof.
  induction s as [|c r IH]; intros previous; [reflexivity|].
  cbn [replaceAll carriageReturnLength].
  destruct (Ascii.eqb c CR) eqn:E.
  - cbn [append allChars]. now rewrite IH.
  - cbn [allChars]. unfold notCarriageReturn at 1. now rewrite E, IH.
Qed.

Lemma carriageReturns_length (s : string) :
  forall previous,
    String.length
      (replaceAll carriageReturnLength (String LF EmptyString) previous 0 s) =
    String.length s.
Proof.
  induction s as [|c r IH]; intros previous; [reflexivity|].
  cbn [replaceAll carriageReturnLength].
  destruct (Ascii.eqb c CR); cbn [append String.length]; now rewrite IH.
Qed.

(** *** Blank lines *)

Local Abbreviation leadingFeeds := (spanLength (Ascii.eqb LF)).
Local Abbreviation threeFeeds := (String LF (String LF (String LF EmptyString))).
Local Abbreviation collapse :=
  (replaceAll blankLinesLength (String LF (String LF EmptyString))).

Lemma blankLinesLength_eq (previous : option ascii) (s : string) :
  blankLinesLength previous s =
  if 3 <=? leadingFeeds s then Some (leadingFeeds s) else None.
Proof. reflexivity. Qed.

Lemma threeFeeds_feed (o : string) :
  includes threeFeeds (String LF o) = (2 <=? leadingFeeds o) || includes threeFeeds o.
Proof.
  cbn [includes]. f_equal. cbn [startsWith]. rewrite Ascii.eqb_refl. cbn [andb].
  destruct o as [|a [|b o]]; cbn [spanLength]; try reflexivity.
  - now destruct (Ascii.eqb LF a).
  - destruct (Ascii.eqb LF a); [|reflexivity].
    destruct (Ascii.eqb LF b); cbn; now rewrite ?andb_true_r.
Qed.

Lemma threeFeeds_other (c : ascii) (o : string) :
  Ascii.eqb LF c = false ->
  includes threeFeeds (String c o) = includes threeFeeds o.
Proof. intros H. cbn [includes startsWith]. now rewrite H. Qed.

(** While a run of line feeds is passed over, and from the start of a
    run on: what is written has no three line feeds in a row and begins
    with at most two, none behind a replaced run. *)
Lemma collapse_runs (s : string) :
  forall previous skip,
    skip = 0 \/ leadingFeeds s = skip ->
    includes threeFeeds (collapse previous skip s) = false /\
    leadingFeeds (collapse previous skip s) <=
      (if skip =? 0 then Nat.min (leadingFeeds s) 2 else 0).
Proof.
  induction s as [|c r IH]; intros previous skip Hskip.
  - cbn. destruct (skip =? 0); split; (reflexivity || lia).
  - cbn [replaceAll]. destruct skip as [|k].
    + rewrite (blankLinesLength_eq previous). cbn [Nat.eqb].
      destruct (3 <=? leadingFeeds (String c r)) eqn:E3.
      * apply Nat.leb_le in E3. cbn [spanLength] in E3 |- *.
        destruct (Ascii.eqb LF c) eqn:Ec; [|lia].
        destruct (IH (Some c) (leadingFeeds r)) as [H1 H2]; [now right|].
        assert (N : (leadingFeeds r =? 0) = false) by (apply Nat.eqb_neq; lia).
        rewrite N in H2.
        cbn [append]. rewrite !threeFeeds_feed, H1.
        cbn [spanLength]. rewrite Ascii.eqb_refl.
        assert (Z0 : leadingFeeds (collapse (Some c) (leadingFeeds r) r) = 0) by lia.
        rewrite Z0. split; [reflexivity | lia].
      * apply Nat.leb_gt in E3.
        destruct (IH (Some c) 0) as [H1 H2]; [now left|]. cbn [Nat.eqb] in H2.
        cbn [spanLength] in E3. cbn iota.
        destruct (Ascii.eqb LF c) eqn:Ec.
        -- apply Ascii.eqb_eq in Ec. subst c.
           rewrite threeFeeds_feed, H1, orb_false_r.
           cbn [spanLength]. rewrite Ascii.eqb_refl.
           split; [apply Nat.leb_gt|]; lia.
        -- rewrite (threeFeeds_other c _ Ec), H1. cbn [spanLength]. rewrite Ec.
           split; [reflexivity | lia].
    + destruct Hskip as [Hskip | Hskip]; [discriminate|].
      cbn [spanLength] in Hskip. destruct (Ascii.eqb LF c); [|discriminate].
      cbn iota in Hskip. apply eq_add_S in Hskip.
      destruct (IH (Some c) k) as [H1 H2]; [now right|].
      split; [exact H1|]. cbn [Nat.eqb]. destruct (k =? 0) eqn:Ek; [|exact H2].
      apply Nat.eqb_eq in Ek. lia.
Qed.

Lemma collapse_length (s : string) :
  forall previous skip,
    String.length (collapse previous skip s) <= String.length s - skip.
Proof.
  induction s as [|c r IH]; intros previous skip; [cbn; lia|].
  cbn [replaceAll]. destruct skip as [|k].
  - rewrite (blankLinesLength_eq previous).
    pose proof (spanLength_le (Ascii.eqb LF) (String c r)) as L.
    destruct (3 <=? leadingFeeds (String c r)) eqn:E3.
    + apply Nat.leb_le in E3.
      destruct (leadingFeeds (String c r)) as [|n] eqn:En; [lia|].
      specialize (IH (Some c) n). cbn [append String.length] in *. lia.
    + specialize (IH (Some c) 0). cbn [String.length]. lia.
  - specialize (IH (Some c) k). cbn [String.length]. lia.
Qed.

Lemma normalizeStreamChunk_clean (chunk : string) :
  allChars notCarriageReturn (normalizeStreamChunk chunk) = true.
Proof.
  unfold normalizeStreamChunk.
  destruct (String.eqb chunk EmptyString); [reflexivity|].
  do 4 (apply replaceAll_allChars; [reflexivity|]).
  apply carriageReturns_replaced.
Qed.

(** X28. Whatever a command writes, the cleaned chunk holds no carriage return
    and no three line feeds in a row, and is not longer than the chunk. *)
Theorem normalizeStreamChunk_output (chunk : string) :
  allChars notCarriageReturn (normalizeStreamChunk chunk) = true /\
  includes (String LF (String LF (String LF EmptyString)))
    (normalizeStreamChunk chunk) = false /\
  String.length (normalizeStreamChunk chunk) <= String.length chunk.
Proof.
  split; [apply normalizeStreamChunk_clean|].
  unfold normalizeStreamChunk.
  destruct (String.eqb chunk EmptyString); [split; cbn; lia|].
  split.
  - apply collapse_runs. now left.
  - eapply Nat.le_trans; [apply collapse_length|]. rewrite Nat.sub_0_r.
    do 3 (eapply Nat.le_trans; [apply replaceAll_deletes_length|]).
    now rewrite carriageReturns_length.
Qed.

(** *** The cleaned chunks in the events of a run *)

Lemma substring_allChars (p : ascii -> bool) (s : string) :
  forall n m, allChars p s = true -> allChars p (substring n m s) = true.
Proof.
  induction s as [|c r IH]; intros n m H.
  - now destruct n, m.
  - cbn [allChars] in H. apply andb_true_iff in H as [Hc Hr].
    destruct n as [|n]; [destruct m as [|m]|]; cbn [substring allChars].
    + reflexivity.
    + now rewrite Hc, IH.
    + now apply IH.
Qed.

Lemma mapGet_In {V : Type} (k : string) (m : list (string * V)) (v : V) :
  StepRunner.mapGet k m = Some v -> exists k', In (k', v) m.
Proof.
  induction m as [|[k' v'] m IH]; cbn [StepRunner.mapGet]; [discriminate|].
  destruct (String.eqb k k').
  - intros [= ->]. exists k'. now left.
  - intros H. destruct (IH H) as [k2 H2]. exists k2. now right.
Qed.

(** X29. No [stdout] or [stderr] event that a run dispatches carries a carriage
    return in its output, whatever the executor writes: every chunk is
    cleaned before it is buffered, and joining and cutting the buffered
    output brings none back. *)
Theorem streamed_output_has_no_carriage_return
    (X : Type)
    (executeStep :
       X -> StepRunner.InteractiveStep ->
       list StepRunner.ExecutorCallback * StepRunner.ExecutorOutcome * X)
    (socket : option (nat -> Z)) (isoTime : nat -> string)
    (steps : list StepRunner.InteractiveStep) (x : X) :
  Forall StreamOutputClean
    (StepRunner.dispatched
       (snd (fst (StepRunner.run X executeStep socket isoTime normalizeStreamChunk
                    steps StepRunner.newRunner x)))).
Proof.
  pose (P := fun r =>
    Forall StreamOutputClean (StepRunner.dispatched r) /\
    Forall (fun kv => isStreamType (StepRunner.type (snd kv)) = true /\
                      StreamOutputClean (snd kv))
           (StepRunner.streamBuffer r)).
  enough (P (snd (fst (StepRunner.run X executeStep socket isoTime
                         normalizeStreamChunk steps StepRunner.newRunner x))))
    as [H _] by exact H.
  apply (StepRunnerMoreFacts.runFrom_invariant X executeStep socket isoTime
           normalizeStreamChunk P (List.length steps)); unfold P.
  - intros r H. exact H.
  - intros ev r Hty _ [H1 H2]. split; [|exact H2].
    rewrite StepRunnerMoreFacts.emit_dispatched. apply Forall_app.
    split; [exact H1|]. constructor; [|constructor]. intros Hs. congruence.
  - intros i r H. exact H.
  - intros r [H1 H2]. split.
    + rewrite StepRunnerMoreFacts.flushStreamBuffer_dispatched. apply Forall_app.
      split; [exact H1|]. apply Forall_map.
      eapply Forall_impl; [|exact H2]. now intros kv [_ H].
    + now rewrite (proj1 (StepRunnerMoreFacts.flushStreamBuffer_empties socket r)).
  - intros t i d o r Ht [H1 H2].
    destruct (StepRunnerMoreFacts.bufferStreamChunk_cases isoTime
                normalizeStreamChunk t i d o r)
      as [-> | (ev & Hty & Hout & Hbuf & _ & Hd & _)]; [now split|].
    split; [now rewrite Hd|].
    rewrite Hbuf. apply Forall_forall. intros kv Hin.
    rewrite Forall_forall in H2.
    apply StepRunnerMoreFacts.mapSet_In in Hin as [-> | Hin]; [|now apply H2].
    cbn [snd]. rewrite Hty. split; [exact Ht|].
    intros _. eexists. split; [exact Hout|].
    apply substring_allChars. rewrite CookiesFacts.allChars_append.
    apply andb_true_iff. split; [|apply normalizeStreamChunk_clean].
    destruct (StepRunner.mapGet _ _) as [old|] eqn:Eold; [|reflexivity].
    destruct (StepRunner.output old) as [p|] eqn:Ep; [|reflexivity].
    destruct (mapGet_In _ _ _ Eold) as [k' Hk].
    destruct (H2 _ Hk) as [Hs Hclean]. cbn [snd] in Hs, Hclean.
    destruct (Hclean Hs) as (o' & Ho & Hchars). congruence.
  - split; constructor.
Qed.

(** *** Progress lines *)

Lemma allChars_impl (p q : ascii -> bool) (s : string) :
  (forall c, p c = true -> q c = true) ->
  allChars p s = true -> allChars q s = true.
Proof.
  intros Hpq. induction s as [|c r IH]; [reflexivity|]. cbn [allChars].
  intros H. apply andb_true_iff in H as [Hc Hr]. now rewrite (Hpq c Hc), IH.
Qed.

(** Where the expression cannot match, the text is copied. *)
Lemma replaceAll_unmatched (q : ascii -> bool)
    (matchLength : option ascii -> string -> option nat) (replacement : string) :
  (forall previous c r, q c = true -> matchLength previous (String c r) = None) ->
  forall s previous,
    allChars q s = true -> replaceAll matchLength replacement previous 0 s = s.
Proof.
  intros Hnone. induction s as [|c r IH]; intros previous H; [reflexivity|].
  cbn [allChars] in H. apply andb_true_iff in H as [Hc Hr].
  cbn [replaceAll]. now rewrite (Hnone previous c r Hc), IH.
Qed.

(** A match that reaches the end of the text leaves nothing behind it. *)
Lemma replaceAll_skipped
    (matchLength : option ascii -> string -> option nat) (replacement : string) :
  forall s previous skip,
    String.length s <= skip ->
    replaceAll matchLength replacement previous skip s = EmptyString.
Proof.
  induction s as [|c r IH]; intros previous skip H; [reflexivity|].
  cbn [String.length] in H. destruct skip as [|k]; [lia|].
  cbn [replaceAll]. apply IH. lia.
Qed.

Lemma carriageReturns_previous (s : string) (p p' : option ascii) :
  replaceAll carriageReturnLength (String LF EmptyString) p 0 s =
  replaceAll carriageReturnLength (String LF EmptyString) p' 0 s.
Proof. now destruct s. Qed.

Lemma carriageReturns_append (a b : string) :
  forall previous,
    replaceAll carriageReturnLength (String LF EmptyString) previous 0 (a ++ b) =
    (replaceAll carriageReturnLength (String LF EmptyString) previous 0 a ++
     replaceAll carriageReturnLength (String LF EmptyString) None 0 b)%string.
Proof.
  induction a as [|c r IH]; intros previous.
  - apply carriageReturns_previous.
  - cbn [append replaceAll carriageReturnLength].
    destruct (Ascii.eqb c CR); cbn [append]; now rewrite IH.
Qed.

Lemma sliceFrom_allChars (q : ascii -> bool) (s : string) :
  forall n, allChars q s = true -> allChars q (sliceFrom n s) = true.
Proof.
  induction s as [|c r IH]; intros n H; [now destruct n|].
  destruct n as [|n]; [exact H|]. cbn [sliceFrom].
  cbn [allChars] in H. apply andb_true_iff in H as [_ Hr]. now apply IH.
Qed.

Lemma stripPrefixCi_allChars (q : ascii -> bool) (lit s r : string) :
  stripPrefixCi lit s = Some r -> allChars q s = true -> allChars q r = true.
Proof.
  intros H. apply JsStringFacts.stripPrefixCi_inv in H as (p & -> & _).
  rewrite CookiesFacts.allChars_append. intros H.
  now apply andb_true_iff in H as [_ H].
Qed.

Lemma skipSome_allChars (q p : ascii -> bool) (s r : string) :
  skipSome p s = Some r -> allChars q s = true -> allChars q r = true.
Proof.
  unfold skipSome. destruct (0 <? spanLength p s); [|discriminate].
  intros [= <-]. apply sliceFrom_allChars.
Qed.

(** What is left behind a progress marker is part of the text. *)
Lemma noisyKeyword_allChars (q : ascii -> bool) (s r : string) :
  noisyKeyword s = Some r -> allChars q s = true -> allChars q r = true.
Proof.
  intros H Hs. unfold noisyKeyword, orElseMatch, andThenMatch in H.
  repeat match type of H with
  | context [match stripPrefixCi ?lit ?x with _ => _ end] =>
      let E := fresh "E" in let rest := fresh "rest" in let Hr := fresh "Hr" in
      destruct (stripPrefixCi lit x) as [rest|] eqn:E;
      [ assert (Hr : allChars q rest = true)
          by (eapply stripPrefixCi_allChars; [exact E | assumption]) | ]
  | context [match skipSome ?p ?x with _ => _ end] =>
      let E := fresh "E" in let rest := fresh "rest" in let Hr := fresh "Hr" in
      destruct (skipSome p x) as [rest|] eqn:E;
      [ assert (Hr : allChars q rest = true)
          by (eapply skipSome_allChars; [exact E | assumption]) | ]
  end;
  first [ discriminate H
        | injection H as <-; assumption
        | eapply stripPrefixCi_allChars; [exact H | assumption]
        | eapply skipSome_allChars; [exact H | assumption] ].
Qed.

(** No progress marker begins with white space. *)
Lemma noisyKeyword_head (c : ascii) (r : string) :
  isWhiteSpace c = true -> noisyKeyword (String c r) = None.
Proof.
  intros H.
  assert (Hc : forall lit l, charMatchesCi lit c = false ->
                 stripPrefixCi (String lit l) (String c r) = None)
    by (intros lit l E; cbn [stripPrefixCi]; now rewrite E).
  unfold noisyKeyword, orElseMatch, andThenMatch.
  rewrite !Hc; [reflexivity | ..];
    destruct c as [[] [] [] [] [] [] [] []]; try discriminate H; reflexivity.
Qed.

Lemma spanLength_all (p : ascii -> bool) (s : string) :
  allChars p s = true -> spanLength p s = String.length s.
Proof.
  induction s as [|c r IH]; [reflexivity|]. cbn [allChars spanLength String.length].
  intros H. apply andb_true_iff in H as [-> Hr]. now rewrite IH.
Qed.

Lemma sliceFrom_all (s : string) : sliceFrom (String.length s) s = EmptyString.
Proof. induction s as [|c r IH]; [reflexivity | exact IH]. Qed.

Lemma spanLength_before (p : ascii -> bool) (a : string) (c : ascii) (r : string) :
  allChars p a = true -> p c = false ->
  spanLength p (a ++ String c r) = String.length a /\
  sliceFrom (String.length a) (a ++ String c r) = String c r.
Proof.
  intros Ha Hc. induction a as [|x a IH].
  - cbn. now rewrite Hc.
  - cbn [allChars] in Ha. apply andb_true_iff in Ha as [Hx Ha].
    cbn [append spanLength String.length sliceFrom]. rewrite Hx.
    destruct (IH Ha) as [-> ->]. now split.
Qed.

(** A line that begins, behind any white space, with a progress marker is
    matched from the start of the text to its end. *)
Lemma noisyLength_whole (pad line : string) :
  allChars isWhiteSpace pad = true ->
  allChars isPlain line = true ->
  noisyKeyword line <> None ->
  noisyLength None (pad ++ line) = Some (String.length (pad ++ line)).
Proof.
  intros Hpad Hline Hkey.
  destruct (noisyKeyword line) as [rest|] eqn:E; [clear Hkey | congruence].
  destruct line as [|c r]; [discriminate E|].
  assert (Hc : isWhiteSpace c = false).
  { destruct (isWhiteSpace c) eqn:Hc; [|reflexivity].
    rewrite (noisyKeyword_head c r Hc) in E. discriminate E. }
  destruct (spanLength_before isWhiteSpace pad c r Hpad Hc) as [Hspan Hslice].
  assert (Hrest : allChars (fun x => negb (isLineTerminator x)) rest = true).
  { apply (noisyKeyword_allChars _ _ _ E).
    apply (allChars_impl isPlain); [|exact Hline].
    intros x Hx. unfold isPlain in Hx. now apply andb_true_iff in Hx as [Hx _]. }
  unfold noisyLength, noisyLine, orElseMatch, andThenMatch.
  rewrite Hspan, Hslice, E, (spanLength_all _ _ Hrest), sliceFrom_all.
  cbn [String.length]. now rewrite Nat.sub_0_r.
Qed.

(** X30. A chunk that is one line of plain text beginning, behind any white
    space, with one of the progress markers of
    [NOISY_PROGRESS_LINE_RE] is cleaned to the empty string, and
    [#bufferStreamChunk] drops it: the runner is left as it was, with
    nothing buffered for it and no flush scheduled. *)
Theorem progress_line_is_dropped (pad line : string) :
  allChars isWhiteSpace pad = true ->
  allChars isPlain line = true ->
  noisyKeyword line <> None ->
  normalizeStreamChunk (pad ++ line) = EmptyString /\
  forall isoTime t i d r,
    StepRunner.bufferStreamChunk isoTime normalizeStreamChunk t i d (pad ++ line) r = r.
Proof.
  intros Hpad Hline Hkey.
  assert (Hclean : normalizeStreamChunk (pad ++ line) = EmptyString).
  { unfold normalizeStreamChunk.
    destruct (String.eqb (pad ++ line) EmptyString) eqn:Eempty; [reflexivity|].
    set (pad' := replaceAll carriageReturnLength (String LF EmptyString) None 0 pad).
    assert (Hpad' : allChars isWhiteSpace pad' = true)
      by (apply replaceAll_allChars; [reflexivity | exact Hpad]).
    assert (H1 : replaceAll carriageReturnLength (String LF EmptyString) None 0
                   (pad ++ line) = (pad' ++ line)%string).
    { rewrite carriageReturns_append. fold pad'. f_equal.
      apply (replaceAll_unmatched notCarriageReturn).
      - intros previous c r Hc. unfold notCarriageReturn in Hc.
        cbn [carriageReturnLength]. now destruct (Ascii.eqb c CR).
      - apply (allChars_impl isPlain); [|exact Hline].
        intros c Hc. unfold isPlain, isLineTerminator in Hc.
        unfold notCarriageReturn.
        destruct (Ascii.eqb c CR); [|reflexivity].
        now rewrite orb_true_r in Hc. }
    assert (Hescape : allChars (fun c => negb (Ascii.eqb c ESC)) (pad' ++ line) = true).
    { rewrite CookiesFacts.allChars_append. apply andb_true_iff. split.
      - apply (allChars_impl isWhiteSpace); [|exact Hpad'].
        intros c Hc. destruct (Ascii.eqb_spec c ESC) as [-> | _];
          [discriminate Hc | reflexivity].
      - apply (allChars_impl isPlain); [|exact Hline].
        intros c Hc. unfold isPlain in Hc. now apply andb_true_iff in Hc as [_ Hc]. }
    rewrite H1.
    rewrite (replaceAll_unmatched (fun c => negb (Ascii.eqb c ESC)) csiLength);
      [ | | exact Hescape ].
    2:{ intros previous c r Hc. unfold csiLength.
        destruct (Ascii.eqb c ESC); [discriminate Hc | now destruct r]. }
    rewrite (replaceAll_unmatched (fun c => negb (Ascii.eqb c ESC)) oscLength);
      [ | | exact Hescape ].
    2:{ intros previous c r Hc. unfold oscLength.
        destruct (Ascii.eqb c ESC); [discriminate Hc | now destruct r]. }
    pose proof (noisyLength_whole pad' line Hpad' Hline Hkey) as Hwhole.
    destruct (pad' ++ line)%string as [|c r] eqn:Etext.
    - reflexivity.
    - cbn [replaceAll]. rewrite Hwhole. cbn [String.length append].
      rewrite (replaceAll_skipped noisyLength); [reflexivity | apply Nat.le_refl]. }
  split; [exact Hclean|].
  intros isoTime t i d r.
  apply StepRunnerMoreFacts.bufferStreamChunk_dropped. now rewrite Hclean.
Qed.

Lemma progress_line_is_dropped_witness :
  normalizeStreamChunk "  Progress: resolved 12, reused 3, downloaded 0, added 0" =
  EmptyString /\
  forall isoTime t i d r,
    StepRunner.bufferStreamChunk isoTime normalizeStreamChunk t i d
      "  Progress: resolved 12, reused 3, downloaded 0, added 0" r = r.
Proof.
  apply (progress_line_is_dropped "  "
           "Progress: resolved 12, reused 3, downloaded 0, added 0").
  - reflexivity.
  - reflexivity.
  - vm_compute. discriminate.
Defined.

End StreamChunkFacts.
